(* ===== verification/_CoqProject ===== *)
-Q . S2P
Prelude.v
Config.v
BitSet.v
HashCount.v
Encode.v
Hybrid.v
HybridChoice.v
RangeEncode.v
BFilter.v
Db.v
Varint.v
SimdTables.v
SimdCodec.v
SimdTree.v
Codec.v
DeltaEncode.v
KCore.v
DegreeOrder.v
RangeVend.v
RangeBuild.v
DirectedHybrid.v
HashEncodes.v
Compression.v
RangeCom.v
DeltaVend.v
DirectedSimd.v
Graph.v
VendFactory.v
PairList.v
Text.v
Vends.v
Execution.v
Exact.v
Updates.v
LargeGraph.v
Measure.v
Scores.v
Main.v
