(* ===== verification/Prelude.v ===== *)
(** VEND: neighbor tests on large graphs by a small code per vertex.

    The program loads an undirected or directed graph into a database, builds one
    of some twenty encodings of it and then answers "are these two vertices
    neighbors?" from the encoding alone whenever the encoding is certain, and from
    the lists otherwise. This development models the program from the bits of one
    vector up to [main], and proves that a certain answer is never wrong for the
    encodings that keep that promise; where the code does not keep it, a theorem or
    an evaluated [Example] says so.

    This file is the prelude: machine integers, checked access to arrays, loops,
    and the lemmas on lists that the components share.

    * The program and its files

    - [Config]: the globals and what [InitCommonVariables] and [InitHashConfig]
      derive ([common/config.cpp], [common/hash_config.cpp]), doubles included.
    - The state of one vertex. [BitSet]: the bit vector and its SSE searches
      ([util/bitset_simd.h]). [Encode]: the array of vectors, its file
      ([encode/encode.h], [encode/single/encode_bitset.h]). [HashCount]: the
      counters with which a layout is chosen ([encode/hash_count.{h,cpp}]).
    - The encodings of one list in one vector. [Hybrid]
      ([encode/single/hybrid_encode.{h,cpp}]), [HybridChoice] (how it chooses the
      layout of a list, against a reference definition), [RangeEncode]
      ([encode/single/range_encode.{h,cpp}]), [HashEncodes] (bit hash, Bloom,
      count), [Compression] and [RangeCom] (compressed range), [Varint],
      [SimdTables], [SimdCodec], [SimdTree], [Codec] and [DeltaEncode] (the SIMD
      delta codecs of [encode/codec/] and the encodings of [encode/SIMD/] over
      them), and of a pair of lists: [DirectedHybrid], [DirectedSimd].
    - [BFilter]: the filters of all edges ([encode/bfilter/]).
    - The builders, which decide what is encoded when. [KCore]: the peeling of
      the SIMD and compressed builders, used by [DeltaVend], [RangeCom] and
      [DirectedSimd]. [DegreeOrder]: the array ordered by degree, used by
      [RangeVend], which [RangeBuild] and [HashEncodes] instantiate, and by
      [DirectedHybrid] ([vend/*.cpp], [include/vend/*.h]).
    - The graph. [Db]: the operations of [dbengine/rocksdb.cpp] over a store.
      [Graph]: adjacency lists, data file, updates of the database
      ([graph/graph.{h,cpp}], [graph/large_graph.cpp], [util/utils.h]).
    - The runs. [VendFactory]: encodings by name. [Vends]: every class of
      encodings behind the methods of [vend/vend.h]. [PairList]: lists of pairs on
      file and how they are drawn. [Execution]: [Graph::Init] and the runs that
      build, query, insert and delete. [Exact]: the promise [ExactLaws] of
      the encodings that take updates, which edges each of them stores after an
      insertion or a deletion. [Updates]: the abstract graph under insertions and
      deletions, and what the program answers for it. [LargeGraph]: the insertions
      of a graph whose lists are in the database alone ([graph/large_graph.cpp]).
      [Scores]: the runs that score. [Main]: options, tasks and the files that they share ([main.cpp]).
    - [Text]: the characters of data files and of encoding files, which the rest
      takes as pairs and numbers. [Measure]: the timer, the memory of the process
      and what prints it ([util/timer.h], [util/utils.h],
      [execution/memory_test.h]).

    A definition has the name of the method it models with its class before it
    ([HybridEncode_EncodeVertex] is [HybridEncode::EncodeVertex]); a definition
    without a class is a loop body or a helper of the one that uses it.

    * How the code is modelled

    Every operation is an executable function. An operation of the source that can
    go wrong, by an access out of range, a failed [assert], an exception or a null
    pointer, returns an [option] and is then [None]; that an operation returns is
    thus a theorem, and never an assumption. The state is passed explicitly; the
    aliasing that matters (the vectors that one decoder reads through pointers, the
    vector that [DbInsert] uses twice) is written out. Integers keep their width
    ([u8], [u16], [u32], [u64], [s32]).

    Loops have the structure of the source. A loop that is not structural has fuel
    and is [None] without it, so that the theorems that an operation returns also
    say that the fuel given is enough. The fuel is the length of what a loop walks
    over: the bits or words of a vector, the elements of a list, the bytes that are
    left; in the peeling, where a round that changes something filters a vertex, it
    is more than the number of vertices. A loop over random numbers consumes a
    stream of them: it is [None] when the stream runs out, and the theorems say when
    it does not.

    What the source leaves open is a parameter of the definitions, and the theorems
    hold for all of its values: the order in which an [unordered_set] is iterated,
    the order that [std::sort] gives to equal keys, the bytes behind a vector that
    a 16-byte load reads, the contents of uninitialised variables, the numbers of
    the random engines and the shuffled orders. The RocksDB library is the class
    [Store] of [Db] with the laws [StoreLaws] of a finite map; [gmap] is an
    instance.

    The interfaces between the parts are classes: [DeltaOps] and the laws of [Codec]
    between the SIMD encodings and their codecs, [BuildLaws] between the order by
    degree and what is done with a vertex, [TestLaws] between a builder and the test
    of a pair, [VendOps] with [VendLaws] and [ExactLaws] between an encoding and the
    graph that owns it.

    The macros have the values of [config.h]: UNDIRECTED, IN_MEMORY, SAVE_ENCODE and
    SAVE_LIST are 1, VERIFY, VARY_K, THRESHOLD and MULTI_THREAD are 0; IS_LARGE is
    false.

    * What is proved

    - The program. [Main.main_session]: three calls of [main] on an empty database
      (build, store, query) end and report the true number of edges for every type
      that is not skipped, when these are types that are sound for the graph.
      [Main.main_updates]: so do the calls that build, store, insert and delete,
      and the last leaves nothing of what it did on disk. [Updates.Updates_refine]
      and [Update_runs]: for the counting filter, the plain and the blocked Bloom
      filter and the bits of the larger neighbors, a graph that was built from a
      data file answers, after insertions and deletions, every pair as if it was
      built from the edges of the abstract graph, and so it does after the runs
      that insert and delete. What a deletion does to the abstract graph is what
      the code does: the counting filter loses the edge, a Bloom filter returns to
      the edges of the file, and the bits of the smaller end to those of the file
      but the edge. [LargeGraph.LargeGraph_refine]: without
      lists in memory the answers after insertions are those of the graph with
      lists. [Execution.Query_pipeline]: build and
      query runs, with all the counters. [Main.main_scores_null]: no call that scores ends well.
      [Scores.scores_count], [PairList.Query_list],
      [PairList.RandomCreate_sets], [PairList.PairList_save_load]: what the scores
      count, which lists are made and when the loops that make them end, and that
      they are read as they were written.
    - The files. [Text.LoadData_text]: the characters of a data file give the
      lists of its graph. [Text.Encode_text], [Text.Filter_text]: what the
      encodings write is read as what it was; over numbers this is
      [Encode.Encode_save_load]. [Measure.timed_run_equiv]: the timer of a run
      changes nothing and its assertions hold. [Measure.getMemory_reads]: the
      memory that the status file names is found.
    - The builders. [DeltaVend.DeltaBuildEncoding_sound], [..._core] and
      [..._codes], [DirectedSimd.DirBuildEncoding_sound],
      [RangeCom.RangeCompBuildEncoding_sound],
      [RangeBuild.RangeBuildEncoding_sound] and [HybridBuildEncoding_sound],
      [HashEncodes.BloomBuildEncoding_sound],
      [DirectedHybrid.DirHybridBuildEncoding_sound]: the builder returns, for
      every order of its sets, and every later test of a pair is defined and never
      wrong where it is certain. The builders by degrees need a graph in which
      the degrees occur up to one that no code holds whole: without such a degree
      they read out of range ([RangeVend.RangeVend_small_degrees]).
    - The encodings. The code of a list and the test against it
      ([Hybrid.EncodeVertex_sound], [NEpairTest_sound], [NEpairTest_decoded],
      [DeltaEncode.DeltaNEpairTest_sound], [HashEncodes.BitHash_no_false_negative],
      [RangeEncode.RangeEncode_insert], [RangeEncode_delete]); the filters under insertions and deletions
      ([BFilter.BFilter_no_false_negative], [IntFilter_invariant]); the choice of
      the layout, with counters that slide along the list, finds what counting
      every block anew finds ([HybridChoice.DynamicChoose_reference]).
    - The codecs. Round trips, lengths and searches in the code
      ([Varint.Varint_roundtrip], [Varint_undirect], [SimdCodec.Simd_lengths],
      [Simd_search], [SimdTree.V3_search], [Compression.Vbyte_Encode_found],
      [BitSet.BlockSet_BlockGet], [BlockFind_BlockFindSIMD],
      [Config.config_layout]).
    - The graph. [Graph.Graph_LoadData_throws], [Graph_save_load],
      [Graph_DbInsert_lists], [Graph_DbDelete_lists], [binary_erase_sorted].
    - The behaviours that surprise are [Example]s at the end of their files.

    The types for which no soundness is claimed are Count, CBloomFilter, RangeBits
    and RangeVbyte, of which [HashEncodes], [BFilter] and [RangeCom] show inputs on
    which the code denies an edge or reads out of range, and SIMDDeltaV3, whose
    codec is verified for lists of up to twenty ids and is wrong beyond.
    HybridDelta has no object: its constructor calls a method of a null pointer.

    * What is not modelled

    - Third-party code: [util/json.cpp] (included and not used), the parser of the
      command line, logging, the test framework, the RocksDB library; opening and
      closing the database and its options.
    - Percentages, the conversion of times to seconds and everything else that is
      only printed.
    - The branches that the macros above exclude; the files that no file includes
      ([common/config.gsh.h]) or that are commented out ([util/bitset.h],
      [encode/single/hybrid_delta_encode.{h,cpp}], the first half of
      [vend/range_vend.cpp]).
    - Failures of the storage; the standard library below its specification
      (containers, streams, [sscanf], the random engines).

    No abstract graph is claimed to be refined by the updates of the hybrid, the
    range and the SIMD encodings: the examples at the ends of [Hybrid],
    [RangeEncode], [RangeCom], [DirectedHybrid], [HashEncodes] and [Updates] show
    that they lose edges. The builders by degrees that read the database do not
    advance the id ([RangeBuild.database_denied]). The tree-searched codec is wrong
    beyond twenty ids ([SimdTree]). *)
From Stdlib Require Export ZArith Lia List.
From stdpp Require Export base numbers list option sorting sets gmap.
From stdpp Require Import options.

#[export] Set Default Goal Selector "1".
Declare Scope vend_scope.
Delimit Scope vend_scope with vend.
Local Open Scope Z_scope.

(** * Machine-width integers

    A [uint8_t], [uint32_t] or [uint64_t] / [size_t] of the source is an
    integer in range; every operation that can leave the range is wrapped. *)

Definition u8 (x : Z) : Z := x mod 2 ^ 8.
Definition u16 (x : Z) : Z := x mod 2 ^ 16.
Definition u32 (x : Z) : Z := x mod 2 ^ 32.
Definition u64 (x : Z) : Z := x mod 2 ^ 64.

(** The two's complement reading of a 32-bit pattern ([int], and the lanes of
    the signed SSE comparison). *)
Definition s32 (x : Z) : Z := if u32 x <? 2 ^ 31 then u32 x else u32 x - 2 ^ 32.

Lemma u8_small x : 0 <= x < 2 ^ 8 -> u8 x = x.
Proof. apply Z.mod_small. Qed.
Lemma u16_small x : 0 <= x < 2 ^ 16 -> u16 x = x.
Proof. apply Z.mod_small. Qed.
Lemma u32_small x : 0 <= x < 2 ^ 32 -> u32 x = x.
Proof. apply Z.mod_small. Qed.
Lemma u64_small x : 0 <= x < 2 ^ 64 -> u64 x = x.
Proof. apply Z.mod_small. Qed.
Lemma u8_bound x : 0 <= u8 x < 2 ^ 8.
Proof. apply Z.mod_pos_bound. lia. Qed.
Lemma u32_bound x : 0 <= u32 x < 2 ^ 32.
Proof. apply Z.mod_pos_bound. lia. Qed.
Lemma s32_small x : 0 <= x < 2 ^ 31 -> s32 x = x.
Proof.
  intros Hx. unfold s32. rewrite u32_small by lia.
  by destruct (Z.ltb_spec x (2 ^ 31)); lia.
Qed.

(** * Undefined behaviour as [None]

    A step of the modelled code is a function into [option]: [None] stands for
    undefined behaviour (an index outside an array, a shift by the operand's
    width or more, a division by zero), for a failed [assert], and for nothing
    else. *)

Definition guardb (b : bool) : option unit := if b then Some () else None.

(** Array read and write at a [Z] index; both are undefined outside. *)
Definition zget {A} (l : list A) (i : Z) : option A :=
  if (0 <=? i) && (i <? Z.of_nat (length l)) then l !! Z.to_nat i else None.

Definition zset {A} (l : list A) (i : Z) (x : A) : option (list A) :=
  if (0 <=? i) && (i <? Z.of_nat (length l))
  then Some (<[Z.to_nat i := x]> l) else None.

(** Integer division and remainder of the source, undefined at zero. *)
Definition udiv (a b : Z) : option Z := if b =? 0 then None else Some (a / b).
Definition umod (a b : Z) : option Z := if b =? 0 then None else Some (a mod b).

(** A counted loop [for (i = lo; i < lo + n; ++i)] and a loop over a list. *)
Fixpoint for_loop {S} (n : nat) (lo : Z) (f : Z -> S -> option S) (s : S) : option S :=
  match n with
  | O => Some s
  | Datatypes.S n' => f lo s ≫= for_loop n' (lo + 1) f
  end.

Fixpoint foldM {A S} (f : A -> S -> option S) (l : list A) (s : S) : option S :=
  match l with
  | [] => Some s
  | x :: l' => f x s ≫= foldM f l'
  end.

Section arrays.
Context {A : Type}.
Implicit Types (l : list A) (i j : Z) (x : A).

Lemma zget_Some_inv l i x :
  zget l i = Some x -> 0 <= i < Z.of_nat (length l) /\ l !! Z.to_nat i = Some x.
Proof.
  unfold zget. destruct (Z.leb_spec 0 i); [|done].
  destruct (Z.ltb_spec i (Z.of_nat (length l))); [|done]. done.
Qed.

Lemma zget_lookup l i : 0 <= i -> zget l i = l !! Z.to_nat i.
Proof.
  intros Hi. unfold zget. rewrite (proj2 (Z.leb_le _ _) Hi); simpl.
  destruct (Z.ltb_spec i (Z.of_nat (length l))); [done|].
  symmetry. apply lookup_ge_None. lia.
Qed.

Lemma zget_nth d l i : 0 <= i < Z.of_nat (length l) -> zget l i = Some (nth (Z.to_nat i) l d).
Proof.
  intros Hi. rewrite zget_lookup by lia.
  destruct (lookup_lt_is_Some_2 l (Z.to_nat i)) as [x Hx]; [lia|].
  rewrite Hx. f_equal. symmetry. apply nth_lookup_Some with (1 := Hx).
Qed.

Lemma zget_is_Some l i : 0 <= i < Z.of_nat (length l) -> exists x, zget l i = Some x.
Proof.
  intros Hi. rewrite zget_lookup by lia.
  destruct (lookup_lt_is_Some_2 l (Z.to_nat i)) as [x Hx]; [lia|]. eauto.
Qed.

Lemma zset_Some l i x :
  0 <= i < Z.of_nat (length l) -> zset l i x = Some (<[Z.to_nat i := x]> l).
Proof.
  intros Hi. unfold zset. rewrite (proj2 (Z.leb_le _ _)), (proj2 (Z.ltb_lt _ _)) by lia. done.
Qed.

Lemma zget_list_eq l l' :
  length l = length l' -> (forall i, 0 <= i < Z.of_nat (length l) -> zget l i = zget l' i) -> l = l'.
Proof.
  intros Hl He. apply list_eq. intros i. destruct (decide (i < length l)%nat) as [Hi|Hi]; [|by rewrite !lookup_ge_None_2 by lia].
  specialize (He (Z.of_nat i) ltac:(lia)). by rewrite !zget_lookup, !Nat2Z.id in He by lia.
Qed.

Lemma mapM_zget_all l : mapM (fun i => zget l i) (seqZ 0 (Z.of_nat (length l))) = Some l.
Proof.
  apply mapM_Some_2, Forall2_same_length_lookup_2; [rewrite length_seqZ; lia|].
  intros i x y [-> Hi]%lookup_seqZ Hy. rewrite zget_lookup by lia. by replace (Z.to_nat (0 + Z.of_nat i)) with i by lia.
Qed.

Lemma zset_Some_inv l i x l' :
  zset l i x = Some l' ->
  0 <= i < Z.of_nat (length l) /\ l' = <[Z.to_nat i := x]> l.
Proof.
  unfold zset. destruct (Z.leb_spec 0 i); [|done].
  destruct (Z.ltb_spec i (Z.of_nat (length l))); simpl; [|done]. naive_solver.
Qed.

Lemma zset_length l i x l' : zset l i x = Some l' -> length l' = length l.
Proof. intros [_ ->]%zset_Some_inv. apply length_insert. Qed.

Lemma zget_zset l i j x l' :
  zset l i x = Some l' -> zget l' j = if j =? i then Some x else zget l j.
Proof.
  intros [Hi ->]%zset_Some_inv. unfold zget. rewrite length_insert.
  destruct (Z.eqb_spec j i) as [->|Hne].
  - rewrite (proj2 (Z.leb_le _ _)), (proj2 (Z.ltb_lt _ _)) by lia. simpl.
    apply list_lookup_insert_eq. lia.
  - destruct (Z.leb_spec 0 j); simpl; [|done].
    destruct (Z.ltb_spec j (Z.of_nat (length l))); [|done].
    apply list_lookup_insert_ne. lia.
Qed.
End arrays.

Lemma nth_insert {A} (l : list A) (i j : nat) (x d : A) :
  (i < length l)%nat -> nth j (<[i := x]> l) d = if decide (i = j) then x else nth j l d.
Proof.
  intros Hi. rewrite !nth_lookup. case_decide as E.
  - subst. by rewrite list_lookup_insert_eq.
  - by rewrite list_lookup_insert_ne.
Qed.

Lemma foldM_app {A S} (f : A -> S -> option S) l1 l2 s :
  foldM f (l1 ++ l2) s = foldM f l1 s ≫= foldM f l2.
Proof.
  revert s. induction l1 as [|x l1 IH]; intros s; simpl; [done|].
  destruct (f x s); simpl; [apply IH|done].
Qed.

Lemma foldM_ext {A S} (f g : A -> S -> option S) l s :
  (forall x s, x ∈ l -> f x s = g x s) -> foldM f l s = foldM g l s.
Proof.
  revert s. induction l as [|x l IH]; intros s Hfg; [done|]. cbn [foldM]. rewrite Hfg by left.
  destruct (g x s) as [s'|]; [|done]. apply IH. intros y s'' Hy. apply Hfg. by right.
Qed.

Lemma foldM_flat_map {A B S} (f : B -> S -> option S) (g : A -> list B) l s :
  foldM f (flat_map g l) s = foldM (fun x => foldM f (g x)) l s.
Proof.
  revert s. induction l as [|x l IH]; intros s; [done|]. cbn [flat_map]. rewrite foldM_app. cbn [foldM].
  destruct (foldM f (g x) s) as [s'|]; [apply IH|done].
Qed.

(** A counting loop is a loop over the list of its indices. *)
Lemma for_loop_foldM {S} (f : Z -> S -> option S) n lo s : for_loop n lo f s = foldM f (seqZ lo (Z.of_nat n)) s.
Proof.
  revert lo s. induction n as [|n IH]; intros lo s; [done|]. rewrite Nat2Z.inj_succ, seqZ_cons by lia. cbn [for_loop foldM].
  destruct (f lo s) as [s'|]; [|done]. cbn [mbind option_bind]. rewrite IH. by replace (Z.succ lo) with (lo + 1) by lia; replace (Z.pred (Z.succ (Z.of_nat n))) with (Z.of_nat n) by lia.
Qed.

(** Rule of a list loop: an invariant on the processed prefix. *)
Lemma foldM_inv {A S} (P : list A -> S -> Prop) (f : A -> S -> option S) l s :
  P [] s ->
  (forall pre x post s', l = pre ++ x :: post -> P pre s' ->
     exists s'', f x s' = Some s'' /\ P (pre ++ [x]) s'') ->
  exists s', foldM f l s = Some s' /\ P l s'.
Proof.
  intros H0 Hstep.
  cut (forall post pre s', l = pre ++ post -> P pre s' ->
         exists s'', foldM f post s' = Some s'' /\ P l s'').
  { intros Hc. exact (Hc l [] s eq_refl H0). }
  induction post as [|x post IH]; intros pre s' Hl HP; simpl.
  - rewrite app_nil_r in Hl. subst. eauto.
  - destruct (Hstep pre x post s' Hl HP) as (s'' & -> & HP'). simpl.
    apply (IH (pre ++ [x])); [|done]. by rewrite <- app_assoc.
Qed.

(** Rule of a counted loop. *)
Lemma for_loop_inv {S} (P : Z -> S -> Prop) (f : Z -> S -> option S) n lo s :
  P lo s ->
  (forall i s', lo <= i < lo + Z.of_nat n -> P i s' ->
     exists s'', f i s' = Some s'' /\ P (i + 1) s'') ->
  exists s', for_loop n lo f s = Some s' /\ P (lo + Z.of_nat n) s'.
Proof.
  revert lo s. induction n as [|n IH]; intros lo s H0 Hstep; simpl.
  - exists s. by rewrite Z.add_0_r.
  - destruct (Hstep lo s) as (s' & -> & HP); [lia|done|]. simpl.
    destruct (IH (lo + 1) s') as (s'' & -> & HP''); [done| |].
    + intros i s1 Hi. apply Hstep. lia.
    + exists s''. split; [done|]. by replace (lo + Z.of_nat (Datatypes.S n)) with (lo + 1 + Z.of_nat n) by lia.
Qed.

(** What every turn that returns keeps. *)
Lemma for_loop_ext {S} (f g : Z -> S -> option S) n lo s : (forall i s, f i s = g i s) -> for_loop n lo f s = for_loop n lo g s.
Proof.
  intros Hfg. revert lo s. induction n as [|n IH]; intros lo s; [done|]. cbn [for_loop]. rewrite Hfg. destruct (g lo s); [apply IH|done].
Qed.

Lemma for_loop_keeps {S} (P : S -> Prop) (f : Z -> S -> option S) n lo s s' :
  P s -> (forall i s1 s2, P s1 -> f i s1 = Some s2 -> P s2) -> for_loop n lo f s = Some s' -> P s'.
Proof.
  intros H0 Hstep. revert lo s H0. induction n as [|n IH]; intros lo s H0; cbn [for_loop].
  - by intros [= <-].
  - destruct (f lo s) as [s1|] eqn:E; [|done]. cbn. apply IH. by eapply Hstep.
Qed.

(** A range of an array, split out of it. *)
Lemma split_at {A} (l : list A) off (n : nat) :
  0 <= off -> off + Z.of_nat n <= Z.of_nat (length l) ->
  exists pre mid post, l = pre ++ mid ++ post /\ Z.of_nat (length pre) = off /\ length mid = n.
Proof.
  intros Ho Hn. exists (take (Z.to_nat off) l), (take n (drop (Z.to_nat off) l)), (drop n (drop (Z.to_nat off) l)).
  rewrite !take_drop, !length_take, !length_drop. split; [done|]. lia.
Qed.

Lemma zget_middle {A} (pre mid post : list A) k x :
  mid !! k = Some x -> zget (pre ++ mid ++ post) (Z.of_nat (length pre) + Z.of_nat k) = Some x.
Proof.
  intros Hk. rewrite zget_lookup by lia.
  replace (Z.to_nat _) with (length pre + k)%nat by lia. rewrite lookup_app_r by lia.
  replace (length pre + k - length pre)%nat with k by lia. by apply lookup_app_l_Some.
Qed.

Lemma zget_frame {A} (pre mid mid' post : list A) a :
  length mid = length mid' -> ~ (Z.of_nat (length pre) <= a < Z.of_nat (length pre) + Z.of_nat (length mid)) ->
  zget (pre ++ mid ++ post) a = zget (pre ++ mid' ++ post) a.
Proof.
  intros Hl Ha. unfold zget. rewrite !length_app, Hl.
  destruct ((0 <=? a) && (a <? Z.of_nat (length pre + (length mid' + length post)))) eqn:E; [|done].
  apply andb_true_iff in E as [E1 E2]. apply Z.leb_le in E1.
  destruct (decide (Z.to_nat a < length pre)%nat).
  - by rewrite !lookup_app_l by lia.
  - rewrite (lookup_app_r pre (mid ++ post)), (lookup_app_r pre (mid' ++ post)) by lia.
    by rewrite !lookup_app_r, Hl by lia.
Qed.

(** * Bits

    [bitwise] proves an equality between integers bit by bit; the rewriting
    base [vend_bits] says what each operator does to a bit. *)

Create Rewrite HintDb vend_bits.

Lemma testbit_u8 x k : Z.testbit (u8 x) k = (k <? 8) && Z.testbit x k.
Proof.
  unfold u8. destruct (Z.ltb_spec k 8); simpl.
  - by apply Z.mod_pow2_bits_low.
  - apply Z.mod_pow2_bits_high. lia.
Qed.

Lemma testbit_u32 x k : Z.testbit (u32 x) k = (k <? 32) && Z.testbit x k.
Proof.
  unfold u32. destruct (Z.ltb_spec k 32); simpl.
  - by apply Z.mod_pow2_bits_low.
  - apply Z.mod_pow2_bits_high. lia.
Qed.

Lemma testbit_shiftl x n k :
  Z.testbit (Z.shiftl x n) k = (0 <=? k) && Z.testbit x (k - n).
Proof.
  destruct (Z.leb_spec 0 k); simpl.
  - by apply Z.shiftl_spec.
  - apply Z.testbit_neg_r. lia.
Qed.

Lemma testbit_shiftr x n k :
  Z.testbit (Z.shiftr x n) k = (0 <=? k) && Z.testbit x (k + n).
Proof.
  destruct (Z.leb_spec 0 k); simpl.
  - by apply Z.shiftr_spec.
  - apply Z.testbit_neg_r. lia.
Qed.

Lemma testbit_above x n k : 0 <= x < 2 ^ n -> n <= k -> Z.testbit x k = false.
Proof.
  intros Hx Hk. destruct (Z.ltb_spec n 0).
  { rewrite Z.pow_neg_r in Hx by lia. lia. }
  rewrite <- (Z.mod_small x (2 ^ n)) by lia. apply Z.mod_pow2_bits_high. lia.
Qed.

Lemma lor_low v x n : 0 <= v < 2 ^ n -> 0 <= n -> Z.lor v (Z.shiftl x n) = v + x * 2 ^ n.
Proof.
  intros Hv Hn. rewrite <- Z.shiftl_mul_pow2 by done.
  assert (Z.land v (Z.shiftl x n) = 0) as H0.
  { apply Z.bits_inj'. intros k Hk. rewrite Z.land_spec, testbit_shiftl, Z.bits_0.
    destruct (Z.ltb_spec k n); [rewrite (Z.testbit_neg_r x) by lia; by rewrite !andb_false_r|].
    by rewrite (testbit_above v n k Hv) by lia. }
  rewrite <- Z.lxor_lor by done. by rewrite Z.add_nocarry_lxor.
Qed.

#[export] Hint Rewrite testbit_u8 testbit_u32 testbit_shiftl testbit_shiftr
  Z.land_spec Z.lor_spec Z.lxor_spec Z.bits_0 : vend_bits.

(** Splits on every comparison of the goal. *)
Ltac split_ltb :=
  repeat match goal with
  | |- context [?a <? ?b] => destruct (Z.ltb_spec a b)
  | |- context [?a <=? ?b] => destruct (Z.leb_spec a b)
  | |- context [?a =? ?b] => destruct (Z.eqb_spec a b)
  end; simpl.

(** Closes a goal about the bits of a value known to be small. *)
Ltac bit_small :=
  match goal with
  | H : 0 <= ?x < 2 ^ ?n |- context [Z.testbit ?x ?k] =>
      rewrite (testbit_above x n k H) by lia
  end.

(** One step of the option monad, nothing else unfolded. *)
Ltac bind_step := cbn [mbind option_bind].

(** Inverts one step of the option monad in a hypothesis. *)
Ltac inv_bind H :=
  match type of H with
  | mbind _ ?m = Some _ =>
      let E := fresh "E" in
      destruct m eqn:E; simpl in H; [|discriminate H]
  end.

(** Decides a boolean property of all the integers below a constant. *)
Lemma forall_below (n : Z) (P : Z -> bool) :
  forallb P (map Z.of_nat (seq 0 (Z.to_nat n))) = true ->
  forall x, 0 <= x < n -> P x = true.
Proof.
  intros H x Hx. rewrite forallb_forall in H. apply H.
  apply in_map_iff. exists (Z.to_nat x). split; [lia|]. apply in_seq. lia.
Qed.

(** * Big-endian numbers

    [be_bits f q n] is the number whose [n] bits are [f q], [f (q + 1)], ...,
    the most significant first. *)

Fixpoint be_bits (f : Z -> bool) (q : Z) (n : nat) : Z :=
  match n with
  | O => 0
  | S n' => 2 * be_bits f q n' + Z.b2z (f (q + Z.of_nat n'))
  end.

Lemma be_bits_bound f q n : 0 <= be_bits f q n < 2 ^ Z.of_nat n.
Proof.
  induction n as [|n IH]; simpl be_bits; [lia|].
  rewrite Nat2Z.inj_succ, Z.pow_succ_r by lia. destruct (f _); simpl; lia.
Qed.

Lemma be_bits_ext f g q n :
  (forall i, q <= i < q + Z.of_nat n -> f i = g i) -> be_bits f q n = be_bits g q n.
Proof.
  induction n as [|n IH]; intros H; simpl; [done|].
  rewrite IH, (H (q + Z.of_nat n)) by (intros; try apply H; lia). done.
Qed.

Lemma be_bits_app f q a b :
  be_bits f q (a + b) = be_bits f q a * 2 ^ Z.of_nat b + be_bits f (q + Z.of_nat a) b.
Proof.
  induction b as [|b IH].
  - rewrite Nat.add_0_r. simpl be_bits. lia.
  - rewrite Nat.add_succ_r. simpl be_bits. rewrite IH, !Nat2Z.inj_succ, Z.pow_succ_r by lia.
    replace (q + Z.of_nat (a + b)) with (q + Z.of_nat a + Z.of_nat b) by lia. ring.
Qed.

Lemma be_bits_shift f q c n : be_bits (fun i => f (i + c)) q n = be_bits f (q + c) n.
Proof.
  induction n as [|n IH]; simpl; [done|]. rewrite IH. do 3 f_equal. lia.
Qed.

Lemma be_bits_eq f q n v :
  0 <= v < 2 ^ Z.of_nat n ->
  (forall k, 0 <= k < Z.of_nat n -> f (q + k) = Z.testbit v (Z.of_nat n - 1 - k)) ->
  be_bits f q n = v.
Proof.
  revert v. induction n as [|n IH]; intros v Hv H; simpl be_bits; [simpl in Hv; lia|].
  rewrite Nat2Z.inj_succ, Z.pow_succ_r in Hv by lia.
  rewrite (IH (v / 2)).
  - rewrite (H (Z.of_nat n)) by lia.
    replace (Z.of_nat (S n) - 1 - Z.of_nat n) with 0 by lia.
    rewrite Z.bit0_mod. pose proof (Z.div_mod v 2). lia.
  - pose proof (Z.div_mod v 2). pose proof (Z.mod_pos_bound v 2). lia.
  - intros k Hk. rewrite H by lia. change (v / 2) with (v / 2 ^ 1).
    rewrite Z.div_pow2_bits by lia. f_equal. lia.
Qed.

Lemma be_bits_testbit f q n k :
  0 <= k < Z.of_nat n -> Z.testbit (be_bits f q n) (Z.of_nat n - 1 - k) = f (q + k).
Proof.
  induction n as [|n IH]; intros Hk; simpl be_bits; [lia|].
  destruct (decide (k = Z.of_nat n)) as [->|Hne].
  - replace (Z.of_nat (S n) - 1 - Z.of_nat n) with 0 by lia.
    rewrite Z.add_comm, Z.add_b2z_double_bit0. done.
  - replace (Z.of_nat (S n) - 1 - k) with (Z.succ (Z.of_nat n - 1 - k)) by lia.
    rewrite Z.testbit_succ_r by lia. apply IH. lia.
Qed.

(** * Lists: searching, erasing, sorting *)

(** [std::find] and [erase]: the list without the first occurrence. *)
Fixpoint erase_first (x : Z) (l : list Z) : option (list Z) :=
  match l with
  | [] => None
  | y :: l => if y =? x then Some l else l' ← erase_first x l; Some (y :: l')
  end.

Lemma erase_first_spec x l :
  NoDup l ->
  match erase_first x l with
  | Some l' => x ∈ l /\ NoDup l' /\ forall y, y ∈ l' <-> y ∈ l /\ y <> x
  | None => x ∉ l
  end.
Proof.
  induction 1 as [|y l Hy Hl IH]; cbn [erase_first]; [apply not_elem_of_nil|].
  destruct (Z.eqb_spec y x) as [->|Hne].
  - split; [by left|]. split; [done|]. intros y. rewrite elem_of_cons. split; [intros Hin|tauto].
    split; [by right|]. by intros ->.
  - destruct (erase_first x l) as [l'|].
    + destruct IH as (Hin & Hnd & Hel). split; [by right|]. split.
      * constructor; [|done]. intros [? _]%Hel. done.
      * intros z. rewrite !elem_of_cons, Hel. split; [|tauto]. intros [->|[? ?]]; [by split; [left|]|tauto].
    + apply not_elem_of_cons. by split.
Qed.

Lemma erase_first_keeps x l l' y : erase_first x l = Some l' -> y ∈ l -> y <> x -> y ∈ l'.
Proof.
  revert l'. induction l as [|z l IH]; intros l' H; cbn [erase_first] in H; [done|]. rewrite elem_of_cons. intros Hy Hne.
  destruct (Z.eqb_spec z x) as [->|Hzx]; [injection H as <-; by destruct Hy|].
  destruct (erase_first x l) as [m|]; [|done]. injection H as <-. rewrite elem_of_cons. destruct Hy as [->|Hy]; [by left|right; by apply IH].
Qed.

(** Sorting a list without duplicates. *)
Lemma sort_strict l : NoDup l -> StronglySorted Z.lt (merge_sort Z.le l).
Proof.
  intros Hnd. pose proof (StronglySorted_merge_sort Z.le l) as Hs.
  assert (NoDup (merge_sort Z.le l)) as Hn by (by rewrite merge_sort_Permutation). revert Hs Hn.
  generalize (merge_sort Z.le l). clear. induction 1 as [|x l Hs IH Hx]; [constructor|].
  intros [Hnx Hn]%NoDup_cons. constructor; [by apply IH|]. apply Forall_forall. intros y Hy.
  pose proof (proj1 (Forall_forall _ _) Hx y Hy). assert (x <> y) by (intros ->; done). lia.
Qed.

(** A sorted list has no element twice, and is the only one of its elements. *)
Lemma sorted_lt_nodup (l : list Z) : StronglySorted Z.lt l -> NoDup l.
Proof.
  induction 1 as [|x l Hl IH Hx]; constructor; [|done]. intros Hin.
  pose proof (proj1 (Forall_forall _ _) Hx x Hin). simpl in *. lia.
Qed.

Lemma sorted_lt_unique (l l' : list Z) :
  StronglySorted Z.lt l -> StronglySorted Z.lt l' -> (forall x, x ∈ l <-> x ∈ l') -> l = l'.
Proof.
  intros Hl Hl' Hel. apply (StronglySorted_unique_strong Z.lt); [intros; lia|done..|].
  apply NoDup_Permutation; auto using sorted_lt_nodup.
Qed.

Lemma sorted_lookup l i j x y :
  StronglySorted Z.lt l -> l !! i = Some x -> l !! j = Some y -> (i < j)%nat -> x < y.
Proof.
  intros Hs. revert i j. induction Hs as [|z l Hs IH Hz]; intros i j Hi Hj Hij; [done|].
  destruct i as [|i], j as [|j]; [lia| |lia|].
  - injection Hi as ->. cbn in Hj. by apply (proj1 (Forall_forall _ _) Hz), (list_elem_of_lookup_2 _ j).
  - apply (IH i j); [done..|lia].
Qed.

Lemma sorted_zget l i j x y :
  StronglySorted Z.lt l -> zget l i = Some x -> zget l j = Some y -> i < j -> x < y.
Proof.
  intros Hs [Hi Hx]%zget_Some_inv [Hj Hy]%zget_Some_inv Hij.
  apply (sorted_lookup l (Z.to_nat i) (Z.to_nat j)); (done || lia).
Qed.

Lemma zget_elem (l : list Z) i x : zget l i = Some x -> x ∈ l.
Proof. intros [_ H]%zget_Some_inv. by eapply list_elem_of_lookup_2. Qed.

Lemma elem_zget (l : list Z) x : x ∈ l -> exists i, zget l i = Some x /\ 0 <= i < Z.of_nat (length l).
Proof.
  intros [i Hi]%list_elem_of_lookup_1. exists (Z.of_nat i). pose proof (lookup_lt_Some _ _ _ Hi).
  rewrite zget_lookup by lia. rewrite Nat2Z.id. split; [done|lia].
Qed.

