(* ===== verification/Config.v ===== *)
(** The program's configuration: the globals of [src/include/common/config.cpp]
    and [src/include/common/hash_config.{h,cpp}].

    The globals are one record, [Config]; [InitCommonVariables] and
    [InitHashConfig] compute the derived ones. [double] arithmetic is the IEEE
    binary64 of the Standard Library's [SpecFloat]. [ceil (log2 x)] of an
    integer is [Z.log2_up x]: the distance of [log2 x] to an integer it differs
    from is far above a [double]'s precision while [x < 2 ^ 46]. *)
From S2P Require Import Prelude.
From Stdlib Require Import Floats.SpecFloat.
From stdpp Require Import options.
Local Open Scope Z_scope.

(** * Doubles *)

Definition double : Set := spec_float.
Definition double_of_Z (x : Z) : double := binary_normalize 53 1024 x 0 false.
Definition double_mul : double -> double -> double := SFmul 53 1024.
Definition double_div : double -> double -> double := SFdiv 53 1024.

(** Truncation towards zero: the conversion to an integer type, undefined when
    the value is not finite. *)
Definition double_trunc (x : double) : option Z :=
  match x with
  | S754_zero _ => Some 0
  | S754_finite s m e =>
      let n := if 0 <=? e then Zpos m * 2 ^ e else Zpos m / 2 ^ (- e) in
      Some (if s then - n else n)
  | _ => None
  end.

(** Conversion to [uint32_t]. *)
Definition double_to_u32 (x : double) : option Z :=
  n ← double_trunc x; _ ← guardb ((0 <=? n) && (n <? 2 ^ 32)); Some n.

(** [log(2)]: the [double] nearest to the natural logarithm of 2. *)
Definition log_2 : double := S754_finite false 6243314768165359 (-53).

(** [ceil(log2(x))] of a positive integer, and of the half of one. *)
Definition ceil_log2 (x : Z) : Z := Z.log2_up x.
Definition ceil_log2_half (x : Z) : Z := Z.log2_up x - 1.

(** [UP_TO_ONE(x)]: [x <= 1 ? 1 : x]. *)
Definition UP_TO_ONE (x : double) : double :=
  match SFcompare x (double_of_Z 1) with
  | Some Gt => x | None => x | _ => double_of_Z 1
  end.

(** * The globals *)

Record Config := {
  HSIMD : bool;
  K_SIZE : Z;                  (* int *)
  VERTEX_SIZE : Z;             (* uint32_t, as all the others below *)
  DEGREE : Z;
  B_FILTER_ENCODE_BITS : Z;
  PER_ENCODE_BIT_SIZE : Z;     (* int *)
  VERTEX_BIT_SIZE : Z;
  MAX_K_CORE_SIZE : Z;
  LOG_K : Z;
  MAX_INTEGER_SIZE : Z;
  BLOCK_BEGIN_INDEX : Z;
  BLOCK_SIZE : Z;
  BLOCK_NUMS : Z;
  ELEMENT_SIZE : Z;
  BIT_HASH_BEST_NUMS : Z;
  INT_HASH_BEST_NUMS : Z;
  COUNT_HASH_BEST_NUMS : Z;
  PREFIX_BIT_SIZE : Z
}.

(** [InitCommonVariables]: the hash numbers stay as they were (zero). *)
Definition InitCommonVariables (hsimd : bool) (k_size vertex_size degree : Z) : option Config :=
  _ ← guardb (negb (k_size =? 0) && negb (vertex_size =? 0) && negb (degree =? 0));
  _ ← guardb (k_size * 32 <? 2 ^ 31);
  let b_filter := u32 (vertex_size * k_size) in
  let per := k_size * 32 in
  let vbits := ceil_log2 vertex_size in
  max_k ← udiv (u32 (per - 1)) vbits;
  let log_k := ceil_log2 (max_k + 1) in
  max_int ← udiv (u32 (per - 3 - log_k)) vbits;
  Some {|
    HSIMD := hsimd; K_SIZE := k_size; VERTEX_SIZE := vertex_size; DEGREE := degree;
    B_FILTER_ENCODE_BITS := b_filter; PER_ENCODE_BIT_SIZE := per; VERTEX_BIT_SIZE := vbits;
    MAX_K_CORE_SIZE := max_k; LOG_K := log_k; MAX_INTEGER_SIZE := max_int;
    BLOCK_BEGIN_INDEX := 3 + log_k; BLOCK_SIZE := 512;
    BLOCK_NUMS := u32 (b_filter * 32 / 512); ELEMENT_SIZE := ceil_log2_half (degree * vertex_size);
    BIT_HASH_BEST_NUMS := 0; INT_HASH_BEST_NUMS := 0; COUNT_HASH_BEST_NUMS := 0;
    PREFIX_BIT_SIZE := 0
  |}.

(** [InitHashConfig]. *)
Definition InitHashConfig (C : Config) : option Config :=
  let k := double_of_Z (K_SIZE C) in
  let deg := double_of_Z (DEGREE C) in
  _ ← double_to_u32 (double_div (double_mul (double_mul log_2 (double_of_Z 64)) k) deg);
  let per_k := double_mul (double_mul log_2 (double_of_Z 2)) k in
  int_hash ← double_to_u32 (UP_TO_ONE (double_div per_k deg));
  q ← udiv 32 (ELEMENT_SIZE C);
  count_hash ← double_to_u32 (UP_TO_ONE (double_div (double_mul per_k (double_of_Z q)) deg));
  Some {|
    HSIMD := HSIMD C; K_SIZE := K_SIZE C; VERTEX_SIZE := VERTEX_SIZE C; DEGREE := DEGREE C;
    B_FILTER_ENCODE_BITS := B_FILTER_ENCODE_BITS C; PER_ENCODE_BIT_SIZE := PER_ENCODE_BIT_SIZE C;
    VERTEX_BIT_SIZE := VERTEX_BIT_SIZE C; MAX_K_CORE_SIZE := MAX_K_CORE_SIZE C; LOG_K := LOG_K C;
    MAX_INTEGER_SIZE := MAX_INTEGER_SIZE C; BLOCK_BEGIN_INDEX := BLOCK_BEGIN_INDEX C;
    BLOCK_SIZE := BLOCK_SIZE C; BLOCK_NUMS := BLOCK_NUMS C; ELEMENT_SIZE := ELEMENT_SIZE C;
    BIT_HASH_BEST_NUMS := 1; INT_HASH_BEST_NUMS := int_hash; COUNT_HASH_BEST_NUMS := count_hash;
    PREFIX_BIT_SIZE := LOG_K C + 3
  |}.

(** * Hash parameters *)

Definition HASH_PARAM1 : list Z :=
  [9191891; 1635947; 6893911; 2908361; 3877817; 5170427;
   2703929; 9961873; 8702593; 6795587; 3838903; 1609511;
   3838903; 3712831; 1609511; 2717593; 1434539; 7085971;
   2339639; 1316767; 2734321; 3274367; 3911749; 1300769;
   9871111; 1141061; 5974999; 2021081; 1123597; 9063707;
   5727739; 5218243; 2209747; 7445869; 7982327; 3739793;
   1803349; 9859697; 4833379; 7049219; 7919623; 7731103;
   4184641; 2627057; 3807691; 3044791; 7665613; 5529673;
   7904591; 9065003; 9416543; 9616279; 8034209; 8383213;
   2609339; 7587001; 2895359; 7402631; 1797161; 7542971].

Definition HASH_PARAM2 : list Z :=
  [1282517; 6659501; 7581941; 4050433; 7283071; 5793467;
   9692027; 4554733; 3448817; 9099731; 2797793; 9255167;
   4282727; 8699567; 9842081; 6976267; 7877509; 2042107;
   4404161; 4295609; 3455113; 2989673; 9410483; 7036109;
   9559609; 5945413; 4152943; 8736919; 8832641; 3201251;
   7251823; 3375391; 8783759; 1203077; 6746209; 8190113;
   3458687; 9673919; 2210567; 2698727; 5789227; 9444763;
   2628107; 4365827; 6898621; 4875253; 9633563; 4943333;
   4214123; 6162077; 6528673; 3763867; 6954799; 3726403;
   4801627; 1597961; 4228381; 9210757; 5584463; 8847067].

(** * The layout the encodings rely on

    [Layout C]: the sizes of the fields of a vertex's bit vector are consistent
    and within the domain of the bit operations. The encoders are verified
    against this interface; [InitConfig_Layout] discharges it. *)

Class Layout (C : Config) : Prop := {
  layout_K : 1 <= K_SIZE C <= 64;
  layout_per : PER_ENCODE_BIT_SIZE C = 32 * K_SIZE C;
  layout_V : 1 <= VERTEX_SIZE C < 2 ^ 32 - 1;
  layout_vbits : 8 <= VERTEX_BIT_SIZE C <= 32;
  layout_ids : VERTEX_SIZE C <= 2 ^ VERTEX_BIT_SIZE C;
  layout_full : 1 + MAX_K_CORE_SIZE C * VERTEX_BIT_SIZE C <= PER_ENCODE_BIT_SIZE C;
  layout_part : 3 + LOG_K C + MAX_INTEGER_SIZE C * VERTEX_BIT_SIZE C <= PER_ENCODE_BIT_SIZE C;
  layout_int : 1 <= MAX_INTEGER_SIZE C <= MAX_K_CORE_SIZE C;
  layout_log_k : 1 <= LOG_K C <= 5;
  layout_range : MAX_K_CORE_SIZE C < 2 ^ LOG_K C;
  layout_begin : BLOCK_BEGIN_INDEX C = 3 + LOG_K C;
  layout_prefix : PREFIX_BIT_SIZE C = 3 + LOG_K C
}.

(** The configuration of a run: both initialisations. *)
Definition InitConfig (hsimd : bool) (k_size vertex_size degree : Z) : option Config :=
  C ← InitCommonVariables hsimd k_size vertex_size degree; InitHashConfig C.

Lemma InitHashConfig_keeps C C' :
  InitHashConfig C = Some C' ->
  K_SIZE C' = K_SIZE C /\ VERTEX_SIZE C' = VERTEX_SIZE C /\ MAX_K_CORE_SIZE C' = MAX_K_CORE_SIZE C /\
  PER_ENCODE_BIT_SIZE C' = PER_ENCODE_BIT_SIZE C /\ VERTEX_BIT_SIZE C' = VERTEX_BIT_SIZE C /\
  LOG_K C' = LOG_K C /\ MAX_INTEGER_SIZE C' = MAX_INTEGER_SIZE C /\
  BLOCK_BEGIN_INDEX C' = BLOCK_BEGIN_INDEX C /\ PREFIX_BIT_SIZE C' = LOG_K C + 3.
Proof.
  unfold InitHashConfig. intros H. cbv zeta in H.
  repeat match type of H with mbind _ ?m = _ => destruct m; cbn [mbind option_bind] in H; [|done] end.
  by injection H as <-.
Qed.

Lemma ceil_log2_spec x : 1 < x -> 2 ^ (ceil_log2 x - 1) < x <= 2 ^ ceil_log2 x.
Proof. intros Hx. unfold ceil_log2. rewrite Z.sub_1_r. by apply Z.log2_up_spec. Qed.

Lemma ceil_log2_range x a b : 2 ^ a < x <= 2 ^ b -> 0 <= a -> 0 <= b -> a < ceil_log2 x <= b.
Proof.
  intros [Ha Hb] H0 H1. unfold ceil_log2. split.
  - apply Z.log2_up_lt_pow2; [|done]. assert (0 < 2 ^ a) by (apply Z.pow_pos_nonneg; lia). lia.
  - apply Z.log2_up_le_pow2; [|done]. assert (0 < 2 ^ a) by (apply Z.pow_pos_nonneg; lia). lia.
Qed.

Lemma udiv_Some_inv a b q : udiv a b = Some q -> b <> 0 /\ q = a / b.
Proof. unfold udiv. destruct (Z.eqb_spec b 0); naive_solver. Qed.

Lemma InitCommonVariables_inv hs k v deg C :
  InitCommonVariables hs k v deg = Some C -> 1 <= k <= 64 -> 1 <= v < 2 ^ 32 ->
  K_SIZE C = k /\ VERTEX_SIZE C = v /\ PER_ENCODE_BIT_SIZE C = 32 * k /\
  VERTEX_BIT_SIZE C = ceil_log2 v /\ MAX_K_CORE_SIZE C = (32 * k - 1) / ceil_log2 v /\
  LOG_K C = ceil_log2 (MAX_K_CORE_SIZE C + 1) /\
  MAX_INTEGER_SIZE C = u32 (32 * k - 3 - LOG_K C) / ceil_log2 v /\
  BLOCK_BEGIN_INDEX C = 3 + LOG_K C.
Proof.
  unfold InitCommonVariables. intros H Hk Hv. cbv zeta in H.
  repeat match type of H with mbind _ ?m = _ =>
    destruct m eqn:?; cbn [mbind option_bind] in H; [|done] end.
  repeat match goal with E : udiv _ _ = Some _ |- _ => apply udiv_Some_inv in E as [? ->] end.
  injection H as <-. simpl. rewrite (u32_small (k * 32 - 1)) by lia.
  replace (k * 32) with (32 * k) by ring. done.
Qed.

(** The field sizes computed from K and the number of vertices fit. *)
Lemma InitConfig_Layout hs k v deg C :
  InitConfig hs k v deg = Some C -> 2 <= k <= 64 -> 128 < v < 2 ^ 32 - 1 ->
  32 * k - 1 < 32 * VERTEX_BIT_SIZE C -> VERTEX_BIT_SIZE C <= 32 * k - 1 -> Layout C.
Proof.
  unfold InitConfig. destruct (InitCommonVariables hs k v deg) as [C0|] eqn:E0; [|done].
  cbn [mbind option_bind]. intros (HK & HV & HM & HP & Hb & HL & HI & HB & HX)%InitHashConfig_keeps
    Hk Hv Hlog Hone.
  apply InitCommonVariables_inv in E0 as (EK & EV & EP & Eb & EM & EL & EI & EB); [|lia..].
  rewrite Hb, Eb in *.
  destruct (ceil_log2_range v 7 32) as [Hb1 Hb2]; [lia..|].
  assert (8 <= ceil_log2 v) by lia. set (b := ceil_log2 v) in *.
  pose proof (Z.div_mod (32 * k - 1) b ltac:(lia)) as Ed.
  pose proof (Z.mod_pos_bound (32 * k - 1) b ltac:(lia)) as Hd. rewrite <- EM in Ed.
  assert (1 <= MAX_K_CORE_SIZE C0 <= 31) as Hmax by nia.
  destruct (ceil_log2_spec (MAX_K_CORE_SIZE C0 + 1)) as [_ Hlk]; [lia|].
  destruct (ceil_log2_range (MAX_K_CORE_SIZE C0 + 1) 0 5) as [HL1 HL2]; [lia..|].
  rewrite <- EL in *. rewrite u32_small in EI by lia.
  assert (1 <= MAX_INTEGER_SIZE C0) as Hi.
  { rewrite EI. apply Z.div_le_lower_bound; nia. }
  pose proof (Z.div_mod (32 * k - 3 - LOG_K C0) b ltac:(lia)) as Ed2.
  pose proof (Z.mod_pos_bound (32 * k - 3 - LOG_K C0) b ltac:(lia)) as Hd2. rewrite <- EI in Ed2.
  assert (v <= 2 ^ b) by (apply ceil_log2_spec; lia).
  assert (MAX_INTEGER_SIZE C0 <= MAX_K_CORE_SIZE C0) by nia.
  clearbody b. clear Hone Hlog EI EM EL.
  split; rewrite ?HK, ?HV, ?HM, ?HP, ?HL, ?HI, ?HB, ?HX, ?Hb; lia.
Qed.

(** A vertex id fits its field when it is below VERTEX_SIZE, and the largest id
    too unless VERTEX_SIZE is a power of two. *)
Lemma id_fits C x :
  Layout C -> 1 <= x <= VERTEX_SIZE C -> VERTEX_SIZE C < 2 ^ VERTEX_BIT_SIZE C ->
  0 <= x < 2 ^ VERTEX_BIT_SIZE C.
Proof. lia. Qed.

Lemma layout_small C : Layout C -> 2 ^ LOG_K C <= 32 /\ 2 ^ VERTEX_BIT_SIZE C <= 2 ^ 32.
Proof.
  intros HL. pose proof (layout_log_k (C := C)). pose proof (layout_vbits (C := C)).
  split; [change 32 with (2 ^ 5)|]; apply Z.pow_le_mono_r; lia.
Qed.

(** The layout's inequalities, for [lia]. *)
Ltac layout_facts C :=
  let H := fresh "Lay_K" in pose proof (layout_K (C := C)) as H;
  let H := fresh "Lay_per" in pose proof (layout_per (C := C)) as H;
  let H := fresh "Lay_V" in pose proof (layout_V (C := C)) as H;
  let H := fresh "Lay_vbits" in pose proof (layout_vbits (C := C)) as H;
  let H := fresh "Lay_ids" in pose proof (layout_ids (C := C)) as H;
  let H := fresh "Lay_full" in pose proof (layout_full (C := C)) as H;
  let H := fresh "Lay_part" in pose proof (layout_part (C := C)) as H;
  let H := fresh "Lay_int" in pose proof (layout_int (C := C)) as H;
  let H := fresh "Lay_log_k" in pose proof (layout_log_k (C := C)) as H;
  let H := fresh "Lay_range" in pose proof (layout_range (C := C)) as H;
  let H := fresh "Lay_begin" in pose proof (layout_begin (C := C)) as H;
  let H := fresh "Lay_prefix" in pose proof (layout_prefix (C := C)) as H;
  let H := fresh "Lay_small" in pose proof (layout_small C ltac:(assumption)) as H.

(** The configuration of K = 3 and a graph of 1000 vertices, for the concrete
    runs of the other files. *)
Definition demo_config : Config :=
  {| HSIMD := false; K_SIZE := 3; VERTEX_SIZE := 1000; DEGREE := 76;
     B_FILTER_ENCODE_BITS := 3000; PER_ENCODE_BIT_SIZE := 96; VERTEX_BIT_SIZE := 10;
     MAX_K_CORE_SIZE := 9; LOG_K := 4; MAX_INTEGER_SIZE := 8; BLOCK_BEGIN_INDEX := 7;
     BLOCK_SIZE := 512; BLOCK_NUMS := 187; ELEMENT_SIZE := 16; BIT_HASH_BEST_NUMS := 1;
     INT_HASH_BEST_NUMS := 1; COUNT_HASH_BEST_NUMS := 1; PREFIX_BIT_SIZE := 7 |}.

Example demo_config_init : InitConfig false 3 1000 76 = Some demo_config.
Proof. by vm_compute. Qed.

(** A graph of 20 vertices. *)
Definition small_config : Config := default demo_config (InitConfig false 3 20 76).

(** A graph of 200 vertices, whose ids are bytes. *)
Definition bytes_config : Config := default demo_config (InitConfig false 3 200 76).

#[export] Instance demo_layout : Layout demo_config.
Proof. split; simpl; lia. Qed.
#[export] Instance bytes_layout : Layout bytes_config.
Proof. split; vm_compute; repeat split; discriminate. Qed.

(** * Properties *)

(** C13: the field sizes that [InitCommonVariables] computes from K and the
    number of vertices fit the vector, and every id below VERTEX_SIZE fits a
    vertex field. *)
Theorem config_layout (hs : bool) (k v deg : Z) (C : Config)
    (HC : InitConfig hs k v deg = Some C) (Hk : 2 <= k <= 64) (Hv : 128 < v < 2 ^ 32 - 1)
    (Hmany : 32 * k - 1 < 32 * VERTEX_BIT_SIZE C) :
  Layout C /\ VERTEX_SIZE C = v /\ forall x, 1 <= x < v -> 0 <= x < 2 ^ VERTEX_BIT_SIZE C.
Proof.
  pose proof HC as HC'. unfold InitConfig in HC'.
  destruct (InitCommonVariables hs k v deg) as [C0|] eqn:E0; [|done].
  cbn [mbind option_bind] in HC'.
  apply InitHashConfig_keeps in HC' as (_ & HV & _ & _ & Hb & _).
  apply InitCommonVariables_inv in E0 as (_ & EV & _ & Eb & _); [|lia..].
  destruct (ceil_log2_range v 7 32) as [Hb1 Hb2]; [lia..|].
  assert (Layout C) as HL by (eapply InitConfig_Layout; try done; lia).
  split; [done|]. split; [congruence|]. intros x Hx. layout_facts C. lia.
Qed.

Lemma config_layout_witness :
  exists C, InitConfig false 5 3072441 76 = Some C /\
    Layout C /\ VERTEX_SIZE C = 3072441 /\ forall x, 1 <= x < 3072441 -> 0 <= x < 2 ^ VERTEX_BIT_SIZE C.
Proof.
  destruct (InitConfig false 5 3072441 76) as [C|] eqn:E; [|vm_compute in E; discriminate E].
  exists C. split; [reflexivity|]. apply (config_layout false 5 3072441 76 C E); [lia|lia|].
  vm_compute in E. injection E as <-. reflexivity.
Defined.

(** The largest id does not fit a vertex field when VERTEX_SIZE is a power of
    two. *)
Example config_last_id :
  (C ← InitConfig false 8 256 3; Some (VERTEX_BIT_SIZE C, VERTEX_SIZE C)) = Some (8, 256).
Proof. by vm_compute. Qed.
