(* ===== verification/BitSet.v ===== *)
(** The bit vector of one vertex: class [BitSetSIMD] of
    [src/include/util/bitset_simd.h].

    A vector is the list of its bytes ([data_]; [size_] is the list's length).
    Bit [q] of the vector is bit [7 - q mod 8] of byte [q / 8] ([bit_at]), so a
    field of [n] bits at [q] is the big-endian number [be_bits d q n]. *)
From S2P Require Import Prelude.
From stdpp Require Import options.
Local Open Scope Z_scope.

(** [enum PairType], the answer of every test (src/include/common/config.h). *)
Inductive PairType := Neighbor | NonNeighbor | Uncertain.

#[export] Instance PairType_eq_dec : EqDecision PairType.
Proof. solve_decision. Defined.

(** The enumerators' values: [std::min] and the bit tests compare them. *)
Definition PairType_val (t : PairType) : Z :=
  match t with Neighbor => 1 | NonNeighbor => 2 | Uncertain => 4 end.

Definition PairType_min (a b : PairType) : PairType :=
  if PairType_val b <? PairType_val a then b else a.

(** * Mask tables *)

Definition IS_ONE_MASK : list Z := [0x80; 0x40; 0x20; 0x10; 0x08; 0x04; 0x02; 0x01].

Definition ZERO_BLOCK_MASK : list (list Z) :=
  [ [0xFF; 0x7F; 0x3F; 0x1F; 0x0F; 0x07; 0x03; 0x01; 0x00];
    [0xFF; 0xBF; 0x9F; 0x8F; 0x87; 0x83; 0x81; 0x80; 0];
    [0xFF; 0xDF; 0xCF; 0xC7; 0xC3; 0xC1; 0xC0; 0; 0];
    [0xFF; 0xEF; 0xE7; 0xE3; 0xE1; 0xE0; 0; 0; 0];
    [0xFF; 0xF7; 0xF3; 0xF1; 0xF0; 0; 0; 0; 0];
    [0xFF; 0xFB; 0xF9; 0xF8; 0; 0; 0; 0; 0];
    [0xFF; 0xFD; 0xFC; 0; 0; 0; 0; 0; 0];
    [0xFF; 0xFE; 0; 0; 0; 0; 0; 0; 0] ].

Definition ONE_BLOCK_MASK : list (list Z) :=
  [ [0; 0x80; 0xC0; 0xE0; 0xF0; 0xF8; 0xFC; 0xFE; 0xFF];
    [0; 0x40; 0x60; 0x70; 0x78; 0x7C; 0x7E; 0x7F; 0];
    [0; 0x20; 0x30; 0x38; 0x3C; 0x3E; 0x3F; 0; 0];
    [0; 0x10; 0x18; 0x1C; 0x1E; 0x1F; 0; 0; 0];
    [0; 0x08; 0x0C; 0x0E; 0x0F; 0; 0; 0; 0];
    [0; 0x04; 0x06; 0x07; 0; 0; 0; 0; 0];
    [0; 0x02; 0x03; 0; 0; 0; 0; 0; 0];
    [0; 0x01; 0; 0; 0; 0; 0; 0; 0] ].

Definition LEFT_ONE_MASK : list Z := [0x00; 0x01; 0x03; 0x07; 0x0F; 0x1F; 0x3F; 0x7F; 0].

(** A two-dimensional table read. *)
Definition tab2 (t : list (list Z)) (i j : Z) : option Z := r ← zget t i; zget r j.

(** [DIVIDE8] and [MOD8]. *)
Definition DIVIDE8 (x : Z) : Z := Z.shiftr x 3.
Definition MOD8 (x : Z) : Z := Z.land x 0x07.

(** * Operations *)

(** [BitSetSIMD(size_t size)]: [size / 8] cleared bytes. *)
Definition BitSetSIMD_new (size : Z) : list Z := replicate (Z.to_nat (size / 8)) 0.

Definition BitSetSIMD_Clear (d : list Z) : list Z := replicate (length d) 0.

Definition BitSetSIMD_SetOne (d : list Z) (pos : Z) : option (list Z) :=
  x ← zget d (DIVIDE8 pos);
  zset d (DIVIDE8 pos) (u8 (Z.lor x (Z.shiftl 1 (7 - MOD8 pos)))).

Definition BitSetSIMD_SetZero (d : list Z) (pos : Z) : option (list Z) :=
  x ← zget d (DIVIDE8 pos);
  zset d (DIVIDE8 pos) (u8 (Z.land x (Z.lxor 0xFF (Z.shiftl 1 (7 - MOD8 pos))))).

Definition BitSetSIMD_IsOne (d : list Z) (pos : Z) : option bool :=
  x ← zget d (Z.shiftr pos 3);
  m ← zget IS_ONE_MASK (Z.land pos 0x07);
  Some (negb (Z.land x m =? 0)).

(** The [while (block_size > 8)] loop of [BlockSet]: whole bytes, from the last
    to the first. Every turn decrements [end_idx], and the access is undefined
    once it leaves the array, so [S end_idx] turns always reach an end. *)
Fixpoint BlockSet_loop (fuel : nat) (d : list Z) (end_idx block_size value : Z)
  : option (list Z * Z * Z) :=
  if 8 <? block_size then
    match fuel with
    | O => None
    | S fuel' =>
        let end_idx := u64 (end_idx - 1) in
        x ← zget d end_idx;
        d ← zset d end_idx (u8 (Z.lor (Z.land x 0x00) value));
        BlockSet_loop fuel' d end_idx (u32 (block_size - 8)) (Z.shiftr value 8)
    end
  else Some (d, block_size, value).

(** [BlockSet(begin, block_size, value)]. [begin_idx] is a [uint8_t] in the
    source, [end_idx] a [size_t]. *)
Definition BitSetSIMD_BlockSet (d : list Z) (begin block_size value : Z) : option (list Z) :=
  let begin_idx := u8 (DIVIDE8 begin) in
  let last := u64 (begin + block_size - 1) in
  let end_idx := last / 8 in
  let left := u8 (7 - last mod 8) in
  if negb (begin_idx =? end_idx) then
    m ← zget LEFT_ONE_MASK left;
    x ← zget d end_idx;
    d ← zset d end_idx (u8 (Z.lor (Z.land x m) (u32 (Z.shiftl value left))));
    r ← BlockSet_loop (S (Z.to_nat end_idx)) d end_idx
          (u32 (block_size - (8 - left))) (Z.shiftr value (8 - left));
    let '(d, block_size, value) := r in
    zm ← tab2 ZERO_BLOCK_MASK (MOD8 begin) block_size;
    y ← zget d begin_idx;
    zset d begin_idx (u8 (Z.lor (Z.land y zm) value))
  else
    zm ← tab2 ZERO_BLOCK_MASK (MOD8 begin) block_size;
    y ← zget d begin_idx;
    zset d begin_idx (u8 (Z.lor (Z.land y zm) (u32 (Z.shiftl value left)))).

(** [BlockSet(const std::vector<uint8_t> &)]. *)
Definition BitSetSIMD_BlockSet8 (d encode : list Z) : option (list Z) :=
  _ ← guardb (Z.of_nat (length encode) =? Z.of_nat (length d));
  foldM (fun i d => x ← zget encode (Z.of_nat i); zset d (Z.of_nat i) x)
        (seq 0 (length d)) d.

(** [BlockSet(const std::vector<uint32_t> &)]: big-endian words. *)
Definition BitSetSIMD_BlockSet32 (d encode : list Z) : option (list Z) :=
  _ ← guardb (Z.of_nat (length encode) * 4 =? Z.of_nat (length d));
  foldM (fun n d =>
           let i := Z.of_nat n in
           x ← zget encode i;
           d ← zset d (4 * i + 3) (Z.land x 0x000000ff);
           d ← zset d (4 * i + 2) (Z.shiftr (Z.land x 0x0000ff00) 8);
           d ← zset d (4 * i + 1) (Z.shiftr (Z.land x 0x00ff0000) 16);
           zset d (4 * i) (Z.shiftr (Z.land x 0xff000000) 24))
        (seq 0 (length encode)) d.

(** [Dump]: the words of the vector. *)
Definition BitSetSIMD_Dump (d : list Z) : option (list Z) :=
  _ ← guardb (Z.of_nat (length d) mod 4 =? 0);
  foldM (fun n ws =>
           let i := Z.of_nat n in
           b0 ← zget d (4 * i); b1 ← zget d (4 * i + 1);
           b2 ← zget d (4 * i + 2); b3 ← zget d (4 * i + 3);
           Some (ws ++ [u32 (Z.shiftl b0 24 + Z.shiftl b1 16 + Z.shiftl b2 8 + b3)]))
        (seq 0 (length d / 4)) [].

(** A shift of a 32-bit operand: undefined from 32 on. *)
Definition shl32 (x n : Z) : option Z :=
  if (0 <=? n) && (n <? 32) then Some (u32 (Z.shiftl x n)) else None.

(** [BlockGet(begin, block_size)]. In the last shift [block_size - 8] is a
    [uint32_t] and [MOD8(begin)] a [size_t]. *)
Definition BitSetSIMD_BlockGet (d : list Z) (begin block_size : Z) : option Z :=
  let i := DIVIDE8 begin in
  let last := u64 (begin + block_size - 1) in
  let j := DIVIDE8 last in
  if i =? j then
    x ← zget d i;
    m ← tab2 ONE_BLOCK_MASK (MOD8 begin) block_size;
    Some (Z.shiftr (Z.land x m) (7 - MOD8 last))
  else
    let last_mod := MOD8 last in
    y ← zget d j;
    let val := Z.shiftr y (7 - last_mod) in
    val ← for_loop (Z.to_nat (j - i - 1)) 1
      (fun idx val =>
         z ← zget d (j - idx);
         s ← shl32 z (8 * (idx - 1) + last_mod + 1);
         Some (u32 (val + s))) val;
    x ← zget d i;
    m ← tab2 ONE_BLOCK_MASK (MOD8 begin) (8 - MOD8 begin);
    s ← shl32 (Z.land x m) (u64 (u32 (block_size - 8) + MOD8 begin));
    Some (u32 (val + s)).

(** [GetBlockNum]: the range size field, [LOG_K] bits at 3, as a [uint16_t]. *)
Definition BitSetSIMD_GetBlockNum (LOG_K : Z) (d : list Z) : option Z :=
  v ← BitSetSIMD_BlockGet d 3 LOG_K; Some (u16 v).

(** [BlockFind]: [block_num] fields in order, with the early exit. *)
Fixpoint BlockFind_loop (d : list Z) (n : nat) (i block_size value : Z) : option PairType :=
  match n with
  | O => Some NonNeighbor
  | S n' =>
      val ← BitSetSIMD_BlockGet d i block_size;
      if val =? value then Some Neighbor
      else if value <? val then Some NonNeighbor
      else BlockFind_loop d n' (i + block_size) block_size value
  end.

Definition BitSetSIMD_BlockFind (d : list Z) (begin block_size block_num value : Z)
  : option PairType :=
  BlockFind_loop d (if block_size =? 0 then O else Z.to_nat block_num) begin block_size value.

(** The SSE registers of [BlockFindSIMD]: four 32-bit lanes, lane 0 first.
    [_mm_set_epi32] takes the lanes from the last to the first. *)
Definition mm_set1_epi32 (v : Z) : list Z := [v; v; v; v].
Definition mm_set_epi32 (e3 e2 e1 e0 : Z) : list Z := [e0; e1; e2; e3].
Definition mm_cmpeq_epi32 (a b : list Z) : list bool :=
  zip_with (fun x y => u32 x =? u32 y) a b.
Definition mm_cmplt_epi32 (a b : list Z) : list bool :=
  zip_with (fun x y => s32 x <? s32 y) a b.

(** [_mm_movemask_ps] of a lane-wise comparison: bit [i] for lane [i]. *)
Fixpoint mm_movemask (m : list bool) : Z :=
  match m with [] => 0 | b :: m' => Z.b2z b + 2 * mm_movemask m' end.

Fixpoint BlockFindSIMD_loop (d : list Z) (n : nat) (begin shift block_size : Z)
    (compare : list Z) : option (bool * Z) :=
  match n with
  | O => Some (false, shift)
  | S n' =>
      k0 ← BitSetSIMD_BlockGet d (begin + shift) block_size;
      k1 ← BitSetSIMD_BlockGet d (begin + shift + block_size) block_size;
      k2 ← BitSetSIMD_BlockGet d (begin + shift + block_size * 2) block_size;
      k3 ← BitSetSIMD_BlockGet d (begin + shift + block_size * 3) block_size;
      if negb (mm_movemask (mm_cmpeq_epi32 (mm_set_epi32 k0 k1 k2 k3) compare) =? 0)
      then Some (true, shift)
      else BlockFindSIMD_loop d n' begin (shift + block_size * 4) block_size compare
  end.

Definition BitSetSIMD_BlockFindSIMD (d : list Z) (begin block_size block_num value : Z)
  : option PairType :=
  let compare := mm_set1_epi32 value in
  r ← BlockFindSIMD_loop d (Z.to_nat (block_num / 4)) begin 0 block_size compare;
  let '(found, shift) := r in
  if (found : bool) then Some Neighbor else
  let block_num := block_num mod 4 in
  if block_num =? 0 then Some NonNeighbor else
  keys ← (if block_num =? 1 then
            k0 ← BitSetSIMD_BlockGet d (begin + shift) block_size;
            Some (mm_set_epi32 k0 0 0 0)
          else if block_num =? 2 then
            k0 ← BitSetSIMD_BlockGet d (begin + shift) block_size;
            k1 ← BitSetSIMD_BlockGet d (begin + shift + block_size) block_size;
            Some (mm_set_epi32 k0 k1 0 0)
          else
            k0 ← BitSetSIMD_BlockGet d (begin + shift) block_size;
            k1 ← BitSetSIMD_BlockGet d (begin + shift + block_size) block_size;
            k2 ← BitSetSIMD_BlockGet d (begin + shift + block_size * 2) block_size;
            Some (mm_set_epi32 k0 k1 k2 0));
  if negb (mm_movemask (mm_cmpeq_epi32 keys compare) =? 0) then Some Neighbor
  else Some NonNeighbor.

(** [GetFirstBit], [GetSecondBit], [GetThridBit], [GetEncodeSize], [GetBitSize]. *)
Definition BitSetSIMD_GetFirstBit (d : list Z) : option bool :=
  x ← zget d 0; Some (negb (Z.land x 0x80 =? 0)).
Definition BitSetSIMD_GetSecondBit (d : list Z) : option bool :=
  x ← zget d 0; Some (negb (Z.land x 0x40 =? 0)).
Definition BitSetSIMD_GetThridBit (d : list Z) : option bool :=
  x ← zget d 0; Some (negb (Z.land x 0x20 =? 0)).
Definition BitSetSIMD_GetEncodeSize (d : list Z) : option Z :=
  x ← zget d 0; Some (Z.land x 0x1F).
Definition BitSetSIMD_GetBitSize (d : list Z) : Z := u32 (Z.of_nat (length d)).

(** [Reconstruct]: the bytes of another vector of the same size. *)
Definition BitSetSIMD_Reconstruct (d rhs : list Z) : option (list Z) :=
  _ ← guardb (Z.of_nat (length rhs) =? Z.of_nat (length d)); Some rhs.

(** * The bit view *)

Definition bit_at (d : list Z) (q : Z) : bool :=
  Z.testbit (nth (Z.to_nat (q / 8)) d 0) (7 - q mod 8).

(** Every element of [data_] is a byte; the size fits a [size_t] comfortably. *)
Definition bytes_ok (d : list Z) : Prop :=
  Forall (fun x => 0 <= x < 2 ^ 8) d /\ Z.of_nat (length d) < 2 ^ 56.

(** The number of bits of the vector. *)
Definition nbits (d : list Z) : Z := 8 * Z.of_nat (length d).

(** The field of [n] bits at [q]. *)
Definition field (d : list Z) (q n : Z) : Z := be_bits (bit_at d) q (Z.to_nat n).

Lemma field_bound d q n : 0 <= n -> 0 <= field d q n < 2 ^ n.
Proof. intros Hn. unfold field. pose proof (be_bits_bound (bit_at d) q (Z.to_nat n)). by rewrite Z2Nat.id in *. Qed.

Lemma field_ext d d' q n :
  0 <= n -> (forall i, q <= i < q + n -> bit_at d i = bit_at d' i) -> field d q n = field d' q n.
Proof. intros Hn H. apply be_bits_ext. intros i Hi. apply H. lia. Qed.

Lemma DIVIDE8_div x : DIVIDE8 x = x / 8.
Proof. apply Z.shiftr_div_pow2. lia. Qed.
Lemma MOD8_mod x : MOD8 x = x mod 8.
Proof. apply (Z.land_ones x 3). lia. Qed.

Lemma bytes_ok_get d i x : bytes_ok d -> zget d i = Some x -> 0 <= x < 2 ^ 8.
Proof.
  intros [Hd _] [_ Hx]%zget_Some_inv. rewrite Forall_lookup in Hd. eauto.
Qed.

Lemma bytes_ok_set d i x d' :
  bytes_ok d -> 0 <= x < 2 ^ 8 -> zset d i x = Some d' -> bytes_ok d'.
Proof.
  intros [Hd Hl] Hx [_ ->]%zset_Some_inv. split.
  - by apply Forall_insert.
  - by rewrite length_insert.
Qed.

Lemma bit_at_zget d q x :
  0 <= q -> zget d (q / 8) = Some x -> bit_at d q = Z.testbit x (7 - q mod 8).
Proof.
  intros Hq [Hb Hx]%zget_Some_inv. unfold bit_at.
  by rewrite (nth_lookup_Some _ _ _ _ Hx).
Qed.

Lemma bit_at_zset d i x d' q :
  0 <= q -> zset d i x = Some d' ->
  bit_at d' q = if q / 8 =? i then Z.testbit x (7 - q mod 8) else bit_at d q.
Proof.
  intros Hq [Hb ->]%zset_Some_inv. unfold bit_at.
  rewrite nth_insert by lia. pose proof (Z.div_pos q 8).
  destruct (Z.eqb_spec (q / 8) i); case_decide; try done; lia.
Qed.

Lemma in_byte q i : (q / 8 = i) <-> 8 * i <= q < 8 * i + 8.
Proof. pose proof (Z.div_mod q 8). pose proof (Z.mod_pos_bound q 8). lia. Qed.

(** * Facts of the mask tables, by enumeration *)

Lemma tab2_get t i j : tab2 t i j = (zget t i ≫= fun r => zget r j).
Proof. done. Qed.

(** Reads of the two block masks: the bits [m .. m + k - 1] of a byte. *)
Definition mask_ok (t : list (list Z)) (inside : bool) : bool :=
  forallb (fun m => forallb (fun k =>
    (8 <? m + k) ||
    match tab2 t m k with
    | Some z => (0 <=? z) && (z <? 256) &&
        forallb (fun b => Bool.eqb (Z.testbit z (7 - b))
                            (Bool.eqb inside ((m <=? b) && (b <? m + k))))
                (map Z.of_nat (seq 0 8))
    | None => false
    end) (map Z.of_nat (seq 0 9))) (map Z.of_nat (seq 0 8)).

Lemma mask_ok_spec t inside m k :
  mask_ok t inside = true -> 0 <= m < 8 -> 0 <= k -> m + k <= 8 ->
  exists z, tab2 t m k = Some z /\ 0 <= z < 2 ^ 8 /\
    forall b, 0 <= b < 8 ->
      Z.testbit z (7 - b) = Bool.eqb inside ((m <=? b) && (b <? m + k)).
Proof.
  intros H Hm Hk Hmk.
  pose proof (forall_below 8 _ H m Hm) as H1. cbv beta in H1.
  pose proof (forall_below 9 _ H1 k ltac:(lia)) as H2. cbv beta in H2.
  rewrite (proj2 (Z.ltb_ge 8 (m + k))) in H2 by lia. cbv beta in H2. rewrite orb_false_l in H2.
  destruct (tab2 t m k) as [z|]; [|done].
  apply andb_true_iff in H2 as [[Hz1 Hz2]%andb_true_iff Hz].
  exists z. split; [done|]. split; [lia|].
  intros b Hb. pose proof (forall_below 8 _ Hz b Hb) as H3.
  by apply Bool.eqb_prop in H3.
Qed.

Lemma ONE_BLOCK_MASK_ok : mask_ok ONE_BLOCK_MASK true = true.
Proof. by vm_compute. Qed.
Lemma ZERO_BLOCK_MASK_ok : mask_ok ZERO_BLOCK_MASK false = true.
Proof. by vm_compute. Qed.

Lemma LEFT_ONE_MASK_get l : 0 <= l < 8 -> zget LEFT_ONE_MASK l = Some (Z.ones l).
Proof.
  intros Hl.
  pose proof (forall_below 8 (fun l => bool_decide (zget LEFT_ONE_MASK l = Some (Z.ones l)))
                eq_refl l Hl) as H. by apply bool_decide_eq_true in H.
Qed.

Lemma IS_ONE_MASK_get m : 0 <= m < 8 -> zget IS_ONE_MASK m = Some (Z.shiftl 1 (7 - m)).
Proof.
  intros Hm.
  pose proof (forall_below 8 (fun m => bool_decide (zget IS_ONE_MASK m = Some (Z.shiftl 1 (7 - m))))
                eq_refl m Hm) as H. by apply bool_decide_eq_true in H.
Qed.

(** * Bit-level specifications of the operations

    [rewrites d d' f]: [d'] is a well-formed vector of [d]'s size whose bits
    are given by [f]. *)
Definition rewrites (d d' : list Z) (f : Z -> bool) : Prop :=
  bytes_ok d' /\ length d' = length d /\ forall q, 0 <= q -> bit_at d' q = f q.

Lemma rewrites_nbits d d' f : rewrites d d' f -> nbits d' = nbits d.
Proof. intros (_ & Hl & _). unfold nbits. by rewrite Hl. Qed.

Lemma nbits_byte d p : 0 <= p < nbits d -> 0 <= p / 8 < Z.of_nat (length d).
Proof. unfold nbits. intros. pose proof (Z.div_mod p 8). pose proof (Z.mod_pos_bound p 8). lia. Qed.

Lemma byte_update_rewrites d i x d' f :
  bytes_ok d -> 0 <= x < 2 ^ 8 -> zset d i x = Some d' ->
  (forall q, 0 <= q -> f q = if q / 8 =? i then Z.testbit x (7 - q mod 8) else bit_at d q) ->
  rewrites d d' f.
Proof.
  intros Hd Hx Hs Hf. split; [by eapply bytes_ok_set|]. split; [by eapply zset_length|].
  intros q Hq. rewrite Hf by done. by apply bit_at_zset.
Qed.

Lemma BitSetSIMD_IsOne_spec d p :
  bytes_ok d -> 0 <= p < nbits d -> BitSetSIMD_IsOne d p = Some (bit_at d p).
Proof.
  intros Hd Hp. pose proof (nbits_byte d p Hp) as Hb.
  pose proof (Z.mod_pos_bound p 8 ltac:(lia)) as Hm.
  unfold BitSetSIMD_IsOne.
  change (Z.shiftr p 3) with (DIVIDE8 p). change (Z.land p 7) with (MOD8 p).
  rewrite DIVIDE8_div, MOD8_mod. destruct (zget_is_Some d (p / 8) Hb) as [x Hx].
  rewrite Hx; simpl. rewrite IS_ONE_MASK_get by done. simpl. f_equal.
  rewrite (bit_at_zget d p x) by (done || lia).
  rewrite Z.shiftl_1_l. destruct (Z.testbit x (7 - p mod 8)) eqn:E.
  - apply negb_true_iff, Z.eqb_neq. intros H0.
    apply (f_equal (fun z => Z.testbit z (7 - p mod 8))) in H0.
    rewrite Z.land_spec, E, Z.pow2_bits_true, Z.bits_0 in H0 by lia. done.
  - apply negb_false_iff, Z.eqb_eq. apply Z.bits_inj'. intros k Hk.
    rewrite Z.land_spec, Z.pow2_bits_eqb, Z.bits_0 by lia.
    destruct (Z.eqb_spec (7 - p mod 8) k) as [<-|]; [by rewrite E|apply andb_false_r].
Qed.

Lemma BitSetSIMD_SetOne_spec d p :
  bytes_ok d -> 0 <= p < nbits d ->
  exists d', BitSetSIMD_SetOne d p = Some d' /\
    rewrites d d' (fun q => (q =? p) || bit_at d q).
Proof.
  intros Hd Hp. pose proof (nbits_byte d p Hp) as Hb.
  pose proof (Z.mod_pos_bound p 8 ltac:(lia)) as Hm.
  unfold BitSetSIMD_SetOne. rewrite DIVIDE8_div, MOD8_mod.
  destruct (zget_is_Some d (p / 8) Hb) as [x Hx]. rewrite Hx; simpl.
  rewrite zset_Some by done. eexists; split; [done|].
  eapply byte_update_rewrites; [done|apply u8_bound|by apply zset_Some|].
  intros q Hq; cbv beta. pose proof (Z.mod_pos_bound q 8 ltac:(lia)).
  pose proof (Z.div_mod q 8). pose proof (Z.div_mod p 8).
  destruct (Z.eqb_spec (q / 8) (p / 8)) as [E|E].
  - rewrite (bit_at_zget d q x) by (done || by rewrite E).
    rewrite testbit_u8, Z.lor_spec, Z.shiftl_1_l, Z.pow2_bits_eqb by lia.
    rewrite (proj2 (Z.ltb_lt (7 - q mod 8) 8)) by lia. simpl. rewrite orb_comm. f_equal.
    split_ltb; done || lia.
  - destruct (Z.eqb_spec q p); [subst; done|done].
Qed.

Lemma BitSetSIMD_SetZero_spec d p :
  bytes_ok d -> 0 <= p < nbits d ->
  exists d', BitSetSIMD_SetZero d p = Some d' /\
    rewrites d d' (fun q => negb (q =? p) && bit_at d q).
Proof.
  intros Hd Hp. pose proof (nbits_byte d p Hp) as Hb.
  pose proof (Z.mod_pos_bound p 8 ltac:(lia)) as Hm.
  unfold BitSetSIMD_SetZero. rewrite DIVIDE8_div, MOD8_mod.
  destruct (zget_is_Some d (p / 8) Hb) as [x Hx]. rewrite Hx; simpl.
  rewrite zset_Some by done. eexists; split; [done|].
  eapply byte_update_rewrites; [done|apply u8_bound|by apply zset_Some|].
  intros q Hq; cbv beta. pose proof (Z.mod_pos_bound q 8 ltac:(lia)).
  pose proof (Z.div_mod q 8). pose proof (Z.div_mod p 8).
  destruct (Z.eqb_spec (q / 8) (p / 8)) as [E|E].
  - rewrite (bit_at_zget d q x) by (done || by rewrite E).
    rewrite testbit_u8, Z.land_spec, Z.lxor_spec, Z.shiftl_1_l, Z.pow2_bits_eqb by lia.
    change 0xFF with (Z.ones 8). rewrite Z.ones_spec_low by lia.
    rewrite (proj2 (Z.ltb_lt (7 - q mod 8) 8)) by lia. simpl.
    rewrite andb_comm. f_equal. split_ltb; done || lia.
  - destruct (Z.eqb_spec q p); [subst; done|done].
Qed.

Lemma bytes_ok_zero n : Z.of_nat n < 2 ^ 56 -> bytes_ok (replicate n 0).
Proof. intros Hn. split; [apply Forall_replicate; lia|by rewrite length_replicate]. Qed.

Lemma bit_at_zero n q : bit_at (replicate n 0) q = false.
Proof.
  unfold bit_at. rewrite nth_lookup. destruct (replicate n 0 !! _) as [x|] eqn:E; simpl.
  - apply lookup_replicate in E as [-> _]. apply Z.bits_0.
  - apply Z.bits_0.
Qed.

Lemma BitSetSIMD_Clear_spec d : bytes_ok d -> rewrites d (BitSetSIMD_Clear d) (fun _ => false).
Proof.
  intros [_ Hl]. unfold BitSetSIMD_Clear. split; [by apply bytes_ok_zero|].
  split; [apply length_replicate|]. intros q _. apply bit_at_zero.
Qed.

(** ** BlockGet *)

(** The part of a byte that [BlockGet] extracts is the field it covers. *)
Lemma byte_field_one x m k :
  0 <= x < 2 ^ 8 -> 0 <= m < 8 -> 0 < k -> m + k <= 8 ->
  exists z, tab2 ONE_BLOCK_MASK m k = Some z /\
    Z.shiftr (Z.land x z) (8 - m - k) =
    be_bits (fun q => Z.testbit x (7 - q)) m (Z.to_nat k).
Proof.
  intros Hx Hm Hk Hmk.
  destruct (mask_ok_spec _ _ m k ONE_BLOCK_MASK_ok) as (z & Hz & Hzb & Hbits); [lia..|].
  exists z. split; [done|]. symmetry. apply be_bits_eq.
  - rewrite Z.shiftr_div_pow2 by lia.
    assert (0 <= Z.land x z) by (apply Z.land_nonneg; lia).
    split; [apply Z.div_pos; lia|].
    apply Z.div_lt_upper_bound; [lia|]. rewrite <- Z.pow_add_r by lia.
    apply Z.log2_lt_cancel. rewrite Z.log2_pow2 by lia.
    destruct (decide (Z.land x z = 0)) as [->|]; [simpl; lia|].
    apply Z.log2_lt_pow2; [lia|].
    apply Z.nle_gt. intros Hle.
    assert (Hb : Z.testbit (Z.land x z) (Z.log2 (Z.land x z)) = true) by (apply Z.bit_log2; lia).
    apply Z.log2_le_mono in Hle. rewrite Z.log2_pow2 in Hle by lia.
    rewrite Z.land_spec in Hb. apply andb_true_iff in Hb as [Hb1 Hb2].
    set (l := Z.log2 (Z.land x z)) in *.
    destruct (Z.ltb_spec l 8).
    + replace l with (7 - (7 - l)) in Hb2 by lia. rewrite Hbits in Hb2 by lia.
      revert Hb2. split_ltb; lia || done.
    + rewrite (testbit_above x 8) in Hb1 by lia. done.
  - intros j Hj. rewrite testbit_shiftr, Z.land_spec.
    rewrite (proj2 (Z.leb_le 0 _)) by lia. simpl.
    replace (Z.of_nat (Z.to_nat k) - 1 - j + (8 - m - k)) with (7 - (m + j)) by lia.
    rewrite Hbits by lia. split_ltb; try lia. by rewrite andb_true_r.
Qed.

(** A field inside one byte, as a field of the vector. *)
Lemma field_in_byte d i x m k :
  0 <= i -> zget d i = Some x -> 0 <= m -> 0 <= k -> m + k <= 8 ->
  be_bits (fun q => Z.testbit x (7 - q)) m (Z.to_nat k) = field d (8 * i + m) k.
Proof.
  intros Hi Hx Hm Hk Hmk. unfold field.
  rewrite (Z.add_comm (8 * i) m), <- (be_bits_shift _ m (8 * i)).
  apply be_bits_ext. intros q Hq.
  assert ((q + 8 * i) / 8 = i) as E by (apply in_byte; lia).
  rewrite (bit_at_zget d (q + 8 * i) x) by (lia || by rewrite E).
  f_equal. pose proof (Z.div_mod (q + 8 * i) 8). lia.
Qed.

Lemma field_app d q a b :
  0 <= a -> 0 <= b -> field d q (a + b) = field d q a * 2 ^ b + field d (q + a) b.
Proof.
  intros Ha Hb. unfold field. rewrite Z2Nat.inj_add, be_bits_app by lia.
  by rewrite !Z2Nat.id by lia.
Qed.

(** The high part of a byte: [x >> (7 - last_mod)]. *)
Lemma byte_high x l :
  0 <= x < 2 ^ 8 -> 0 <= l < 8 ->
  Z.shiftr x (7 - l) = be_bits (fun q => Z.testbit x (7 - q)) 0 (Z.to_nat (l + 1)).
Proof.
  intros Hx Hl. symmetry. apply be_bits_eq.
  - rewrite Z.shiftr_div_pow2 by lia. split; [apply Z.div_pos; lia|].
    apply Z.div_lt_upper_bound; [lia|]. rewrite <- Z.pow_add_r by lia.
    replace (7 - l + Z.of_nat (Z.to_nat (l + 1))) with 8 by lia. lia.
  - intros k Hk. rewrite testbit_shiftr, (proj2 (Z.leb_le 0 _)) by lia. simpl. f_equal. lia.
Qed.

Lemma BlockGet_mid d j l n :
  bytes_ok d -> 0 <= l < 8 -> 0 <= j - Z.of_nat n -> j < Z.of_nat (length d) ->
  l + 1 + 8 * Z.of_nat n <= 32 ->
  for_loop n 1
    (fun idx val =>
       z ← zget d (j - idx);
       s ← shl32 z (8 * (idx - 1) + l + 1);
       Some (u32 (val + s))) (field d (8 * j) (l + 1)) =
  Some (field d (8 * (j - Z.of_nat n)) (8 * Z.of_nat n + (l + 1))).
Proof.
  intros Hd Hl Hj Hjd Hn.
  edestruct (for_loop_inv
    (fun i val => val = field d (8 * (j - (i - 1))) (8 * (i - 1) + (l + 1)))) as (val & E & Hv);
    [| |erewrite E, Hv; f_equal; f_equal; lia].
  - simpl. f_equal. lia.
  - intros i s Hi ->. destruct (zget_is_Some d (j - i)) as [z Hz]; [lia|].
    rewrite Hz; simpl. pose proof (bytes_ok_get _ _ _ Hd Hz) as Hzb.
    unfold shl32. rewrite (proj2 (Z.leb_le _ _)), (proj2 (Z.ltb_lt _ _)) by lia. simpl.
    eexists; split; [done|].
    replace (8 * (i + 1 - 1) + (l + 1)) with (8 + (8 * (i - 1) + (l + 1))) by lia.
    rewrite (field_app d _ 8) by lia.
    replace (8 * (j - (i + 1 - 1)) + 8) with (8 * (j - (i - 1))) by lia.
    replace (8 * (j - (i + 1 - 1))) with (8 * (j - i) + 0) by lia.
    rewrite <- (field_in_byte d (j - i) z 0 8) by (done || lia).
    assert (be_bits (λ q, Z.testbit z (7 - q)) 0 (Z.to_nat 8) = z) as ->.
    { transitivity (Z.shiftr z (7 - 7)); [|apply Z.shiftr_0_r].
      symmetry. exact (byte_high z 7 Hzb ltac:(lia)). }
    rewrite Z.shiftl_mul_pow2 by lia.
    set (w := 8 * (i - 1) + l + 1). replace (8 * (i - 1) + (l + 1)) with w by lia.
    pose proof (field_bound d (8 * (j - (i - 1))) w ltac:(lia)) as Hf.
    assert (0 < 2 ^ w) by (apply Z.pow_pos_nonneg; lia).
    assert (2 ^ 8 * 2 ^ w <= 2 ^ 32) by (rewrite <- Z.pow_add_r by lia; apply Z.pow_le_mono_r; lia).
    rewrite (u32_small (z * 2 ^ w)) by nia. rewrite u32_small by nia. lia.
Qed.

(** Where the source's shifts are defined: the field has at least 8 bits or
    lies in one byte. *)
Definition field_dom (d : list Z) (b n : Z) : Prop :=
  0 <= b /\ 1 <= n <= 32 /\ b + n <= nbits d /\ (8 <= n \/ b mod 8 + n <= 8).

Lemma BitSetSIMD_BlockGet_spec d b n :
  bytes_ok d -> field_dom d b n -> BitSetSIMD_BlockGet d b n = Some (field d b n).
Proof.
  intros Hd (Hb & Hn & Hbn & Hdom). unfold nbits in Hbn. destruct Hd as [Hd Hlen].
  assert (bytes_ok d) as Hok by done.
  unfold BitSetSIMD_BlockGet. rewrite u64_small, !DIVIDE8_div, !MOD8_mod by lia.
  pose proof (Z.div_mod b 8 ltac:(lia)) as Eb. pose proof (Z.mod_pos_bound b 8 ltac:(lia)) as Hm.
  pose proof (Z.div_mod (b + n - 1) 8 ltac:(lia)) as El.
  pose proof (Z.mod_pos_bound (b + n - 1) 8 ltac:(lia)) as Hlm.
  set (i := b / 8) in *. set (m := b mod 8) in *.
  set (j := (b + n - 1) / 8) in *. set (l := (b + n - 1) mod 8) in *.
  destruct (zget_is_Some d i) as [x Hx]; [lia|].
  pose proof (bytes_ok_get _ _ _ Hok Hx) as Hxb.
  destruct (Z.eqb_spec i j) as [Eij|Eij].
  - rewrite Hx; simpl. destruct (byte_field_one x m n) as (z & Hz & E); [lia..|].
    rewrite Hz; simpl. replace (7 - l) with (8 - m - n) by lia. rewrite E.
    rewrite (field_in_byte d i x) by (done || lia). do 2 f_equal. lia.
  - destruct (zget_is_Some d j) as [y Hy]; [lia|].
    pose proof (bytes_ok_get _ _ _ Hok Hy) as Hyb.
    rewrite Hy; simpl. rewrite (byte_high y l), (field_in_byte d j y) by (done || lia).
    replace (8 * j + 0) with (8 * j) by lia.
    rewrite BlockGet_mid by (done || lia). simpl. rewrite Hx; simpl.
    rewrite Z2Nat.id by lia.
    destruct (byte_field_one x m (8 - m)) as (z & Hz & E); [lia..|].
    rewrite Hz; simpl. replace (8 - m - (8 - m)) with 0 in E by lia. rewrite Z.shiftr_0_r in E.
    rewrite E, (field_in_byte d i x) by (done || lia).
    rewrite u32_small, u64_small by lia.
    unfold shl32. rewrite (proj2 (Z.leb_le _ _)), (proj2 (Z.ltb_lt _ _)) by lia. simpl.
    rewrite Z.shiftl_mul_pow2 by lia.
    replace (8 * i + m) with b by lia.
    replace (8 * (j - (j - i - 1))) with (b + (8 - m)) by lia.
    replace (8 * (j - i - 1) + (l + 1)) with (n - 8 + m) by lia.
    pose proof (field_app d b (8 - m) (n - 8 + m) ltac:(lia) ltac:(lia)) as Ea.
    replace (8 - m + (n - 8 + m)) with n in Ea by lia.
    pose proof (field_bound d b n ltac:(lia)).
    pose proof (field_bound d b (8 - m) ltac:(lia)).
    pose proof (field_bound d (b + (8 - m)) (n - 8 + m) ltac:(lia)).
    assert (2 ^ n <= 2 ^ 32) by (apply Z.pow_le_mono_r; lia).
    assert (0 < 2 ^ (n - 8 + m)) by (apply Z.pow_pos_nonneg; lia).
    rewrite (u32_small (_ * _)) by nia. rewrite u32_small by lia. f_equal. lia.
Qed.

(** ** BlockSet *)

(** The byte written by a masked store: the bits [m .. m + k - 1] come from
    the value (its low [k] bits, moved up by [s]), the others stay. *)
Lemma masked_store y z w m k :
  (forall b, 0 <= b < 8 -> Z.testbit z (7 - b) = Bool.eqb false ((m <=? b) && (b <? m + k))) ->
  (forall b, 0 <= b < 8 -> ~ (m <= b < m + k) -> Z.testbit w (7 - b) = false) ->
  forall b, 0 <= b < 8 ->
    Z.testbit (u8 (Z.lor (Z.land y z) w)) (7 - b) =
    if (m <=? b) && (b <? m + k) then Z.testbit w (7 - b) else Z.testbit y (7 - b).
Proof.
  intros Hz Hw b Hb.
  rewrite testbit_u8, Z.lor_spec, Z.land_spec, (Hz b) by done.
  rewrite (proj2 (Z.ltb_lt (7 - b) 8)) by lia. simpl.
  destruct ((m <=? b) && (b <? m + k)) eqn:E; simpl.
  - by rewrite andb_false_r.
  - rewrite andb_true_r, (Hw b), orb_false_r; [done|done|]. intros ?.
    revert E. split_ltb; done || lia.
Qed.

Lemma BlockSet_loop_spec fuel k d e r v :
  bytes_ok d -> (k <= fuel)%nat -> 1 <= r <= 8 -> 0 <= v ->
  Z.of_nat k <= e <= Z.of_nat (length d) -> 8 * Z.of_nat k + r < 2 ^ 32 ->
  exists d', BlockSet_loop fuel d e (8 * Z.of_nat k + r) v =
      Some (d', r, Z.shiftr v (8 * Z.of_nat k)) /\
    rewrites d d' (fun q => if (8 * (e - Z.of_nat k) <=? q) && (q <? 8 * e)
                            then Z.testbit v (8 * e - 1 - q) else bit_at d q).
Proof.
  revert fuel d e v. induction k as [|k IH]; intros fuel d e v Hd Hf Hr Hv He Hs.
  - exists d. split.
    + destruct fuel; simpl BlockSet_loop; (rewrite (proj2 (Z.ltb_ge 8 _)) by lia);
        simpl; by rewrite Z.shiftr_0_r.
    + split; [done|]. split; [done|]. intros q Hq. split_ltb; try done; lia.
  - destruct fuel as [|fuel]; [lia|]. simpl BlockSet_loop.
    rewrite (proj2 (Z.ltb_lt 8 _)) by lia. destruct Hd as [Hd Hlen].
    assert (bytes_ok d) as Hok by done.
    rewrite u64_small by lia. destruct (zget_is_Some d (e - 1)) as [x Hx]; [lia|].
    rewrite Hx; simpl. rewrite Z.land_0_r, Z.lor_0_l, zset_Some by lia. simpl.
    set (d1 := <[Z.to_nat (e - 1) := u8 v]> d).
    assert (zset d (e - 1) (u8 v) = Some d1) as Hs1 by (apply zset_Some; lia).
    assert (bytes_ok d1) as Hok1 by (eapply bytes_ok_set; [done|apply u8_bound|done]).
    assert (length d1 = length d) as Hl1 by (by eapply zset_length).
    destruct (IH fuel d1 (e - 1) (Z.shiftr v 8)) as (d' & E & Hok' & Hl' & Hbits);
      [done|lia|done|by apply Z.shiftr_nonneg|lia|lia|].
    exists d'. rewrite u32_small by lia.
    replace (8 * Z.of_nat (S k) + r - 8) with (8 * Z.of_nat k + r) by lia.
    split; [rewrite E, Z.shiftr_shiftr by lia; do 3 f_equal; lia|].
    split; [done|]. split; [lia|]. intros q Hq. rewrite Hbits by done.
    rewrite (bit_at_zset d (e - 1) (u8 v) d1 q Hq Hs1), testbit_shiftr, testbit_u8.
    pose proof (Z.div_mod q 8 ltac:(lia)). pose proof (Z.mod_pos_bound q 8 ltac:(lia)).
    split_ltb; try lia; try done; f_equal; lia.
Qed.

(** Where [BlockSet] is correct: the field lies in the vector, the first byte's
    index fits [uint8_t], and the value fits the field. *)
Definition set_dom (d : list Z) (b n v : Z) : Prop :=
  0 <= b < 2048 /\ 1 <= n <= 32 /\ b + n <= nbits d /\ 0 <= v < 2 ^ n.

Definition put_field (f : Z -> bool) (b n v : Z) (q : Z) : bool :=
  if (b <=? q) && (q <? b + n) then Z.testbit v (b + n - 1 - q) else f q.

Lemma BlockSet_one_byte d b n v :
  bytes_ok d -> set_dom d b n v -> b / 8 = (b + n - 1) / 8 ->
  exists d', BitSetSIMD_BlockSet d b n v = Some d' /\ rewrites d d' (put_field (bit_at d) b n v).
Proof.
  intros Hd (Hb & Hn & Hbn & Hv) Hone. unfold nbits in Hbn.
  assert (Z.of_nat (length d) < 2 ^ 56) as Hlen by apply Hd.
  unfold BitSetSIMD_BlockSet. rewrite u64_small, !DIVIDE8_div, !MOD8_mod by lia.
  pose proof (Z.div_mod b 8 ltac:(lia)) as Eb. pose proof (Z.mod_pos_bound b 8 ltac:(lia)) as Hm.
  pose proof (Z.div_mod (b + n - 1) 8 ltac:(lia)) as El.
  pose proof (Z.mod_pos_bound (b + n - 1) 8 ltac:(lia)) as Hlm.
  rewrite !u8_small by lia. rewrite Hone, Z.eqb_refl. cbv beta zeta. simpl negb.
  rewrite <- Hone in *. set (i := b / 8) in *. set (m := b mod 8) in *.
  set (l := (b + n - 1) mod 8) in *. cbv iota.
  destruct (mask_ok_spec _ _ m n ZERO_BLOCK_MASK_ok) as (z & Hz & Hzb & Hzbits); [lia..|].
  rewrite Hz; simpl. destruct (zget_is_Some d i) as [y Hy]; [lia|]. rewrite Hy; simpl.
  rewrite zset_Some by lia. eexists; split; [done|].
  eapply byte_update_rewrites; [done|apply u8_bound|by apply zset_Some; lia|].
  intros q Hq. unfold put_field. pose proof (Z.div_mod q 8 ltac:(lia)).
  pose proof (Z.mod_pos_bound q 8 ltac:(lia)).
  destruct (Z.eqb_spec (q / 8) i) as [Ei|Ei].
  - assert (forall b', 0 <= b' < 8 -> ~ (m <= b' < m + n) ->
      Z.testbit (u32 (Z.shiftl v (u8 (7 - l)))) (7 - b') = false) as Hout.
    { intros b' Hb' Hout. rewrite u8_small, testbit_u32, testbit_shiftl by lia.
      destruct (decide (b' < m)); [rewrite (testbit_above v n) by lia|
        rewrite Z.testbit_neg_r by lia]; by rewrite !andb_false_r. }
    rewrite u8_small in Hout by lia.
    rewrite (masked_store y z _ m n Hzbits Hout) by lia.
    rewrite testbit_u32, testbit_shiftl, (bit_at_zget d q y) by (done || by rewrite Ei).
    split_ltb; try lia; try done; f_equal; lia.
  - split_ltb; try lia; done.
Qed.

(** The store into the last byte of a field that spans several. *)
Lemma BlockSet_last_byte d b n v j l x d1 :
  set_dom d b n v -> j = (b + n - 1) / 8 -> l = (b + n - 1) mod 8 -> b / 8 < j ->
  zget d j = Some x ->
  zset d j (u8 (Z.lor (Z.land x (Z.ones (7 - l))) (u32 (Z.shiftl v (7 - l))))) = Some d1 ->
  forall q, 0 <= q ->
    bit_at d1 q = if q / 8 =? j then put_field (bit_at d) b n v q else bit_at d q.
Proof.
  intros (Hb & Hn & Hbn & Hv) Hj Hl Hbj Hx Hs q Hq.
  pose proof (Z.div_mod b 8 ltac:(lia)). pose proof (Z.mod_pos_bound b 8 ltac:(lia)).
  pose proof (Z.div_mod (b + n - 1) 8 ltac:(lia)).
  pose proof (Z.mod_pos_bound (b + n - 1) 8 ltac:(lia)).
  pose proof (Z.div_mod q 8 ltac:(lia)). pose proof (Z.mod_pos_bound q 8 ltac:(lia)).
  rewrite (bit_at_zset d j _ d1 q Hq Hs). unfold put_field.
  destruct (Z.eqb_spec (q / 8) j) as [Ej|Ej]; [|done].
  rewrite testbit_u8, Z.lor_spec, Z.land_spec, testbit_u32, testbit_shiftl.
  rewrite (bit_at_zget d q x) by (done || by rewrite Ej).
  rewrite (proj2 (Z.ltb_lt (7 - q mod 8) 8)), (proj2 (Z.ltb_lt (7 - q mod 8) 32)),
    (proj2 (Z.leb_le 0 (7 - q mod 8))) by lia.
  destruct (Z.ltb_spec q (b + n)).
  - rewrite Z.ones_spec_high by lia. rewrite andb_false_r.
    split_ltb; try lia; f_equal; lia.
  - rewrite Z.ones_spec_low by lia. rewrite (Z.testbit_neg_r v) by lia.
    rewrite andb_true_r, orb_false_r. split_ltb; try lia; f_equal; lia.
Qed.

(** The store into the first byte of a field that spans several. *)
Lemma BlockSet_first_byte d d2 b n v w y z d' :
  set_dom d b n v -> b / 8 < (b + n - 1) / 8 -> bytes_ok d2 -> length d2 = length d ->
  (forall q, 0 <= q -> bit_at d2 q =
    if 8 * (b / 8 + 1) <=? q then put_field (bit_at d) b n v q else bit_at d q) ->
  tab2 ZERO_BLOCK_MASK (b mod 8) (8 - b mod 8) = Some z -> zget d2 (b / 8) = Some y ->
  (forall k, Z.testbit w k = (0 <=? k) && Z.testbit v (k + (n - 8 + b mod 8))) ->
  zset d2 (b / 8) (u8 (Z.lor (Z.land y z) w)) = Some d' ->
  rewrites d d' (put_field (bit_at d) b n v).
Proof.
  intros (Hb & Hn & Hbn & Hv) Hbj Hok2 Hl2 Hd2 Hz Hy Hw Hs.
  pose proof (Z.div_mod b 8 ltac:(lia)). pose proof (Z.mod_pos_bound b 8 ltac:(lia)).
  pose proof (Z.div_mod (b + n - 1) 8 ltac:(lia)).
  pose proof (Z.mod_pos_bound (b + n - 1) 8 ltac:(lia)).
  set (i := b / 8) in *. set (m := b mod 8) in *.
  destruct (mask_ok_spec _ _ m (8 - m) ZERO_BLOCK_MASK_ok) as (z' & Hz' & _ & Hzbits); [lia..|].
  rewrite Hz in Hz'. simplify_eq.
  split; [eapply bytes_ok_set; [done|apply u8_bound|done]|].
  split; [apply zset_length in Hs; lia|]. intros q Hq.
  rewrite (bit_at_zset d2 i _ _ q Hq Hs).
  pose proof (Z.div_mod q 8 ltac:(lia)). pose proof (Z.mod_pos_bound q 8 ltac:(lia)).
  destruct (Z.eqb_spec (q / 8) i) as [Ei|Ei].
  - assert (forall b', 0 <= b' < 8 -> ~ (m <= b' < m + (8 - m)) ->
      Z.testbit w (7 - b') = false) as Hout.
    { intros b' Hb' Hout. rewrite Hw, (testbit_above v n) by lia. by rewrite andb_false_r. }
    rewrite (masked_store y z' _ m (8 - m) Hzbits Hout) by lia.
    rewrite Hw, <- (bit_at_zget d2 q y), Hd2 by (done || by rewrite Ei).
    unfold put_field. split_ltb; try lia; try done; f_equal; lia.
  - rewrite Hd2 by done. unfold put_field. split_ltb; try lia; done.
Qed.

Lemma BlockSet_many_bytes d b n v :
  bytes_ok d -> set_dom d b n v -> b / 8 <> (b + n - 1) / 8 ->
  exists d', BitSetSIMD_BlockSet d b n v = Some d' /\ rewrites d d' (put_field (bit_at d) b n v).
Proof.
  intros Hd Hdom Hmany. pose proof Hdom as (Hb & Hn & Hbn & Hv). unfold nbits in Hbn.
  assert (Z.of_nat (length d) < 2 ^ 56) as Hlen by apply Hd.
  unfold BitSetSIMD_BlockSet. rewrite u64_small, !DIVIDE8_div, !MOD8_mod by lia.
  pose proof (Z.div_mod b 8 ltac:(lia)) as Eb. pose proof (Z.mod_pos_bound b 8 ltac:(lia)) as Hm.
  pose proof (Z.div_mod (b + n - 1) 8 ltac:(lia)) as El.
  pose proof (Z.mod_pos_bound (b + n - 1) 8 ltac:(lia)) as Hlm.
  rewrite !u8_small by lia. rewrite (proj2 (Z.eqb_neq _ _) Hmany). simpl negb. cbv iota.
  set (j := (b + n - 1) / 8) in *. set (l := (b + n - 1) mod 8) in *.
  rewrite LEFT_ONE_MASK_get by lia. bind_step.
  destruct (zget_is_Some d j) as [x Hx]; [lia|]. rewrite Hx; bind_step.
  destruct (zset d j _) as [d1|] eqn:Hs1; [bind_step|rewrite zset_Some in Hs1 by lia; done].
  pose proof (BlockSet_last_byte d b n v j l x d1 Hdom eq_refl eq_refl ltac:(lia) Hx Hs1) as Hd1.
  assert (bytes_ok d1) as Hok1 by (eapply bytes_ok_set; [done|apply u8_bound|done]).
  pose proof (zset_length _ _ _ _ Hs1) as Hl1.
  rewrite u32_small by lia.
  replace (n - (8 - (7 - l)))
    with (8 * Z.of_nat (Z.to_nat (j - b / 8 - 1)) + (8 - b mod 8)) by lia.
  replace (8 - (7 - l)) with (l + 1) by lia.
  edestruct (BlockSet_loop_spec (S (Z.to_nat j)) (Z.to_nat (j - b / 8 - 1)) d1 j (8 - b mod 8)
    (Z.shiftr v (l + 1))) as (d2 & E & Hok2 & Hl2 & Hbits2);
    [done|lia|lia|apply Z.shiftr_nonneg; lia|lia|lia|].
  rewrite E. bind_step. clear E.
  destruct (mask_ok_spec _ _ (b mod 8) (8 - b mod 8) ZERO_BLOCK_MASK_ok) as (z & Hz & _);
    [lia..|].
  rewrite Hz; bind_step. destruct (zget_is_Some d2 (b / 8)) as [y Hy]; [lia|]. rewrite Hy; bind_step.
  rewrite zset_Some by lia. eexists; split; [done|].
  eapply (BlockSet_first_byte d d2 b n v); [done|lia|done|lia| |done|done| |apply zset_Some; lia].
  - intros q Hq. rewrite Hbits2, Hd1 by done. rewrite Z2Nat.id by lia. unfold put_field.
    pose proof (Z.div_mod q 8 ltac:(lia)). pose proof (Z.mod_pos_bound q 8 ltac:(lia)).
    rewrite testbit_shiftr. split_ltb; try lia; try done; f_equal; lia.
  - intros k. rewrite Z.shiftr_shiftr, testbit_shiftr by lia. do 2 f_equal. lia.
Qed.

Lemma BitSetSIMD_BlockSet_spec d b n v :
  bytes_ok d -> set_dom d b n v ->
  exists d', BitSetSIMD_BlockSet d b n v = Some d' /\ rewrites d d' (put_field (bit_at d) b n v).
Proof.
  intros Hd Hs. destruct (decide (b / 8 = (b + n - 1) / 8)).
  - by apply BlockSet_one_byte.
  - by apply BlockSet_many_bytes.
Qed.

(** ** Fields after an update *)

(** Bytes with the same bits are the same. *)
Lemma byte_ext d d' j :
  bytes_ok d -> bytes_ok d' -> length d' = length d ->
  (forall q, 8 * j <= q < 8 * j + 8 -> bit_at d' q = bit_at d q) -> zget d' j = zget d j.
Proof.
  intros Hd Hd' Hl Hq. destruct (zget d j) as [x|] eqn:E.
  - pose proof (zget_Some_inv _ _ _ E) as [Hj _]. destruct (zget_is_Some d' j) as [y Ey]; [lia|].
    rewrite Ey. f_equal. pose proof (bytes_ok_get _ _ _ Hd E) as Hx. pose proof (bytes_ok_get _ _ _ Hd' Ey) as Hy.
    apply Z.bits_inj'. intros n Hn. destruct (Z.ltb_spec n 8) as [H8|H8].
    + specialize (Hq (8 * j + (7 - n)) ltac:(lia)).
      assert ((8 * j + (7 - n)) / 8 = j /\ (8 * j + (7 - n)) mod 8 = 7 - n) as [E1 E2].
      { split; [symmetry; apply (Z.div_unique_pos _ 8 j (7 - n)); lia|
                symmetry; apply (Z.mod_unique_pos _ 8 j (7 - n)); lia]. }
      rewrite (bit_at_zget d _ x), (bit_at_zget d' _ y), E2 in Hq by (rewrite ?E1; done || lia).
      by replace (7 - (7 - n)) with n in Hq by lia.
    + by rewrite (testbit_above x 8 n), (testbit_above y 8 n) by lia.
  - destruct (zget d' j) as [y|] eqn:Ey; [|done]. apply zget_Some_inv in Ey as [Hj _].
    destruct (zget_is_Some d j) as [x Ex]; [lia|congruence].
Qed.

Lemma rewrites_field d d' f q n :
  rewrites d d' f -> 0 <= q -> 0 <= n -> field d' q n = be_bits f q (Z.to_nat n).
Proof. intros (_ & _ & H) Hq Hn. apply be_bits_ext. intros i Hi. apply H. lia. Qed.

Lemma field_put_same d d' b n v :
  rewrites d d' (put_field (bit_at d) b n v) -> 0 <= b -> 0 <= n -> 0 <= v < 2 ^ n ->
  field d' b n = v.
Proof.
  intros Hd Hb Hn Hv. rewrite (rewrites_field _ _ _ _ _ Hd) by done.
  apply be_bits_eq; [by rewrite Z2Nat.id|]. intros k Hk. unfold put_field.
  split_ltb; try lia; f_equal; lia.
Qed.

Lemma field_put_other d d' b n v q k :
  rewrites d d' (put_field (bit_at d) b n v) -> 0 <= q -> 0 <= k -> q + k <= b \/ b + n <= q ->
  field d' q k = field d q k.
Proof.
  intros Hd Hq Hk Hdisj. rewrite (rewrites_field _ _ _ _ _ Hd) by done.
  apply be_bits_ext. intros i Hi. unfold put_field. split_ltb; try lia; done.
Qed.

Lemma field_zero d q n :
  0 <= q -> 0 <= n -> (forall i, q <= i < q + n -> bit_at d i = false) -> field d q n = 0.
Proof.
  intros Hq Hn H. apply be_bits_eq; [split; [lia|apply Z.pow_pos_nonneg; lia]|].
  intros k Hk. rewrite H by lia. symmetry. apply Z.bits_0.
Qed.

(** ** Search *)

(** The [k] consecutive fields of width [w] from [b]. *)
Definition fields (d : list Z) (b w : Z) (k : nat) : list Z :=
  map (fun i => field d (b + Z.of_nat i * w) w) (seq 0 k).

Lemma fields_S d b w k : fields d b w (S k) = field d b w :: fields d (b + w) w k.
Proof.
  unfold fields. simpl. f_equal; [f_equal; lia|].
  rewrite <- seq_shift, map_map. apply map_ext. intros i. f_equal. lia.
Qed.

Lemma fields_length d b w k : length (fields d b w k) = k.
Proof. unfold fields. by rewrite length_map, length_seq. Qed.

Lemma fields_app d b w k1 k2 :
  fields d b w (k1 + k2) = fields d b w k1 ++ fields d (b + Z.of_nat k1 * w) w k2.
Proof.
  revert b. induction k1 as [|k1 IH]; intros b; simpl Nat.add.
  - simpl. f_equal. lia.
  - rewrite !fields_S, IH. simpl. do 3 f_equal. lia.
Qed.

Lemma fields_lookup d b w k i x :
  fields d b w k !! i = Some x -> (i < k)%nat /\ x = field d (b + Z.of_nat i * w) w.
Proof.
  intros Hx. pose proof (lookup_lt_Some _ _ _ Hx) as Hlt. rewrite fields_length in Hlt.
  split; [done|]. unfold fields in Hx. apply list_lookup_fmap_Some in Hx as (y & -> & Hy).
  apply lookup_seq in Hy as [-> _]. done.
Qed.

Lemma fields_bound d b w k : 0 <= w -> Forall (fun x => 0 <= x < 2 ^ w) (fields d b w k).
Proof.
  intros Hw. apply Forall_lookup. intros i x [_ ->]%fields_lookup. by apply field_bound.
Qed.

(** The domain of a run of fields. *)
Definition fields_dom (d : list Z) (b w k : Z) : Prop :=
  0 <= b /\ 0 <= k /\ 8 <= w <= 32 /\ b + k * w <= nbits d.

Lemma fields_dom_field d b w k i :
  fields_dom d b w k -> 0 <= i < k -> field_dom d (b + i * w) w.
Proof. intros (Hb & Hk & Hw & Hn) Hi. repeat split; try lia; nia. Qed.

Lemma fields_dom_tail d b w k :
  fields_dom d b w (Z.succ k) -> 0 <= k -> fields_dom d (b + w) w k.
Proof. intros (Hb & Hk & Hw & Hn) Hi. repeat split; try lia; nia. Qed.

(** The reference search: the first field that is not below the value decides. *)
Fixpoint ordered_search (l : list Z) (v : Z) : PairType :=
  match l with
  | [] => NonNeighbor
  | x :: l' =>
      if x =? v then Neighbor else if v <? x then NonNeighbor else ordered_search l' v
  end.

Lemma BitSetSIMD_BlockFind_spec d b w k v :
  bytes_ok d -> fields_dom d b w k ->
  BitSetSIMD_BlockFind d b w k v = Some (ordered_search (fields d b w (Z.to_nat k)) v).
Proof.
  intros Hd Hdom. unfold BitSetSIMD_BlockFind.
  rewrite (proj2 (Z.eqb_neq w 0)) by (unfold fields_dom in Hdom; lia).
  rewrite <- (Z2Nat.id k) in Hdom by apply Hdom.
  generalize dependent b. induction (Z.to_nat k) as [|n IH]; intros b Hdom; [done|].
  simpl BlockFind_loop. rewrite fields_S. simpl.
  rewrite Nat2Z.inj_succ in Hdom.
  rewrite BitSetSIMD_BlockGet_spec;
    [|done|replace b with (b + 0 * w) by lia; eapply fields_dom_field; [done|lia]].
  simpl. destruct (_ =? v); [done|]. destruct (v <? _); [done|].
  apply IH, fields_dom_tail; [done|lia].
Qed.

(** On a sorted run of fields followed by zero padding the early exit is sound. *)
Lemma ordered_search_sorted l n v :
  Sorted Z.le l -> 0 < v ->
  ordered_search (l ++ replicate n 0) v = if bool_decide (v ∈ l) then Neighbor else NonNeighbor.
Proof.
  intros Hl%Sorted_StronglySorted Hv; [|intros ???; lia].
  induction l as [|x l IH]; cbn [app ordered_search].
  - rewrite bool_decide_eq_false_2 by apply not_elem_of_nil.
    induction n as [|n IH]; [done|]. cbn [replicate ordered_search].
    rewrite (proj2 (Z.eqb_neq 0 v)), (proj2 (Z.ltb_ge v 0)) by lia. done.
  - apply StronglySorted_inv in Hl as [Hl Hx]. rewrite IH by done.
    destruct (Z.eqb_spec x v) as [->|Hne].
    { by rewrite bool_decide_eq_true_2 by set_solver. }
    destruct (Z.ltb_spec v x).
    + rewrite bool_decide_eq_false_2; [done|]. rewrite elem_of_cons. intros [->|Hin]; [done|].
      rewrite Forall_forall in Hx. apply Hx in Hin. lia.
    + rewrite (bool_decide_ext (v ∈ l) (v ∈ x :: l)); [done|]. set_solver.
Qed.

Lemma mm_movemask_nonzero m : negb (mm_movemask m =? 0) = existsb id m.
Proof.
  assert (0 <= mm_movemask m) as Hpos by (induction m as [|[] m]; simpl; lia).
  induction m as [|b m IH]; simpl; [done|].
  assert (0 <= mm_movemask m) by (clear; induction m as [|[] m]; simpl; lia).
  destruct b; simpl.
  - rewrite (proj2 (Z.eqb_neq _ 0)) by lia. done.
  - simpl in Hpos. rewrite <- IH by lia. f_equal.
    destruct (Z.eqb_spec (mm_movemask m) 0), (Z.eqb_spec (2 * mm_movemask m) 0); lia || done.
Qed.

(** A group of four lanes matches when one of them is the value. *)
Lemma lanes_eq a b c e v :
  Forall (fun x => 0 <= x < 2 ^ 32) [a; b; c; e] -> 0 <= v < 2 ^ 32 ->
  negb (mm_movemask (mm_cmpeq_epi32 (mm_set_epi32 a b c e) (mm_set1_epi32 v)) =? 0) =
  existsb (Z.eqb v) [a; b; c; e].
Proof.
  intros Hl Hv. rewrite mm_movemask_nonzero.
  repeat match goal with H : Forall _ (_ :: _) |- _ => apply Forall_cons in H as [? H] end.
  cbn -[u32]. rewrite !u32_small by done. unfold id.
  rewrite (Z.eqb_sym a), (Z.eqb_sym b), (Z.eqb_sym c), (Z.eqb_sym e).
  destruct (v =? a), (v =? b), (v =? c), (v =? e); done.
Qed.

Lemma field_lane d b w : 8 <= w <= 32 -> 0 <= field d b w < 2 ^ 32.
Proof.
  intros Hw. pose proof (field_bound d b w ltac:(lia)).
  assert (2 ^ w <= 2 ^ 32) by (apply Z.pow_le_mono_r; lia). lia.
Qed.

Lemma BlockFindSIMD_loop_spec d b w v n shift :
  bytes_ok d -> fields_dom d (b + shift) w (4 * Z.of_nat n) -> 0 <= v < 2 ^ 32 ->
  exists s, BlockFindSIMD_loop d n b shift w (mm_set1_epi32 v) =
      Some (existsb (Z.eqb v) (fields d (b + shift) w (4 * n)), s) /\
    (existsb (Z.eqb v) (fields d (b + shift) w (4 * n)) = false ->
     s = shift + 4 * Z.of_nat n * w).
Proof.
  intros Hd Hdom Hv. revert shift Hdom. induction n as [|n IH]; intros shift Hdom.
  { exists shift. split; [done|]. intros _. lia. }
  pose proof Hdom as (Hb & _ & Hw & Hn). unfold BlockFindSIMD_loop; fold BlockFindSIMD_loop.
  rewrite !BitSetSIMD_BlockGet_spec by (done ||
    (repeat split; try lia; nia)). bind_step.
  replace (4 * S n)%nat with (4 + 4 * n)%nat by lia.
  rewrite fields_app, existsb_app. change (fields d (b + shift) w 4) with
    (fields d (b + shift) w (S (S (S (S O))))). rewrite !fields_S.
  change (fields d _ w 0) with (@nil Z).
  replace (b + shift + w * 2) with (b + shift + w + w) by lia.
  replace (b + shift + w * 3) with (b + shift + w + w + w) by lia.
  rewrite lanes_eq by (done || (repeat constructor; apply field_lane; lia)).
  destruct (existsb (Z.eqb v) [_; _; _; _]) eqn:E; simpl orb.
  - exists shift. done.
  - destruct (IH (shift + w * 4)) as (s & Hs & Hsh).
    { repeat split; try lia; nia. }
    replace (b + (shift + w * 4)) with (b + shift + Z.of_nat 4 * w) in * by lia.
    exists s. split; [done|]. intros Hf. rewrite Hsh by done. lia.
Qed.

Lemma BitSetSIMD_BlockFindSIMD_spec d b w k v :
  bytes_ok d -> fields_dom d b w k -> 0 < v < 2 ^ 32 ->
  BitSetSIMD_BlockFindSIMD d b w k v =
  Some (if bool_decide (v ∈ fields d b w (Z.to_nat k)) then Neighbor else NonNeighbor).
Proof.
  intros Hd Hdom Hv. pose proof Hdom as (Hb & Hk & Hw & Hn).
  pose proof (Z.div_mod k 4 ltac:(lia)) as Ek. pose proof (Z.mod_pos_bound k 4 ltac:(lia)).
  assert (forall l, bool_decide (v ∈ l) = existsb (Z.eqb v) l) as Hex.
  { intros l. apply eq_true_iff_eq. rewrite bool_decide_eq_true, existsb_exists.
    setoid_rewrite Z.eqb_eq. setoid_rewrite <- list_elem_of_In. naive_solver. }
  rewrite Hex. unfold BitSetSIMD_BlockFindSIMD.
  destruct (BlockFindSIMD_loop_spec d b w v (Z.to_nat (k / 4)) 0) as (s & -> & Hs);
    [done|repeat split; try lia; nia|lia|]. bind_step.
  rewrite Z.add_0_r in *.
  replace (Z.to_nat k) with (4 * Z.to_nat (k / 4) + Z.to_nat (k mod 4))%nat by lia.
  rewrite fields_app, existsb_app. destruct (existsb _ (fields d b w _)); [done|].
  rewrite Hs, orb_false_l by done.
  replace (b + Z.of_nat (4 * Z.to_nat (k / 4)) * w)
    with (b + (0 + 4 * Z.of_nat (Z.to_nat (k / 4)) * w)) by lia.
  set (c := b + (0 + 4 * Z.of_nat (Z.to_nat (k / 4)) * w)).
  assert (fields_dom d c w (k mod 4)) as Hc by (unfold c; repeat split; try lia; nia).
  clearbody c. clear Hs Hex Ek Hn Hdom.
  assert (k mod 4 = 0 \/ k mod 4 = 1 \/ k mod 4 = 2 \/ k mod 4 = 3) as [E|[E|[E|E]]] by lia;
    rewrite E in *; [done|..]; simpl Z.eqb; cbv iota.
  all: pose proof Hc as (Hc1 & _ & _ & Hc2).
  all: rewrite !BitSetSIMD_BlockGet_spec by (done || (repeat split; lia)); bind_step.
  all: rewrite lanes_eq by (lia || (repeat constructor; apply field_lane || idtac; lia)).
  all: change (Z.to_nat 1) with 1%nat; change (Z.to_nat 2) with 2%nat;
       change (Z.to_nat 3) with 3%nat.
  all: rewrite ?fields_S; change (fields d _ w 0) with (@nil Z).
  all: replace (c + w * 2) with (c + w + w) by lia.
  all: cbn [existsb]; rewrite ?(proj2 (Z.eqb_neq v 0)) by lia.
  - by destruct (v =? field d c w).
  - by destruct (v =? field d c w), (v =? field d (c + w) w).
  - by destruct (v =? field d c w), (v =? field d (c + w) w), (v =? field d (c + w + w) w).
Qed.

(** ** Storing a list of fields

    The loop every encoder uses: the values of a list are stored in consecutive
    fields of [w] bits. *)

Definition store_step (w : Z) (v : Z) (st : list Z * Z) : option (list Z * Z) :=
  let '(d, index) := st in
  d ← BitSetSIMD_BlockSet d index w v; Some (d, u32 (index + w)).

Lemma store_fields_spec w l d b :
  bytes_ok d -> 0 <= b -> 1 <= w <= 32 -> b + Z.of_nat (length l) * w <= nbits d ->
  nbits d <= 2048 -> Forall (fun v => 0 <= v < 2 ^ w) l ->
  exists d', foldM (store_step w) l (d, b) = Some (d', b + Z.of_nat (length l) * w) /\
    bytes_ok d' /\ length d' = length d /\ fields d' b w (length l) = l /\
    forall q, 0 <= q -> q < b \/ b + Z.of_nat (length l) * w <= q -> bit_at d' q = bit_at d q.
Proof.
  revert d b. induction l as [|v l IH]; intros d b Hd Hb Hw Hfit Hmax Hl.
  { exists d. simpl foldM. replace (b + Z.of_nat (length []) * w) with b by (simpl; lia).
    repeat split; try done; apply Hd. }
  apply Forall_cons in Hl as [Hv Hl]. simpl length in *. rewrite Nat2Z.inj_succ in *.
  destruct (BitSetSIMD_BlockSet_spec d b w v Hd) as (d1 & E1 & Hr1); [repeat split; lia|].
  pose proof Hr1 as (Hok1 & Hl1 & Hb1). pose proof (rewrites_nbits _ _ _ Hr1) as Hn1.
  destruct (IH d1 (b + w)) as (d' & E & Hok & Hl' & Hf & Hbits); [done|lia|done|lia|lia|done|].
  exists d'. cbn [foldM].
  assert (store_step w v (d, b) = Some (d1, b + w)) as ->.
  { unfold store_step. rewrite E1. bind_step. rewrite u32_small by lia. done. }
  bind_step. rewrite E.
  replace (b + w + Z.of_nat (length l) * w) with (b + Z.succ (Z.of_nat (length l)) * w) in * by lia.
  split; [done|]. split; [done|]. split; [congruence|]. split.
  - rewrite fields_S, Hf. f_equal. rewrite <- (field_put_same d d1 b w v) by (done || lia).
    apply field_ext; [lia|]. intros i Hi. apply Hbits; lia.
  - intros q Hq Hout. rewrite Hbits, Hb1 by lia. unfold put_field. split_ltb; lia || done.
Qed.

(** Two vectors that agree on a run of fields. *)
Lemma fields_ext d d' b w k :
  0 <= w -> (forall q, b <= q < b + Z.of_nat k * w -> bit_at d q = bit_at d' q) ->
  fields d b w k = fields d' b w k.
Proof.
  intros Hw. revert b. induction k as [|k IH]; intros b H; [done|].
  rewrite !fields_S, (IH (b + w)), (field_ext d d') by (intros; try apply H; lia). done.
Qed.

Lemma fields_zero d b w k :
  0 <= b -> 0 <= w -> (forall q, b <= q < b + Z.of_nat k * w -> bit_at d q = false) ->
  fields d b w k = replicate k 0.
Proof.
  intros Hb Hw. revert b Hb. induction k as [|k IH]; intros b Hb H; [done|].
  rewrite fields_S, IH, field_zero by (intros; try apply H; lia). done.
Qed.

(** ** Setting a list of bits *)

Lemma set_bits_spec {A} (h : A -> option Z) (pos : A -> Z) l d :
  bytes_ok d -> (forall x, In x l -> h x = Some (pos x) /\ 0 <= pos x < nbits d) ->
  exists d', foldM (fun x d => p ← h x; BitSetSIMD_SetOne d p) l d = Some d' /\
    rewrites d d' (fun q => bit_at d q || bool_decide (q ∈ map pos l)).
Proof.
  revert d. induction l as [|x l IH]; intros d Hd Hl.
  { exists d. split; [done|]. split; [done|]. split; [done|]. intros q Hq. cbn [map].
    rewrite (bool_decide_eq_false_2 (q ∈ [])) by apply not_elem_of_nil. by rewrite orb_false_r. }
  destruct (Hl x) as [Hx Hp]; [by left|].
  destruct (BitSetSIMD_SetOne_spec d (pos x) Hd Hp) as (d1 & E1 & Hr1).
  pose proof (rewrites_nbits _ _ _ Hr1) as Hn1. destruct Hr1 as (Hok1 & Hl1 & Hb1).
  destruct (IH d1 Hok1) as (d' & E & Hok & Hlen & Hb).
  { intros y Hy. rewrite Hn1. apply Hl. by right. }
  exists d'. cbn [foldM]. rewrite Hx. bind_step. rewrite E1. bind_step. split; [done|].
  split; [done|]. split; [congruence|]. intros q Hq. rewrite Hb, Hb1 by done. cbn [map].
  rewrite (bool_decide_ext (q ∈ pos x :: map pos l) (q = pos x \/ q ∈ map pos l)) by apply elem_of_cons.
  rewrite bool_decide_or. destruct (Z.eqb_spec q (pos x)) as [->|Hne].
  - rewrite (bool_decide_eq_true_2 (pos x = pos x)) by done. by rewrite orb_true_r.
  - rewrite (bool_decide_eq_false_2 (q = pos x)) by done. done.
Qed.

(** ** Serialisation *)

Definition dump_word (d : list Z) (i : Z) : Z :=
  u32 (Z.shiftl (nth (Z.to_nat (4 * i)) d 0) 24 + Z.shiftl (nth (Z.to_nat (4 * i + 1)) d 0) 16
       + Z.shiftl (nth (Z.to_nat (4 * i + 2)) d 0) 8 + nth (Z.to_nat (4 * i + 3)) d 0).

Lemma BitSetSIMD_Dump_spec d :
  Z.of_nat (length d) mod 4 = 0 ->
  BitSetSIMD_Dump d = Some (map (fun n => dump_word d (Z.of_nat n)) (seq 0 (length d / 4))).
Proof.
  intros Hl. unfold BitSetSIMD_Dump. rewrite Hl. cbn [guardb Z.eqb]. bind_step.
  assert (Z.of_nat (length d) = 4 * Z.of_nat (length d / 4)) as Hn.
  { rewrite Nat2Z.inj_div. pose proof (Z.div_mod (Z.of_nat (length d)) 4). lia. }
  match goal with |- foldM ?f ?l ?s = _ =>
    destruct (foldM_inv (fun pre ws => ws = map (fun n => dump_word d (Z.of_nat n)) pre) f l s)
      as (ws & Hs & Heq); [done| |by rewrite Hs, Heq] end.
  intros pre x post ws Hsplit ->.
  assert (x < length d / 4)%nat.
  { assert (In x (seq 0 (length d / 4))) as Hin%in_seq; [|lia].
    rewrite Hsplit. apply in_app_iff. right. by left. }
  cbv zeta. rewrite !(zget_nth 0) by lia. bind_step.
  eexists. split; [done|]. by rewrite map_app.
Qed.

Lemma digit_of h b r k :
  0 <= k -> 0 <= b < 2 ^ 8 -> 0 <= r < 2 ^ k ->
  (((h * 2 ^ 8 + b) * 2 ^ k + r) / 2 ^ k) mod 2 ^ 8 = b.
Proof.
  intros Hk Hb Hr. rewrite Z.div_add_l, (Z.div_small r), Z.add_0_r by lia.
  rewrite Z.add_comm, Z.mod_add by lia. by apply Z.mod_small.
Qed.

(** The four bytes of a big-endian word. *)
Lemma word_bytes a b c e :
  0 <= a < 2 ^ 8 -> 0 <= b < 2 ^ 8 -> 0 <= c < 2 ^ 8 -> 0 <= e < 2 ^ 8 ->
  let x := u32 (Z.shiftl a 24 + Z.shiftl b 16 + Z.shiftl c 8 + e) in
  Z.shiftr (Z.land x 0xff000000) 24 = a /\ Z.shiftr (Z.land x 0x00ff0000) 16 = b /\
  Z.shiftr (Z.land x 0x0000ff00) 8 = c /\ Z.land x 0x000000ff = e.
Proof.
  intros Ha Hb Hc He x. subst x. rewrite !Z.shiftl_mul_pow2 by lia. rewrite u32_small by lia.
  set (x := a * 2 ^ 24 + b * 2 ^ 16 + c * 2 ^ 8 + e).
  assert (forall k, 0 <= k <= 24 -> Z.shiftr (Z.land x (Z.shiftl (Z.ones 8) k)) k = (x / 2 ^ k) mod 2 ^ 8) as Hx.
  { intros k Hk. rewrite Z.shiftr_land, Z.shiftr_shiftl_l, Z.sub_diag by lia.
    rewrite Z.shiftl_0_r, Z.land_ones, Z.shiftr_div_pow2 by lia. done. }
  pose proof (Hx 24 ltac:(lia)) as H24. pose proof (Hx 16 ltac:(lia)) as H16.
  pose proof (Hx 8 ltac:(lia)) as H8. pose proof (Hx 0 ltac:(lia)) as H0. clear Hx.
  change (Z.shiftl (Z.ones 8) 24) with 0xff000000 in H24.
  change (Z.shiftl (Z.ones 8) 16) with 0x00ff0000 in H16.
  change (Z.shiftl (Z.ones 8) 8) with 0x0000ff00 in H8.
  change (Z.shiftl (Z.ones 8) 0) with 0x000000ff in H0. rewrite Z.shiftr_0_r in H0.
  rewrite H24, H16, H8, H0. unfold x. clear x H24 H16 H8 H0. repeat split.
  - rewrite <- (digit_of 0 a (b * 2 ^ 16 + c * 2 ^ 8 + e) 24) at 2 by lia. do 2 f_equal. ring.
  - rewrite <- (digit_of a b (c * 2 ^ 8 + e) 16) at 2 by lia. do 2 f_equal. ring.
  - rewrite <- (digit_of (a * 2 ^ 8 + b) c e 8) at 2 by lia. do 2 f_equal. ring.
  - rewrite <- (digit_of ((a * 2 ^ 8 + b) * 2 ^ 8 + c) e 0 0) at 2 by lia. do 2 f_equal. ring.
Qed.

Lemma BitSetSIMD_BlockSet32_spec d ws :
  4 * Z.of_nat (length ws) = Z.of_nat (length d) ->
  exists d', BitSetSIMD_BlockSet32 d ws = Some d' /\ length d' = length d /\
    forall i, 0 <= i < Z.of_nat (length ws) -> forall x, zget ws i = Some x ->
      zget d' (4 * i + 3) = Some (Z.land x 0x000000ff) /\
      zget d' (4 * i + 2) = Some (Z.shiftr (Z.land x 0x0000ff00) 8) /\
      zget d' (4 * i + 1) = Some (Z.shiftr (Z.land x 0x00ff0000) 16) /\
      zget d' (4 * i) = Some (Z.shiftr (Z.land x 0xff000000) 24).
Proof.
  intros Hl. unfold BitSetSIMD_BlockSet32.
  rewrite (proj2 (Z.eqb_eq _ _)) by lia. cbn [guardb]; bind_step.
  match goal with |- exists d', foldM ?f ?l ?s = _ /\ _ =>
    destruct (foldM_inv (fun pre s => length s = length d /\
      pre = seq 0 (length pre) /\
      forall i, 0 <= i < Z.of_nat (length pre) -> forall x, zget ws i = Some x ->
      zget s (4 * i + 3) = Some (Z.land x 0x000000ff) /\
      zget s (4 * i + 2) = Some (Z.shiftr (Z.land x 0x0000ff00) 8) /\
      zget s (4 * i + 1) = Some (Z.shiftr (Z.land x 0x00ff0000) 16) /\
      zget s (4 * i) = Some (Z.shiftr (Z.land x 0xff000000) 24)) f l s)
      as (d' & Hs & Hlen & _ & Hd'); [split; [done|]; split; [done|]; simpl; lia| |] end.
  2: { exists d'. rewrite Hs. rewrite length_seq in Hd'. done. }
  intros pre n post s Hsplit (Hls & Hpre & Hdone).
  assert (n = length pre /\ (length pre < length ws)%nat) as [-> Hn].
  { assert (seq 0 (length ws) !! length pre = Some n) as Hx
      by (rewrite Hsplit, lookup_app_r, Nat.sub_diag; done).
    apply lookup_seq in Hx. lia. }
  cbv zeta. destruct (zget_is_Some ws (Z.of_nat (length pre))) as [x Hx]; [lia|].
  rewrite Hx; bind_step.
  rewrite (zset_Some s) by lia; bind_step. rewrite (zset_Some (<[_ := _]> s)) by (rewrite !length_insert; lia).
  bind_step. rewrite (zset_Some (<[_ := _]> (<[_ := _]> s))) by (rewrite !length_insert; lia). bind_step.
  rewrite zset_Some by (rewrite !length_insert; lia).
  eexists. split; [done|]. rewrite !length_insert. split; [done|]. split.
  { rewrite length_app, seq_app. simpl. by f_equal. }
  rewrite length_app; simpl. intros i Hi y Hy.
  rewrite !zget_lookup in * by lia.
  destruct (Z.eqb_spec i (Z.of_nat (length pre))) as [->|Hne].
  - rewrite Hy in Hx. simplify_eq.
    repeat split; rewrite ?list_lookup_insert_ne by lia; apply list_lookup_insert_eq;
      rewrite ?length_insert; lia.
  - destruct (Hdone i ltac:(lia) y) as (H3 & H2 & H1 & H0); [by rewrite zget_lookup by lia|].
    rewrite !zget_lookup in * by lia.
    repeat split; rewrite ?list_lookup_insert_ne by lia; done.
Qed.

Lemma Dump_BlockSet32 d d0 :
  bytes_ok d -> Z.of_nat (length d) mod 4 = 0 -> length d0 = length d ->
  exists ws, BitSetSIMD_Dump d = Some ws /\ 4 * Z.of_nat (length ws) = Z.of_nat (length d) /\
    Forall (fun x => 0 <= x < 2 ^ 32) ws /\ BitSetSIMD_BlockSet32 d0 ws = Some d.
Proof.
  intros Hd Hl Hl0. rewrite BitSetSIMD_Dump_spec by done. eexists; split; [done|].
  rewrite length_map, length_seq.
  assert (Z.of_nat (length d) = 4 * Z.of_nat (length d / 4)) as Hn.
  { rewrite Nat2Z.inj_div. pose proof (Z.div_mod (Z.of_nat (length d)) 4). lia. }
  split; [done|]. split.
  { apply Forall_forall. intros x Hx%list_elem_of_In%in_map_iff.
    destruct Hx as (n & <- & _). apply u32_bound. }
  set (ws := map _ _). assert (length ws = (length d / 4)%nat) as Hws
    by (unfold ws; by rewrite length_map, length_seq).
  destruct (BitSetSIMD_BlockSet32_spec d0 ws) as (d' & -> & Hl' & Hget); [lia|]. f_equal.
  apply list_eq_same_length with (n := length d); [done|lia|].
  intros k x y Hk Hx Hy.
  set (i := Z.of_nat k / 4). pose proof (Z.div_mod (Z.of_nat k) 4 ltac:(lia)) as Ei.
  pose proof (Z.mod_pos_bound (Z.of_nat k) 4 ltac:(lia)) as Hm. fold i in Ei.
  assert (zget ws i = Some (dump_word d i)) as Hwi.
  { rewrite zget_lookup by lia. unfold ws.
    apply list_lookup_fmap_Some. exists (Z.to_nat i). split; [f_equal; lia|].
    apply lookup_seq. lia. }
  assert (forall j, 0 <= j < Z.of_nat (length d) -> 0 <= nth (Z.to_nat j) d 0 < 2 ^ 8) as Hbyte.
  { intros j Hj. eapply bytes_ok_get; [done|by apply zget_nth]. }
  destruct (Hget i ltac:(lia) _ Hwi) as (G3 & G2 & G1 & G0).
  unfold dump_word in *.
  pose proof (word_bytes (nth (Z.to_nat (4 * i)) d 0) (nth (Z.to_nat (4 * i + 1)) d 0)
    (nth (Z.to_nat (4 * i + 2)) d 0) (nth (Z.to_nat (4 * i + 3)) d 0)
    ltac:(apply Hbyte; lia) ltac:(apply Hbyte; lia) ltac:(apply Hbyte; lia)
    ltac:(apply Hbyte; lia)) as (W0 & W1 & W2 & W3).
  rewrite W0 in G0. rewrite W1 in G1. rewrite W2 in G2. rewrite W3 in G3.
  rewrite zget_lookup in G0, G1, G2, G3 by lia.
  assert (y = nth k d 0) as -> by (symmetry; by apply nth_lookup_Some).
  assert (Z.of_nat k = 4 * i \/ Z.of_nat k = 4 * i + 1 \/ Z.of_nat k = 4 * i + 2 \/
    Z.of_nat k = 4 * i + 3) as [E|[E|[E|E]]] by lia; rewrite <- E in *; rewrite Nat2Z.id in *; congruence.
Qed.

(** * Properties *)

(** C14: a value stored by [BlockSet] is read back by [BlockGet] at the same
    place, whatever bytes the field spans; the store neither fails nor changes
    the vector's size, and every field disjoint from it reads as before. *)
Theorem BlockSet_BlockGet (d : list Z) (b n v : Z)
    (Hd : bytes_ok d) (Hs : set_dom d b n v) (Hg : field_dom d b n) :
  exists d', BitSetSIMD_BlockSet d b n v = Some d' /\ bytes_ok d' /\ length d' = length d /\
    BitSetSIMD_BlockGet d' b n = Some v /\
    forall q k, field_dom d q k -> q + k <= b \/ b + n <= q ->
      BitSetSIMD_BlockGet d' q k = BitSetSIMD_BlockGet d q k.
Proof.
  destruct (BitSetSIMD_BlockSet_spec d b n v Hd Hs) as (d' & -> & Hr).
  pose proof Hr as (Hok & Hlen & _). exists d'. split; [done|]. split; [done|]. split; [done|].
  assert (forall q k, field_dom d q k -> field_dom d' q k) as Hdom.
  { intros q k. unfold field_dom, nbits. by rewrite Hlen. }
  destruct Hs as (Hb & Hn & Hfit & Hv). split.
  - rewrite BitSetSIMD_BlockGet_spec by auto. f_equal.
    apply (field_put_same d d' b n v); done || lia.
  - intros q k Hq Hdisj. rewrite !BitSetSIMD_BlockGet_spec by auto. f_equal.
    destruct Hq as (? & ? & _). eapply field_put_other; done || lia.
Qed.

Lemma BlockSet_BlockGet_witness :
  exists d', BitSetSIMD_BlockSet (repeat 0xA5 8) 13 20 0x9ABCD = Some d' /\ bytes_ok d' /\
    length d' = 8%nat /\ BitSetSIMD_BlockGet d' 13 20 = Some 0x9ABCD /\
    forall q k, field_dom (repeat 0xA5 8) q k -> q + k <= 13 \/ 33 <= q ->
      BitSetSIMD_BlockGet d' q k = BitSetSIMD_BlockGet (repeat 0xA5 8) q k.
Proof.
  apply (BlockSet_BlockGet (repeat 0xA5 8) 13 20 0x9ABCD).
  - split; [repeat constructor; done|done].
  - repeat split; vm_compute; congruence.
  - split; [vm_compute; congruence|]. split; [done|]. split; [vm_compute; congruence|].
    left; vm_compute; congruence.
Defined.

(** C15: on a run of fields that is sorted and zero-padded (the layout every
    encoder writes), the scalar search with its early exit and the four-lane
    SSE search give the same answer, and it is membership. *)
Theorem BlockFind_BlockFindSIMD (d : list Z) (b w k v : Z) (l : list Z) (z : nat)
    (Hd : bytes_ok d) (Hdom : fields_dom d b w k) (Hv : 0 < v < 2 ^ 32)
    (Hl : fields d b w (Z.to_nat k) = l ++ replicate z 0) (Hsorted : Sorted Z.le l) :
  BitSetSIMD_BlockFind d b w k v = BitSetSIMD_BlockFindSIMD d b w k v /\
  BitSetSIMD_BlockFind d b w k v =
    Some (if bool_decide (v ∈ l) then Neighbor else NonNeighbor).
Proof.
  rewrite BitSetSIMD_BlockFind_spec, BitSetSIMD_BlockFindSIMD_spec, Hl by done.
  rewrite ordered_search_sorted by (done || lia). split; [|done].
  rewrite (bool_decide_ext (v ∈ l ++ replicate z 0) (v ∈ l)); [done|].
  rewrite elem_of_app, elem_of_replicate. naive_solver lia.
Qed.

Lemma BlockFind_BlockFindSIMD_witness :
  BitSetSIMD_BlockFind [0; 0x12; 0x34; 0x56; 0; 0; 0; 0] 8 8 7 0x34 =
    BitSetSIMD_BlockFindSIMD [0; 0x12; 0x34; 0x56; 0; 0; 0; 0] 8 8 7 0x34 /\
  BitSetSIMD_BlockFind [0; 0x12; 0x34; 0x56; 0; 0; 0; 0] 8 8 7 0x34 =
    Some (if bool_decide (0x34 ∈ [0x12; 0x34; 0x56]) then Neighbor else NonNeighbor).
Proof.
  apply (BlockFind_BlockFindSIMD _ 8 8 7 0x34 [0x12; 0x34; 0x56] 4).
  - split; [repeat constructor; done|done].
  - repeat split; vm_compute; congruence.
  - done.
  - by vm_compute.
  - repeat constructor; done.
Defined.

(** The words written by [Dump] rebuild the vector exactly, in any vector of
    the same size. *)
Theorem Dump_roundtrip (d d0 : list Z)
    (Hd : bytes_ok d) (Hsize : Z.of_nat (length d) mod 4 = 0) (H0 : length d0 = length d) :
  exists ws, BitSetSIMD_Dump d = Some ws /\ 4 * Z.of_nat (length ws) = Z.of_nat (length d) /\
    Forall (fun x => 0 <= x < 2 ^ 32) ws /\ BitSetSIMD_BlockSet32 d0 ws = Some d.
Proof. by apply Dump_BlockSet32. Qed.

Lemma Dump_roundtrip_witness :
  exists ws, BitSetSIMD_Dump [1; 2; 3; 250] = Some ws /\ 4 * Z.of_nat (length ws) = 4 /\
    Forall (fun x => 0 <= x < 2 ^ 32) ws /\ BitSetSIMD_BlockSet32 [9; 9; 9; 9] ws = Some [1; 2; 3; 250].
Proof.
  apply (Dump_roundtrip [1; 2; 3; 250] [9; 9; 9; 9]); [|done|done].
  split; [repeat constructor; done|done].
Defined.

(** The index of [BlockSet]'s first byte is a [uint8_t]: a field that starts at
    bit 2048 or later is not written where [BlockGet] reads it. Here the
    vector has 2112 bits: the first byte of a 16-bit field at bit 2056 lands in
    byte 1, and a 4-bit counter at bit 2060 runs off the front of the array. *)
Example BlockSet_uint8_index :
  let d := BitSetSIMD_new 2112 in
  BitSetSIMD_BlockSet d 2060 4 9 = None /\
  (d' ← BitSetSIMD_BlockSet d 2056 16 0x1234; BitSetSIMD_BlockGet d' 2056 16) = Some 0x34 /\
  (d' ← BitSetSIMD_BlockSet d 2056 16 0x1234; zget d' 1) = Some 0x12.
Proof. by vm_compute. Qed.
