(* ===== verification/HashCount.v ===== *)
(** Scoring of candidate layouts: class [HashCount] of
    [src/include/encode/hash_count.h] and [src/encode/hash_count.cpp].

    The object is the record of its members; the members that the constructors
    leave uninitialised are arguments of the constructors. *)
From S2P Require Import Prelude Config.
From stdpp Require Import options.
Local Open Scope Z_scope.

(** [enum BlockType : char]. *)
Inductive BlockType := FullHash | LeftMost | RightMost | Middle.

#[export] Instance BlockType_eq_dec : EqDecision BlockType.
Proof. solve_decision. Defined.

Definition BlockType_val (t : BlockType) : Z :=
  match t with FullHash => 1 | LeftMost => 2 | RightMost => 4 | Middle => 8 end.

Record HashCount := {
  hash_array_ : list Z;
  hash_size_ : Z;
  hash_count_ : Z;
  neighbor_size_ : Z
}.

Section HashCount.
Context (C : Config).

(** [HashCount()]: the array of PER_ENCODE_BIT_SIZE zeros, the rest junk. *)
Definition HashCount_default (size count neighbors : Z) : HashCount :=
  {| hash_array_ := replicate (Z.to_nat (PER_ENCODE_BIT_SIZE C)) 0;
     hash_size_ := size; hash_count_ := count; neighbor_size_ := neighbors |}.

(** [HashCount(block_size)]. *)
Definition HashCount_sized (neighbors block_size : Z) : HashCount :=
  {| hash_array_ := replicate (Z.to_nat block_size) 0;
     hash_size_ := block_size; hash_count_ := 0; neighbor_size_ := neighbors |}.

Definition HashCount_Hash (h : HashCount) (key : Z) : Z :=
  if hash_size_ h =? 0 then 0 else key mod hash_size_ h.

Definition HashCount_SetHashSize (h : HashCount) (hash_size : Z) : HashCount :=
  {| hash_array_ := hash_array_ h; hash_size_ := hash_size;
     hash_count_ := hash_count_ h; neighbor_size_ := neighbor_size_ h |}.

Definition HashCount_RemoveHash (h : HashCount) (key : Z) : option HashCount :=
  let hash_val := HashCount_Hash h key in
  x ← zget (hash_array_ h) hash_val;
  if 0 <? x then
    a ← zset (hash_array_ h) hash_val (x - 1);
    Some {| hash_array_ := a; hash_size_ := hash_size_ h;
            hash_count_ := if x - 1 =? 0 then u32 (hash_count_ h - 1) else hash_count_ h;
            neighbor_size_ := neighbor_size_ h |}
  else Some h.

Definition HashCount_AddHash (h : HashCount) (key : Z) : option HashCount :=
  let hash_val := HashCount_Hash h key in
  x ← zget (hash_array_ h) hash_val;
  a ← zset (hash_array_ h) hash_val (u32 (x + 1));
  Some {| hash_array_ := a; hash_size_ := hash_size_ h;
          hash_count_ := if x =? 0 then u32 (hash_count_ h + 1) else hash_count_ h;
          neighbor_size_ := neighbor_size_ h |}.

(** [ReConstruct]. The bound of the reversed loop is a [uint32_t] that wraps
    when the block holds every neighbor; the loop then leaves the list on the
    first index after its end, so one more turn than the list has is enough. *)
Definition HashCount_ReConstruct (h : HashCount) (neighbors : list Z) (block_size : Z)
    (reverse : bool) : option HashCount :=
  let n := u32 (Z.of_nat (length neighbors)) in
  let h := {| hash_array_ :=
                replicate (Z.to_nat (PER_ENCODE_BIT_SIZE C)) 0 ++
                drop (Z.to_nat (PER_ENCODE_BIT_SIZE C)) (hash_array_ h);
              hash_size_ := u32 (PER_ENCODE_BIT_SIZE C - PREFIX_BIT_SIZE C
                                 - block_size * VERTEX_BIT_SIZE C);
              hash_count_ := 0; neighbor_size_ := n |} in
  _ ← guardb (PER_ENCODE_BIT_SIZE C <=? Z.of_nat (length (hash_array_ h)));
  let add i h := k ← zget neighbors i; HashCount_AddHash h k in
  if reverse
  then for_loop (Z.to_nat (Z.min (u32 (n - block_size - 1)) (n + 1))) 0 add h
  else for_loop (Z.to_nat (n - block_size)) block_size add h.

(** [Construct]: every neighbor counted, for the SIMD encoding. *)
Definition HashCount_Construct (h : HashCount) (neighbors : list Z) : option HashCount :=
  foldM (fun k h => HashCount_AddHash h k) neighbors h.

(** The interval of ids a block of type [type] covers. *)
Definition HashCount_interval (neighbors : list Z) (block_size first_idx : Z) (type : BlockType)
  : option (Z * Z) :=
  match type with
  | FullHash => None
  | LeftMost => l ← zget neighbors (u32 (first_idx + block_size - 1)); Some (0, l)
  | RightMost => f ← zget neighbors first_idx; Some (f, VERTEX_SIZE C)
  | Middle => f ← zget neighbors first_idx;
              l ← zget neighbors (u32 (first_idx + block_size - 1)); Some (f, l)
  end.

(** [GetScore]. *)
Definition HashCount_GetScore (h : HashCount) (neighbors : list Z) (block_size first_idx : Z)
    (type : BlockType) : option Z :=
  match type with
  | FullHash => q ← udiv (VERTEX_SIZE C) (hash_size_ h); Some (u32 (q * u32 (hash_size_ h - hash_count_ h)))
  | _ =>
      r ← HashCount_interval neighbors block_size first_idx type;
      let '(first_neighbor, last_neighbor) := r in
      let score := u32 (last_neighbor - first_neighbor + 1) in
      if hash_size_ h =? 0 then Some score else
      q ← udiv (u32 (VERTEX_SIZE C - last_neighbor + first_neighbor)) (hash_size_ h);
      Some (u32 (score + q * u32 (hash_size_ h - hash_count_ h)))
  end.

(** [GetVal]: the score with the block's own neighbors taken out of a copy of
    the counters. The copy reads [hash_size_] counters of the array. *)
Definition HashCount_GetVal (h : HashCount) (neighbors : list Z) (first_idx block_size : Z)
    (type : BlockType) : option Z :=
  _ ← guardb (hash_size_ h <=? Z.of_nat (length (hash_array_ h)));
  let hash_copy := take (Z.to_nat (hash_size_ h)) (hash_array_ h) in
  r ← for_loop (Z.to_nat block_size) first_idx
    (fun i '(hash_copy, zero_count) =>
       k ← zget neighbors i;
       let val := HashCount_Hash h k in
       x ← zget hash_copy val;
       a ← zset hash_copy val (u32 (x - 1));
       Some (a, if x =? 1 then zero_count + 1 else zero_count))
    (hash_copy, s32 (hash_size_ h - hash_count_ h));
  let '(_, zero_count) := r in
  match type with
  | FullHash =>
      if hash_size_ h =? 0 then Some 0 else
      q ← udiv (VERTEX_SIZE C) (hash_size_ h); Some (u32 (q * u32 zero_count))
  | _ =>
      r ← HashCount_interval neighbors block_size first_idx type;
      let '(first_neighbor, last_neighbor) := r in
      let score := u32 (last_neighbor - first_neighbor + 1) in
      if hash_size_ h =? 0 then Some score else
      q ← udiv (u32 (VERTEX_SIZE C - last_neighbor + first_neighbor)) (hash_size_ h);
      Some (u32 (score + q * u32 zero_count))
  end.
End HashCount.

(** * Definedness *)

Section HashCountFacts.
Context (C : Config).

(** The array has a counter for every hash value. *)
Definition hc_ok (h : HashCount) : Prop :=
  0 < PER_ENCODE_BIT_SIZE C <= Z.of_nat (length (hash_array_ h)) /\
  0 <= hash_size_ h <= PER_ENCODE_BIT_SIZE C.

Lemma HashCount_Hash_bound h key : hc_ok h -> 0 <= HashCount_Hash h key < Z.of_nat (length (hash_array_ h)).
Proof.
  intros [H1 H2]. unfold HashCount_Hash. destruct (Z.eqb_spec (hash_size_ h) 0); [lia|].
  pose proof (Z.mod_pos_bound key (hash_size_ h)). lia.
Qed.

Lemma HashCount_AddHash_ok h key :
  hc_ok h -> exists h', HashCount_AddHash h key = Some h' /\ hc_ok h' /\ hash_size_ h' = hash_size_ h.
Proof.
  intros Hh. pose proof (HashCount_Hash_bound h key Hh) as Hb. unfold HashCount_AddHash; cbv zeta.
  destruct (zget_is_Some (hash_array_ h) _ Hb) as [x ->]; bind_step.
  rewrite zset_Some by done; bind_step. eexists; split; [done|].
  split; [|done]. destruct Hh. split; simpl; [|done]. by rewrite length_insert.
Qed.

Lemma HashCount_RemoveHash_ok h key :
  hc_ok h -> exists h', HashCount_RemoveHash h key = Some h' /\ hc_ok h' /\ hash_size_ h' = hash_size_ h.
Proof.
  intros Hh. pose proof (HashCount_Hash_bound h key Hh) as Hb. unfold HashCount_RemoveHash; cbv zeta.
  destruct (zget_is_Some (hash_array_ h) _ Hb) as [x ->]; bind_step.
  destruct (0 <? x); [|eauto].
  rewrite zset_Some by done; bind_step. eexists; split; [done|].
  split; [|done]. destruct Hh. split; simpl; [|done]. by rewrite length_insert.
Qed.

(** The sizes for which the recount is defined. *)
Lemma HashCount_ReConstruct_ok h ns bs rev :
  hc_ok h -> Z.of_nat (length ns) < 2 ^ 31 -> 0 <= bs < Z.of_nat (length ns) ->
  0 <= PER_ENCODE_BIT_SIZE C - PREFIX_BIT_SIZE C - bs * VERTEX_BIT_SIZE C <= PER_ENCODE_BIT_SIZE C ->
  PER_ENCODE_BIT_SIZE C < 2 ^ 31 ->
  exists h', HashCount_ReConstruct C h ns bs rev = Some h' /\ hc_ok h' /\
    hash_size_ h' = PER_ENCODE_BIT_SIZE C - PREFIX_BIT_SIZE C - bs * VERTEX_BIT_SIZE C.
Proof.
  intros [Hh _] Hn Hbs Hsz Hper. unfold HashCount_ReConstruct; cbv zeta.
  rewrite (u32_small (Z.of_nat _)), (u32_small (PER_ENCODE_BIT_SIZE C - _ - _)) by lia.
  set (h0 := {| hash_array_ := _ |}).
  assert (hc_ok h0 /\ hash_size_ h0 = PER_ENCODE_BIT_SIZE C - PREFIX_BIT_SIZE C - bs * VERTEX_BIT_SIZE C)
    as Hh0.
  { unfold h0. split; [split|]; simpl; try lia. rewrite length_app, length_replicate, length_drop. lia. }
  rewrite (proj2 (Z.leb_le _ _)) by apply Hh0. cbn [guardb]; bind_step.
  assert (forall k lo, 0 <= lo -> lo + Z.of_nat k <= Z.of_nat (length ns) ->
    exists h', for_loop k lo (fun i h => k ← zget ns i; HashCount_AddHash h k) h0 = Some h' /\ hc_ok h' /\
    hash_size_ h' = PER_ENCODE_BIT_SIZE C - PREFIX_BIT_SIZE C - bs * VERTEX_BIT_SIZE C) as Hloop.
  { intros k lo Hlo Hk.
    eapply (for_loop_inv (fun _ h => hc_ok h /\ hash_size_ h =
      PER_ENCODE_BIT_SIZE C - PREFIX_BIT_SIZE C - bs * VERTEX_BIT_SIZE C)); [done|].
    intros i s Hi [Hs Hsize]. destruct (zget_is_Some ns i) as [x ->]; [lia|]. bind_step.
    destruct (HashCount_AddHash_ok s x Hs) as (s' & -> & Hs' & Hsz'). eexists; split; [done|].
    split; [done|]. congruence. }
  destruct rev; apply Hloop; try lia.
  rewrite u32_small by lia. lia.
Qed.

Lemma HashCount_GetScore_ok h ns bs first t :
  hc_ok h -> Z.of_nat (length ns) < 2 ^ 31 ->
  (t = FullHash /\ 0 < hash_size_ h) \/
  (t <> FullHash /\ 0 <= first /\ 1 <= bs /\ first + bs <= Z.of_nat (length ns)) ->
  exists s, HashCount_GetScore C h ns bs first t = Some s.
Proof.
  intros [_ Hh] Hn Hcase.
  destruct Hcase as [[-> Hs]|(Ht & Hf & Hbs & Hfit)]; unfold HashCount_GetScore.
  { unfold udiv. rewrite (proj2 (Z.eqb_neq _ _)) by lia. eauto. }
  assert (exists r, HashCount_interval C ns bs first t = Some r) as [[f l] Hr].
  { unfold HashCount_interval. rewrite u32_small by lia.
    destruct (zget_is_Some ns first) as [x ->]; [lia|].
    destruct (zget_is_Some ns (first + bs - 1)) as [y ->]; [lia|].
    destruct t; bind_step; eauto. done. }
  destruct t; [done| | |]; rewrite Hr; bind_step; cbv zeta; unfold udiv;
    destruct (hash_size_ h =? 0); bind_step; eauto.
Qed.

(** ** What the counters hold

    [occ h L]: the counters of [h] are those of the multiset [L] of keys, and
    [hash_count_] is the number of occupied buckets. *)

Definition key_hash (hash_size key : Z) : Z := if hash_size =? 0 then 0 else key mod hash_size.

Definition bucket_count (hs : Z) (L : list Z) (b : Z) : Z :=
  Z.of_nat (length (filter (fun x => key_hash hs x = b) L)).

Definition buckets (hs : Z) (L : list Z) : gset Z := list_to_set (map (key_hash hs) L).

Definition occ (h : HashCount) (L : list Z) : Prop :=
  hc_ok h /\
  (forall b, 0 <= b < Z.of_nat (length (hash_array_ h)) ->
     zget (hash_array_ h) b = Some (bucket_count (hash_size_ h) L b)) /\
  hash_count_ h = Z.of_nat (size (buckets (hash_size_ h) L)) /\ Z.of_nat (length L) < 2 ^ 31.

Lemma bucket_count_cons hs x L b :
  bucket_count hs (x :: L) b = bucket_count hs L b + (if b =? key_hash hs x then 1 else 0).
Proof.
  unfold bucket_count. rewrite filter_cons. destruct (Z.eqb_spec b (key_hash hs x)); case_decide; cbn [length]; lia.
Qed.

Lemma bucket_count_bound hs L b : 0 <= bucket_count hs L b <= Z.of_nat (length L).
Proof. unfold bucket_count. pose proof (length_filter (fun x => key_hash hs x = b) L). lia. Qed.

Lemma bucket_count_zero hs L b : bucket_count hs L b = 0 <-> b ∉ buckets hs L.
Proof.
  unfold buckets. induction L as [|x L IH]; [by vm_compute|].
  rewrite bucket_count_cons. cbn [map list_to_set]. pose proof (bucket_count_bound hs L b).
  rewrite not_elem_of_union, not_elem_of_singleton, <- IH.
  destruct (Z.eqb_spec b (key_hash hs x)); naive_solver lia.
Qed.

Lemma buckets_cons hs x L : buckets hs (x :: L) = {[key_hash hs x]} ∪ buckets hs L.
Proof. done. Qed.

Lemma size_insert_bucket (b : Z) (X : gset Z) :
  Z.of_nat (size ({[b]} ∪ X)) = Z.of_nat (size X) + (if bool_decide (b ∈ X) then 0 else 1).
Proof.
  case_bool_decide as Hb.
  - replace ({[b]} ∪ X) with X by set_solver. lia.
  - rewrite size_union, size_singleton by set_solver. lia.
Qed.

Lemma size_buckets_le hs L : Z.of_nat (size (buckets hs L)) <= Z.of_nat (length L).
Proof.
  induction L as [|x L IH]; [by vm_compute|].
  rewrite buckets_cons, size_insert_bucket. cbn [length]. destruct (bool_decide _); lia.
Qed.

Lemma size_buckets_bound hs L : 0 < hs -> Z.of_nat (size (buckets hs L)) <= hs.
Proof.
  intros Hs. assert (buckets hs L ⊆ list_to_set (seqZ 0 hs)) as Hsub.
  { induction L as [|x L IH]; [by apply empty_subseteq|]. rewrite buckets_cons.
    apply union_subseteq. split; [|done]. apply singleton_subseteq_l, elem_of_list_to_set, elem_of_seqZ.
    unfold key_hash. rewrite (proj2 (Z.eqb_neq hs 0)) by lia.
    pose proof (Z.mod_pos_bound x hs). lia. }
  apply subseteq_size in Hsub. rewrite size_list_to_set, length_seqZ in Hsub by apply NoDup_seqZ. lia.
Qed.

Lemma occ_perm h L L' : Permutation L L' -> occ h L -> occ h L'.
Proof.
  intros HP (H1 & H2 & H3 & H4). split; [done|]. split; [|split].
  - intros b Hb. rewrite H2 by done. unfold bucket_count. by rewrite HP.
  - rewrite H3. unfold buckets. do 2 f_equal. apply list_to_set_perm_L.
    by apply Permutation_map.
  - by rewrite <- HP.
Qed.

Lemma AddHash_occ h L x :
  occ h L -> Z.of_nat (length L) < 2 ^ 31 - 1 ->
  exists h', HashCount_AddHash h x = Some h' /\ occ h' (x :: L) /\ hash_size_ h' = hash_size_ h /\
    length (hash_array_ h') = length (hash_array_ h).
Proof.
  intros (Hok & Ha & Hc & _) Hn. pose proof (HashCount_Hash_bound h x Hok) as Hb.
  unfold HashCount_AddHash; cbv zeta. rewrite Ha by done. bind_step.
  destruct (zset _ _ _) as [a|] eqn:E; [|rewrite zset_Some in E by done; done]. bind_step.
  change (HashCount_Hash h x) with (key_hash (hash_size_ h) x) in *.
  pose proof (bucket_count_bound (hash_size_ h) L (key_hash (hash_size_ h) x)).
  pose proof (zset_length _ _ _ _ E) as Hlen. eexists. split; [done|]. split; [|done].
  split; [|split; [|split]]; simpl.
  - destruct Hok. split; simpl; lia.
  - intros b Hbb. rewrite (zget_zset _ _ _ _ _ E), bucket_count_cons.
    destruct (Z.eqb_spec b (key_hash (hash_size_ h) x)) as [->|]; [rewrite u32_small by lia; done|].
    rewrite Ha by lia. f_equal. lia.
  - rewrite Hc, buckets_cons, size_insert_bucket.
    pose proof (size_buckets_le (hash_size_ h) L).
    destruct (Z.eqb_spec (bucket_count (hash_size_ h) L (key_hash (hash_size_ h) x)) 0) as [Hz|Hz].
    + rewrite bool_decide_eq_false_2 by (by apply bucket_count_zero). rewrite u32_small by lia. lia.
    + rewrite bool_decide_eq_true_2; [lia|]. apply dec_stable. by rewrite <- bucket_count_zero.
  - lia.
Qed.

Lemma RemoveHash_occ h L x :
  occ h (x :: L) ->
  exists h', HashCount_RemoveHash h x = Some h' /\ occ h' L /\ hash_size_ h' = hash_size_ h /\
    length (hash_array_ h') = length (hash_array_ h).
Proof.
  intros (Hok & Ha & Hc & Hn). pose proof (HashCount_Hash_bound h x Hok) as Hb. cbn [length] in Hn.
  unfold HashCount_RemoveHash; cbv zeta. rewrite Ha by done. bind_step.
  change (HashCount_Hash h x) with (key_hash (hash_size_ h) x) in *.
  rewrite bucket_count_cons, Z.eqb_refl.
  pose proof (bucket_count_bound (hash_size_ h) L (key_hash (hash_size_ h) x)).
  rewrite (proj2 (Z.ltb_lt 0 _)) by lia.
  destruct (zset _ _ _) as [a|] eqn:E; [|rewrite zset_Some in E by done; done]. bind_step.
  pose proof (zset_length _ _ _ _ E) as Hlen. eexists. split; [done|]. split; [|done].
  split; [|split; [|split]]; simpl.
  - destruct Hok. split; simpl; lia.
  - intros b Hbb. rewrite (zget_zset _ _ _ _ _ E).
    destruct (Z.eqb_spec b (key_hash (hash_size_ h) x)) as [->|Hne]; [f_equal; lia|].
    rewrite Ha, bucket_count_cons, (proj2 (Z.eqb_neq _ _) Hne) by lia. f_equal. lia.
  - rewrite Hc, buckets_cons, size_insert_bucket.
    pose proof (size_buckets_le (hash_size_ h) L).
    replace (bucket_count (hash_size_ h) L (key_hash (hash_size_ h) x) + 1 - 1)
      with (bucket_count (hash_size_ h) L (key_hash (hash_size_ h) x)) by lia.
    destruct (Z.eqb_spec (bucket_count (hash_size_ h) L (key_hash (hash_size_ h) x)) 0) as [Hz|Hz].
    + rewrite bool_decide_eq_false_2 by (by apply bucket_count_zero). rewrite u32_small by lia. lia.
    + rewrite bool_decide_eq_true_2; [lia|]. apply dec_stable. by rewrite <- bucket_count_zero.
  - lia.
Qed.

(** The counters that are all zero. *)
Definition zeros (h : HashCount) (bs n : Z) : HashCount :=
  {| hash_array_ := replicate (Z.to_nat (PER_ENCODE_BIT_SIZE C)) 0 ++ drop (Z.to_nat (PER_ENCODE_BIT_SIZE C)) (hash_array_ h);
     hash_size_ := u32 (PER_ENCODE_BIT_SIZE C - PREFIX_BIT_SIZE C - bs * VERTEX_BIT_SIZE C); hash_count_ := 0; neighbor_size_ := n |}.

(** The counters of a block of [bs] neighbors hold those in [L]. *)
Definition counting (h : HashCount) (bs : Z) (L : list Z) : Prop :=
  occ h L /\ hash_size_ h = PER_ENCODE_BIT_SIZE C - PREFIX_BIT_SIZE C - bs * VERTEX_BIT_SIZE C /\
  Z.of_nat (length (hash_array_ h)) = PER_ENCODE_BIT_SIZE C.

(** The loop that counts a range of the neighbors. *)
Lemma counting_range h ns bs lo n :
  hc_ok h -> Z.of_nat (length (hash_array_ h)) = PER_ENCODE_BIT_SIZE C ->
  0 <= PER_ENCODE_BIT_SIZE C - PREFIX_BIT_SIZE C - bs * VERTEX_BIT_SIZE C <= PER_ENCODE_BIT_SIZE C ->
  PER_ENCODE_BIT_SIZE C < 2 ^ 31 -> Z.of_nat (length ns) < 2 ^ 31 ->
  0 <= lo -> lo + Z.of_nat n <= Z.of_nat (length ns) ->
  exists h', for_loop n lo (fun i h => k ← zget ns i; HashCount_AddHash h k) (zeros h bs (Z.of_nat (length ns))) = Some h' /\
    counting h' bs (take n (drop (Z.to_nat lo) ns)).
Proof.
  intros [Hh _] Hlen Hsz Hper Hns Hlo Hn. set (h0 := zeros _ _ _).
  assert (hash_array_ h0 = replicate (Z.to_nat (PER_ENCODE_BIT_SIZE C)) 0) as Ha0
    by (unfold h0, zeros; cbn [hash_array_]; by rewrite drop_ge, app_nil_r by lia).
  assert (hash_size_ h0 = PER_ENCODE_BIT_SIZE C - PREFIX_BIT_SIZE C - bs * VERTEX_BIT_SIZE C) as Hs0
    by (unfold h0, zeros; cbn [hash_size_]; by rewrite u32_small by lia).
  destruct (for_loop_inv (fun i h => counting h bs (rev (take (Z.to_nat (i - lo)) (drop (Z.to_nat lo) ns))))
    (fun i h => k ← zget ns i; HashCount_AddHash h k) n lo h0) as (h' & E & Hocc & Hs & Hla).
  - rewrite Z.sub_diag. split; [|by rewrite Ha0, length_replicate, Z2Nat.id by lia].
    split; [split; rewrite ?Ha0, ?length_replicate; lia|]. rewrite Ha0, length_replicate. split; [|done].
    intros b Hb. rewrite zget_lookup by lia. apply lookup_replicate. split; [done|lia].
  - intros i s Hi (Hocc & Hs & Hla). destruct (zget_is_Some ns i) as [x Hx]; [lia|]. rewrite Hx; bind_step.
    destruct (AddHash_occ s _ x Hocc) as (s' & E & Hocc' & Hs' & Hla').
    { rewrite length_rev, length_take, length_drop. lia. }
    exists s'. split; [done|]. split; [|split; congruence].
    rewrite zget_lookup in Hx by lia. replace (Z.to_nat (i + 1 - lo)) with (S (Z.to_nat (i - lo))) by lia.
    rewrite (take_S_r _ _ x) by (rewrite lookup_drop; rewrite <- Hx; f_equal; lia). by rewrite rev_app_distr.
  - exists h'. split; [done|]. split; [|done]. eapply occ_perm; [|exact Hocc].
    replace (Z.to_nat (lo + Z.of_nat n - lo)) with n by lia. symmetry. apply Permutation_rev.
Qed.

(** The recount of the neighbors after a block at the front. *)
Lemma ReConstruct_occ h ns bs :
  hc_ok h -> Z.of_nat (length (hash_array_ h)) = PER_ENCODE_BIT_SIZE C ->
  Z.of_nat (length ns) < 2 ^ 31 -> 0 <= bs <= Z.of_nat (length ns) ->
  0 <= PER_ENCODE_BIT_SIZE C - PREFIX_BIT_SIZE C - bs * VERTEX_BIT_SIZE C <= PER_ENCODE_BIT_SIZE C ->
  PER_ENCODE_BIT_SIZE C < 2 ^ 31 ->
  exists h', HashCount_ReConstruct C h ns bs false = Some h' /\ counting h' bs (drop (Z.to_nat bs) ns).
Proof.
  intros Hh Hlen Hn Hbs Hsz Hper. unfold HashCount_ReConstruct; cbv zeta. rewrite (u32_small (Z.of_nat _)) by lia.
  destruct (counting_range h ns bs bs (Z.to_nat (Z.of_nat (length ns) - bs))) as (h' & E & Hc); [done..|lia|lia|].
  fold (zeros h bs (Z.of_nat (length ns))).
  rewrite (proj2 (Z.leb_le _ _)) by (unfold zeros; cbn [hash_array_]; rewrite length_app, length_replicate; lia).
  cbn [guardb]; bind_step. exists h'. split; [exact E|]. by rewrite take_ge in Hc by (rewrite length_drop; lia).
Qed.

(** The reversed recount leaves one neighbor out, before the block at the end. *)
Lemma ReConstruct_reverse_occ h ns bs :
  hc_ok h -> Z.of_nat (length (hash_array_ h)) = PER_ENCODE_BIT_SIZE C ->
  Z.of_nat (length ns) < 2 ^ 31 -> 0 <= bs < Z.of_nat (length ns) ->
  0 <= PER_ENCODE_BIT_SIZE C - PREFIX_BIT_SIZE C - bs * VERTEX_BIT_SIZE C <= PER_ENCODE_BIT_SIZE C ->
  PER_ENCODE_BIT_SIZE C < 2 ^ 31 ->
  exists h', HashCount_ReConstruct C h ns bs true = Some h' /\
    counting h' bs (take (Z.to_nat (Z.of_nat (length ns) - bs - 1)) ns).
Proof.
  intros Hh Hlen Hn Hbs Hsz Hper. unfold HashCount_ReConstruct; cbv zeta.
  rewrite (u32_small (Z.of_nat _)), (u32_small (_ - bs - 1)), Z.min_l by lia.
  destruct (counting_range h ns bs 0 (Z.to_nat (Z.of_nat (length ns) - bs - 1))) as (h' & E & Hc); [done..|lia|].
  fold (zeros h bs (Z.of_nat (length ns))).
  rewrite (proj2 (Z.leb_le _ _)) by (unfold zeros; cbn [hash_array_]; rewrite length_app, length_replicate; lia).
  cbn [guardb]; bind_step. exists h'. split; [exact E|exact Hc].
Qed.
End HashCountFacts.
