(* ===== verification/Encode.v ===== *)
(** The super classes of the encodings: [Encode] and [EncodeBitSet]
    ([src/include/encode/encode.h],
    [src/include/encode/single/encode_bitset.h]).

    The state of an [EncodeBitSet] is the array of its vertices' bit vectors.
    The neighbor database is a function from a vertex to the list stored for
    it. A persisted encoding is a list of lines, each the numbers of a line. *)
From S2P Require Import Prelude Config BitSet.
From stdpp Require Import options.
Local Open Scope Z_scope.

(** [struct Encode::DecodeInfo]. *)
Record DecodeInfo := {
  decodable : bool;
  block_num : Z;    (* uint16_t *)
  hash_begin : Z;   (* uint16_t *)
  min : Z;
  max : Z
}.

Definition DecodeInfo_lt (a b : DecodeInfo) : bool := negb (decodable a) && decodable b.

(** [enum class EncodeType], compared as integers. *)
Inductive EncodeType := UnFull | Full | NonDecodable.

Definition EncodeType_val (t : EncodeType) : Z :=
  match t with UnFull => 0 | Full => 1 | NonDecodable => 2 end.

(** [if (vertex1 > vertex2) std::swap(vertex1, vertex2)] *)
Definition ordered_pair (vertex1 vertex2 : Z) : Z * Z :=
  if vertex2 <? vertex1 then (vertex2, vertex1) else (vertex1, vertex2).

Lemma ordered_pair_swap u v : ordered_pair u v = ordered_pair v u.
Proof.
  unfold ordered_pair. destruct (Z.ltb_spec v u), (Z.ltb_spec u v); try done; try lia.
  by replace v with u by lia.
Qed.

Section Encode.
Context (C : Config).

(** [Encode()]: the least id that is not a vertex. *)
Definition Encode_vertex_id_upper : Z := u32 (VERTEX_SIZE C + 1).

(** [Encode::DbQuery]: the neighbors the database stores for a vertex. *)
Definition Encode_DbQuery (db : Z -> list Z) (vertex : Z) : list Z := db vertex.

(** [EncodeBitSet(bit_size, vertex_size)] and [EncodeBitSet()]. *)
Definition EncodeBitSet_sized (bit_size vertex_size : Z) : list (list Z) :=
  replicate (Z.to_nat (vertex_size + 1)) (BitSetSIMD_new bit_size).
Definition EncodeBitSet_default : list (list Z) :=
  EncodeBitSet_sized (PER_ENCODE_BIT_SIZE C) (VERTEX_SIZE C).

(** [EncodePersistent(file_path)]: a line for every vertex, its id first. *)
Definition EncodeBitSet_EncodePersistent (encode_bitset_ : list (list Z)) : option (list (list Z)) :=
  for_loop (Z.to_nat (VERTEX_SIZE C)) 1
    (fun i output =>
       d ← zget encode_bitset_ i;
       encode ← BitSetSIMD_Dump d;
       Some (output ++ [i :: encode])) [].

(** [LoadFromDb(file_path)]: the vectors named by the lines are overwritten. A
    line without a number leaves [key] uninitialised. *)
Definition EncodeBitSet_LoadFromDb (encode_bitset_ file : list (list Z)) : option (list (list Z)) :=
  foldM (fun line encode_bitset_ =>
           match line with
           | key :: temp =>
               d ← zget encode_bitset_ key;
               d' ← BitSetSIMD_BlockSet32 d temp;
               zset encode_bitset_ key d'
           | [] => None
           end) file encode_bitset_.

(** The directed variants choose one of two arrays. *)
Definition EncodeBitSet_EncodePersistent_dir (encode_bitset_ in_bitset_ : list (list Z)) (out : bool)
  : option (list (list Z)) :=
  for_loop (Z.to_nat (VERTEX_SIZE C)) 1
    (fun i output =>
       encode ← (if out then d ← zget encode_bitset_ i; BitSetSIMD_Dump d
                 else d ← zget in_bitset_ i; BitSetSIMD_Dump d);
       Some (output ++ [i :: encode])) [].

Definition EncodeBitSet_LoadFromDb_dir (encode_bitset_ in_bitset_ file : list (list Z)) (out : bool)
  : option (list (list Z) * list (list Z)) :=
  foldM (fun line '(encode_bitset_, in_bitset_) =>
           match line with
           | key :: temp =>
               if out then
                 d ← zget encode_bitset_ key;
                 d' ← BitSetSIMD_BlockSet32 d temp;
                 e ← zset encode_bitset_ key d'; Some (e, in_bitset_)
               else
                 d ← zget in_bitset_ key;
                 d' ← BitSetSIMD_BlockSet32 d temp;
                 e ← zset in_bitset_ key d'; Some (encode_bitset_, e)
           | [] => None
           end) file (encode_bitset_, in_bitset_).
End Encode.

(** * What a test promises

    [answers t P]: a certain answer is right. [tested test n P]: for every
    vertex id up to [n] the test is defined and its answer is right. *)

Definition answers (t : PairType) (P : Prop) : Prop :=
  match t with Neighbor => P | NonNeighbor => ~ P | Uncertain => True end.

Lemma answers_decide (P : Prop) `{Decision P} :
  answers (if bool_decide P then Neighbor else NonNeighbor) P.
Proof. by case_bool_decide. Qed.

Lemma answers_iff t (P Q : Prop) : (P <-> Q) -> answers t P -> answers t Q.
Proof. destruct t; simpl; tauto. Qed.

#[export] Instance answers_proper : Proper (eq ==> iff ==> iff) answers.
Proof. intros t ? <- P Q H. split; apply answers_iff; tauto. Qed.

(** The lists that two vertices encode cover an edge: what a test of the pair
    needs of the order in which a graph is encoded. [du] and [dv] say whether
    the codes are decodable; a decodable code that is tested alone must hold the
    edge, two decodable ones hold it in one, two partial ones in both. *)
Definition covers_edge (du dv : bool) (Nu Nv : list Z) (u v : Z) (edge : Prop) : Prop :=
  (v ∈ Nu -> edge) /\ (u ∈ Nv -> edge) /\
  (edge ->
   match du, dv with
   | true, false => v ∈ Nu
   | false, true => u ∈ Nv
   | true, true => v ∈ Nu \/ u ∈ Nv
   | false, false => v ∈ Nu /\ u ∈ Nv
   end).

(** * Persistence *)

Section persistence.
Context (C : Config) (n : nat).
Notation V := (VERTEX_SIZE C).

(** A vector of [n] bytes, made of whole words. *)
Definition stored_at (E : list (list Z)) (v : Z) : Prop :=
  exists d, zget E v = Some d /\ bytes_ok d /\ length d = n.

Definition line_of (E : list (list Z)) (v : Z) (line : list Z) : Prop :=
  exists d ws, zget E v = Some d /\ BitSetSIMD_Dump d = Some ws /\ line = v :: ws /\
    forall d0, length d0 = n -> BitSetSIMD_BlockSet32 d0 ws = Some d.

(** The same vectors, of the vertices. *)
Definition same_vectors (E E' : list (list Z)) : Prop := forall v, 1 <= v <= V -> zget E' v = zget E v.

(** An encoding that can be saved, and whose tests are described by [P], also
    after it was read again. *)
Definition saved_tests (E : list (list Z)) (test : list (list Z) -> Z -> Z -> option PairType) (P : Z -> Z -> PairType -> Prop)
  : Prop :=
  (forall v, 1 <= v <= V -> stored_at E v) /\
  forall E', same_vectors E E' -> forall u v, 1 <= u <= V -> 1 <= v <= V -> exists t, test E' u v = Some t /\ P u v t.

Lemma saved_tests_now E test P :
  saved_tests E test P -> forall u v, 1 <= u <= V -> 1 <= v <= V -> exists t, test E u v = Some t /\ P u v t.
Proof. intros [_ H]. by apply H. Qed.

Context (HV : 1 <= V) (Hn : Z.of_nat n mod 4 = 0).

Lemma EncodePersistent_ok E :
  (forall v, 1 <= v <= V -> stored_at E v) ->
  exists file, EncodeBitSet_EncodePersistent C E = Some file /\ Forall2 (line_of E) (seqZ 1 V) file.
Proof using HV Hn.
  intros HE. unfold EncodeBitSet_EncodePersistent.
  destruct (for_loop_inv (fun i file => Forall2 (line_of E) (seqZ 1 (i - 1)) file)
    (fun i output => d ← zget E i; encode ← BitSetSIMD_Dump d; Some (output ++ [i :: encode])) (Z.to_nat V) 1 [])
    as (file & -> & Hf).
  - constructor.
  - intros i file Hi Hf. destruct (HE i ltac:(lia)) as (d & Ed & Hd & Hl). rewrite Ed. bind_step.
    destruct (Dump_BlockSet32 d d Hd) as (ws & Ews & _); [by rewrite Hl|done|]. rewrite Ews. bind_step.
    eexists. split; [done|]. replace (i + 1 - 1) with (i - 1 + 1) by lia. rewrite seqZ_app by lia.
    apply Forall2_app; [done|]. replace (1 + (i - 1)) with i by lia. constructor; [|constructor].
    exists d, ws. split; [done|]. split; [done|]. split; [done|]. intros d0 Hl0.
    destruct (Dump_BlockSet32 d d0 Hd) as (ws' & Ews' & _ & _ & H); [by rewrite Hl|congruence|congruence].
  - exists file. split; [done|]. by replace (1 + Z.of_nat (Z.to_nat V) - 1) with V in Hf by lia.
Qed.

Lemma LoadFromDb_ok E E0 file :
  Forall2 (line_of E) (seqZ 1 V) file -> (forall v, 1 <= v <= V -> stored_at E0 v) ->
  exists E', EncodeBitSet_LoadFromDb E0 file = Some E' /\ length E' = length E0 /\
    forall v, zget E' v = if decide (1 <= v <= V) then zget E v else zget E0 v.
Proof using HV.
  intros Hfile HE0. unfold EncodeBitSet_LoadFromDb.
  destruct (foldM_inv (fun pre E' => length E' = length E0 /\
      forall v, zget E' v = if decide (1 <= v <= Z.of_nat (length pre)) then zget E v else zget E0 v)
    (fun line E' => match line with key :: temp => d ← zget E' key; d' ← BitSetSIMD_BlockSet32 d temp; zset E' key d' | [] => None end)
    file E0) as (E' & -> & Hl & Hget).
  - split; [done|]. intros v. rewrite decide_False; [done|cbn [length]; lia].
  - intros pre line post E' Heq [Hl Hget].
    assert (seqZ 1 V !! length pre = Some (1 + Z.of_nat (length pre)) /\ line_of E (1 + Z.of_nat (length pre)) line) as [Hk Hline].
    { assert (file !! length pre = Some line) as Hlook by (rewrite Heq; by apply list_lookup_middle).
      destruct (Forall2_lookup_r _ _ _ _ _ Hfile Hlook) as (v & Hv & Hline).
      apply lookup_seqZ in Hv as Hv'. destruct Hv' as [-> _]. done. }
    apply lookup_seqZ in Hk as [_ Hk]. destruct Hline as (d & ws & Ed & _ & -> & Hset).
    set (v := 1 + Z.of_nat (length pre)) in *. destruct (HE0 v ltac:(lia)) as (d0 & Ed0 & _ & Hd0).
    rewrite Hget, decide_False, Ed0 by lia. bind_step. rewrite Hset by done. bind_step.
    pose proof (zget_Some_inv _ _ _ Ed0) as [Hv _]. rewrite <- Hl in Hv. rewrite zset_Some by done.
    eexists. split; [done|]. split; [by rewrite length_insert|]. intros w.
    rewrite (zget_zset E' v w _ _ (zset_Some E' v d Hv)), length_app. cbn [length]. destruct (Z.eqb_spec w v) as [->|Hne].
    + rewrite decide_True by lia. by rewrite Ed.
    + rewrite Hget. destruct (decide (1 <= w <= Z.of_nat (length pre))); destruct (decide _); (done || lia).
  - exists E'. split; [done|]. split; [done|]. intros v. rewrite Hget.
    pose proof (Forall2_length _ _ _ Hfile) as Hlen. rewrite length_seqZ in Hlen.
    destruct (decide (1 <= v <= V)); destruct (decide _); (done || lia).
Qed.
End persistence.

(** An encoding that is written and read into a fresh one of the same size
    has every vertex's vector back; vector 0, which no vertex uses, is not in
    the file. *)
Theorem Encode_save_load (C : Config) (n : nat) (E E0 : list (list Z))
    (HV : 1 <= VERTEX_SIZE C) (Hn : Z.of_nat n mod 4 = 0)
    (HE : forall v, 1 <= v <= VERTEX_SIZE C -> stored_at n E v)
    (HE0 : forall v, 1 <= v <= VERTEX_SIZE C -> stored_at n E0 v) :
  exists file E', EncodeBitSet_EncodePersistent C E = Some file /\ EncodeBitSet_LoadFromDb E0 file = Some E' /\
    length file = Z.to_nat (VERTEX_SIZE C) /\
    forall v, zget E' v = if decide (1 <= v <= VERTEX_SIZE C) then zget E v else zget E0 v.
Proof.
  destruct (EncodePersistent_ok C n HV Hn E HE) as (file & Hfile & Hlines).
  destruct (LoadFromDb_ok C n HV E E0 file Hlines HE0) as (E' & HL & _ & Hget).
  exists file, E'. split; [done|]. split; [done|]. split; [|done].
  rewrite <- (Forall2_length _ _ _ Hlines). by rewrite length_seqZ.
Qed.

Lemma Encode_save_load_witness :
  exists file E', EncodeBitSet_EncodePersistent small_config (replicate 21 [1; 2; 3; 255]) = Some file /\
    EncodeBitSet_LoadFromDb (replicate 21 [0; 0; 0; 0]) file = Some E' /\
    length file = Z.to_nat (VERTEX_SIZE small_config) /\
    forall v, zget E' v = if decide (1 <= v <= VERTEX_SIZE small_config) then zget (replicate 21 [1; 2; 3; 255]) v
                          else zget (replicate 21 [0; 0; 0; 0]) v.
Proof.
  assert (VERTEX_SIZE small_config = 20) as Hv by (vm_compute; reflexivity).
  apply (Encode_save_load small_config 4).
  - rewrite Hv. lia.
  - reflexivity.
  - rewrite Hv. intros v Hr. exists [1; 2; 3; 255]. rewrite zget_lookup, lookup_replicate_2 by lia.
    split; [done|]. split; [|done]. apply (bool_decide_unpack _). vm_compute. exact I.
  - rewrite Hv. intros v Hr. exists [0; 0; 0; 0]. rewrite zget_lookup, lookup_replicate_2 by lia.
    split; [done|]. split; [|done]. apply (bool_decide_unpack _). vm_compute. exact I.
Defined.
