(* ===== verification/Hybrid.v ===== *)
(** The hybrid encoding: class [HybridEncode] of
    [src/include/encode/single/hybrid_encode.h] and
    [src/encode/single/hybrid_encode.cpp].

    Each vertex has one bit vector. Its first bit says whether it holds all the
    neighbors ("decodable": VERTEX_BIT_SIZE-bit ids from bit 1) or a block of
    consecutive neighbors (two bits of block model, LOG_K bits of block size,
    the ids) followed by a one-bit-per-bucket hash of the others. *)
From S2P Require Import Prelude Config BitSet HashCount Encode.
From stdpp Require Import options.
Local Open Scope Z_scope.

(** The object's state: the array of vectors. *)
Notation Vectors := (list (list Z)) (only parsing).

(** [std::vector(first, last)] of a range of another vector. *)
Definition vector_range {A} (l : list A) (first last : Z) : option (list A) :=
  if (0 <=? first) && (first <=? last) && (last <=? Z.of_nat (length l))
  then Some (take (Z.to_nat (last - first)) (drop (Z.to_nat first) l)) else None.

Section HybridEncode.
Context (C : Config) (db : Z -> list Z).

(** [Hash]: the bit of the hash part a vertex is mapped to. *)
Definition HybridEncode_Hash (vertex_id hash_begin : Z) : option Z :=
  h ← umod vertex_id (u32 (PER_ENCODE_BIT_SIZE C - hash_begin));
  Some (u32 (h + hash_begin)).

Definition HybridEncode_IsDecodable (E : Vectors) (vertex : Z) : option bool :=
  d ← zget E vertex; BitSetSIMD_IsOne d 0.

(** [GetBlockModel], by vertex and by vector. *)
Definition HybridEncode_GetBlockModel_v (E : Vectors) (vertex : Z) : option BlockType :=
  d ← zget E vertex;
  b1 ← BitSetSIMD_IsOne d 1;
  if (b1 : bool) then Some RightMost else
  b2 ← BitSetSIMD_IsOne d 2;
  if (b2 : bool) then Some Middle else Some LeftMost.

Definition HybridEncode_GetBlockModel (d : list Z) : option BlockType :=
  b1 ← BitSetSIMD_GetSecondBit d;
  if (b1 : bool) then Some RightMost else
  b2 ← BitSetSIMD_GetThridBit d;
  if (b2 : bool) then Some Middle else Some LeftMost.

Definition HybridEncode_SetBlockModel (d : list Z) (type : BlockType) : option (list Z) :=
  match type with
  | LeftMost => BitSetSIMD_BlockSet d 1 2 0
  | FullHash | Middle => BitSetSIMD_BlockSet d 1 2 1
  | RightMost => BitSetSIMD_BlockSet d 1 2 3
  end.

Definition HybridEncode_IsFull (E : Vectors) (vertex : Z) : option bool :=
  d ← zget E vertex;
  v ← BitSetSIMD_BlockGet d (u32 (PER_ENCODE_BIT_SIZE C - VERTEX_BIT_SIZE C)) (VERTEX_BIT_SIZE C);
  Some (negb (v =? 0)).

(** [IsFull(vertex, index_not_full)] and the decodable branch of
    [GetBlockInteger] walk the fields up to an inclusive bound past the last
    whole field; VERTEX_BIT_SIZE > 0, so PER_ENCODE_BIT_SIZE turns are enough. *)
Fixpoint IsFull_loop (fuel : nat) (d : list Z) (index : Z) : option bool :=
  if index <=? u32 (PER_ENCODE_BIT_SIZE C - VERTEX_BIT_SIZE C + 1) then
    match fuel with
    | O => None
    | S fuel' =>
        v ← BitSetSIMD_BlockGet d index (VERTEX_BIT_SIZE C);
        if v =? 0 then Some false else IsFull_loop fuel' d (u32 (index + VERTEX_BIT_SIZE C))
    end
  else Some true.

Definition HybridEncode_IsFull_idx (E : Vectors) (vertex : Z) : option bool :=
  d ← zget E vertex; IsFull_loop (S (Z.to_nat (PER_ENCODE_BIT_SIZE C))) d 1.

Definition HybridEncode_GetBlockSize (E : Vectors) (vertex : Z) : option Z :=
  d ← zget E vertex; BitSetSIMD_BlockGet d 3 (LOG_K C).

Definition HybridEncode_GetEncodeType (E : Vectors) (vertex : Z) : option EncodeType :=
  dec ← HybridEncode_IsDecodable E vertex;
  if negb dec then Some NonDecodable else
  full ← HybridEncode_IsFull E vertex;
  if (full : bool) then Some Full else Some UnFull.

Definition HybridEncode_GetAllNeighbors (vertex : Z) : list Z := Encode_DbQuery db vertex.

Definition HybridEncode_GetHashBegin (E : Vectors) (vertex : Z) : option Z :=
  n ← HybridEncode_GetBlockSize E vertex; Some (u32 (n * VERTEX_BIT_SIZE C + 3 + LOG_K C)).

Definition HybridEncode_GetIntSize : Z := MAX_INTEGER_SIZE C.

(** [NonNeighborTest(vertex1, vertex2)]: search [vertex2] in [vertex1]'s code. *)
Definition HybridEncode_NonNeighborTest (E : Vectors) (vertex1 vertex2 : Z) : option PairType :=
  encode ← zget E vertex1;
  dec ← HybridEncode_IsDecodable E vertex1;
  let find := if HSIMD C then BitSetSIMD_BlockFindSIMD else BitSetSIMD_BlockFind in
  if (dec : bool) then find encode 1 (VERTEX_BIT_SIZE C) (MAX_K_CORE_SIZE C) vertex2
  else
    block_num ← BitSetSIMD_GetBlockNum (LOG_K C) encode;
    type ← HybridEncode_GetBlockModel_v E vertex1;
    let hash_begin := u32 (block_num * VERTEX_BIT_SIZE C + 3 + LOG_K C) in
    min ← (if negb (bool_decide (type = LeftMost))
           then if block_num =? 0 then Some 0
                else BitSetSIMD_BlockGet encode (3 + LOG_K C) (VERTEX_BIT_SIZE C)
           else Some 0);
    max ← (if negb (bool_decide (type = RightMost))
           then if block_num =? 0 then Some 0
                else BitSetSIMD_BlockGet encode
                       (u32 (3 + LOG_K C + (block_num - 1) * VERTEX_BIT_SIZE C)) (VERTEX_BIT_SIZE C)
           else Some (Encode_vertex_id_upper C));
    if (vertex2 <? min) || (max <? vertex2) then
      if hash_begin =? PER_ENCODE_BIT_SIZE C then Some Uncertain else
      h ← HybridEncode_Hash vertex2 hash_begin;
      one ← BitSetSIMD_IsOne encode h;
      Some (if (one : bool) then Uncertain else NonNeighbor)
    else find encode (BLOCK_BEGIN_INDEX C) (VERTEX_BIT_SIZE C) block_num vertex2.

(** [NonNeighborTest(vertex1, decode_info1, vertex2)]: the block's bounds come
    from a previous [Decode]; one unsigned comparison tests the interval. *)
Definition HybridEncode_NonNeighborTest_info (E : Vectors) (vertex1 : Z) (info1 : DecodeInfo)
    (vertex2 : Z) : option PairType :=
  encode ← zget E vertex1;
  if decodable info1 then BitSetSIMD_BlockFind encode 1 (VERTEX_BIT_SIZE C) (MAX_K_CORE_SIZE C) vertex2
  else if u32 (vertex2 - min info1) <=? u32 (max info1 - min info1)
  then BitSetSIMD_BlockFind encode (BLOCK_BEGIN_INDEX C) (VERTEX_BIT_SIZE C) (block_num info1) vertex2
  else if hash_begin info1 =? PER_ENCODE_BIT_SIZE C then Some Uncertain
  else h ← HybridEncode_Hash vertex2 (hash_begin info1);
       one ← BitSetSIMD_IsOne encode h;
       Some (if (one : bool) then Uncertain else NonNeighbor).

(** [Decode]. A decodable code sets only the flag: the other members keep the
    values they had. *)
Definition HybridEncode_Decode (E : Vectors) (vertex : Z) (info : DecodeInfo) : option DecodeInfo :=
  encode ← zget E vertex;
  one ← BitSetSIMD_IsOne encode 0;
  if (one : bool) then
    Some {| decodable := true; block_num := block_num info; hash_begin := hash_begin info;
            min := min info; max := max info |}
  else
    n ← BitSetSIMD_GetBlockNum (LOG_K C) encode;
    if n =? 0 then
      Some {| decodable := false; block_num := n; hash_begin := u16 (BLOCK_BEGIN_INDEX C);
              min := 0; max := 0 |}
    else
      type ← HybridEncode_GetBlockModel encode;
      mn ← (if negb (Z.land (BlockType_val type) 0x0d =? 0)
            then BitSetSIMD_BlockGet encode (BLOCK_BEGIN_INDEX C) (VERTEX_BIT_SIZE C) else Some 0);
      mx ← (if negb (Z.land (BlockType_val type) 0x0b =? 0)
            then BitSetSIMD_BlockGet encode
                   (u32 (BLOCK_BEGIN_INDEX C + (n - 1) * VERTEX_BIT_SIZE C)) (VERTEX_BIT_SIZE C)
            else Some (Encode_vertex_id_upper C));
      Some {| decodable := false; block_num := n;
              hash_begin := u16 (BLOCK_BEGIN_INDEX C + n * VERTEX_BIT_SIZE C);
              min := mn; max := mx |}.

(** [NEpairTest(vertex1, vertex2)], the undirected build. *)
Definition HybridEncode_NEpairTest (E : Vectors) (vertex1 vertex2 : Z) : option PairType :=
  encode_type1 ← HybridEncode_IsDecodable E vertex1;
  encode_type2 ← HybridEncode_IsDecodable E vertex2;
  let '(encode_type1, encode_type2, vertex1, vertex2) :=
    if negb encode_type1 && encode_type2
    then (encode_type2, encode_type1, vertex2, vertex1)
    else (encode_type1, encode_type2, vertex1, vertex2) in
  type1 ← HybridEncode_NonNeighborTest E vertex1 vertex2;
  if encode_type1 && negb encode_type2 then Some type1
  else
    type2 ← HybridEncode_NonNeighborTest E vertex2 vertex1;
    Some (PairType_min type1 type2).

(** [NEpairTest(vertex1, decode_info1, vertex2, decode_info2)]. *)
Definition HybridEncode_NEpairTest_info (E : Vectors) (vertex1 : Z) (info1 : DecodeInfo)
    (vertex2 : Z) (info2 : DecodeInfo) : option PairType :=
  if decodable info1 && negb (decodable info2)
  then HybridEncode_NonNeighborTest_info E vertex1 info1 vertex2
  else if negb (decodable info1) && decodable info2
  then HybridEncode_NonNeighborTest_info E vertex2 info2 vertex1
  else if decodable info1 && decodable info2 then
    type1 ← HybridEncode_NonNeighborTest_info E vertex1 info1 vertex2;
    if negb (Z.land (PairType_val type1) 0x01 =? 0) then Some Neighbor
    else HybridEncode_NonNeighborTest_info E vertex2 info2 vertex1
  else
    type1 ← HybridEncode_NonNeighborTest_info E vertex1 info1 vertex2;
    if negb (Z.land (PairType_val type1) 0x03 =? 0) then Some type1
    else HybridEncode_NonNeighborTest_info E vertex2 info2 vertex1.

(** [SetNonDecodable]: the vector rebuilt from scratch as a partial code. *)
Definition HybridEncode_SetNonDecodable (neighbor_encode neighbor_left : list Z) (type : BlockType)
    (bitset : list Z) : option (list Z) :=
  let bitset := BitSetSIMD_Clear bitset in
  bitset ← BitSetSIMD_SetZero bitset 0;
  bitset ← HybridEncode_SetBlockModel bitset type;
  let n := Z.of_nat (length neighbor_encode) in
  bitset ← BitSetSIMD_BlockSet bitset 3 (LOG_K C) (u32 n);
  r ← foldM (store_step (VERTEX_BIT_SIZE C)) neighbor_encode (bitset, u32 (3 + LOG_K C));
  let '(bitset, _) := r in
  let hash_begin := u32 (n * VERTEX_BIT_SIZE C + LOG_K C + 3) in
  if hash_begin =? PER_ENCODE_BIT_SIZE C then Some bitset
  else foldM (fun v bitset => h ← HybridEncode_Hash v hash_begin; BitSetSIMD_SetOne bitset h)
             neighbor_left bitset.

(** [ChooseHighest]: a candidate with a higher score replaces the vector. *)
Definition HybridEncode_ChooseHighest (neighbors : list Z) (hash_count : HashCount)
    (block_size first_idx : Z) (type : BlockType) (st : Z * list Z) : option (Z * list Z) :=
  let '(max_score, best_bitset) := st in
  score ← HashCount_GetScore C hash_count neighbors block_size first_idx type;
  if max_score <? score then
    neighbor_encode ← vector_range neighbors first_idx (first_idx + block_size);
    left1 ← (if 0 <? first_idx then vector_range neighbors 0 first_idx else Some []);
    left2 ← (if negb (u32 (first_idx + block_size - 1) =? Z.of_nat (length neighbors))
             then vector_range neighbors (first_idx + block_size) (Z.of_nat (length neighbors))
             else Some []);
    best_bitset ← HybridEncode_SetNonDecodable neighbor_encode (left1 ++ left2) type best_bitset;
    Some (score, best_bitset)
  else Some (max_score, best_bitset).

(** The candidates of one block size: the body of the loop of [DynamicChoose].
    The block slides over the neighbors with the counters kept in step; the
    last index read is at most the length, so [length neighbors] turns are
    enough. *)
Definition DynamicChoose_slide (neighbors : list Z) (block_size first_idx : Z)
    (st : HashCount * (Z * list Z)) : option (HashCount * (Z * list Z)) :=
  let '(hash_count, best) := st in
  a ← zget neighbors (first_idx - 1);
  hash_count ← HashCount_AddHash hash_count a;
  r ← zget neighbors (u32 (first_idx + block_size - 1));
  hash_count ← HashCount_RemoveHash hash_count r;
  best ← HybridEncode_ChooseHighest neighbors hash_count block_size first_idx Middle best;
  Some (hash_count, best).

Definition DynamicChoose_size (neighbors : list Z) (block_size : Z) (st : HashCount * (Z * list Z))
  : option (HashCount * (Z * list Z)) :=
  let '(hash_count, best) := st in
  let neighbor_size := u32 (Z.of_nat (length neighbors)) in
  hash_count ← HashCount_ReConstruct C hash_count neighbors block_size false;
  best ← HybridEncode_ChooseHighest neighbors hash_count block_size 0 LeftMost best;
  if block_size =? 1 then
    hash_count ← HashCount_ReConstruct C hash_count neighbors block_size true;
    best ← HybridEncode_ChooseHighest neighbors hash_count block_size
             (u32 (neighbor_size - block_size)) RightMost best;
    Some (hash_count, best)
  else
    let last := u32 (neighbor_size - block_size - 1) in
    r ← for_loop (Z.to_nat (Z.min last (neighbor_size + 1))) 1
          (DynamicChoose_slide neighbors block_size) (hash_count, best);
    let '(hash_count, best) := r in
    best ← HybridEncode_ChooseHighest neighbors hash_count block_size (u32 (Z.max 1 (last + 1)))
             RightMost best;
    Some (hash_count, best).

(** [DynamicChoose]: the best candidate and its score. The members that the
    constructor of [HashCount] leaves uninitialised are written before any
    read. *)
Definition HybridEncode_DynamicChoose (bitset neighbors : list Z) : option (list Z * Z) :=
  hash_count ← HashCount_ReConstruct C (HashCount_default C 0 0 0) neighbors 0 false;
  best ← HybridEncode_ChooseHighest neighbors hash_count 0 0 FullHash (0, bitset);
  r ← for_loop (Z.to_nat (MAX_INTEGER_SIZE C)) 1 (DynamicChoose_size neighbors) (hash_count, best);
  let '(_, (max_score, bitset)) := r in Some (bitset, max_score).

(** [EncodeVertex]. The decodable branch does not clear the vector. *)
Definition HybridEncode_EncodeVertex (E : Vectors) (vertex_id : Z) (neighbors : list Z)
  : option Vectors :=
  encode ← zget E vertex_id;
  if Z.of_nat (length neighbors) <=? MAX_K_CORE_SIZE C then
    encode ← BitSetSIMD_SetOne encode 0;
    r ← foldM (store_step (VERTEX_BIT_SIZE C)) neighbors (encode, 1);
    zset E vertex_id r.1
  else
    r ← HybridEncode_DynamicChoose encode neighbors;
    zset E vertex_id r.1.

(** [InsertPair]. *)
Definition HybridEncode_InsertPair (E : Vectors) (vertex1 vertex2 : Z) : option Vectors :=
  t ← HybridEncode_NEpairTest E vertex1 vertex2;
  if bool_decide (t = Uncertain) then Some E else
  encode_type1 ← HybridEncode_GetEncodeType E vertex1;
  encode_type2 ← HybridEncode_GetEncodeType E vertex2;
  let '(vertex1, vertex2) :=
    if EncodeType_val encode_type2 <? EncodeType_val encode_type1
    then (vertex2, vertex1) else (vertex1, vertex2) in
  let neighbor2 := HybridEncode_GetAllNeighbors vertex2 in
  let neighbor1 := HybridEncode_GetAllNeighbors vertex1 ++ [vertex2] in
  E ← HybridEncode_EncodeVertex E vertex1 neighbor1;
  HybridEncode_EncodeVertex E vertex2 neighbor2.

(** [RestructChoose]. *)
Definition HybridEncode_RestructChoose (E : Vectors) (vertex1 : Z) (neighbor1 : list Z)
    (vertex2 : Z) (neighbor2 : list Z) : option Vectors :=
  d1 ← zget E vertex1;
  r1 ← HybridEncode_DynamicChoose d1 neighbor1;
  E ← zset E vertex1 r1.1;
  d2 ← zget E vertex2;
  r2 ← HybridEncode_DynamicChoose d2 neighbor2;
  zset E vertex2 r2.1.

(** [RemoveNeighbor]: the neighbors but [vertex2] encoded again. *)
Definition HybridEncode_RemoveNeighbor (E : Vectors) (vertex1 vertex2 : Z) : option Vectors :=
  let neighbors := filter (fun x => x <> vertex2) (HybridEncode_GetAllNeighbors vertex1) in
  HybridEncode_EncodeVertex E vertex1 neighbors.

(** [DeletePair]. *)
Definition HybridEncode_DeletePair (E : Vectors) (vertex1 vertex2 : Z) : option Vectors :=
  t1 ← HybridEncode_NonNeighborTest E vertex1 vertex2;
  E ← (if bool_decide (t1 <> NonNeighbor) then HybridEncode_RemoveNeighbor E vertex1 vertex2
       else Some E);
  t2 ← HybridEncode_NonNeighborTest E vertex2 vertex1;
  if bool_decide (t2 = NonNeighbor) then HybridEncode_RemoveNeighbor E vertex2 vertex1 else Some E.

(** [GetBlockInteger]: the ids a code stores. *)
Fixpoint GetBlockInteger_full (fuel : nat) (d : list Z) (index : Z) (acc : list Z)
  : option (list Z) :=
  if index <=? u32 (PER_ENCODE_BIT_SIZE C - VERTEX_BIT_SIZE C + 1) then
    match fuel with
    | O => None
    | S fuel' =>
        v ← BitSetSIMD_BlockGet d index (VERTEX_BIT_SIZE C);
        if v =? 0 then Some acc
        else GetBlockInteger_full fuel' d (u32 (index + VERTEX_BIT_SIZE C)) (acc ++ [v])
    end
  else Some acc.

Definition HybridEncode_GetBlockInteger (E : Vectors) (vertex : Z) : option (list Z) :=
  d ← zget E vertex;
  dec ← HybridEncode_IsDecodable E vertex;
  if (dec : bool) then GetBlockInteger_full (S (Z.to_nat (PER_ENCODE_BIT_SIZE C))) d 1 []
  else
    n ← HybridEncode_GetBlockSize E vertex;
    for_loop (Z.to_nat n) 0
      (fun i acc => v ← BitSetSIMD_BlockGet d (3 + LOG_K C + i * VERTEX_BIT_SIZE C) (VERTEX_BIT_SIZE C);
                    Some (acc ++ [v])) [].

(** [NePairCount] and [NonNTestSIMD] are stubs in the source: the first returns
    zero, the second has no [return]. *)
Definition HybridEncode_NePairCount (vertex_id : Z) (encode : list Z) : Z := 0.
End HybridEncode.

(** * What a code says

    [full_code d l] and [partial_code d t blk rest]: the vector [d] is a
    decodable code of the list [l], or a partial code with the block [blk] of
    model [t] and every vertex of [rest] in the hash part. *)

Set Default Proof Using "Type*".

Section HybridFacts.
Context (C : Config) `{HL : Layout C}.

Notation vb := (VERTEX_BIT_SIZE C).
Notation PER := (PER_ENCODE_BIT_SIZE C).

Definition vec_ok (d : list Z) : Prop := bytes_ok d /\ nbits d = PER.

Definition full_code (d l : list Z) : Prop :=
  vec_ok d /\ bit_at d 0 = true /\ Z.of_nat (length l) <= MAX_K_CORE_SIZE C /\
  fields d 1 vb (Z.to_nat (MAX_K_CORE_SIZE C)) =
    l ++ replicate (Z.to_nat (MAX_K_CORE_SIZE C) - length l) 0.

(** The two bits of the block model. *)
Definition model_bits (t : BlockType) : bool * bool :=
  match t with LeftMost => (false, false) | RightMost => (true, true) | _ => (false, true) end.

Definition hash_start (blk : list Z) : Z := 3 + LOG_K C + Z.of_nat (length blk) * vb.

Record partial_code (d : list Z) (t : BlockType) (blk rest : list Z) : Prop := {
  pc_vec : vec_ok d;
  pc_flag : bit_at d 0 = false;
  pc_model : (bit_at d 1, bit_at d 2) = model_bits t;
  pc_size : field d 3 (LOG_K C) = Z.of_nat (length blk);
  pc_len : Z.of_nat (length blk) <= MAX_INTEGER_SIZE C;
  pc_block : fields d (3 + LOG_K C) vb (length blk) = blk;
  pc_hash : hash_start blk < PER -> forall x, x ∈ rest ->
    bit_at d (x mod (PER - hash_start blk) + hash_start blk) = true
}.

(** A vertex id that fits its field. *)
Definition id_ok (x : Z) : Prop := 1 <= x <= VERTEX_SIZE C /\ x < 2 ^ vb.

Lemma id_ok_range x : id_ok x -> 0 <= x < 2 ^ vb.
Proof. unfold id_ok. lia. Qed.

Lemma ids_range l : Forall id_ok l -> Forall (fun x => 0 <= x < 2 ^ vb) l.
Proof. intros H. eapply Forall_impl; [exact H|]. apply id_ok_range. Qed.

Lemma vec_per d : vec_ok d -> 40 <= nbits d + 8 /\ nbits d <= 2048.
Proof. intros [_ H]. layout_facts C. lia. Qed.

Lemma log_k_field d : vec_ok d -> field_dom d 3 (LOG_K C).
Proof. intros [_ H]. layout_facts C. split; [lia|]. split; [lia|]. split; [lia|]. right. change (3 mod 8) with 3. lia. Qed.

(** ** Building a decodable code *)

Lemma full_code_built d l :
  vec_ok d -> (forall q, 0 <= q -> bit_at d q = false) ->
  Z.of_nat (length l) <= MAX_K_CORE_SIZE C -> Forall id_ok l ->
  exists d' i, (d1 ← BitSetSIMD_SetOne d 0; foldM (store_step vb) l (d1, 1)) = Some (d', i) /\
    full_code d' l.
Proof.
  intros [Hd Hn] Hz Hlen Hids. layout_facts C.
  destruct (BitSetSIMD_SetOne_spec d 0 Hd) as (d1 & -> & Hr1); [lia|]. bind_step.
  pose proof (rewrites_nbits _ _ _ Hr1) as Hn1. destruct Hr1 as (Hok1 & Hl1 & Hb1).
  destruct (store_fields_spec vb l d1 1) as (d' & -> & Hok & Hl' & Hf & Hb);
    [done|lia|lia|nia|lia|by apply ids_range|].
  exists d', (1 + Z.of_nat (length l) * vb). split; [done|].
  split; [split; [done|unfold nbits in *; lia]|]. split; [|split; [done|]].
  - rewrite Hb, Hb1 by lia. done.
  - replace (Z.to_nat (MAX_K_CORE_SIZE C))
      with (length l + (Z.to_nat (MAX_K_CORE_SIZE C) - length l))%nat at 1 by lia.
    rewrite fields_app, Hf. f_equal. apply fields_zero; [lia|lia|].
    intros q Hq. rewrite Hb, Hb1, Hz by nia. rewrite orb_false_r. apply Z.eqb_neq. nia.
Qed.

(** ** Building a partial code *)

Lemma SetBlockModel_built d t :
  vec_ok d -> exists d', HybridEncode_SetBlockModel d t = Some d' /\ vec_ok d' /\
    length d' = length d /\ (bit_at d' 1, bit_at d' 2) = model_bits t /\
    forall q, 0 <= q -> q <> 1 -> q <> 2 -> bit_at d' q = bit_at d q.
Proof.
  intros [Hd Hn]. layout_facts C.
  assert (forall v, 0 <= v < 4 -> exists d', BitSetSIMD_BlockSet d 1 2 v = Some d' /\ vec_ok d' /\
    length d' = length d /\ (bit_at d' 1, bit_at d' 2) = (Z.testbit v 1, Z.testbit v 0) /\
    forall q, 0 <= q -> q <> 1 -> q <> 2 -> bit_at d' q = bit_at d q) as Hset.
  { intros v Hv. destruct (BitSetSIMD_BlockSet_spec d 1 2 v Hd) as (d' & E & Hr);
      [repeat split; lia|]. pose proof (rewrites_nbits _ _ _ Hr). destruct Hr as (Hok & Hlen & Hb).
    exists d'. split; [done|]. split; [split; [done|lia]|]. split; [done|]. split.
    - rewrite !Hb by lia. done.
    - intros q Hq H1 H2. rewrite Hb by done. unfold put_field. split_ltb; try lia; done. }
  destruct t; simpl; apply Hset; lia.
Qed.

Lemma Hash_pos x hb :
  0 <= x < 2 ^ 32 -> 0 <= hb < PER ->
  HybridEncode_Hash C x hb = Some (x mod (PER - hb) + hb) /\
  hb <= x mod (PER - hb) + hb < PER.
Proof.
  intros Hx Hb. layout_facts C. unfold HybridEncode_Hash. rewrite (u32_small (PER - hb)) by lia.
  unfold umod. rewrite (proj2 (Z.eqb_neq _ _)) by lia. bind_step.
  pose proof (Z.mod_pos_bound x (PER - hb)). rewrite u32_small by lia. split; [done|lia].
Qed.

Lemma id_ok_u32 x : id_ok x -> 0 < x < 2 ^ 32.
Proof. intros [H _]. layout_facts C. lia. Qed.

(** Up to the block: the flag, the model, the size and the ids. *)
Lemma SetNonDecodable_block blk rest t d :
  vec_ok d -> Z.of_nat (length blk) <= MAX_INTEGER_SIZE C -> Forall id_ok blk ->
  exists d4, partial_code d4 t blk [] /\
    HybridEncode_SetNonDecodable C blk rest t d =
      (if hash_start blk =? PER then Some d4
       else foldM (fun v bitset => h ← HybridEncode_Hash C v (hash_start blk); BitSetSIMD_SetOne bitset h) rest d4).
Proof.
  intros [Hd Hn] Hlen Hblk. layout_facts C. unfold HybridEncode_SetNonDecodable; cbv zeta.
  pose proof (BitSetSIMD_Clear_spec d Hd) as Hr0. pose proof (rewrites_nbits _ _ _ Hr0) as Hn0.
  destruct Hr0 as (Hok0 & Hl0 & Hb0).
  destruct (BitSetSIMD_SetZero_spec _ 0 Hok0) as (d1 & -> & Hr1); [lia|]. bind_step.
  pose proof (rewrites_nbits _ _ _ Hr1) as Hn1. destruct Hr1 as (Hok1 & Hl1 & Hb1).
  destruct (SetBlockModel_built d1 t) as (d2 & -> & [Hok2 Hn2] & Hl2 & Hm2 & Hb2);
    [split; [done|lia]|]. bind_step.
  rewrite (u32_small (Z.of_nat _)) by lia.
  destruct (BitSetSIMD_BlockSet_spec d2 3 (LOG_K C) (Z.of_nat (length blk)) Hok2)
    as (d3 & -> & Hr3); [repeat split; lia|]. bind_step.
  pose proof (rewrites_nbits _ _ _ Hr3) as Hn3.
  pose proof (field_put_same d2 d3 3 (LOG_K C) (Z.of_nat (length blk)) Hr3
    ltac:(lia) ltac:(lia) ltac:(lia)) as Hsize3. destruct Hr3 as (Hok3 & Hl3 & Hb3).
  rewrite (u32_small (3 + LOG_K C)) by lia.
  destruct (store_fields_spec vb blk d3 (3 + LOG_K C)) as (d4 & -> & Hok4 & Hl4 & Hf4 & Hb4);
    [done|lia|lia|nia|lia|by apply ids_range|]. bind_step.
  rewrite u32_small by nia.
  replace (Z.of_nat (length blk) * vb + LOG_K C + 3) with (hash_start blk) by (unfold hash_start; lia).
  assert (forall q, 0 <= q < 3 -> bit_at d4 q = bit_at d2 q) as Hlow.
  { intros q Hq. rewrite Hb4, Hb3 by lia. unfold put_field. split_ltb; try lia; done. }
  exists d4. split; [|done]. split; try done.
  - split; [done|unfold nbits in *; lia].
  - rewrite Hlow, Hb2, Hb1 by lia. done.
  - by rewrite !Hlow by lia.
  - rewrite <- Hsize3. apply field_ext; [lia|]. intros q Hq. apply Hb4; lia.
  - intros _ x Hx. by apply not_elem_of_nil in Hx.
Qed.

Lemma SetNonDecodable_built blk rest t d :
  vec_ok d -> Z.of_nat (length blk) <= MAX_INTEGER_SIZE C -> Forall id_ok blk -> Forall id_ok rest ->
  exists d', HybridEncode_SetNonDecodable C blk rest t d = Some d' /\ partial_code d' t blk rest.
Proof.
  intros Hd Hlen Hblk Hrest. destruct (SetNonDecodable_block blk rest t d Hd Hlen Hblk) as (d4 & Hpc & ->). layout_facts C.
  destruct (Z.eqb_spec (hash_start blk) PER) as [Heq|Hne].
  { exists d4. split; [done|]. destruct Hpc. split; try done. intros Hlt. lia. }
  assert (bytes_ok d4 /\ nbits d4 = PER) as [Hok4 Hn4] by (destruct Hpc; by destruct pc_vec0).
  assert (0 <= hash_start blk < PER) as Hhb by (unfold hash_start in *; nia).
  destruct (set_bits_spec (fun x => HybridEncode_Hash C x (hash_start blk))
    (fun x => x mod (PER - hash_start blk) + hash_start blk) rest d4 Hok4)
    as (d5 & -> & Hr5).
  { intros x Hx. rewrite Forall_forall, <- list_elem_of_In in *.
    destruct (Hash_pos x (hash_start blk)) as [Hx1 Hx2]; [|done|].
    - apply Hrest, id_ok_u32 in Hx. lia.
    - split; [done|]. lia. }
  pose proof (rewrites_nbits _ _ _ Hr5) as Hn5. destruct Hr5 as (Hok5 & Hl5 & Hb5).
  assert (forall q, 0 <= q < hash_start blk -> bit_at d5 q = bit_at d4 q) as Hsame.
  { intros q Hq. rewrite Hb5 by lia. rewrite bool_decide_eq_false_2, orb_false_r; [done|].
    intros Hin. apply list_elem_of_In, in_map_iff in Hin as (x & Hx & _).
    pose proof (Z.mod_pos_bound x (PER - hash_start blk)). lia. }
  assert (3 + LOG_K C <= hash_start blk) by (unfold hash_start; nia).
  exists d5. split; [done|]. destruct Hpc. split; try done.
  - split; [done|lia].
  - by rewrite Hsame by lia.
  - by rewrite !Hsame by lia.
  - rewrite <- pc_size0. apply field_ext; [lia|]. intros q Hq. apply Hsame; lia.
  - rewrite <- pc_block0 at 2. apply fields_ext; [lia|]. intros q Hq. apply Hsame.
    unfold hash_start. lia.
  - intros _ x Hx. rewrite Hb5 by (pose proof (Z.mod_pos_bound x (PER - hash_start blk)); lia).
    rewrite bool_decide_eq_true_2, orb_true_r; [done|].
    apply list_elem_of_In, in_map_iff. exists x. by rewrite <- list_elem_of_In.
Qed.

(** ** Searching a code *)

(** Both searches decide membership on a sorted run of fields with zero
    padding. *)
Lemma find_spec (simd : bool) d b k l z v :
  bytes_ok d -> fields_dom d b vb k -> 0 < v < 2 ^ 32 ->
  fields d b vb (Z.to_nat k) = l ++ replicate z 0 -> Sorted Z.le l ->
  (if simd then BitSetSIMD_BlockFindSIMD else BitSetSIMD_BlockFind) d b vb k v =
    Some (if bool_decide (v ∈ l) then Neighbor else NonNeighbor).
Proof.
  intros Hd Hdom Hv Hl Hs. destruct simd.
  - rewrite BitSetSIMD_BlockFindSIMD_spec, Hl by done.
    rewrite (bool_decide_ext (v ∈ l ++ replicate z 0) (v ∈ l)); [done|].
    rewrite elem_of_app, elem_of_replicate. naive_solver lia.
  - rewrite BitSetSIMD_BlockFind_spec, Hl by done. rewrite ordered_search_sorted by (done || lia). done.
Qed.

Lemma NonNeighborTest_full E u d l v :
  zget E u = Some d -> full_code d l -> Sorted Z.le l -> 0 < v < 2 ^ 32 ->
  HybridEncode_NonNeighborTest C E u v = Some (if bool_decide (v ∈ l) then Neighbor else NonNeighbor).
Proof.
  intros Hu ([Hd Hn] & Hflag & Hlen & Hl) Hs Hv. layout_facts C.
  unfold HybridEncode_NonNeighborTest, HybridEncode_IsDecodable. rewrite Hu; bind_step.
  rewrite BitSetSIMD_IsOne_spec by (done || lia). bind_step. rewrite Hflag.
  eapply find_spec; [done|repeat split; lia|done|done|done].
Qed.

(** The interval of ids the block answers for. *)
Definition block_min (t : BlockType) (blk : list Z) : Z :=
  match t with LeftMost => 0 | _ => hd 0 blk end.
Definition block_max (t : BlockType) (blk : list Z) : Z :=
  match t with RightMost => VERTEX_SIZE C + 1 | _ => List.last blk 0 end.

(** The answer of a partial code. *)
Definition partial_answer (d : list Z) (t : BlockType) (blk : list Z) (v : Z) : PairType :=
  if (v <? block_min t blk) || (block_max t blk <? v) then
    if hash_start blk =? PER then Uncertain
    else if bit_at d (v mod (PER - hash_start blk) + hash_start blk) then Uncertain else NonNeighbor
  else if bool_decide (v ∈ blk) then Neighbor else NonNeighbor.

Lemma partial_block_num d t blk rest :
  partial_code d t blk rest -> BitSetSIMD_GetBlockNum (LOG_K C) d = Some (Z.of_nat (length blk)).
Proof.
  intros [Hvec Hflag _ Hsize Hlen _ _]. layout_facts C. unfold BitSetSIMD_GetBlockNum.
  rewrite BitSetSIMD_BlockGet_spec by (apply Hvec || by apply log_k_field). bind_step.
  rewrite Hsize. unfold u16. rewrite Z.mod_small by lia. done.
Qed.

Lemma partial_dom d t blk rest :
  partial_code d t blk rest -> fields_dom d (3 + LOG_K C) vb (Z.of_nat (length blk)).
Proof. intros [[_ Hn] _ _ _ Hlen _ _]. layout_facts C. repeat split; try lia. nia. Qed.

(** The first and the last id of the block, as the fields read. *)
Lemma partial_first d t blk rest :
  partial_code d t blk rest ->
  (if Z.of_nat (length blk) =? 0 then Some 0 else BitSetSIMD_BlockGet d (3 + LOG_K C) vb) =
  Some (hd 0 blk).
Proof.
  intros Hpc. destruct blk as [|x l]; [done|]. pose proof (partial_dom _ _ _ _ Hpc) as Hdom.
  destruct Hpc as [[Hd _] _ _ _ _ Hblk _].
  rewrite (proj2 (Z.eqb_neq _ 0)) by (cbn [length]; lia).
  rewrite BitSetSIMD_BlockGet_spec; [|done|].
  - cbn [length] in Hblk. rewrite fields_S in Hblk. injection Hblk as Hx _. by rewrite Hx.
  - replace (3 + LOG_K C) with (3 + LOG_K C + 0 * vb) by lia.
    eapply fields_dom_field; [done|]. cbn [length]. lia.
Qed.

Lemma partial_last d t blk rest :
  partial_code d t blk rest ->
  (if Z.of_nat (length blk) =? 0 then Some 0
   else BitSetSIMD_BlockGet d (u32 (3 + LOG_K C + (Z.of_nat (length blk) - 1) * vb)) vb) =
  Some (List.last blk 0).
Proof.
  intros Hpc. destruct (Z.eqb_spec (Z.of_nat (length blk)) 0) as [E0|Hne]; [by destruct blk|].
  pose proof (partial_dom _ _ _ _ Hpc) as Hdom. destruct Hpc as [[Hd Hn] _ _ _ _ Hblk _].
  layout_facts C. pose proof Hdom as (_ & _ & _ & Hfit).
  rewrite u32_small by nia. rewrite BitSetSIMD_BlockGet_spec;
    [|done|eapply fields_dom_field; [exact Hdom|lia]].
  f_equal. destruct (exists_last (l := blk)) as (l & x & ->); [by destruct blk|].
  rewrite last_last, length_app in *. cbn [length] in *.
  rewrite fields_app in Hblk. apply app_inj_2 in Hblk as [_ Hx]; [|done].
  rewrite fields_S in Hx. injection Hx as Hx. rewrite <- Hx. f_equal. lia.
Qed.

Lemma partial_model E u d t blk rest :
  zget E u = Some d -> partial_code d t blk rest ->
  HybridEncode_GetBlockModel_v E u = Some (match t with FullHash => Middle | _ => t end).
Proof.
  intros Hu [[Hd Hn] _ Hm _ _ _ _]. layout_facts C. unfold HybridEncode_GetBlockModel_v.
  rewrite Hu; bind_step. rewrite !BitSetSIMD_IsOne_spec by (done || lia). bind_step.
  destruct t; injection Hm as E1 E2; rewrite E1; bind_step; rewrite ?E2; done.
Qed.

Lemma NonNeighborTest_partial E u d t blk rest v :
  zget E u = Some d -> partial_code d t blk rest -> Sorted Z.le blk -> 0 < v < 2 ^ 32 ->
  HybridEncode_NonNeighborTest C E u v = Some (partial_answer d t blk v).
Proof.
  intros Hu Hpc Hs Hv. layout_facts C. pose proof (partial_dom _ _ _ _ Hpc) as Hdom.
  pose proof Hdom as (_ & _ & _ & Hfit).
  unfold HybridEncode_NonNeighborTest, HybridEncode_IsDecodable. rewrite Hu; bind_step.
  destruct (pc_vec _ _ _ _ Hpc) as [Hd Hn].
  rewrite BitSetSIMD_IsOne_spec by (done || lia). bind_step. rewrite (pc_flag _ _ _ _ Hpc).
  rewrite (partial_block_num _ _ _ _ Hpc). bind_step. rewrite (partial_model _ _ _ _ _ _ Hu Hpc).
  bind_step. cbv zeta. rewrite (partial_first _ _ _ _ Hpc), (partial_last _ _ _ _ Hpc).
  replace (u32 (Z.of_nat (length blk) * vb + 3 + LOG_K C)) with (hash_start blk)
    by (unfold hash_start; rewrite u32_small; lia).
  replace (Encode_vertex_id_upper C) with (VERTEX_SIZE C + 1)
    by (unfold Encode_vertex_id_upper; rewrite u32_small; lia).
  unfold partial_answer.
  assert (hash_start blk = PER \/ 0 <= hash_start blk < PER) as Hhs by (unfold hash_start; lia).
  assert (0 <= v < 2 ^ 32) as Hv' by lia.
  assert ((if HSIMD C then BitSetSIMD_BlockFindSIMD else BitSetSIMD_BlockFind) d (BLOCK_BEGIN_INDEX C)
     vb (Z.of_nat (length blk)) v = Some (if bool_decide (v ∈ blk) then Neighbor else NonNeighbor)) as Hfind.
  { rewrite Lay_begin. eapply (find_spec _ _ _ _ _ 0); [done|done|done| |done].
    rewrite Nat2Z.id, (pc_block _ _ _ _ Hpc). simpl. by rewrite app_nil_r. }
  rewrite Hfind. clear Hfind. unfold block_min, block_max.
  assert (forall a b : Z, (if (v <? a) || (b <? v) then
      if hash_start blk =? PER then Some Uncertain
      else h ← HybridEncode_Hash C v (hash_start blk); one ← BitSetSIMD_IsOne d h;
           Some (if (one : bool) then Uncertain else NonNeighbor)
     else Some (if bool_decide (v ∈ blk) then Neighbor else NonNeighbor)) =
    Some (if (v <? a) || (b <? v) then
      if hash_start blk =? PER then Uncertain
      else if bit_at d (v mod (PER - hash_start blk) + hash_start blk) then Uncertain else NonNeighbor
     else if bool_decide (v ∈ blk) then Neighbor else NonNeighbor)) as Hans.
  { intros a b. destruct ((v <? a) || (b <? v)); [|done].
    destruct (Z.eqb_spec (hash_start blk) PER); [done|].
    destruct (Hash_pos v (hash_start blk) Hv') as [-> Hp]; [lia|]. bind_step.
    rewrite BitSetSIMD_IsOne_spec by (done || lia). done. }
  destruct t; rewrite ?(bool_decide_eq_false_2 (Middle = _)), ?(bool_decide_eq_true_2 (LeftMost = LeftMost)),
    ?(bool_decide_eq_false_2 (LeftMost = RightMost)), ?(bool_decide_eq_true_2 (RightMost = RightMost)),
    ?(bool_decide_eq_false_2 (RightMost = LeftMost)) by done; cbn [negb]; bind_step; apply Hans.
Qed.

(** ** Soundness of a partial code

    [split_of N t blk rest]: [blk] is a run of consecutive neighbors of the
    sorted list [N] and [rest] the others; a left-most block starts the list,
    a right-most one ends it, and the full hash has an empty block. *)
Definition split_of (N : list Z) (t : BlockType) (blk rest : list Z) : Prop :=
  exists A B, N = A ++ blk ++ B /\ rest = A ++ B /\
    match t with
    | FullHash => blk = [] | LeftMost => A = [] /\ blk <> []
    | RightMost => B = [] /\ blk <> [] | Middle => blk <> []
    end.

Lemma sorted_hd blk x d : StronglySorted Z.lt blk -> x ∈ blk -> hd d blk <= x.
Proof.
  destruct blk as [|y l]; [by intros _ ?%not_elem_of_nil|].
  intros [_ Hl]%StronglySorted_inv [->|Hx]%elem_of_cons; cbn [hd]; [lia|].
  rewrite Forall_forall in Hl. apply Hl in Hx. lia.
Qed.

Lemma last_in (l : list Z) d : l <> [] -> List.last l d ∈ l.
Proof.
  intros Hl. rewrite (app_removelast_last d Hl) at 2. rewrite elem_of_app, elem_of_cons. auto.
Qed.

Lemma sorted_last blk x d : StronglySorted Z.lt blk -> x ∈ blk -> x <= List.last blk d.
Proof.
  intros Hs Hx. assert (blk <> []) as Hne by (intros ->; by apply not_elem_of_nil in Hx).
  rewrite (app_removelast_last d Hne) in Hs. rewrite (app_removelast_last d Hne) in Hx.
  apply elem_of_app in Hx as [Hx|[->|[]%not_elem_of_nil]%elem_of_cons]; [|lia].
  apply Z.lt_le_incl. eapply StronglySorted_app_1_elem_of; [exact Hs|done|]. apply elem_of_cons. auto.
Qed.

Lemma hd_in (l : list Z) d : l <> [] -> hd d l ∈ l.
Proof. destruct l; [done|]. intros _. apply elem_of_cons. auto. Qed.

Lemma partial_answer_sound d N t blk rest v :
  StronglySorted Z.lt N -> Forall id_ok N -> split_of N t blk rest -> partial_code d t blk rest ->
  1 <= v <= VERTEX_SIZE C ->
  match partial_answer d t blk v with
  | Neighbor => v ∈ N | NonNeighbor => v ∉ N | Uncertain => True end.
Proof.
  intros Hs Hids (A & B & HN & Hrest & Ht) Hpc Hv. subst N rest.
  pose proof Hs as Hs'. apply StronglySorted_app in Hs' as (HA & _ & Hs2).
  apply StronglySorted_app in Hs2 as (HB & Hblk & _). layout_facts C.
  pose proof (pc_len _ _ _ _ Hpc). unfold partial_answer.
  destruct ((v <? block_min t blk) || (block_max t blk <? v)) eqn:Eout.
  - destruct (Z.eqb_spec (hash_start blk) PER); [done|].
    destruct (bit_at d _) eqn:Ebit; [done|]. rewrite !elem_of_app.
    intros Hin. assert (v ∈ A ++ B) as Hrest.
    { rewrite elem_of_app. destruct Hin as [|[Hin|]]; [auto| |auto]. exfalso.
      pose proof (sorted_hd blk v 0 Hblk Hin). pose proof (sorted_last blk v 0 Hblk Hin).
      apply orb_true_iff in Eout. unfold block_min, block_max in Eout.
      destruct t; lia. }
    rewrite (pc_hash _ _ _ _ Hpc) in Ebit; [done| |done]. unfold hash_start in *. nia.
  - apply orb_false_iff in Eout as [Emin Emax]. unfold block_min, block_max in *.
    case_bool_decide as Hin; rewrite !elem_of_app; [auto|].
    intros [HvA|[?|HvB]]; [|done|].
    + destruct t; [subst blk; simpl in *; lia|destruct Ht as [-> _]; by apply not_elem_of_nil in HvA| |];
        (assert (blk <> []) as Hne by naive_solver; pose proof (HA v (hd 0 blk) HvA) as Hlt;
         rewrite elem_of_app in Hlt; pose proof (hd_in blk 0 Hne); specialize (Hlt ltac:(auto)); lia).
    + destruct t; [subst blk; simpl in *; lia| |destruct Ht as [-> _]; by apply not_elem_of_nil in HvB|];
        (assert (blk <> []) as Hne by naive_solver; pose proof (last_in blk 0 Hne) as Hlast;
         pose proof (HB _ v Hlast HvB); lia).
Qed.

(** ** Choosing a layout *)

(** The neighbors outside the block of [bs] at [first]. *)
Definition outside (N : list Z) (bs first : Z) : list Z :=
  take (Z.to_nat first) N ++ drop (Z.to_nat (first + bs)) N.

(** The vector holds a sound partial code once a candidate was taken. *)
Definition covers (N d : list Z) : Prop :=
  exists t blk rest, split_of N t blk rest /\ partial_code d t blk rest.

Definition best_ok (N : list Z) (st : Z * list Z) : Prop :=
  0 <= st.1 /\ vec_ok st.2 /\ (0 < st.1 -> covers N st.2).

Definition candidate (N : list Z) (t : BlockType) (bs first : Z) : Prop :=
  0 <= bs <= MAX_INTEGER_SIZE C /\ 0 <= first /\ first + bs <= Z.of_nat (length N) /\
  match t with
  | FullHash => bs = 0 /\ first = 0 | LeftMost => 1 <= bs /\ first = 0
  | RightMost => 1 <= bs /\ first + bs = Z.of_nat (length N) | Middle => 1 <= bs
  end.

Lemma vector_range_Some {A} (l : list A) a b :
  0 <= a <= b -> b <= Z.of_nat (length l) ->
  vector_range l a b = Some (take (Z.to_nat (b - a)) (drop (Z.to_nat a) l)).
Proof.
  intros Ha Hb. unfold vector_range.
  rewrite !(proj2 (Z.leb_le _ _)) by lia. done.
Qed.

Lemma ChooseHighest_ok N h t bs first st :
  Forall id_ok N -> Z.of_nat (length N) < 2 ^ 31 -> candidate N t bs first ->
  hc_ok C h -> hash_size_ h = PER - PREFIX_BIT_SIZE C - bs * vb -> best_ok N st ->
  exists s st', HashCount_GetScore C h N bs first t = Some s /\
    HybridEncode_ChooseHighest C N h bs first t st = Some st' /\ best_ok N st' /\
    st.1 <= st'.1 /\ s <= st'.1.
Proof.
  intros Hids Hn Hcand Hh Hsize Hbest. destruct st as [m d]. layout_facts C.
  pose proof Hcand as (Hbs & Hf & Hfit & Ht).
  destruct (HashCount_GetScore_ok C h N bs first t Hh Hn) as [s Hs].
  { destruct t; [left|right..]; (split; [done|]); nia. }
  exists s. unfold HybridEncode_ChooseHighest. rewrite Hs; bind_step.
  destruct (Z.ltb_spec m s) as [Hlt|Hge]; [|exists (m, d); simpl; auto with lia].
  set (blk := take (Z.to_nat bs) (drop (Z.to_nat first) N)).
  rewrite (vector_range_Some N first (first + bs)) by lia. bind_step.
  replace (first + bs - first) with bs by lia. fold blk.
  assert ((if 0 <? first then vector_range N 0 first else Some []) = Some (take (Z.to_nat first) N)) as ->.
  { destruct (Z.ltb_spec 0 first).
    - rewrite vector_range_Some by lia. simpl. do 2 f_equal. lia.
    - by replace first with 0 by lia. }
  bind_step. rewrite (proj2 (Z.eqb_neq _ _)).
  2: { destruct (Z.eq_dec (first + bs) 0) as [E0|]; [|rewrite u32_small by lia; lia].
       rewrite E0. vm_compute (u32 (0 - 1)). lia. }
  cbn [negb]. rewrite vector_range_Some by lia. bind_step.
  rewrite (take_ge (drop (Z.to_nat (first + bs)) N)) by (rewrite length_drop; lia).
  assert (N = take (Z.to_nat first) N ++ blk ++ drop (Z.to_nat (first + bs)) N) as HN.
  { rewrite Z2Nat.inj_add, <- drop_drop by lia. unfold blk.
    by rewrite take_drop, take_drop. }
  assert (length blk = Z.to_nat bs) as Hlb.
  { unfold blk. rewrite length_take, length_drop. lia. }
  pose proof Hids as Hids'. rewrite HN, !Forall_app in Hids'. destruct Hids' as (Hi1 & Hi2 & Hi3).
  destruct Hbest as (Hm & Hvec & _). simpl in Hm, Hvec.
  destruct (SetNonDecodable_built blk (outside N bs first) t d Hvec) as (d' & E & Hpc);
    [lia|done|by apply Forall_app|].
  change (take _ N ++ drop _ N) with (outside N bs first).
  rewrite E. bind_step. exists (s, d'). split; [done|]. split; [done|].
  split; [|simpl; lia]. split; [simpl; lia|]. split; [apply Hpc|]. intros _.
  exists t, blk, (outside N bs first). split; [|done].
  exists (take (Z.to_nat first) N), (drop (Z.to_nat (first + bs)) N). split; [done|]. split; [done|].
  assert (1 <= bs -> blk <> []) as Hne by (intros ? ->; simpl in Hlb; lia).
  destruct t; simpl in Ht.
  - destruct blk; [done|]. simpl in Hlb. lia.
  - destruct Ht as [? ->]. auto.
  - split; [|naive_solver]. apply drop_ge. lia.
  - auto.
Qed.

(** The state of the search: counters of the current block size and the best
    candidate so far. *)
Definition search_ok (N : list Z) (bs m : Z) (st : HashCount * (Z * list Z)) : Prop :=
  hc_ok C st.1 /\ hash_size_ st.1 = PER - PREFIX_BIT_SIZE C - bs * vb /\
  best_ok N st.2 /\ m <= st.2.1.

Lemma DynamicChoose_slide_ok N bs m f st :
  Forall id_ok N -> Z.of_nat (length N) < 2 ^ 31 -> 1 <= bs <= MAX_INTEGER_SIZE C ->
  1 <= f -> f + bs <= Z.of_nat (length N) -> search_ok N bs m st ->
  exists st', DynamicChoose_slide C N bs f st = Some st' /\ search_ok N bs m st'.
Proof.
  intros Hids Hn Hbs Hf Hfit Hst. destruct st as [h best]. destruct Hst as (Hh & Hsz & Hb & Hm).
  simpl in *. unfold DynamicChoose_slide. rewrite u32_small by lia.
  destruct (zget_is_Some N (f - 1)) as [a ->]; [lia|]. bind_step.
  destruct (HashCount_AddHash_ok C h a Hh) as (h1 & -> & Hh1 & Hs1). bind_step.
  destruct (zget_is_Some N (f + bs - 1)) as [r ->]; [lia|]. bind_step.
  destruct (HashCount_RemoveHash_ok C h1 r Hh1) as (h2 & -> & Hh2 & Hs2). bind_step.
  destruct (ChooseHighest_ok N h2 Middle bs f best) as (s & best' & _ & -> & Hb' & Hm' & _);
    [done|done|repeat split; lia|done|congruence|done|]. bind_step.
  eexists. split; [done|]. split; [done|]. split; [simpl; congruence|]. split; [done|simpl; lia].
Qed.

(** The score of the left-most candidate of one neighbor is positive. *)
Lemma LeftMost_score_pos N h s :
  Forall id_ok N -> 2 <= Z.of_nat (length N) ->
  occ C h (drop 1 N) -> HashCount_GetScore C h N 1 0 LeftMost = Some s -> 0 < s.
Proof.
  intros Hids Hn ([_ Hhs] & _ & Hc & _). unfold HashCount_GetScore, HashCount_interval.
  rewrite (u32_small (0 + 1 - 1)) by lia. change (0 + 1 - 1) with 0.
  destruct N as [|x N]; [simpl in Hn; lia|]. rewrite zget_lookup by lia.
  change ((x :: N) !! Z.to_nat 0) with (Some x). bind_step. cbv zeta.
  apply Forall_cons in Hids as [[Hx _] _]. layout_facts C.
  rewrite !(u32_small (x - 0 + 1)), (u32_small (VERTEX_SIZE C - x + 0)) by lia.
  destruct (Z.eqb_spec (hash_size_ h) 0) as [|Hne]; [intros [= <-]; lia|].
  unfold udiv. rewrite (proj2 (Z.eqb_neq _ _) Hne). bind_step.
  pose proof (size_buckets_bound (hash_size_ h) (drop 1 (x :: N)) ltac:(lia)) as Hbound.
  rewrite <- Hc in Hbound. rewrite (u32_small (hash_size_ h - hash_count_ h)) by lia.
  pose proof (Z.div_mod (VERTEX_SIZE C - x + 0) (hash_size_ h) Hne).
  pose proof (Z.mod_pos_bound (VERTEX_SIZE C - x + 0) (hash_size_ h)).
  pose proof (Z.div_pos (VERTEX_SIZE C - x + 0) (hash_size_ h)).
  set (q := (VERTEX_SIZE C - x + 0) / hash_size_ h) in *.
  assert (0 <= q * (hash_size_ h - hash_count_ h) <= VERTEX_SIZE C - x) by nia.
  rewrite u32_small by lia. intros [= <-]. lia.
Qed.

Lemma DynamicChoose_size_ok N bs m st :
  Forall id_ok N -> Z.of_nat (length N) < 2 ^ 31 -> MAX_INTEGER_SIZE C < Z.of_nat (length N) ->
  1 <= bs <= MAX_INTEGER_SIZE C -> hc_ok C st.1 -> best_ok N st.2 -> m <= st.2.1 ->
  exists st', DynamicChoose_size C N bs st = Some st' /\ search_ok N bs m st' /\
    (bs = 1 -> Z.of_nat (length (hash_array_ st.1)) = PER -> 0 < st'.2.1).
Proof.
  intros Hids Hn Hlong Hbs Hh Hb Hm. destruct st as [h best]. simpl in *. layout_facts C.
  assert (0 <= PER - PREFIX_BIT_SIZE C - bs * vb <= PER) as Hsz by nia.
  assert (Z.of_nat (length N) < 2 ^ 31) as Hn' by lia.
  unfold DynamicChoose_size. rewrite (u32_small (Z.of_nat (length N))) by lia. cbv zeta.
  destruct (HashCount_ReConstruct_ok C h N bs false Hh Hn) as (h1 & E1 & Hh1 & Hs1); [lia..|].
  rewrite E1. bind_step.
  destruct (ChooseHighest_ok N h1 LeftMost bs 0 best) as (s1 & b1 & Hsc & -> & Hb1 & Hm1 & Hs1');
    [done|done|repeat split; lia|done|done|done|]. bind_step.
  assert (bs = 1 -> Z.of_nat (length (hash_array_ h)) = PER -> 0 < s1) as Hpos.
  { intros -> Hl. destruct (ReConstruct_occ C h N 1 Hh Hl Hn) as (h1' & E1' & Hocc & _); [lia..|].
    rewrite E1 in E1'. injection E1' as <-.
    eapply LeftMost_score_pos; [done| |exact Hocc|done]. lia. }
  destruct (Z.eqb_spec bs 1) as [->|Hne].
  - destruct (HashCount_ReConstruct_ok C h1 N 1 true Hh1 Hn) as (h2 & -> & Hh2 & Hs2); [lia..|].
    bind_step. rewrite u32_small by lia.
    destruct (ChooseHighest_ok N h2 RightMost 1 (Z.of_nat (length N) - 1) b1)
      as (s2 & b2 & _ & -> & Hb2 & Hm2 & _); [done|done|repeat split; lia|done|done|done|]. bind_step.
    eexists. split; [done|]. split; [|intros _ Hl; specialize (Hpos eq_refl Hl); simpl; lia].
    split; [done|]. split; [done|]. split; [done|simpl; lia].
  - rewrite (u32_small (_ - _ - 1)) by lia. rewrite Z.min_l by lia.
    destruct (for_loop_inv (fun _ st => search_ok N bs m st) (DynamicChoose_slide C N bs)
      (Z.to_nat (Z.of_nat (length N) - bs - 1)) 1 (h1, b1)) as ([h2 b2] & -> & Hst2).
    + split; [done|]. split; [done|]. split; [done|simpl; lia].
    + intros i st Hi Hst. apply DynamicChoose_slide_ok; done || lia.
    + bind_step. destruct Hst2 as (Hh2 & Hs2 & Hb2 & Hm2). simpl in *.
      rewrite u32_small by lia.
      destruct (ChooseHighest_ok N h2 RightMost bs (Z.max 1 (Z.of_nat (length N) - bs - 1 + 1)) b2)
        as (s3 & b3 & _ & -> & Hb3 & Hm3 & _); [done|done|repeat split; lia|done|done|done|]. bind_step.
      eexists. split; [done|]. split; [|done].
      split; [done|]. split; [done|]. split; [done|simpl; lia].
Qed.

Lemma DynamicChoose_ok N d :
  Forall id_ok N -> Z.of_nat (length N) < 2 ^ 31 -> MAX_INTEGER_SIZE C < Z.of_nat (length N) ->
  vec_ok d -> exists d' s, HybridEncode_DynamicChoose C d N = Some (d', s) /\ vec_ok d' /\ covers N d'.
Proof.
  intros Hids Hn Hlong Hvec. layout_facts C. unfold HybridEncode_DynamicChoose.
  set (h0 := HashCount_default C 0 0 0).
  assert (hc_ok C h0 /\ Z.of_nat (length (hash_array_ h0)) = PER) as [Hh0 Hl0].
  { unfold h0, hc_ok; simpl. rewrite length_replicate. lia. }
  destruct (ReConstruct_occ C h0 N 0 Hh0 Hl0 Hn) as (h1 & -> & [Hh1 _] & Hs1 & Hl1); [lia..|].
  bind_step.
  destruct (ChooseHighest_ok N h1 FullHash 0 0 (0, d)) as (s1 & b1 & _ & -> & Hb1 & Hm1 & _);
    [done|done|repeat split; lia|done|done|split; [simpl; lia|]; split; [done|]; simpl; lia|].
  bind_step. simpl in Hm1.
  replace (Z.to_nat (MAX_INTEGER_SIZE C)) with (S (Z.to_nat (MAX_INTEGER_SIZE C - 1))) by lia.
  cbn [for_loop]. change (1 + 1) with 2.
  destruct (DynamicChoose_size_ok N 1 0 (h1, b1)) as ([h2 b2] & -> & (Hh2 & _ & Hb2 & _) & Hpos);
    [done|done|done|lia|done|done|simpl; lia|]. bind_step. specialize (Hpos eq_refl Hl1). simpl in *.
  destruct (for_loop_inv (fun _ st => hc_ok C st.1 /\ best_ok N st.2 /\ b2.1 <= st.2.1)
    (DynamicChoose_size C N) (Z.to_nat (MAX_INTEGER_SIZE C - 1)) 2 (h2, b2))
    as ([h3 [s3 d3]] & -> & Hh3 & (_ & Hv3 & Hc3) & Hm3).
  - simpl. auto with lia.
  - intros i st Hi (Hh & Hb & Hm).
    destruct (DynamicChoose_size_ok N i b2.1 st) as (st' & E & (Hh' & _ & Hb' & Hm') & _);
      [done|done|done|lia|done|done|done|]. eauto.
  - bind_step. simpl in *. exists d3, s3. split; [done|]. split; [done|]. apply Hc3. lia.
Qed.

(** ** Encoding a vertex *)

(** The sorted list of a vertex's neighbors. *)
Record neighbors_ok (N : list Z) : Prop := {
  neighbors_sorted : StronglySorted Z.lt N;
  neighbors_ids : Forall id_ok N;
  neighbors_len : Z.of_nat (length N) < 2 ^ 31
}.

(** [code_of E u N]: the vector of [u] is a code of [N]. *)
Definition code_of (E : list (list Z)) (u : Z) (N : list Z) : Prop :=
  exists d, zget E u = Some d /\
    if Z.of_nat (length N) <=? MAX_K_CORE_SIZE C then full_code d N else covers N d.

Lemma sorted_lt_le N : StronglySorted Z.lt N -> Sorted Z.le N.
Proof.
  intros H. apply StronglySorted_Sorted. induction H as [|x l _ IH Hx]; constructor; [done|].
  eapply Forall_impl; [exact Hx|]. simpl. lia.
Qed.

Lemma split_sorted N t blk rest : StronglySorted Z.lt N -> split_of N t blk rest -> Sorted Z.le blk.
Proof.
  intros Hs (A & B & -> & _). apply sorted_lt_le.
  by apply StronglySorted_app_1_r, StronglySorted_app_1_l in Hs.
Qed.

Lemma code_IsDecodable E u N :
  code_of E u N -> HybridEncode_IsDecodable E u = Some (Z.of_nat (length N) <=? MAX_K_CORE_SIZE C).
Proof.
  intros (d & Hu & Hd). layout_facts C. unfold HybridEncode_IsDecodable. rewrite Hu; bind_step.
  destruct (_ <=? _).
  - destruct Hd as ([Hok Hn] & Hf & _). rewrite BitSetSIMD_IsOne_spec by (done || lia). by rewrite Hf.
  - destruct Hd as (t & blk & rest & _ & Hpc). destruct (pc_vec _ _ _ _ Hpc) as [Hok Hn].
    rewrite BitSetSIMD_IsOne_spec by (done || lia). by rewrite (pc_flag _ _ _ _ Hpc).
Qed.

(** The test of a pair against a code is defined and right, and certain when
    the code is decodable. *)
Lemma code_NonNeighborTest E u N v :
  neighbors_ok N -> code_of E u N -> 1 <= v <= VERTEX_SIZE C ->
  exists t, HybridEncode_NonNeighborTest C E u v = Some t /\ answers t (v ∈ N) /\
    (Z.of_nat (length N) <= MAX_K_CORE_SIZE C -> t <> Uncertain).
Proof.
  intros [Hs Hids Hlen] (d & Hu & Hd) Hv. layout_facts C. destruct (Z.leb_spec (Z.of_nat (length N)) (MAX_K_CORE_SIZE C)).
  - eexists. split; [eapply NonNeighborTest_full; try done; [by apply sorted_lt_le|lia]|].
    split; [apply answers_decide|]. intros _. by case_bool_decide.
  - destruct Hd as (t & blk & rest & Hsplit & Hpc). eexists.
    split; [eapply NonNeighborTest_partial; try done; [by eapply split_sorted|lia]|].
    split; [|lia]. pose proof (partial_answer_sound _ _ _ _ _ _ Hs Hids Hsplit Hpc Hv) as Hans.
    destruct (partial_answer d t blk v); exact Hans.
Qed.

Lemma EncodeVertex_code E u N d :
  neighbors_ok N -> zget E u = Some d -> vec_ok d ->
  (Z.of_nat (length N) <= MAX_K_CORE_SIZE C -> forall q, 0 <= q -> bit_at d q = false) ->
  exists d' E', HybridEncode_EncodeVertex C E u N = Some E' /\ zset E u d' = Some E' /\
    code_of E' u N /\ vec_ok d'.
Proof.
  intros [Hs Hids Hlen] Hu Hvec Hzero. layout_facts C. unfold HybridEncode_EncodeVertex.
  rewrite Hu; bind_step. pose proof (zget_Some_inv _ _ _ Hu) as [Hb _].
  assert (forall d', (if Z.of_nat (length N) <=? MAX_K_CORE_SIZE C then full_code d' N else covers N d') ->
    code_of (<[Z.to_nat u := d']> E) u N) as Hcode.
  { intros d' Hd'. exists d'. split; [|done].
    rewrite (zget_zset E u u d') by (by apply zset_Some). by rewrite Z.eqb_refl. }
  destruct (Z.leb_spec (Z.of_nat (length N)) (MAX_K_CORE_SIZE C)) as [Hle|Hgt].
  - destruct (full_code_built d N Hvec) as (d' & i & E1 & Hfull); [auto|lia|done|].
    destruct (BitSetSIMD_SetOne d 0) as [d1|]; [|done]. revert E1. bind_step. intros ->. bind_step.
    cbn [fst]. rewrite zset_Some by done. exists d'. eexists. split; [done|].
    split; [by apply zset_Some|]. split; [by apply Hcode|apply Hfull].
  - destruct (DynamicChoose_ok N d) as (d' & s & -> & Hv & Hc); [done|done|lia|done|]. bind_step.
    cbn [fst]. rewrite zset_Some by done. exists d'. eexists. split; [done|].
    split; [by apply zset_Some|]. split; [by apply Hcode|done].
Qed.

(** ** Testing a pair

    A list is decodable when it has at most [MAX_K_CORE_SIZE] elements. *)
Definition covering (Nu Nv : list Z) (u v : Z) (edge : Prop) : Prop :=
  covers_edge (Z.of_nat (length Nu) <=? MAX_K_CORE_SIZE C) (Z.of_nat (length Nv) <=? MAX_K_CORE_SIZE C) Nu Nv u v edge.

Lemma NEpairTest_answers E u v Nu Nv edge :
  neighbors_ok Nu -> neighbors_ok Nv -> code_of E u Nu -> code_of E v Nv ->
  1 <= u <= VERTEX_SIZE C -> 1 <= v <= VERTEX_SIZE C -> covering Nu Nv u v edge ->
  exists t, HybridEncode_NEpairTest C E u v = Some t /\ answers t edge /\
    (Z.of_nat (length Nu) <= MAX_K_CORE_SIZE C \/ Z.of_nat (length Nv) <= MAX_K_CORE_SIZE C ->
     t <> Uncertain).
Proof.
  intros HNu HNv Hcu Hcv Hu Hv (H1 & H2 & H3). unfold HybridEncode_NEpairTest.
  rewrite (code_IsDecodable _ _ _ Hcu), (code_IsDecodable _ _ _ Hcv). bind_step.
  destruct (code_NonNeighborTest E u Nu v HNu Hcu Hv) as (tu & Eu & Au & Du).
  destruct (code_NonNeighborTest E v Nv u HNv Hcv Hu) as (tv & Ev & Av & Dv).
  destruct (Z.leb_spec (Z.of_nat (length Nu)) (MAX_K_CORE_SIZE C)),
    (Z.leb_spec (Z.of_nat (length Nv)) (MAX_K_CORE_SIZE C)); cbn [negb andb] in *;
    rewrite ?Eu, ?Ev; bind_step; rewrite ?Eu, ?Ev; bind_step; eexists; (split; [done|]).
  - specialize (Du ltac:(lia)). specialize (Dv ltac:(lia)).
    destruct tu, tv; simpl in *; split; try done; tauto.
  - specialize (Du ltac:(lia)). destruct tu; simpl in *; split; try done; tauto.
  - specialize (Dv ltac:(lia)). destruct tv; simpl in *; split; try done; tauto.
  - split; [|lia]. destruct tu, tv; simpl in *; tauto.
Qed.

(** ** Tests with decoded information *)

Lemma unsigned_interval a b v :
  0 <= a <= b -> b < 2 ^ 32 -> 0 <= v < 2 ^ 32 ->
  (u32 (v - a) <=? u32 (b - a)) = negb ((v <? a) || (b <? v)).
Proof.
  intros Ha Hb Hv. rewrite (u32_small (b - a)) by lia.
  destruct (Z.ltb_spec v a); simpl.
  - unfold u32. replace (v - a) with (v - a + 2 ^ 32 + (-1) * 2 ^ 32) by lia.
    rewrite Z.mod_add, Z.mod_small by lia. apply Z.leb_gt. lia.
  - rewrite u32_small by lia. split_ltb; try lia; done.
Qed.

Lemma block_bounds N t blk rest :
  neighbors_ok N -> split_of N t blk rest -> 0 <= block_min t blk <= block_max t blk /\
  block_max t blk <= VERTEX_SIZE C + 1.
Proof.
  intros [Hs Hids _] (A & B & -> & _ & Ht). layout_facts C. rewrite !Forall_app in Hids.
  destruct Hids as (_ & Hids & _). rewrite Forall_forall in Hids.
  apply StronglySorted_app_1_r, StronglySorted_app_1_l in Hs.
  destruct (decide (blk = [])) as [->|Hne]; [destruct t; simpl; lia|].
  pose proof (Hids _ (hd_in blk 0 Hne)) as [Hh _]. pose proof (Hids _ (last_in blk 0 Hne)) as [Hl _].
  pose proof (sorted_hd blk _ 0 Hs (last_in blk 0 Hne)).
  unfold block_min, block_max. destruct t; lia.
Qed.

Lemma partial_model_vec d t blk rest :
  partial_code d t blk rest ->
  HybridEncode_GetBlockModel d = Some (match t with FullHash => Middle | _ => t end).
Proof.
  intros Hpc. pose proof (partial_model [d] 0 d t blk rest eq_refl Hpc) as H.
  unfold HybridEncode_GetBlockModel_v in H. cbn [zget Z.leb Z.compare andb] in H.
  exact H.
Qed.

(** What [Decode] writes for a partial code. *)
Definition partial_info (t : BlockType) (blk : list Z) : DecodeInfo :=
  {| decodable := false; block_num := Z.of_nat (length blk); hash_begin := hash_start blk;
     min := block_min t blk; max := block_max t blk |}.

Lemma Decode_partial E u N d t blk rest info :
  neighbors_ok N -> split_of N t blk rest -> zget E u = Some d -> partial_code d t blk rest ->
  HybridEncode_Decode C E u info = Some (partial_info t blk).
Proof.
  intros HN Hsplit Hu Hpc. layout_facts C. pose proof (partial_dom _ _ _ _ Hpc) as (_ & _ & _ & Hfit).
  unfold HybridEncode_Decode. rewrite Hu; bind_step. destruct (pc_vec _ _ _ _ Hpc) as [Hd Hn].
  rewrite BitSetSIMD_IsOne_spec by (done || lia). bind_step. rewrite (pc_flag _ _ _ _ Hpc).
  rewrite (partial_block_num _ _ _ _ Hpc). bind_step.
  pose proof (partial_first _ _ _ _ Hpc) as Hfst. pose proof (partial_last _ _ _ _ Hpc) as Hlst.
  rewrite (partial_model_vec _ _ _ _ Hpc). bind_step. rewrite !Lay_begin. unfold partial_info, hash_start.
  destruct Hsplit as (A & B & _ & _ & Ht).
  destruct (Z.eqb_spec (Z.of_nat (length blk)) 0) as [E0|Hne].
  - assert (blk = []) as -> by (by destruct blk). unfold u16. rewrite Z.mod_small by lia.
    cbn [length]. rewrite Z.mul_0_l, Z.add_0_r. destruct t; naive_solver.
  - unfold u16. rewrite (Z.mod_small (3 + LOG_K C + _)) by nia.
    assert (Encode_vertex_id_upper C = VERTEX_SIZE C + 1) as Hup
      by (unfold Encode_vertex_id_upper; rewrite u32_small; lia).
    destruct t; [by subst blk|..]; cbn [BlockType_val];
      repeat match goal with |- context [Z.land ?a ?b] =>
        let x := eval vm_compute in (Z.land a b) in change (Z.land a b) with x end;
      cbn [Z.eqb Pos.eqb negb]; rewrite ?Hfst, ?Hlst, ?Hup; done.
Qed.

Lemma Decode_NonNeighborTest E u N info :
  neighbors_ok N -> code_of E u N ->
  exists info', HybridEncode_Decode C E u info = Some info' /\
    decodable info' = (Z.of_nat (length N) <=? MAX_K_CORE_SIZE C) /\
    forall v, 1 <= v <= VERTEX_SIZE C ->
      HybridEncode_NonNeighborTest_info C E u info' v = HybridEncode_NonNeighborTest C E u v.
Proof.
  intros HN (d & Hu & Hd). pose proof HN as [Hs Hids _]. layout_facts C.
  destruct (Z.leb_spec (Z.of_nat (length N)) (MAX_K_CORE_SIZE C)).
  - pose proof Hd as ([Hok Hn] & Hf & _ & Hl). unfold HybridEncode_Decode. rewrite Hu; bind_step.
    rewrite BitSetSIMD_IsOne_spec by (done || lia). bind_step. rewrite Hf.
    eexists. split; [done|]. split; [done|]. intros v Hv.
    unfold HybridEncode_NonNeighborTest_info. rewrite Hu; bind_step.
    rewrite (NonNeighborTest_full E u d N v) by (done || lia || by apply sorted_lt_le).
    eapply (find_spec false); [done|repeat split; lia|lia|done|by apply sorted_lt_le].
  - destruct Hd as (t & blk & rest & Hsplit & Hpc).
    rewrite (Decode_partial E u N d t blk rest info HN Hsplit Hu Hpc).
    eexists. split; [done|]. split; [done|]. intros v Hv.
    pose proof (split_sorted _ _ _ _ Hs Hsplit) as Hblk.
    rewrite (NonNeighborTest_partial E u d t blk rest v Hu Hpc Hblk) by lia.
    unfold HybridEncode_NonNeighborTest_info. rewrite Hu; bind_step.
    cbn [partial_info decodable min max block_num hash_begin].
    destruct (block_bounds N t blk rest HN Hsplit) as [Hb1 Hb2].
    rewrite unsigned_interval by lia. unfold partial_answer.
    destruct ((v <? block_min t blk) || (block_max t blk <? v)); cbn [negb].
    + destruct (Z.eqb_spec (hash_start blk) PER) as [|Hne]; [done|].
      pose proof (partial_dom _ _ _ _ Hpc) as (_ & _ & _ & Hfit).
      destruct (pc_vec _ _ _ _ Hpc) as [Hdd Hn].
      destruct (Hash_pos v (hash_start blk)) as [-> Hp]; [lia|unfold hash_start in *; nia|]. bind_step.
      rewrite BitSetSIMD_IsOne_spec by (done || unfold hash_start in *; nia). done.
    + rewrite Lay_begin. eapply (find_spec false _ _ _ _ 0); [apply Hpc|by eapply partial_dom|lia| |done].
      rewrite Nat2Z.id, (pc_block _ _ _ _ Hpc). by rewrite app_nil_r.
Qed.
End HybridFacts.

(** * Properties *)

Section HybridProperties.
Context (C : Config) (HL : Layout C).

(** C16: encoding a vertex's sorted neighbor list, into a vector that is all zero
    when the list fits it, is defined, changes no other vertex's code, and every
    later test against the code is defined and never
    wrong: "neighbor" only for a neighbor, "no neighbor" only for another
    vertex, and no "uncertain" at all when the list fits. Whichever layout
    [DynamicChoose] scored best, and with either search (HSIMD or not). *)
Theorem EncodeVertex_sound (E : list (list Z)) (u : Z) (N d : list Z)
    (HN : neighbors_ok C N) (Hu : zget E u = Some d) (Hd : vec_ok C d)
    (Hfresh : Z.of_nat (length N) <= MAX_K_CORE_SIZE C -> forall q, 0 <= q -> bit_at d q = false) :
  exists E', HybridEncode_EncodeVertex C E u N = Some E' /\
    (forall w, w <> u -> zget E' w = zget E w) /\
    forall v, 1 <= v <= VERTEX_SIZE C ->
      exists t, HybridEncode_NonNeighborTest C E' u v = Some t /\ answers t (v ∈ N) /\
        (Z.of_nat (length N) <= MAX_K_CORE_SIZE C -> t <> Uncertain).
Proof.
  destruct (EncodeVertex_code C E u N d HN Hu Hd Hfresh) as (d' & E' & HE & Hset & Hcode & _).
  exists E'. split; [done|]. split.
  - intros w Hw. rewrite (zget_zset _ _ _ _ _ Hset). by rewrite (proj2 (Z.eqb_neq _ _) Hw).
  - intros v Hv. by apply code_NonNeighborTest.
Qed.

(** C17: the test of a pair is never wrong, when the lists that the two vertices
    encode cover the edge the way a build leaves them; it is certain as soon as
    one of the two codes is decodable. *)
Theorem NEpairTest_sound (E : list (list Z)) (u v : Z) (Nu Nv : list Z) (edge : Prop)
    (HNu : neighbors_ok C Nu) (HNv : neighbors_ok C Nv)
    (Hcu : code_of C E u Nu) (Hcv : code_of C E v Nv)
    (Hu : 1 <= u <= VERTEX_SIZE C) (Hv : 1 <= v <= VERTEX_SIZE C)
    (Hcover : covering C Nu Nv u v edge) :
  exists t, HybridEncode_NEpairTest C E u v = Some t /\ answers t edge /\
    (Z.of_nat (length Nu) <= MAX_K_CORE_SIZE C \/ Z.of_nat (length Nv) <= MAX_K_CORE_SIZE C ->
     t <> Uncertain).
Proof. by eapply NEpairTest_answers. Qed.

(** C18: the test that uses information decoded beforehand, with its single
    unsigned interval comparison, gives the same answer as the direct test. *)
Theorem NEpairTest_decoded (E : list (list Z)) (u v : Z) (Nu Nv : list Z) (edge : Prop)
    (iu iv : DecodeInfo)
    (HNu : neighbors_ok C Nu) (HNv : neighbors_ok C Nv)
    (Hcu : code_of C E u Nu) (Hcv : code_of C E v Nv)
    (Hu : 1 <= u <= VERTEX_SIZE C) (Hv : 1 <= v <= VERTEX_SIZE C)
    (Hcover : covering C Nu Nv u v edge) :
  exists iu' iv', HybridEncode_Decode C E u iu = Some iu' /\ HybridEncode_Decode C E v iv = Some iv' /\
    HybridEncode_NEpairTest_info C E u iu' v iv' = HybridEncode_NEpairTest C E u v.
Proof.
  destruct (Decode_NonNeighborTest C E u Nu iu HNu Hcu) as (iu' & Eu & Du & Tu).
  destruct (Decode_NonNeighborTest C E v Nv iv HNv Hcv) as (iv' & Ev & Dv & Tv).
  exists iu', iv'. split; [done|]. split; [done|].
  unfold HybridEncode_NEpairTest_info, HybridEncode_NEpairTest.
  rewrite (code_IsDecodable _ _ _ _ Hcu), (code_IsDecodable _ _ _ _ Hcv), Du, Dv, Tu, Tv by done.
  destruct (code_NonNeighborTest C E u Nu v HNu Hcu Hv) as (tu & Etu & Au & Cu).
  destruct (code_NonNeighborTest C E v Nv u HNv Hcv Hu) as (tv & Etv & Av & Cv).
  destruct Hcover as (H1 & H2 & H3). bind_step.
  destruct (Z.leb_spec (Z.of_nat (length Nu)) (MAX_K_CORE_SIZE C)),
    (Z.leb_spec (Z.of_nat (length Nv)) (MAX_K_CORE_SIZE C)); cbn [negb andb] in *;
    rewrite ?Etu, ?Etv; bind_step; rewrite ?Etu, ?Etv; bind_step; try done.
  - specialize (Cu ltac:(lia)). specialize (Cv ltac:(lia)). by destruct tu, tv.
  - destruct tu, tv; simpl in *; try done; tauto.
Qed.
End HybridProperties.

(** ** Concrete runs *)

Definition demo_vectors : list (list Z) := replicate 11 (BitSetSIMD_new 96).
Definition demo_long : list Z := [1; 3; 4; 5; 9; 70; 90; 100; 120; 200; 300; 400; 1000].

Lemma demo_long_ok : neighbors_ok demo_config demo_long.
Proof. split; [repeat constructor; lia|repeat constructor; simpl; lia|simpl; lia]. Qed.

Lemma demo_short_ok : neighbors_ok demo_config [7; 300].
Proof. split; [repeat constructor; lia|repeat constructor; simpl; lia|simpl; lia]. Qed.

Lemma demo_fresh : vec_ok demo_config (BitSetSIMD_new 96).
Proof. split; [apply bytes_ok_zero; done|done]. Qed.

Lemma demo_coded :
  exists E, (E ← HybridEncode_EncodeVertex demo_config demo_vectors 7 demo_long;
             HybridEncode_EncodeVertex demo_config E 3 [7; 300]) = Some E /\
    code_of demo_config E 7 demo_long /\ code_of demo_config E 3 [7; 300].
Proof.
  destruct (EncodeVertex_code demo_config demo_vectors 7 demo_long (BitSetSIMD_new 96) demo_long_ok)
    as (d1 & E1 & -> & Hs1 & Hc1 & _); [done|apply demo_fresh|simpl; lia|]. bind_step.
  assert (forall w, w <> 7 -> zget E1 w = zget demo_vectors w) as Hw.
  { intros w Hne. rewrite (zget_zset _ _ _ _ _ Hs1). by rewrite (proj2 (Z.eqb_neq _ _) Hne). }
  destruct (EncodeVertex_code demo_config E1 3 [7; 300] (BitSetSIMD_new 96) demo_short_ok)
    as (d2 & E2 & -> & Hs2 & Hc2 & _);
    [by rewrite Hw|apply demo_fresh|intros _ q _; apply bit_at_zero|].
  exists E2. split; [done|]. split; [|done].
  destruct Hc1 as (d & Hd & Hcode). exists d. split; [|done].
  by rewrite (zget_zset _ _ _ _ _ Hs2).
Qed.

Lemma EncodeVertex_sound_witness :
  exists E', HybridEncode_EncodeVertex demo_config demo_vectors 7 demo_long = Some E' /\
    (forall w, w <> 7 -> zget E' w = zget demo_vectors w) /\
    forall v, 1 <= v <= 1000 ->
      exists t, HybridEncode_NonNeighborTest demo_config E' 7 v = Some t /\ answers t (v ∈ demo_long) /\
        (13 <= 9 -> t <> Uncertain).
Proof.
  apply (EncodeVertex_sound demo_config demo_layout demo_vectors 7 demo_long (BitSetSIMD_new 96)).
  - apply demo_long_ok.
  - reflexivity.
  - apply demo_fresh.
  - simpl. lia.
Defined.

Lemma demo_covering : covering demo_config demo_long [7; 300] 7 3 True.
Proof. split; [done|]. split; [done|]. intros _. simpl. apply elem_of_cons. auto. Qed.

Lemma NEpairTest_sound_witness :
  exists E t, HybridEncode_NEpairTest demo_config E 7 3 = Some t /\ answers t True /\ t <> Uncertain.
Proof.
  destruct demo_coded as (E & _ & H7 & H3). exists E.
  destruct (NEpairTest_sound demo_config demo_layout E 7 3 demo_long [7; 300] True demo_long_ok
    demo_short_ok H7 H3 ltac:(simpl; lia) ltac:(simpl; lia) demo_covering) as (t & H & Ha & Hd).
  exists t. split; [exact H|]. split; [exact Ha|]. apply Hd. right. simpl. lia.
Defined.

Lemma NEpairTest_decoded_witness :
  let info := {| decodable := true; block_num := 9; hash_begin := 9; min := 9; max := 9 |} in
  exists E i7 i3, HybridEncode_Decode demo_config E 7 info = Some i7 /\
    HybridEncode_Decode demo_config E 3 info = Some i3 /\
    HybridEncode_NEpairTest_info demo_config E 7 i7 3 i3 = HybridEncode_NEpairTest demo_config E 7 3.
Proof.
  intros info. destruct demo_coded as (E & _ & H7 & H3). exists E.
  apply (NEpairTest_decoded demo_config demo_layout E 7 3 demo_long [7; 300] True info info demo_long_ok
    demo_short_ok H7 H3 ltac:(simpl; lia) ltac:(simpl; lia) demo_covering).
Defined.

(** *** Updates

    [InsertPair] appends the new neighbor to the list of the database, so the
    list is no longer sorted and the search of the decodable code stops at the
    first larger id: the edge that was inserted is answered "no neighbor". *)
Example InsertPair_loses_edge :
  let db v := if v =? 7 then [300] else [] in
  (E ← HybridEncode_EncodeVertex demo_config demo_vectors 7 [300];
   E ← HybridEncode_EncodeVertex demo_config E 5 [];
   E ← HybridEncode_InsertPair demo_config db E 7 5;
   HybridEncode_NEpairTest demo_config E 7 5) = Some NonNeighbor.
Proof. by vm_compute. Qed.

(** [RemoveNeighbor] re-encodes into a vector that still holds the old ids, so
    the last neighbor is still answered "neighbor" after it was removed. *)
Example RemoveNeighbor_keeps_stale :
  let db v := if v =? 7 then [5; 300] else [] in
  (E ← HybridEncode_EncodeVertex demo_config demo_vectors 7 [5; 300];
   E ← HybridEncode_RemoveNeighbor demo_config db E 7 300;
   HybridEncode_NonNeighborTest demo_config E 7 300) = Some Neighbor.
Proof. by vm_compute. Qed.

(** [DeletePair] removes the edge from the second code only when the code says
    that it is not there. *)
Example DeletePair_one_side :
  let db v := if v =? 7 then [3] else [7] in
  (E ← HybridEncode_EncodeVertex demo_config demo_vectors 7 [3];
   E ← HybridEncode_EncodeVertex demo_config E 3 [7];
   E ← HybridEncode_DeletePair demo_config db E 7 3;
   HybridEncode_NonNeighborTest demo_config E 3 7) = Some Neighbor.
Proof. by vm_compute. Qed.

(** When VERTEX_BIT_SIZE divides the vector's size, a full decodable code makes
    [GetBlockInteger] read one bit past the vector. *)
Example GetBlockInteger_reads_past :
  (C ← InitConfig false 2 60000 10;
   E ← HybridEncode_EncodeVertex C (replicate 8 (BitSetSIMD_new 64)) 7 [1; 2; 3];
   Some (MAX_K_CORE_SIZE C, VERTEX_BIT_SIZE C, HybridEncode_GetBlockInteger C E 7))
  = Some (3, 16, None).
Proof. by vm_compute. Qed.
