(* ===== verification/HybridChoice.v ===== *)
(** [DynamicChoose] ([src/encode/single/hybrid_encode.cpp]) against a reference.

    The code moves one pair of counters from candidate to candidate: a neighbor
    enters the hash when the block leaves it and leaves the hash when the block
    reaches it. The reference lists the candidates of a vertex, each with the
    neighbors that its score counts, and scores every one from its own list. *)
From S2P Require Import Prelude Config BitSet HashCount Encode Hybrid.
From stdpp Require Import options.
Local Open Scope Z_scope.
Set Default Proof Using "Type*".

(** * The reference *)

(** A candidate: its block, and the neighbors that its score takes for hashed. *)
Record Candidate := { l_size : Z; l_first : Z; l_type : BlockType; l_hashed : list Z }.

Section reference.
Context (C : Config).

(** The scores read the number of the slots and of those in use. *)
Definition used_slots (bs : Z) (L : list Z) : HashCount :=
  let slots := PER_ENCODE_BIT_SIZE C - PREFIX_BIT_SIZE C - bs * VERTEX_BIT_SIZE C in
  {| hash_array_ := []; hash_size_ := slots; hash_count_ := Z.of_nat (size (buckets slots L)); neighbor_size_ := 0 |}.

Definition layout_score (N : list Z) (l : Candidate) : option Z :=
  HashCount_GetScore C (used_slots (l_size l) (l_hashed l)) N (l_size l) (l_first l) (l_type l).

(** The candidates with blocks of [bs] neighbors, from left to right. The last
    block is scored with the neighbors outside the block before it, and the last
    block of a single neighbor without the neighbor before it too. *)
Definition block_layouts (N : list Z) (bs : Z) : list Candidate :=
  let n := Z.of_nat (length N) in
  {| l_size := bs; l_first := 0; l_type := LeftMost; l_hashed := outside N bs 0 |} ::
  if bs =? 1 then [{| l_size := 1; l_first := n - 1; l_type := RightMost; l_hashed := take (Z.to_nat (n - 2)) N |}]
  else map (fun f => {| l_size := bs; l_first := f; l_type := Middle; l_hashed := outside N bs f |}) (seqZ 1 (n - bs - 1)) ++
       [{| l_size := bs; l_first := n - bs; l_type := RightMost; l_hashed := outside N bs (n - bs - 1) |}].

(** All candidates: everything hashed, then the blocks by their size. *)
Definition layouts (N : list Z) : list Candidate :=
  {| l_size := 0; l_first := 0; l_type := FullHash; l_hashed := N |} ::
  flat_map (block_layouts N) (seqZ 1 (MAX_INTEGER_SIZE C)).

(** The code of the first candidate with the highest score. *)
Definition consider (N : list Z) (l : Candidate) : Z * list Z -> option (Z * list Z) :=
  HybridEncode_ChooseHighest C N (used_slots (l_size l) (l_hashed l)) (l_size l) (l_first l) (l_type l).

Definition reference_choose (bitset neighbors : list Z) : option (list Z * Z) :=
  '(max_score, bitset) ← foldM (consider neighbors) (layouts neighbors) (0, bitset);
  Some (bitset, max_score).
End reference.

(** * Proofs *)

Section proofs.
Context (C : Config) (HL : Layout C).
Notation PER := (PER_ENCODE_BIT_SIZE C).

(** The counters are read through their size and their count only. *)
Lemma ChooseHighest_counting N h bs f t L st :
  counting C h bs L -> HybridEncode_ChooseHighest C N h bs f t st = consider C N {| l_size := bs; l_first := f; l_type := t; l_hashed := L |} st.
Proof.
  intros ((_ & _ & Hc & _) & Hs & _). unfold consider, HybridEncode_ChooseHighest. cbn [l_size l_first l_type l_hashed].
  assert (HashCount_GetScore C h N bs f t = HashCount_GetScore C (used_slots C bs L) N bs f t) as ->; [|done].
  unfold HashCount_GetScore, used_slots. cbn [hash_size_ hash_count_]. by rewrite Hc, Hs.
Qed.

(** What is kept from candidate to candidate. *)
Definition chosen (N : list Z) (best0 : Z * list Z) (ls : list Candidate) (best : Z * list Z) : Prop :=
  foldM (consider C N) ls best0 = Some best /\ best_ok C N best.

Lemma chosen_next N best0 ls best h bs f t L :
  Forall (id_ok C) N -> Z.of_nat (length N) < 2 ^ 31 -> candidate C N t bs f -> counting C h bs L -> chosen N best0 ls best ->
  exists best', HybridEncode_ChooseHighest C N h bs f t best = Some best' /\
    chosen N best0 (ls ++ [{| l_size := bs; l_first := f; l_type := t; l_hashed := L |}]) best'.
Proof.
  intros Hids Hn Hcand Hcount [HF Hok]. pose proof Hcount as ((Hh & _) & Hs & _).
  destruct (ChooseHighest_ok C N h t bs f best Hids Hn Hcand Hh Hs Hok) as (s & best' & _ & E & Hok' & _).
  exists best'. split; [done|]. split; [|done]. rewrite foldM_app, HF. bind_step. cbn [foldM].
  by rewrite <- (ChooseHighest_counting N h), E by done.
Qed.

(** The neighbors outside a block before and after it moves by one. *)
Lemma outside_slide N bs f a r :
  1 <= f -> 1 <= bs -> zget N (f - 1) = Some a -> zget N (f + bs - 1) = Some r ->
  a :: outside N bs (f - 1) ≡ₚ r :: outside N bs f.
Proof.
  intros Hf Hbs Ha Hr. rewrite zget_lookup in Ha, Hr by lia.
  assert (outside N bs (f - 1) = take (Z.to_nat (f - 1)) N ++ r :: drop (Z.to_nat (f + bs)) N) as ->.
  { unfold outside. f_equal. replace (f - 1 + bs) with (f + bs - 1) by lia.
    rewrite (drop_S N r (Z.to_nat (f + bs - 1))) by done. do 2 f_equal. lia. }
  assert (outside N bs f = (take (Z.to_nat (f - 1)) N ++ [a]) ++ drop (Z.to_nat (f + bs)) N) as ->.
  { unfold outside. f_equal. replace (Z.to_nat f) with (S (Z.to_nat (f - 1))) by lia. by apply take_S_r. }
  rewrite <- app_assoc. cbn [app]. rewrite <- !Permutation_middle. apply perm_swap.
Qed.

Lemma length_outside N bs f : 0 <= f -> 0 <= bs -> f + bs <= Z.of_nat (length N) -> Z.of_nat (length (outside N bs f)) = Z.of_nat (length N) - bs.
Proof. intros. unfold outside. rewrite length_app, length_take, length_drop. lia. Qed.

(** One step of the block. *)
Lemma slide_chosen N bs f best0 ls h best :
  Forall (id_ok C) N -> Z.of_nat (length N) < 2 ^ 31 -> 1 <= bs <= MAX_INTEGER_SIZE C -> 1 <= f -> f + bs <= Z.of_nat (length N) ->
  counting C h bs (outside N bs (f - 1)) -> chosen N best0 ls best ->
  exists h' best', DynamicChoose_slide C N bs f (h, best) = Some (h', best') /\ counting C h' bs (outside N bs f) /\
    chosen N best0 (ls ++ [{| l_size := bs; l_first := f; l_type := Middle; l_hashed := outside N bs f |}]) best'.
Proof.
  intros Hids Hn Hbs Hf Hfit (Hocc & Hs & Hl) Hch. unfold DynamicChoose_slide. rewrite u32_small by lia.
  destruct (zget_is_Some N (f - 1)) as [a Ha]; [lia|]. destruct (zget_is_Some N (f + bs - 1)) as [r Hr]; [lia|].
  rewrite Ha, Hr. bind_step.
  destruct (AddHash_occ C h _ a Hocc) as (h1 & -> & Hocc1 & Hs1 & Hl1); [rewrite length_outside; lia|]. bind_step. bind_step.
  destruct (RemoveHash_occ C h1 (outside N bs f) r) as (h2 & -> & Hocc2 & Hs2 & Hl2);
    [eapply occ_perm; [apply outside_slide; (done || lia)|exact Hocc1]|]. bind_step.
  assert (counting C h2 bs (outside N bs f)) as Hcount by (split; [done|]; split; congruence).
  destruct (chosen_next N best0 ls best h2 bs f Middle (outside N bs f)) as (best' & -> & Hch'); [done..|repeat split; lia|done|done|].
  bind_step. by exists h2, best'.
Qed.

(** The candidates of one size. *)
Lemma size_chosen N bs best0 ls h best :
  Forall (id_ok C) N -> Z.of_nat (length N) < 2 ^ 31 -> MAX_INTEGER_SIZE C < Z.of_nat (length N) -> 1 <= bs <= MAX_INTEGER_SIZE C ->
  hc_ok C h -> Z.of_nat (length (hash_array_ h)) = PER -> chosen N best0 ls best ->
  exists h' best', DynamicChoose_size C N bs (h, best) = Some (h', best') /\ hc_ok C h' /\
    Z.of_nat (length (hash_array_ h')) = PER /\ chosen N best0 (ls ++ block_layouts N bs) best'.
Proof.
  intros Hids Hn Hlong Hbs Hh Hl Hch. layout_facts C.
  assert (0 <= PER - PREFIX_BIT_SIZE C - bs * VERTEX_BIT_SIZE C <= PER) as Hsz by nia.
  unfold DynamicChoose_size, block_layouts. rewrite (u32_small (Z.of_nat (length N))) by lia. cbv zeta.
  destruct (ReConstruct_occ C h N bs Hh Hl Hn) as (h1 & -> & Hc1); [lia..|]. bind_step.
  destruct (chosen_next N best0 ls best h1 bs 0 LeftMost (outside N bs 0)) as (b1 & -> & Hch1); [done..|repeat split; lia|done|done|]. bind_step.
  destruct Hc1 as (Hocc1 & Hs1 & Hl1). pose proof (proj1 Hocc1) as Hh1.
  destruct (Z.eqb_spec bs 1) as [->|Hne].
  - destruct (ReConstruct_reverse_occ C h1 N 1 Hh1 Hl1 Hn) as (h2 & -> & Hc2); [lia..|]. bind_step.
    rewrite u32_small by lia. replace (Z.of_nat (length N) - 1 - 1) with (Z.of_nat (length N) - 2) in Hc2 by lia.
    destruct (chosen_next N best0 _ b1 h2 1 (Z.of_nat (length N) - 1) RightMost _ Hids Hn ltac:(repeat split; lia) Hc2 Hch1) as (b2 & -> & Hch2).
    bind_step. exists h2, b2. split; [done|]. split; [apply Hc2|]. split; [apply Hc2|]. by rewrite <- app_assoc in Hch2.
  - rewrite (u32_small (_ - _ - 1)), Z.min_l by lia. set (last := Z.of_nat (length N) - bs - 1).
    set (mid f := {| l_size := bs; l_first := f; l_type := Middle; l_hashed := outside N bs f |}).
    set (ls1 := ls ++ [{| l_size := bs; l_first := 0; l_type := LeftMost; l_hashed := outside N bs 0 |}]) in *.
    destruct (for_loop_inv (fun i st => counting C st.1 bs (outside N bs (i - 1)) /\ chosen N best0 (ls1 ++ map mid (seqZ 1 (i - 1))) st.2)
      (DynamicChoose_slide C N bs) (Z.to_nat last) 1 (h1, b1)) as ([h2 b2] & -> & Hc2 & Hch2).
    + rewrite app_nil_r. by split.
    + intros i [h' b'] Hi [Hc Hb]. unfold last in Hi. cbn [fst snd] in *.
      destruct (slide_chosen N bs i best0 _ h' b' Hids Hn Hbs ltac:(lia) ltac:(lia) Hc Hb) as (h2 & b2 & E & Hc2 & Hb2).
      exists (h2, b2). split; [exact E|]. cbn [fst snd]. replace (i + 1 - 1) with (i - 1 + 1) by lia. split; [by replace (i - 1 + 1) with i by lia|].
      rewrite seqZ_app, map_app, app_assoc by lia. change (seqZ (1 + (i - 1)) 1) with [1 + (i - 1)]. by replace (1 + (i - 1)) with i by lia.
    + bind_step. cbn [fst snd] in *. replace (1 + Z.of_nat (Z.to_nat last) - 1) with last in * by (unfold last in *; lia).
      rewrite u32_small by (unfold last; lia). replace (Z.max 1 (last + 1)) with (Z.of_nat (length N) - bs) by (unfold last; lia).
      destruct (chosen_next N best0 _ b2 h2 bs (Z.of_nat (length N) - bs) RightMost _ Hids Hn ltac:(repeat split; lia) Hc2 Hch2) as (b3 & -> & Hch3).
      bind_step. exists h2, b3. split; [done|]. split; [apply Hc2|]. split; [apply Hc2|]. unfold ls1 in Hch3. by rewrite <- !app_assoc in Hch3.
Qed.

(** The whole search. *)
Lemma search_chosen N d :
  Forall (id_ok C) N -> Z.of_nat (length N) < 2 ^ 31 -> MAX_INTEGER_SIZE C < Z.of_nat (length N) -> vec_ok C d ->
  exists best, HybridEncode_DynamicChoose C d N = Some (best.2, best.1) /\ chosen N (0, d) (layouts C N) best.
Proof.
  intros Hids Hn Hlong Hvec. layout_facts C. unfold HybridEncode_DynamicChoose. set (h0 := HashCount_default C 0 0 0).
  assert (hc_ok C h0 /\ Z.of_nat (length (hash_array_ h0)) = PER) as [Hh0 Hl0].
  { unfold h0, hc_ok; simpl. rewrite length_replicate. lia. }
  destruct (ReConstruct_occ C h0 N 0 Hh0 Hl0 Hn) as (h1 & -> & Hc1); [lia..|]. bind_step.
  destruct (chosen_next N (0, d) [] (0, d) h1 0 0 FullHash N) as (b1 & -> & Hch1);
    [done..|repeat split; lia|done|split; [done|]; split; [simpl; lia|]; split; [done|simpl; lia]|]. bind_step.
  destruct (for_loop_inv (fun i st => hc_ok C st.1 /\ Z.of_nat (length (hash_array_ st.1)) = PER /\
      chosen N (0, d) ({| l_size := 0; l_first := 0; l_type := FullHash; l_hashed := N |} :: flat_map (block_layouts N) (seqZ 1 (i - 1))) st.2)
    (DynamicChoose_size C N) (Z.to_nat (MAX_INTEGER_SIZE C)) 1 (h1, b1)) as ([h2 [s d']] & -> & Hh2 & Hl2 & Hch2).
  - split; [apply Hc1|]. split; [apply Hc1|exact Hch1].
  - intros i [h b] Hi (Hh & Hl & Hch). cbn [fst snd] in *.
    destruct (size_chosen N i _ _ h b Hids Hn Hlong ltac:(lia) Hh Hl Hch) as (h' & b' & E & Hh' & Hl' & Hch').
    exists (h', b'). split; [exact E|]. split; [done|]. split; [done|]. cbn [fst snd]. replace (i + 1 - 1) with (i - 1 + 1) by lia.
    rewrite seqZ_app, flat_map_app by lia. change (seqZ (1 + (i - 1)) 1) with [1 + (i - 1)]. replace (1 + (i - 1)) with i by lia.
    cbn [flat_map]. by rewrite app_nil_r.
  - bind_step. exists (s, d'). split; [done|]. cbn [fst snd] in *. unfold layouts.
    by replace (1 + Z.of_nat (Z.to_nat (MAX_INTEGER_SIZE C)) - 1) with (MAX_INTEGER_SIZE C) in Hch2 by lia.
Qed.

(** The first candidate with the highest score is taken. *)
Lemma consider_max N ls best0 best :
  foldM (consider C N) ls best0 = Some best ->
  best0.1 <= best.1 /\
  Forall (fun l => exists s, layout_score C N l = Some s /\ s <= best.1) ls /\
  (best = best0 \/ Exists (fun l => layout_score C N l = Some best.1) ls).
Proof.
  revert best0. induction ls as [|l ls IH]; intros best0 E; cbn [foldM] in E; [injection E as <-; by repeat constructor|].
  destruct (consider C N l best0) as [b1|] eqn:E1; [|done]. cbn [mbind option_bind] in E.
  destruct (IH b1 E) as (Hle & Hall & Hex). unfold consider, HybridEncode_ChooseHighest in E1. destruct best0 as [m d].
  change (HashCount_GetScore _ _ _ _ _ _) with (layout_score C N l) in E1.
  destruct (layout_score C N l) as [s|] eqn:Es; [|done]. cbn [mbind option_bind] in E1.
  destruct (Z.ltb_spec m s) as [Hlt|Hge].
  - assert (b1.1 = s) as Hb1.
    { repeat match type of E1 with ?x ≫= _ = _ => destruct x; [|done]; cbn [mbind option_bind] in E1 end. by injection E1 as <-. }
    cbn [fst]. split; [lia|]. split; [constructor; [|done]; exists s; split; [done|lia]|]. right.
    destruct Hex as [->|Hex]; [|by apply Exists_cons_tl]. apply Exists_cons_hd. by rewrite Es, Hb1.
  - injection E1 as <-. cbn [fst] in *. split; [lia|]. split; [constructor; [|done]; exists s; split; [done|lia]|].
    destruct Hex as [->|Hex]; [by left|right; by apply Exists_cons_tl].
Qed.
End proofs.

(** * Properties *)

(** C19: the search that moves its counters finds what the reference finds: for
    the sorted list of a vertex that does not fit whole, [DynamicChoose] returns
    the code of the first candidate with the highest score, where each candidate
    is scored from the neighbors that it hashes, counted anew; and the score that
    it returns is the largest of all and that of a candidate. *)
Theorem DynamicChoose_reference (C : Config) (HL : Layout C) (N d : list Z)
    (HN : neighbors_ok C N) (Hlong : MAX_INTEGER_SIZE C < Z.of_nat (length N)) (Hd : vec_ok C d) :
  exists d' s, HybridEncode_DynamicChoose C d N = Some (d', s) /\ reference_choose C d N = Some (d', s) /\
    Forall (fun l => exists s', layout_score C N l = Some s' /\ s' <= s) (layouts C N) /\
    Exists (fun l => layout_score C N l = Some s) (layouts C N).
Proof.
  destruct (search_chosen C HL N d (neighbors_ids _ _ HN) (neighbors_len _ _ HN) Hlong Hd) as ([s d'] & E & HF & _).
  exists d', s. split; [exact E|]. split; [unfold reference_choose; by rewrite HF|].
  destruct (consider_max C HL N _ _ _ HF) as (_ & Hall & Hex). split; [exact Hall|].
  destruct Hex as [[= -> _]|Hex]; [|exact Hex]. unfold layouts in *. apply Forall_cons in Hall as [(s' & Es & Hs) _].
  apply Exists_cons_hd. rewrite Es. cbn [fst] in Hs. f_equal. revert Es. unfold layout_score, HashCount_GetScore. cbn [l_type].
  destruct (udiv _ _) as [q|]; [|done]. intros [= <-]. set (x := q * _) in *. pose proof (u32_bound x). lia.
Qed.

(** * Witnesses *)

Lemma DynamicChoose_reference_witness :
  exists d' s, HybridEncode_DynamicChoose demo_config (BitSetSIMD_new 96) demo_long = Some (d', s) /\
    reference_choose demo_config (BitSetSIMD_new 96) demo_long = Some (d', s) /\
    Forall (fun l => exists s', layout_score demo_config demo_long l = Some s' /\ s' <= s) (layouts demo_config demo_long) /\
    Exists (fun l => layout_score demo_config demo_long l = Some s) (layouts demo_config demo_long).
Proof.
  apply (DynamicChoose_reference demo_config demo_layout demo_long (BitSetSIMD_new 96)).
  - apply demo_long_ok.
  - vm_compute. reflexivity.
  - apply demo_fresh.
Defined.

(** * Behaviours worth knowing *)

(** The score of the last block is that of a vector that hashes a neighbor of the
    block and not the one before it: the count is of the block before. *)
Example last_block_stale :
  map (fun l => (l_first l, l_hashed l)) (filter (fun l => l_size l = 2 /\ l_type l = RightMost) (layouts demo_config [1; 3; 4; 5; 9])) =
    [(3, [1; 3; 9])] /\ outside [1; 3; 4; 5; 9] 2 3 = [1; 3; 4].
Proof. split; reflexivity. Qed.
