(* ===== verification/RangeEncode.v ===== *)
(** The range encoding, [RangeEncode] ([src/encode/single/range_encode.cpp],
    [src/include/encode/single/range_encode.h]): a vector is [K_SIZE] words, a
    flag and [max_int_size_] neighbors. A list that fits is kept whole; of a
    longer one the run of consecutive neighbors with the widest range is kept,
    its first and last word being the bounds within which the test is certain.

    An operation on [encode_bitset_[vertex]] is on that vector; the neighbor
    database is a function, as in [Encode]. *)
From stdpp Require Import sorting.
From S2P Require Import Prelude Config BitSet Encode.
From stdpp Require Import options.
Local Open Scope Z_scope.
Set Default Proof Using "Type*".

Section RangeEncode.
Context (C : Config).

Definition max_int_size_ : Z := u32 (K_SIZE C - 1).
Definition v_bits_size_ : Z := 32.

Definition RangeEncode_GetIntSize : Z := max_int_size_.

Definition RangeEncode_GetFlag (encode : list Z) : option bool :=
  flag ← BitSetSIMD_BlockGet encode 0 v_bits_size_; Some (negb (flag =? 0)).

Definition RangeEncode_SetFlag (encode : list Z) (flag : bool) : option (list Z) :=
  BitSetSIMD_BlockSet encode 0 v_bits_size_ (if flag then 1 else 0).

Definition RangeEncode_GetEncodeType (encode : list Z) : option EncodeType :=
  flag ← RangeEncode_GetFlag encode;
  if negb flag then Some NonDecodable
  else
    last ← BitSetSIMD_BlockGet encode (u32 (max_int_size_ * v_bits_size_)) v_bits_size_;
    Some (if last =? 0 then UnFull else Full).

(** The loops over the words from [index] to [last]; every word has at least
    one bit, so [PER_ENCODE_BIT_SIZE] turns are enough. *)
Fixpoint find_word (fuel : nat) (encode : list Z) (index last vertex2 : Z) : option bool :=
  if index <=? last then
    match fuel with
    | O => None
    | S fuel =>
        x ← BitSetSIMD_BlockGet encode index v_bits_size_;
        if x =? vertex2 then Some true else find_word fuel encode (u32 (index + v_bits_size_)) last vertex2
    end
  else Some false.

Definition RangeEncode_NonNeighborTest_vec (encode : list Z) (vertex2 : Z) : option PairType :=
  let fuel := Z.to_nat (PER_ENCODE_BIT_SIZE C) in
  flag ← RangeEncode_GetFlag encode;
  if (flag : bool) then
    found ← find_word fuel encode v_bits_size_ (u32 (PER_ENCODE_BIT_SIZE C - v_bits_size_ + 1)) vertex2;
    Some (if (found : bool) then Neighbor else NonNeighbor)
  else
    min ← BitSetSIMD_BlockGet encode v_bits_size_ v_bits_size_;
    max ← BitSetSIMD_BlockGet encode (u32 (v_bits_size_ * max_int_size_)) v_bits_size_;
    if (vertex2 =? min) || (vertex2 =? max) then Some Neighbor
    else if (vertex2 <? min) || (max <? vertex2) then Some Uncertain
    else
      found ← find_word fuel encode v_bits_size_ (u32 (v_bits_size_ * max_int_size_)) vertex2;
      Some (if (found : bool) then Neighbor else NonNeighbor).

Definition RangeEncode_NonNeighborTest (E : list (list Z)) (vertex1 vertex2 : Z) : option PairType :=
  encode ← zget E vertex1; RangeEncode_NonNeighborTest_vec encode vertex2.

Definition RangeEncode_NEpairTest (E : list (list Z)) (vertex1 vertex2 : Z) : option PairType :=
  type1 ← RangeEncode_NonNeighborTest E vertex1 vertex2;
  type2 ← RangeEncode_NonNeighborTest E vertex2 vertex1;
  Some (if PairType_val type1 <? PairType_val type2 then type1 else type2).

(** [GetBlockInt]: nothing is returned behind the loops, so only a list with a
    free word is ever given back. *)
Fixpoint GetBlockInt_loop (encode : list Z) (n : nat) (i : Z) (block : list Z) : option (list Z) :=
  match n with
  | O => None
  | S n =>
      neighbor ← BitSetSIMD_BlockGet encode (u32 (i * v_bits_size_)) v_bits_size_;
      if neighbor =? 0 then Some block else GetBlockInt_loop encode n (i + 1) (block ++ [neighbor])
  end.

Definition RangeEncode_GetBlockInt (encode : list Z) : option (list Z) :=
  flag ← RangeEncode_GetFlag encode;
  if (flag : bool) then GetBlockInt_loop encode (Z.to_nat max_int_size_) 1 [] else None.

(** The widest range: [idx] is the place of the block in [neighbors]; it is -1
    when the block starts with a word 0 for the ids before the first neighbor,
    and ends behind the list when it ends with [vertex_id_upper_]. *)
Fixpoint best_range (n : nat) (i : Z) (neighbors : list Z) (max_score idx : Z) : option (Z * Z) :=
  match n with
  | O => Some (max_score, idx)
  | S n =>
      hi ← zget neighbors (u32 (i + max_int_size_ - 1));
      lo ← zget neighbors i;
      let score := u32 (hi - lo) in
      if max_score <? score then best_range n (i + 1) neighbors score i
      else best_range n (i + 1) neighbors max_score idx
  end.

Definition range_value (neighbors : list Z) (idx size i : Z) : option Z :=
  if (i =? 1) && (idx =? -1) then Some 0
  else if (i =? max_int_size_) && (idx =? size - max_int_size_ + 1) then Some (Encode_vertex_id_upper C)
  else zget neighbors (idx + i - 1).

Definition RangeEncode_EncodeVertex_vec (encode neighbors : list Z) : option (list Z) :=
  let neighbors := merge_sort Z.le neighbors in
  let encode := BitSetSIMD_Clear encode in
  let size := Z.of_nat (length neighbors) in
  if size <=? max_int_size_ then
    encode ← RangeEncode_SetFlag encode true;
    for_loop (length neighbors) 1
      (fun i encode => x ← zget neighbors (i - 1); BitSetSIMD_BlockSet encode (u32 (i * v_bits_size_)) v_bits_size_ x) encode
  else
    encode ← RangeEncode_SetFlag encode false;
    max_score ← zget neighbors (u32 (max_int_size_ - 2));
    '(max_score, idx) ← best_range (Z.to_nat (size - max_int_size_ + 1)) 0 neighbors max_score (-1);
    last ← zget neighbors (u32 (size - max_int_size_ + 1));
    let score := u32 (Encode_vertex_id_upper C - last) in
    let idx := if max_score <? score then size - max_int_size_ + 1 else idx in
    for_loop (Z.to_nat max_int_size_) 1
      (fun i encode => x ← range_value neighbors idx size i;
                       BitSetSIMD_BlockSet encode (u32 (i * v_bits_size_)) v_bits_size_ x) encode.

Definition RangeEncode_EncodeVertex (E : list (list Z)) (vertex_id : Z) (neighbors : list Z) : option (list (list Z)) :=
  encode ← zget E vertex_id;
  encode ← RangeEncode_EncodeVertex_vec encode neighbors;
  zset E vertex_id encode.

Section db.
Context (db : Z -> list Z).

Definition RangeEncode_GetAllNeighbors (E : list (list Z)) (vertex : Z) : option (list Z) :=
  encode ← zget E vertex;
  flag ← RangeEncode_GetFlag encode;
  if (flag : bool) then RangeEncode_GetBlockInt encode else Some (Encode_DbQuery db vertex).

Definition RangeEncode_InsertPair (E : list (list Z)) (vertex1 vertex2 : Z) : option (list (list Z)) :=
  e1 ← zget E vertex1;
  e2 ← zget E vertex2;
  encode_type1 ← RangeEncode_GetEncodeType e1;
  encode_type2 ← RangeEncode_GetEncodeType e2;
  let '(vertex1, vertex2) :=
    if EncodeType_val encode_type2 <? EncodeType_val encode_type1 then (vertex2, vertex1) else (vertex1, vertex2) in
  neighbors ← RangeEncode_GetAllNeighbors E vertex1;
  RangeEncode_EncodeVertex E vertex1 (neighbors ++ [vertex2]).

Definition RangeEncode_RemoveNeighbor (E : list (list Z)) (vertex1 vertex2 : Z) : option (list (list Z) * bool) :=
  neighbors ← RangeEncode_GetAllNeighbors E vertex1;
  match erase_first vertex2 neighbors with
  | Some neighbors => E ← RangeEncode_EncodeVertex E vertex1 neighbors; Some (E, true)
  | None => Some (E, false)
  end.

Definition RangeEncode_DeletePair (E : list (list Z)) (vertex1 vertex2 : Z) : option (list (list Z)) :=
  type1 ← RangeEncode_NonNeighborTest E vertex1 vertex2;
  E ← (if bool_decide (type1 <> NonNeighbor) then r ← RangeEncode_RemoveNeighbor E vertex1 vertex2; Some r.1 else Some E);
  type2 ← RangeEncode_NonNeighborTest E vertex2 vertex1;
  if bool_decide (type2 <> NonNeighbor) then r ← RangeEncode_RemoveNeighbor E vertex2 vertex1; Some r.1 else Some E.
End db.
End RangeEncode.

(** * Proofs: segments of a sorted list *)

Lemma segment_elem A B C' v :
  StronglySorted Z.lt (A ++ B ++ C') -> v ∈ A ++ B ++ C' ->
  (exists x, B !! 0%nat = Some x /\ x <= v) -> (exists y, last B = Some y /\ v <= y) -> v ∈ B.
Proof.
  intros Hs Hv (x & Hx & Hxv) (y & Hy & Hvy).
  rewrite !elem_of_app in Hv. destruct Hv as [Hv|[Hv|Hv]]; [|done|]; exfalso.
  - apply list_elem_of_lookup_1 in Hv as [i Hi]. pose proof (lookup_lt_Some _ _ _ Hi).
    assert (v < x); [|lia]. apply (sorted_lookup _ i (length A + 0) v x Hs); [by apply lookup_app_l_Some| |lia].
    rewrite lookup_app_r by lia. replace (length A + 0 - length A)%nat with 0%nat by lia. by apply lookup_app_l_Some.
  - apply list_elem_of_lookup_1 in Hv as [i Hi]. rewrite last_lookup in Hy. pose proof (lookup_lt_Some _ _ _ Hy).
    assert (y < v); [|lia]. apply (sorted_lookup _ (length A + pred (length B)) (length A + (length B + i)) y v Hs); [| |lia].
    + rewrite lookup_app_r by lia. replace (length A + pred (length B) - length A)%nat with (pred (length B)) by lia.
      by apply lookup_app_l_Some.
    + rewrite lookup_app_r by lia. replace (length A + (length B + i) - length A)%nat with (length B + i)%nat by lia.
      rewrite lookup_app_r by lia. by replace (length B + i - length B)%nat with i by lia.
Qed.

(** The smaller of two answers. *)
Lemma min_answers t1 t2 du dv Nu Nv u v edge :
  covers_edge du dv Nu Nv u v edge -> answers t1 (v ∈ Nu) -> answers t2 (u ∈ Nv) ->
  (du = true -> t1 <> Uncertain) -> (dv = true -> t2 <> Uncertain) ->
  let t := if PairType_val t1 <? PairType_val t2 then t1 else t2 in
  answers t edge /\ (du || dv = true -> t <> Uncertain).
Proof.
  intros (Hu & Hv & Hedge) H1 H2 Hc1 Hc2.
  destruct t1, t2, du, dv; cbn in *; repeat split; auto; try congruence; try (by exfalso; auto);
    intros He; apply Hedge in He; tauto.
Qed.

(** * Proofs: words of a vector *)

Section words.
Context (C : Config) (HK : 3 <= K_SIZE C <= 64) (Hper : PER_ENCODE_BIT_SIZE C = 32 * K_SIZE C).
Context (HV : 1 <= VERTEX_SIZE C < 2 ^ 32 - 1).
Notation K := (K_SIZE C).
Notation V := (VERTEX_SIZE C).
Notation m := (max_int_size_ C).

Lemma max_int_eq : m = K - 1.
Proof. unfold max_int_size_. by rewrite u32_small by lia. Qed.

Definition words_ok (d : list Z) : Prop := bytes_ok d /\ nbits d = 32 * K.

(** The words of neighbors. *)
Definition words (d : list Z) : list Z := fields d 32 32 (Z.to_nat m).

Lemma get_word d i : words_ok d -> 0 <= i < K -> BitSetSIMD_BlockGet d (32 * i) 32 = Some (field d (32 * i) 32).
Proof. intros [Hd Hn] Hi. apply BitSetSIMD_BlockGet_spec; [done|]. unfold field_dom. lia. Qed.

Lemma words_lookup d i : 0 <= i < m -> words d !! Z.to_nat i = Some (field d (32 * (i + 1)) 32).
Proof.
  intros Hi. destruct (lookup_lt_is_Some_2 (words d) (Z.to_nat i)) as [x Hx].
  { unfold words. rewrite fields_length. lia. }
  rewrite Hx. unfold words in Hx. apply fields_lookup in Hx as [_ ->]. do 2 f_equal. lia.
Qed.

Lemma find_word_spec d n fuel j last v :
  words_ok d -> (n <= fuel)%nat -> 1 <= j -> j + Z.of_nat n <= K ->
  32 * (j + Z.of_nat n) - 32 <= last < 32 * (j + Z.of_nat n) ->
  find_word fuel d (32 * j) last v = Some (bool_decide (v ∈ fields d (32 * j) 32 n)).
Proof.
  intros Hd. revert fuel j. induction n as [|n IH]; intros fuel j Hf Hj HjK Hlast.
  - rewrite (bool_decide_eq_false_2 (v ∈ fields _ _ _ _)) by apply not_elem_of_nil.
    destruct fuel; cbn [find_word]; by rewrite (proj2 (Z.leb_gt (32 * j) last)) by lia.
  - destruct fuel as [|fuel]; [lia|]. cbn [find_word]. rewrite (proj2 (Z.leb_le (32 * j) last)) by lia.
    unfold v_bits_size_. rewrite (get_word d j Hd) by lia. bind_step. rewrite fields_S.
    destruct (Z.eqb_spec (field d (32 * j) 32) v) as [->|Hne].
    + rewrite bool_decide_eq_true_2; [done|by left].
    + rewrite u32_small by lia. replace (32 * j + 32) with (32 * (j + 1)) by lia. rewrite (IH fuel (j + 1)) by lia.
      f_equal. apply bool_decide_ext. rewrite elem_of_cons. split; [by right|intros [?|?]; [congruence|done]].
Qed.

(** What a vector is a code of. *)
Definition range_code (d N : list Z) (dec : bool) : Prop :=
  words_ok d /\
  if dec then field d 0 32 = 1 /\ exists S, StronglySorted Z.lt S /\ Forall (fun x => 1 <= x <= V) S /\
         (forall v, v ∈ S <-> v ∈ N) /\ words d = S ++ replicate (Z.to_nat m - length S) 0
  else field d 0 32 = 0 /\ exists A B, StronglySorted Z.lt (A ++ words d ++ B) /\
         forall v, 1 <= v <= V -> v ∈ A ++ words d ++ B <-> v ∈ N.

Lemma GetFlag_code d N dec : range_code d N dec -> RangeEncode_GetFlag d = Some dec.
Proof.
  intros [Hd Hc]. unfold RangeEncode_GetFlag, v_bits_size_. pose proof (get_word d 0 Hd ltac:(lia)) as Hw.
  change (32 * 0) with 0 in Hw. rewrite Hw. bind_step. by destruct dec; destruct Hc as [-> _].
Qed.

Lemma NonNeighborTest_code d N dec v :
  range_code d N dec -> 1 <= v <= V ->
  exists t, RangeEncode_NonNeighborTest_vec C d v = Some t /\ answers t (v ∈ N) /\ (dec = true -> t <> Uncertain).
Proof.
  intros Hc Hv. pose proof (GetFlag_code _ _ _ Hc) as Hflag. destruct Hc as [Hd Hc]. pose proof max_int_eq as Hm.
  unfold RangeEncode_NonNeighborTest_vec. rewrite Hflag, Hper. bind_step. unfold v_bits_size_.
  assert (forall last, 32 * m <= last < 32 * m + 32 ->
    find_word (Z.to_nat (32 * K)) d 32 last v = Some (bool_decide (v ∈ words d))) as Hfind.
  { intros last Hlast. change 32 with (32 * 1) at 2. rewrite (find_word_spec d (Z.to_nat m)) by (done || lia). done. }
  destruct dec.
  - destruct Hc as (_ & S & _ & _ & Hel & Hw). rewrite Hfind by (rewrite u32_small; lia). bind_step. eexists. split; [done|].
    assert (v ∈ words d <-> v ∈ N) as <-; [|by case_bool_decide].
    rewrite Hw, elem_of_app, Hel. split; [intros [?|[-> _]%elem_of_replicate]; [done|lia]|by left].
  - destruct Hc as [_ (A & B & Hs & Hel)]. rewrite u32_small by lia. pose proof (get_word d 1 Hd ltac:(lia)) as Hw.
    change (32 * 1) with 32 in Hw. rewrite Hw, (get_word d m) by (done || lia). bind_step. bind_step. clear Hw.
    pose proof (words_lookup d 0 ltac:(lia)) as H0. pose proof (words_lookup d (m - 1) ltac:(lia)) as H1.
    change (32 * (0 + 1)) with 32 in H0. replace (32 * (m - 1 + 1)) with (32 * m) in H1 by lia.
    set (lo := field d 32 32) in *. set (hi := field d (32 * m) 32) in *.
    assert (forall x i, words d !! i = Some x -> x ∈ A ++ words d ++ B) as Hin.
    { intros x i Hx. apply elem_of_app. right. apply elem_of_app. left. by eapply list_elem_of_lookup_2. }
    destruct (Z.eqb_spec v lo) as [->|Hlo]; cbn [orb].
    { eexists. split; [done|]. split; [|done]. cbn. apply Hel; [done|by eapply Hin]. }
    destruct (Z.eqb_spec v hi) as [->|Hhi].
    { eexists. split; [done|]. split; [|done]. cbn. apply Hel; [done|by eapply Hin]. }
    destruct (Z.ltb_spec v lo); cbn [orb]; [by exists Uncertain|]. destruct (Z.ltb_spec hi v); [by exists Uncertain|].
    rewrite Hfind by lia. bind_step. eexists. split; [done|]. split; [|done].
    case_bool_decide as Hw; cbn.
    + apply Hel; [done|]. apply elem_of_app. right. apply elem_of_app. by left.
    + intros Hn%Hel; [|done]. apply Hw. apply (segment_elem A (words d) B v Hs Hn); [by exists lo|].
      exists hi. split; [|done]. rewrite last_lookup. assert (length (words d) = Z.to_nat m) as -> by apply fields_length.
      by replace (pred (Z.to_nat m)) with (Z.to_nat (m - 1)) by lia.
Qed.

(** Storing a list of words. *)
Lemma store_words l f d lo :
  words_ok d -> 1 <= lo -> lo + Z.of_nat (length l) <= K -> Forall (fun x => 0 <= x < 2 ^ 32) l ->
  (forall j x, l !! j = Some x -> f (lo + Z.of_nat j) = Some x) ->
  exists d', for_loop (length l) lo (fun i d => x ← f i; BitSetSIMD_BlockSet d (u32 (i * v_bits_size_)) v_bits_size_ x) d = Some d' /\
    words_ok d' /\ fields d' (32 * lo) 32 (length l) = l /\
    forall q, 0 <= q -> q < 32 * lo \/ 32 * (lo + Z.of_nat (length l)) <= q -> bit_at d' q = bit_at d q.
Proof.
  intros Hd Hlo Hfit Hl. revert d lo Hd Hlo Hfit. induction Hl as [|x l Hx Hl IH]; intros d lo Hd Hlo Hfit Hf.
  { exists d. by repeat split; try apply Hd. }
  cbn [length for_loop] in *. pose proof (Hf 0%nat x eq_refl) as H0. rewrite Z.add_0_r in H0. rewrite H0. bind_step.
  replace (u32 (lo * v_bits_size_)) with (lo * 32) by (unfold v_bits_size_; rewrite u32_small by lia; done). destruct Hd as [Hb Hn].
  destruct (BitSetSIMD_BlockSet_spec d (lo * 32) v_bits_size_ x Hb) as (d1 & E1 & Hr1); [unfold set_dom, v_bits_size_; lia|].
  rewrite E1. change v_bits_size_ with 32 in Hr1. cbn [mbind option_bind]. pose proof (rewrites_nbits _ _ _ Hr1) as Hn1. pose proof Hr1 as (Hb1 & _ & Hbit1).
  destruct (IH d1 (lo + 1)) as (d' & E & Hd' & Hw & Hbits); [split; [done|lia]|lia|lia| |].
  { intros j y Hj. replace (lo + 1 + Z.of_nat j) with (lo + Z.of_nat (S j)) by lia. by apply Hf. }
  exists d'. split; [exact E|]. split; [done|]. split.
  - rewrite fields_S. replace (32 * lo + 32) with (32 * (lo + 1)) by lia. rewrite Hw. f_equal.
    rewrite <- (field_put_same d d1 (lo * 32) 32 x) by (done || lia). replace (32 * lo) with (lo * 32) by lia.
    apply field_ext; [lia|]. intros i Hi. apply Hbits; lia.
  - intros q Hq Hout. rewrite Hbits, Hbit1 by lia. unfold put_field. split_ltb; lia || done.
Qed.

(** The vector with its flag set and nothing else. *)
Lemma flag_word d flag :
  words_ok d ->
  exists d', RangeEncode_SetFlag (BitSetSIMD_Clear d) flag = Some d' /\ words_ok d' /\
    field d' 0 32 = (if flag then 1 else 0) /\ forall q, 32 <= q -> bit_at d' q = false.
Proof.
  intros [Hb Hn]. pose proof (BitSetSIMD_Clear_spec d Hb) as Hc. pose proof Hc as (Hb0 & _ & Hbit0).
  pose proof (rewrites_nbits _ _ _ Hc) as Hn0. unfold RangeEncode_SetFlag, v_bits_size_.
  destruct (BitSetSIMD_BlockSet_spec (BitSetSIMD_Clear d) 0 32 (if flag then 1 else 0) Hb0) as (d' & E & Hr).
  { unfold set_dom. destruct flag; lia. }
  exists d'. pose proof (rewrites_nbits _ _ _ Hr) as Hn'. pose proof Hr as (Hb' & _ & Hbit').
  split; [done|]. split; [split; [done|lia]|]. split.
  - apply (field_put_same _ _ _ _ _ Hr); destruct flag; lia.
  - intros q Hq. rewrite Hbit' by lia. unfold put_field. split_ltb; try lia. apply Hbit0. lia.
Qed.

Lemma words_app_zeros d n :
  Z.of_nat n <= m -> (forall q, 32 * (1 + Z.of_nat n) <= q -> bit_at d q = false) ->
  words d = fields d 32 32 n ++ replicate (Z.to_nat m - n) 0.
Proof.
  intros Hn Hz. unfold words. replace (Z.to_nat m) with (n + (Z.to_nat m - n))%nat at 1 by lia.
  rewrite fields_app. f_equal. apply fields_zero; [lia..|]. intros q Hq. apply Hz. lia.
Qed.

(** The neighbors with the two bounds around them. *)
Definition bounded (S : list Z) : list Z := 0 :: S ++ [V + 1].

Lemma bounded_S S i : bounded S !! Datatypes.S i = (S ++ [V + 1]) !! i.
Proof. done. Qed.

Lemma bounded_sorted S : StronglySorted Z.lt S -> Forall (fun x => 1 <= x <= V) S -> StronglySorted Z.lt (bounded S).
Proof.
  intros Hs Hids. unfold bounded. constructor.
  - induction Hs as [|x S Hs IH Hx]; cbn [app]; [repeat constructor|]. apply Forall_cons in Hids as [Hx' Hids].
    constructor; [by apply IH|]. apply Forall_app. split; [done|]. repeat constructor. lia.
  - apply Forall_app. split; [eapply Forall_impl; [exact Hids|]; simpl; lia|]. repeat constructor. lia.
Qed.

Lemma bounded_elem S v : 1 <= v <= V -> v ∈ bounded S <-> v ∈ S.
Proof.
  intros Hv. unfold bounded. rewrite elem_of_cons, elem_of_app, list_elem_of_singleton. split; [|tauto].
  intros [->|[?| ->]]; [lia|done|lia].
Qed.

Lemma upper_eq : Encode_vertex_id_upper C = V + 1.
Proof. unfold Encode_vertex_id_upper. by rewrite u32_small by lia. Qed.

Lemma range_value_ok S idx i :
  m < Z.of_nat (length S) -> -1 <= idx <= Z.of_nat (length S) - m + 1 -> 1 <= i <= m ->
  range_value C S idx (Z.of_nat (length S)) i = zget (bounded S) (idx + i).
Proof.
  intros HS Hidx Hi. pose proof max_int_eq as Hm. unfold range_value. rewrite upper_eq.
  assert (forall j, 0 <= j < Z.of_nat (length S) -> zget (bounded S) (j + 1) = zget S j) as Hin.
  { intros j Hj. rewrite !zget_lookup by lia. replace (Z.to_nat (j + 1)) with (Datatypes.S (Z.to_nat j)) by lia.
    rewrite bounded_S, lookup_app_l by lia. done. }
  destruct ((i =? 1) && (idx =? -1)) eqn:E1.
  { apply andb_true_iff in E1 as [->%Z.eqb_eq ->%Z.eqb_eq]. done. }
  destruct ((i =? m) && (idx =? Z.of_nat (length S) - m + 1)) eqn:E2.
  { apply andb_true_iff in E2 as [->%Z.eqb_eq ->%Z.eqb_eq]. rewrite zget_lookup by lia.
    replace (Z.to_nat (Z.of_nat (length S) - m + 1 + m)) with (Datatypes.S (length S)) by lia.
    rewrite bounded_S, lookup_app_r by lia. by rewrite Nat.sub_diag. }
  rewrite andb_false_iff, !Z.eqb_neq in E1, E2. rewrite <- Hin by lia. f_equal. lia.
Qed.

Lemma best_range_ok S n i score idx :
  0 <= i -> i + Z.of_nat n + m - 1 <= Z.of_nat (length S) -> Z.of_nat (length S) < 2 ^ 32 -> -1 <= idx < i + Z.of_nat n ->
  exists score' idx', best_range C n i S score idx = Some (score', idx') /\ -1 <= idx' < i + Z.of_nat n.
Proof.
  intros Hi Hn Hlen. pose proof max_int_eq as Hm. revert i score idx Hi Hn. induction n as [|n IH]; intros i score idx Hi Hn Hidx.
  { exists score, idx. split; [done|lia]. }
  cbn [best_range]. rewrite u32_small by lia. destruct (zget_is_Some S (i + m - 1)) as [hi ->]; [lia|]. bind_step.
  destruct (zget_is_Some S i) as [lo ->]; [lia|]. bind_step. replace (i + Z.of_nat (Datatypes.S n)) with (i + 1 + Z.of_nat n) in * by lia.
  destruct (score <? _); apply IH; lia.
Qed.

(** A block of the neighbors with their bounds. *)
Lemma block_code d S N idx :
  words_ok d -> field d 0 32 = 0 -> StronglySorted Z.lt S -> Forall (fun x => 1 <= x <= V) S -> (forall v, v ∈ S <-> v ∈ N) ->
  0 <= idx -> idx + m <= Z.of_nat (length (bounded S)) ->
  words d = take (Z.to_nat m) (drop (Z.to_nat idx) (bounded S)) -> range_code d N false.
Proof.
  intros Hd Hflag Hs Hids Hel Hidx Hfit Hw. split; [done|]. split; [done|].
  exists (take (Z.to_nat idx) (bounded S)), (drop (Z.to_nat m) (drop (Z.to_nat idx) (bounded S))). rewrite Hw, !take_drop.
  split; [by apply bounded_sorted|]. intros v Hv. by rewrite bounded_elem.
Qed.

Lemma EncodeVertex_vec_ok d N :
  words_ok d -> NoDup N -> Forall (fun x => 1 <= x <= V) N -> Z.of_nat (length N) < 2 ^ 31 ->
  exists d', RangeEncode_EncodeVertex_vec C d N = Some d' /\ range_code d' N (Z.of_nat (length N) <=? m).
Proof.
  intros Hd Hnd Hids Hlen. pose proof max_int_eq as Hm. unfold RangeEncode_EncodeVertex_vec.
  pose proof (sort_strict N Hnd) as Hs. pose proof (merge_sort_Permutation Z.le N) as Hperm.
  set (S := merge_sort Z.le N) in *. assert (forall v, v ∈ S <-> v ∈ N) as Hel by (intros v; by rewrite Hperm).
  assert (Forall (fun x => 1 <= x <= V) S) as HidsS by by rewrite Hperm.
  assert (length S = length N) as HlS by by rewrite Hperm. rewrite <- HlS in *. clear Hperm.
  assert (Forall (fun x => 0 <= x < 2 ^ 32) S) as HS32 by (eapply Forall_impl; [exact HidsS|]; simpl; lia).
  destruct (Z.leb_spec (Z.of_nat (length S)) m) as [Hfit|Hbig].
  - destruct (flag_word d true Hd) as (d1 & -> & Hd1 & Hf1 & Hz1). bind_step.
    destruct (store_words S (fun i => zget S (i - 1)) d1 1) as (d2 & E & Hd2 & Hw & Hbits); [done|lia|lia|done| |].
    { intros j x Hj. rewrite zget_lookup by lia. by replace (Z.to_nat (1 + Z.of_nat j - 1)) with j by lia. }
    exists d2. split; [exact E|]. split; [done|]. split.
    + rewrite <- Hf1. apply field_ext; [lia|]. intros i Hi. apply Hbits; lia.
    + exists S. split; [done|]. split; [done|]. split; [done|].
      rewrite (words_app_zeros d2 (length S)) by (lia || (intros q Hq; rewrite Hbits by lia; apply Hz1; lia)).
      change (32 * 1) with 32 in Hw. by rewrite Hw.
  - destruct (flag_word d false Hd) as (d1 & -> & Hd1 & Hf1 & Hz1). bind_step.
    rewrite (u32_small (m - 2)) by lia. destruct (zget_is_Some S (m - 2)) as [sc ->]; [lia|]. bind_step.
    destruct (best_range_ok S (Z.to_nat (Z.of_nat (length S) - m + 1)) 0 sc (-1)) as (sc' & idx & -> & Hidx); [lia..|].
    bind_step. rewrite (u32_small (Z.of_nat (length S) - m + 1)) by lia. destruct (zget_is_Some S (Z.of_nat (length S) - m + 1)) as [la ->]; [lia|]. bind_step.
    set (idx' := if _ <? _ then _ else idx).
    assert (-1 <= idx' <= Z.of_nat (length S) - m + 1) as Hidx' by (unfold idx'; destruct (_ <? _); lia).
    clearbody idx'. clear Hidx sc sc' la.
    set (seg := take (Z.to_nat m) (drop (Z.to_nat (idx' + 1)) (bounded S))).
    assert (length (bounded S) = length S + 2)%nat as HlB by (unfold bounded; cbn; rewrite length_app; cbn; lia).
    assert (length seg = Z.to_nat m) as Hseg by (unfold seg; rewrite length_take, length_drop; lia).
    destruct (store_words seg (fun i => range_value C S idx' (Z.of_nat (length S)) i) d1 1) as (d2 & E & Hd2 & Hw & Hbits);
      [done|lia|lia| | |].
    { unfold seg. apply Forall_take, Forall_drop. unfold bounded. constructor; [lia|]. apply Forall_app. split; [done|].
      repeat constructor; lia. }
    { intros j x Hj. pose proof (lookup_lt_Some _ _ _ Hj). rewrite range_value_ok by lia.
      unfold seg in Hj. apply lookup_take_Some in Hj as [Hj _]. rewrite lookup_drop in Hj.
      rewrite zget_lookup by lia. rewrite <- Hj. f_equal. lia. }
    rewrite Hseg in E. exists d2. split; [exact E|]. apply (block_code d2 S N (idx' + 1)); try done; [|lia|lia|].
    + transitivity (field d1 0 32); [|done]. apply field_ext; [lia|]. intros i Hi. apply Hbits; lia.
    + change (32 * 1) with 32 in Hw. rewrite Hseg in Hw. exact Hw.
Qed.

(** ** Vectors in their array *)

Definition range_coded (E : list (list Z)) (u : Z) (N : list Z) (dec : bool) : Prop :=
  exists d, zget E u = Some d /\ range_code d N dec.

Lemma range_EncodeVertex_coded E u d N :
  zget E u = Some d -> words_ok d -> NoDup N -> Forall (fun x => 1 <= x <= V) N -> Z.of_nat (length N) < 2 ^ 31 ->
  exists E', RangeEncode_EncodeVertex C E u N = Some E' /\ range_coded E' u N (Z.of_nat (length N) <=? m) /\
    forall w, w <> u -> zget E' w = zget E w.
Proof.
  intros Eu Hd Hnd Hids Hlen. unfold RangeEncode_EncodeVertex. rewrite Eu. bind_step.
  destruct (EncodeVertex_vec_ok d N Hd Hnd Hids Hlen) as (d' & -> & Hc). bind_step.
  pose proof (zget_Some_inv _ _ _ Eu) as [Hb _]. rewrite zset_Some by done. eexists. split; [done|].
  split; [exists d'; split; [|done]|intros w Hw]; rewrite (zget_zset E u _ _ _ (zset_Some E u d' Hb)).
  - by rewrite Z.eqb_refl.
  - by rewrite (proj2 (Z.eqb_neq w u)).
Qed.

Lemma coded_NonNeighborTest E u N dec v :
  range_coded E u N dec -> 1 <= v <= V ->
  exists t, RangeEncode_NonNeighborTest C E u v = Some t /\ answers t (v ∈ N) /\ (dec = true -> t <> Uncertain).
Proof.
  intros (d & Ed & Hc) Hv. unfold RangeEncode_NonNeighborTest. rewrite Ed. bind_step. by apply NonNeighborTest_code.
Qed.

Lemma coded_frame E E' u N dec : zget E' u = zget E u -> range_coded E u N dec -> range_coded E' u N dec.
Proof. intros Hu (d & Ed & Hd). exists d. by rewrite Hu. Qed.

Lemma range_coded_NEpairTest E u v Nu Nv du dv edge :
  range_coded E u Nu du -> range_coded E v Nv dv -> 1 <= u <= V -> 1 <= v <= V -> covers_edge du dv Nu Nv u v edge ->
  exists t, RangeEncode_NEpairTest C E u v = Some t /\ answers t edge /\ (du || dv = true -> t <> Uncertain).
Proof.
  intros Hcu Hcv Hu Hv Hcov. unfold RangeEncode_NEpairTest.
  destruct (coded_NonNeighborTest E u Nu du v Hcu Hv) as (t1 & -> & H1 & Hc1).
  destruct (coded_NonNeighborTest E v Nv dv u Hcv Hu) as (t2 & -> & H2 & Hc2). bind_step. bind_step.
  eexists. split; [done|]. by apply (min_answers t1 t2 du dv Nu Nv u v edge).
Qed.

(** ** Insertion *)

Lemma GetBlockInt_ok d S n i acc :
  words_ok d -> 1 <= i -> i + Z.of_nat n = K -> Forall (fun x => 1 <= x <= V) S -> (length S < n)%nat ->
  fields d (32 * i) 32 n = S ++ replicate (n - length S) 0 ->
  GetBlockInt_loop d n i acc = Some (acc ++ S).
Proof.
  intros Hd Hi Hn HS Hlt. revert n i acc Hi Hn Hlt. induction HS as [|x S Hx HS IH]; intros n i acc Hi Hn Hlt Hf;
    (destruct n as [|n]; [cbn in Hlt; lia|]); cbn [GetBlockInt_loop]; rewrite fields_S in Hf;
    unfold v_bits_size_; rewrite (u32_small (i * 32)), (Z.mul_comm i 32), (get_word d i Hd) by lia; bind_step.
  - injection Hf as -> _. cbn. by rewrite app_nil_r.
  - cbn [length app Nat.sub] in Hf, Hlt. injection Hf as -> Hf. rewrite (proj2 (Z.eqb_neq x 0)) by lia.
    replace (32 * i + 32) with (32 * (i + 1)) in Hf by lia. rewrite (IH n (i + 1)) by (done || lia). by rewrite <- app_assoc.
Qed.

Lemma GetEncodeType_coded d N dec :
  range_code d N dec -> (length N < Z.to_nat m)%nat -> NoDup N ->
  RangeEncode_GetEncodeType C d = Some (if dec then UnFull else NonDecodable) /\
  (dec = true -> exists S, StronglySorted Z.lt S /\ Forall (fun x => 1 <= x <= V) S /\ (forall v, v ∈ S <-> v ∈ N) /\
     RangeEncode_GetBlockInt C d = Some S /\ length S = length N).
Proof.
  intros Hc Hlt Hnd. pose proof (GetFlag_code _ _ _ Hc) as Hflag. destruct Hc as [Hd Hc]. pose proof max_int_eq as Hm.
  unfold RangeEncode_GetEncodeType, RangeEncode_GetBlockInt. rewrite Hflag. bind_step. bind_step.
  destruct dec; cbn [negb]; [|done]. destruct Hc as (_ & S & Hs & HS & Hel & Hw).
  assert (length S = length N) as HlS.
  { apply Permutation_length, NoDup_Permutation; [by apply sorted_lt_nodup|done|done]. }
  split; [|exists S; split; [done|]; split; [done|]; split; [done|]; split; [|done]].
  - unfold v_bits_size_. rewrite u32_small, Z.mul_comm, (get_word d m Hd) by lia. bind_step.
    pose proof (words_lookup d (m - 1) ltac:(lia)) as Hlook. rewrite Hw, lookup_app_r in Hlook by lia.
    replace (m - 1 + 1) with m in Hlook by lia. rewrite lookup_replicate_2 in Hlook by lia. by injection Hlook as <-.
  - rewrite (GetBlockInt_ok d S (Z.to_nat m) 1 []) by (done || lia). done.
Qed.

Lemma InsertPair_ok db E u v Nu :
  range_coded E u Nu true -> NoDup Nu -> Z.of_nat (length Nu) < m -> (exists N dec, range_coded E v N dec /\ NoDup N) ->
  1 <= u <= V -> 1 <= v <= V -> v ∉ Nu ->
  exists E', RangeEncode_InsertPair C db E u v = Some E' /\ range_coded E' u (v :: Nu) true /\
    forall w, w <> u -> zget E' w = zget E w.
Proof.
  intros (d & Ed & Hc) Hnd Hlt (Nv & dv & (e & Ee & Hcv) & Hndv) Hu Hv Hnew. pose proof max_int_eq as Hm.
  destruct (GetEncodeType_coded d Nu true Hc ltac:(lia) Hnd) as (Ht & S & Hs & HS & Hel & Hget & HlS); [done|].
  unfold RangeEncode_InsertPair. rewrite Ed, Ee. bind_step. bind_step. rewrite Ht. bind_step.
  assert (exists t, RangeEncode_GetEncodeType C e = Some t) as [t ->].
  { unfold RangeEncode_GetEncodeType. rewrite (GetFlag_code _ _ _ Hcv). bind_step. destruct (negb dv); [by eexists|].
    unfold v_bits_size_. destruct Hcv as [He _]. rewrite u32_small, Z.mul_comm, (get_word e m He) by lia. bind_step. by eexists. }
  bind_step. replace (EncodeType_val t <? EncodeType_val UnFull) with false by (by destruct t).
  unfold RangeEncode_GetAllNeighbors. rewrite Ed. bind_step. rewrite (GetFlag_code _ _ _ Hc), Hget. bind_step. bind_step.
  assert (NoDup (S ++ [v])) as HndS.
  { apply NoDup_app. split; [|split; [|apply NoDup_singleton]].
    - by apply sorted_lt_nodup.
    - intros x Hx ->%list_elem_of_singleton. by apply Hnew, Hel. }
  destruct (range_EncodeVertex_coded E u d (S ++ [v]) Ed) as (E' & HE & (d' & Ed' & Hd' & Hc') & Hframe).
  - by destruct Hc.
  - done.
  - apply Forall_app. split; [done|by constructor].
  - rewrite length_app. cbn. lia.
  - exists E'. split; [done|]. split; [|done]. exists d'. split; [done|]. split; [done|].
    rewrite length_app in Hc'. cbn [length] in Hc'. rewrite (proj2 (Z.leb_le _ m)) in Hc' by lia.
    destruct Hc' as (Hf & S' & H1 & H2 & H3 & H4). split; [done|]. exists S'. split; [done|]. split; [done|]. split; [|done].
    intros x. rewrite H3, elem_of_app, list_elem_of_singleton, Hel, elem_of_cons. tauto.
Qed.

(** ** Deletion *)

(** A vertex whose list can be read back: from a code with a free word, or from
    the database. *)
Definition updatable (db : Z -> list Z) (E : list (list Z)) (u : Z) (N : list Z) (dec : bool) : Prop :=
  range_coded E u N dec /\ NoDup N /\
  if dec then Z.of_nat (length N) < m
  else NoDup (db u) /\ Forall (fun x => 1 <= x <= V) (db u) /\ (forall v, v ∈ db u <-> v ∈ N) /\ Z.of_nat (length (db u)) < 2 ^ 31.

Lemma range_code_ext d N N' dec : (forall v, v ∈ N <-> v ∈ N') -> range_code d N dec -> range_code d N' dec.
Proof.
  intros HN [Hd Hc]. split; [done|]. destruct dec.
  - destruct Hc as (Hf & S & H1 & H2 & H3 & H4). split; [done|]. exists S. split; [done|]. split; [done|]. split; [|done].
    intros v. by rewrite H3.
  - destruct Hc as (Hf & A & B & H1 & H2). split; [done|]. exists A, B. split; [done|]. intros v Hv. by rewrite (H2 v Hv).
Qed.

Lemma GetAllNeighbors_ok db E u N dec :
  updatable db E u N dec ->
  exists S, RangeEncode_GetAllNeighbors C db E u = Some S /\ NoDup S /\ Forall (fun x => 1 <= x <= V) S /\
    (forall v, v ∈ S <-> v ∈ N) /\ Z.of_nat (length S) < 2 ^ 31 /\ (dec = true -> Z.of_nat (length S) < m).
Proof.
  intros ((d & Ed & Hc) & Hnd & Hu). pose proof max_int_eq as Hm. unfold RangeEncode_GetAllNeighbors. rewrite Ed. bind_step.
  rewrite (GetFlag_code _ _ _ Hc). bind_step. destruct dec.
  - destruct (GetEncodeType_coded d N true Hc ltac:(lia) Hnd) as (_ & S & Hs & HS & Hel & Hget & HlS); [done|].
    exists S. split; [done|]. split; [by apply sorted_lt_nodup|]. split; [done|]. split; [done|]. lia.
  - destruct Hu as (H1 & H2 & H3 & H4). exists (db u). by split.
Qed.

Lemma RemoveNeighbor_ok db E u v N dec :
  updatable db E u N dec ->
  exists E' b dec', RangeEncode_RemoveNeighbor C db E u v = Some (E', b) /\
    range_coded E' u (filter (fun x => x <> v) N) dec' /\ (dec = true -> dec' = true) /\ forall w, w <> u -> zget E' w = zget E w.
Proof.
  intros Hu. destruct (GetAllNeighbors_ok db E u N dec Hu) as (S & HS & Hnd & Hids & Hel & Hlen & Hfit). destruct Hu as ((d & Ed & Hc) & _ & _).
  unfold RangeEncode_RemoveNeighbor. rewrite HS. bind_step. pose proof (erase_first_spec v S Hnd) as Her.
  destruct (erase_first v S) as [S'|].
  - destruct Her as (Hin & Hnd' & Hel').
    assert (S' ⊆+ S) as Hsub by (apply NoDup_submseteq; [done|]; intros x Hx; by apply Hel').
    pose proof (submseteq_length _ _ Hsub) as Hl.
    destruct (range_EncodeVertex_coded E u d S' Ed) as (E' & HE & (d' & Ed' & Hc') & Hframe); [by destruct Hc|done| |lia|].
    { apply Forall_forall. intros x Hx. apply (proj1 (Forall_forall _ _) Hids), Hel', Hx. }
    rewrite HE. bind_step. exists E', true, (Z.of_nat (length S') <=? m). split; [done|]. split; [|split; [|done]].
    + exists d'. split; [done|]. eapply range_code_ext; [|exact Hc']. intros x. rewrite Hel', list_elem_of_filter, Hel. tauto.
    + intros Hdec. specialize (Hfit Hdec). apply Z.leb_le. lia.
  - exists E, false, dec. split; [done|]. split; [|done]. exists d. split; [done|]. eapply range_code_ext; [|exact Hc].
    intros x. rewrite list_elem_of_filter. split; [|tauto]. intros Hx. split; [|done]. intros ->. by apply Her, Hel.
Qed.

(** One half of the deletion. *)
Lemma delete_half db E u v N dec :
  updatable db E u N dec -> 1 <= v <= V ->
  exists t E' dec', RangeEncode_NonNeighborTest C E u v = Some t /\
    (if bool_decide (t <> NonNeighbor) then r ← RangeEncode_RemoveNeighbor C db E u v; Some r.1 else Some E) = Some E' /\
    range_coded E' u (filter (fun x => x <> v) N) dec' /\ (dec = true -> dec' = true) /\ forall w, w <> u -> zget E' w = zget E w.
Proof.
  intros Hu Hv. destruct (coded_NonNeighborTest E u N dec v (proj1 Hu) Hv) as (t & Et & Ht & _). exists t.
  destruct (RemoveNeighbor_ok db E u v N dec Hu) as (E' & b & dec' & HE & Hc & Hdec & Hframe).
  case_bool_decide as Hn.
  - exists E', dec'. rewrite HE. by repeat split.
  - exists E, dec. split; [done|]. split; [done|]. split; [|done]. destruct Hu as ((d & Ed & Hcd) & _). exists d. split; [done|].
    eapply range_code_ext; [|exact Hcd]. intros x. rewrite list_elem_of_filter. split; [|tauto]. intros Hx. split; [|done]. intros ->.
    rewrite Hn in Ht. by apply Ht.
Qed.
End words.

(** Distinct vertices are not many. *)
Lemma nodup_ids_length V N :
  1 <= V < 2 ^ 31 -> NoDup N -> Forall (fun x => 1 <= x <= V) N -> Z.of_nat (length N) < 2 ^ 31.
Proof.
  intros HV Hn Hi. assert (N ⊆+ seqZ 1 V) as Hsub.
  { apply NoDup_submseteq; [done|]. intros x Hx. apply elem_of_seqZ. pose proof (proj1 (Forall_forall _ _) Hi x Hx). simpl in *. lia. }
  apply submseteq_length in Hsub. rewrite length_seqZ in Hsub. lia.
Qed.

(** * Properties *)

(** Two vertices encoded by the range encoding, from any state of their
    vectors: when their lists cover the edge between them, as the order of the
    builder ensures, the test of the pair is defined and right, and it is
    certain when one of the lists fits a vector. *)
Theorem RangeEncode_sound (C : Config) (E : list (list Z)) (u v : Z) (du dv : list Z) (Nu Nv : list Z) (edge : Prop)
    (HK : 3 <= K_SIZE C <= 64) (Hper : PER_ENCODE_BIT_SIZE C = 32 * K_SIZE C)
    (HV : 1 <= VERTEX_SIZE C < 2 ^ 31) (Huv : u <> v)
    (Hu : 1 <= u <= VERTEX_SIZE C) (Hv : 1 <= v <= VERTEX_SIZE C)
    (Hdu : zget E u = Some du /\ words_ok C du) (Hdv : zget E v = Some dv /\ words_ok C dv)
    (HNu : NoDup Nu /\ Forall (fun x => 1 <= x <= VERTEX_SIZE C) Nu)
    (HNv : NoDup Nv /\ Forall (fun x => 1 <= x <= VERTEX_SIZE C) Nv)
    (fits := fun N : list Z => Z.of_nat (length N) <=? K_SIZE C - 1)
    (Hcover : covers_edge (fits Nu) (fits Nv) Nu Nv u v edge) :
  exists E1 E2 t, RangeEncode_EncodeVertex C E u Nu = Some E1 /\ RangeEncode_EncodeVertex C E1 v Nv = Some E2 /\
    RangeEncode_NEpairTest C E2 u v = Some t /\ answers t edge /\ (fits Nu || fits Nv = true -> t <> Uncertain).
Proof.
  destruct Hdu as [Eu Hdu], Hdv as [Ev Hdv], HNu as [Hnu Hiu], HNv as [Hnv Hiv].
  assert (1 <= VERTEX_SIZE C < 2 ^ 32 - 1) as HV' by lia.
  pose proof (fun N => nodup_ids_length (VERTEX_SIZE C) N HV) as Hlen.
  destruct (range_EncodeVertex_coded C HK Hper HV' E u du Nu Eu Hdu Hnu Hiu (Hlen _ Hnu Hiu)) as (E1 & HE1 & Hc1 & Hf1).
  destruct (range_EncodeVertex_coded C HK Hper HV' E1 v dv Nv) as (E2 & HE2 & Hc2 & Hf2); [by rewrite Hf1|done..|by apply Hlen|].
  rewrite (max_int_eq C HK Hper HV') in Hc1, Hc2.
  destruct (range_coded_NEpairTest C HK Hper HV' E2 u v Nu Nv _ _ edge
    (coded_frame C HK Hper HV' E1 E2 u Nu _ (Hf2 u Huv) Hc1) Hc2 Hu Hv Hcover) as (t & Et & Ht & Hcert).
  by exists E1, E2, t.
Qed.

(** C20: an edge that is inserted at a vertex whose code has a free word is
    found by the test, in whichever order it is asked, and no other vertex's
    code is touched. *)
Theorem RangeEncode_insert (C : Config) (db : Z -> list Z) (E : list (list Z)) (u v : Z) (Nu Nv : list Z) (decv : bool)
    (HK : 3 <= K_SIZE C <= 64) (Hper : PER_ENCODE_BIT_SIZE C = 32 * K_SIZE C) (HV : 1 <= VERTEX_SIZE C < 2 ^ 31)
    (Hu : 1 <= u <= VERTEX_SIZE C) (Hv : 1 <= v <= VERTEX_SIZE C) (Huv : u <> v)
    (Hcu : range_coded C E u Nu true /\ NoDup Nu /\ Z.of_nat (length Nu) < K_SIZE C - 1)
    (Hcv : range_coded C E v Nv decv /\ NoDup Nv) (Hnew : v ∉ Nu) :
  exists E', RangeEncode_InsertPair C db E u v = Some E' /\ range_coded C E' u (v :: Nu) true /\
    RangeEncode_NEpairTest C E' u v = Some Neighbor /\ RangeEncode_NEpairTest C E' v u = Some Neighbor /\
    forall w, w <> u -> zget E' w = zget E w.
Proof.
  destruct Hcu as (Hcu & Hnu & Hlt), Hcv as (Hcv & Hnv). assert (1 <= VERTEX_SIZE C < 2 ^ 32 - 1) as HV' by lia.
  destruct (InsertPair_ok C HK Hper HV' db E u v Nu Hcu Hnu) as (E' & HE & Hc & Hframe);
    [by rewrite (max_int_eq C HK Hper HV')|by exists Nv, decv|done..|].
  exists E'. split; [done|]. split; [done|].
  destruct (coded_NonNeighborTest C HK Hper HV' E' u _ _ v Hc Hv) as (t1 & E1 & Ht1 & Hcert).
  destruct (coded_NonNeighborTest C HK Hper HV' E' v Nv decv u) as (t2 & E2 & _); [|done|].
  { apply (coded_frame C HK Hper HV' E); [by apply Hframe|done]. }
  assert (t1 = Neighbor) as ->.
  { destruct t1; [done| |by specialize (Hcert eq_refl)]. cbn in Ht1. exfalso. apply Ht1. by left. }
  unfold RangeEncode_NEpairTest. rewrite E1, E2. bind_step. bind_step. by destruct t2.
Qed.

(** C21: an edge that is deleted is not answered any more, on every branch: whether
    a list is read from a code with a free word or from the database, the two
    vertices get the codes of their lists without each other, a whole list stays
    one, no other vector is touched, and the test of the pair is then defined, not
    [Neighbor], and certain when one of the lists is whole. *)
Theorem RangeEncode_delete (C : Config) (db : Z -> list Z) (E : list (list Z)) (u v : Z) (Nu Nv : list Z) (du dv : bool)
    (HK : 3 <= K_SIZE C <= 64) (Hper : PER_ENCODE_BIT_SIZE C = 32 * K_SIZE C) (HV : 1 <= VERTEX_SIZE C < 2 ^ 32 - 1)
    (Hu : 1 <= u <= VERTEX_SIZE C) (Hv : 1 <= v <= VERTEX_SIZE C) (Huv : u <> v)
    (Hcu : updatable C db E u Nu du) (Hcv : updatable C db E v Nv dv) :
  exists E' du' dv' t, RangeEncode_DeletePair C db E u v = Some E' /\
    range_coded C E' u (filter (fun x => x <> v) Nu) du' /\ range_coded C E' v (filter (fun x => x <> u) Nv) dv' /\
    (forall w, w <> u -> w <> v -> zget E' w = zget E w) /\
    RangeEncode_NEpairTest C E' u v = Some t /\ t <> Neighbor /\ (du || dv = true -> t <> Uncertain).
Proof.
  destruct (delete_half C HK Hper HV db E u v Nu du Hcu Hv) as (t1 & E1 & du' & Et1 & HE1 & Hc1 & Hdu & Hf1).
  assert (updatable C db E1 v Nv dv) as Hcv1.
  { destruct Hcv as (Hcv & Hrest). split; [|done]. by apply (coded_frame C HK Hper HV E); [apply Hf1|]. }
  destruct (delete_half C HK Hper HV db E1 v u Nv dv Hcv1 Hu) as (t2 & E2 & dv' & Et2 & HE2 & Hc2 & Hdv & Hf2).
  assert (range_coded C E2 u (filter (fun x => x <> v) Nu) du') as Hc1' by (apply (coded_frame C HK Hper HV E1); [by apply Hf2|done]).
  destruct (range_coded_NEpairTest C HK Hper HV E2 u v _ _ du' dv' False Hc1' Hc2 Hu Hv) as (t & Et & Ht & Hcert).
  { repeat split; try done; by intros [? _]%list_elem_of_filter. }
  exists E2, du', dv', t. unfold RangeEncode_DeletePair. rewrite Et1. bind_step. rewrite HE1. bind_step. rewrite Et2. bind_step.
  split; [exact HE2|]. split; [done|]. split; [done|]. split; [intros w Hw1 Hw2; by rewrite Hf2, Hf1|]. split; [done|].
  split; [by intros ->|]. intros H. apply Hcert. destruct du, dv; try discriminate H; rewrite ?Hdu, ?Hdv by done; by rewrite ?orb_true_r.
Qed.

(** * Witnesses *)

(** The words of a vector, for the states of the examples. *)
Definition vec_of_words (ws : list Z) : list Z :=
  flat_map (fun w => [u8 (Z.shiftr w 24); u8 (Z.shiftr w 16); u8 (Z.shiftr w 8); u8 w]) ws.

Lemma RangeEncode_sound_witness :
  exists E1 E2 t,
    RangeEncode_EncodeVertex small_config (replicate 21 (replicate 12 0)) 1 [9; 2; 5] = Some E1 /\
    RangeEncode_EncodeVertex small_config E1 5 [17; 1] = Some E2 /\
    RangeEncode_NEpairTest small_config E2 1 5 = Some t /\ answers t True /\ (false || true = true -> t <> Uncertain).
Proof.
  apply (RangeEncode_sound small_config (replicate 21 (replicate 12 0)) 1 5 (replicate 12 0) (replicate 12 0) [9; 2; 5] [17; 1] True).
  - vm_compute. split; discriminate.
  - reflexivity.
  - vm_compute. split; [discriminate|reflexivity].
  - discriminate.
  - vm_compute. split; discriminate.
  - vm_compute. split; discriminate.
  - split; [reflexivity|]. split; [|reflexivity]. by apply bytes_ok_zero.
  - split; [reflexivity|]. split; [|reflexivity]. by apply bytes_ok_zero.
  - split; apply (bool_decide_unpack _); vm_compute; exact I.
  - split; apply (bool_decide_unpack _); vm_compute; exact I.
  - vm_compute. repeat split; try (by right); try (by right; left); intros _; right; left.
Defined.

Lemma RangeEncode_insert_witness :
  let E := replicate 21 (vec_of_words [1; 9; 0]) in
  exists E', RangeEncode_InsertPair small_config (fun _ => []) E 4 5 = Some E' /\ range_coded small_config E' 4 [5; 9] true /\
    RangeEncode_NEpairTest small_config E' 4 5 = Some Neighbor /\ RangeEncode_NEpairTest small_config E' 5 4 = Some Neighbor /\
    forall w, w <> 4 -> zget E' w = zget E w.
Proof.
  intros E.
  assert (forall u, 1 <= u <= 20 -> range_coded small_config E u [9] true) as Hc.
  { intros u Hu. exists (vec_of_words [1; 9; 0]). split; [unfold E; rewrite zget_lookup, lookup_replicate_2 by lia; done|].
    split; [split; [|reflexivity]|split; [reflexivity|]].
    - split; [|reflexivity]. apply (bool_decide_unpack _). vm_compute. exact I.
    - exists [9]. split; [by repeat constructor|]. split; [apply (bool_decide_unpack _); vm_compute; exact I|]. split; [done|]. vm_compute. reflexivity. }
  apply (RangeEncode_insert small_config (fun _ => []) E 4 5 [9] [9] true).
  - vm_compute. split; discriminate.
  - reflexivity.
  - vm_compute. split; [discriminate|reflexivity].
  - vm_compute. split; discriminate.
  - vm_compute. split; discriminate.
  - discriminate.
  - split; [apply Hc; lia|]. split; [apply NoDup_singleton|reflexivity].
  - split; [apply Hc; lia|apply NoDup_singleton].
  - intros H%list_elem_of_singleton. discriminate H.
Defined.

(** Vertex 1 has a whole list, vertex 5 a block of the list that the database
    holds. *)
Lemma RangeEncode_delete_witness :
  let E := <[5%nat := vec_of_words [0; 1; 3]]> (replicate 21 (vec_of_words [1; 5; 0])) in
  exists E' du' dv' t, RangeEncode_DeletePair small_config (fun _ => [1; 3; 9]) E 1 5 = Some E' /\
    range_coded small_config E' 1 [] du' /\ range_coded small_config E' 5 [3; 9] dv' /\
    (forall w, w <> 1 -> w <> 5 -> zget E' w = zget E w) /\
    RangeEncode_NEpairTest small_config E' 1 5 = Some t /\ t <> Neighbor /\ (true || false = true -> t <> Uncertain).
Proof.
  apply (RangeEncode_delete small_config (fun _ => [1; 3; 9]) _ 1 5 [5] [1; 3; 9] true false).
  - vm_compute. split; discriminate.
  - reflexivity.
  - vm_compute. split; [discriminate|reflexivity].
  - vm_compute. split; discriminate.
  - vm_compute. split; discriminate.
  - discriminate.
  - split; [|split; [by repeat constructor; apply not_elem_of_nil|vm_compute; reflexivity]]. exists (vec_of_words [1; 5; 0]).
    split; [reflexivity|]. split; [split; [apply (bool_decide_unpack _); vm_compute; exact I|reflexivity]|].
    split; [reflexivity|]. exists [5]. split; [by repeat constructor|]. split; [apply (bool_decide_unpack _); vm_compute; exact I|].
    split; [done|reflexivity].
  - split; [|split; [apply (bool_decide_unpack _); vm_compute; exact I|]].
    + exists (vec_of_words [0; 1; 3]). split; [reflexivity|].
      split; [split; [apply (bool_decide_unpack _); vm_compute; exact I|reflexivity]|]. split; [reflexivity|]. exists [], [9].
      split; [apply (bool_decide_unpack _); vm_compute; exact I|]. intros v Hv. reflexivity.
    + split; [apply (bool_decide_unpack _); vm_compute; exact I|]. split; [apply (bool_decide_unpack _); vm_compute; exact I|].
      split; [done|reflexivity].
Defined.

(** * Behaviours worth knowing *)

(** Updates of a vertex whose code has no free word use the value of a function
    that returns none. *)
Example insert_into_full :
  RangeEncode_InsertPair small_config (fun _ => [9; 12]) (replicate 21 (vec_of_words [1; 9; 12])) 4 5 = None.
Proof. vm_compute. reflexivity. Qed.

(** An edge inserted between two vertices whose lists do not fit changes one
    code only: the test of the other denies it. Vertex 10 has the neighbors 1,
    2, 4 and 20, vertex 3 has 1, 19 and 20. *)
Example insert_one_end :
  (E ← RangeEncode_EncodeVertex small_config (replicate 21 (replicate 12 0)) 10 [1; 2; 4; 20];
   E ← RangeEncode_EncodeVertex small_config E 3 [1; 19; 20];
   E ← RangeEncode_InsertPair small_config (fun v => if v =? 10 then [1; 2; 4; 20] else [1; 19; 20]) E 10 3;
   RangeEncode_NEpairTest small_config E 10 3) = Some NonNeighbor.
Proof. vm_compute. reflexivity. Qed.
