(* ===== verification/BFilter.v ===== *)
(** The Bloom filters over edges: [BFilterEncode], [BFilterBitEncode],
    [BBFilterEncode], [CBFilterEncode] and [BFilterIntEncode]
    ([src/include/encode/bfilter/], [src/encode/bfilter/]), and the builders
    [BFilterBitVend] and [BFilterIntVend] ([src/include/vend/bf_bit_vend.h],
    [src/include/vend/bf_int_vend.h]).

    One filter holds the whole graph: the state is its bit vector, or its array
    of counters. The functions hash both ends of an edge; UNDIRECTED is 1. *)
From S2P Require Import Prelude Config BitSet Encode.
From stdpp Require Import options.
Local Open Scope Z_scope.
Set Default Proof Using "Type*".

(** [BFilterEncode::Hash]. *)
Definition BFilterEncode_Hash (hash_size_ key1 key2 hash_param1 hash_param2 : Z) : option Z :=
  umod (u64 (u64 (key1 * hash_param1) + u64 (key2 * hash_param2))) hash_size_.

(** The hash of the function [i]: the parameters are in [HASH_PARAM1] and
    [HASH_PARAM2]. *)
Definition hash_i (hash : Z -> Z -> Z -> Z -> option Z) (edge : Z * Z) (i : Z) : option Z :=
  p1 ← zget HASH_PARAM1 i; p2 ← zget HASH_PARAM2 i; hash edge.1 edge.2 p1 p2.

(** The loops of the tests: NonNeighbor at the first function whose slot is
    empty. *)
Fixpoint NEpairTest_loop (occupied : Z -> option bool) (n : nat) (i : Z) : option PairType :=
  match n with
  | O => Some Uncertain
  | S n => b ← occupied i; if (b : bool) then NEpairTest_loop occupied n (i + 1) else Some NonNeighbor
  end.

(** The loops of the bit filters, over the positions of an edge. *)
Definition set_bits (position : Z -> option Z) (n : nat) (encode_ : list Z) : option (list Z) :=
  for_loop n 0 (fun i d => p ← position i; BitSetSIMD_SetOne d p) encode_.

Definition test_bits (position : Z -> option Z) (n : nat) (encode_ : list Z) : option PairType :=
  NEpairTest_loop (fun i => p ← position i; BitSetSIMD_IsOne encode_ p) n 0.

(** * BFilterBitEncode *)

Section bits.
Context (C : Config).

(** [VERTEX_SIZE * K_SIZE * 32]. *)
Definition bit_hash_size : Z := u64 (u64 (VERTEX_SIZE C * K_SIZE C) * 32).

Definition BFilterBitEncode_new : list Z := BitSetSIMD_new bit_hash_size.

Definition BFilterBitEncode_EdgeSet (encode_ : list Z) (vertex1 vertex2 : Z) : option (list Z) :=
  let edge := ordered_pair vertex1 vertex2 in
  set_bits (hash_i (BFilterEncode_Hash bit_hash_size) edge) (Z.to_nat (BIT_HASH_BEST_NUMS C)) encode_.

Definition BFilterBitEncode_NEpairTest (encode_ : list Z) (vertex1 vertex2 : Z) : option PairType :=
  let edge := ordered_pair vertex1 vertex2 in
  test_bits (hash_i (BFilterEncode_Hash bit_hash_size) edge) (Z.to_nat (BIT_HASH_BEST_NUMS C)) encode_.

Definition BFilterBitEncode_InsertPair : list Z -> Z -> Z -> option (list Z) := BFilterBitEncode_EdgeSet.

Definition BFilterBitEncode_Clear (encode_ : list Z) : list Z := BitSetSIMD_Clear encode_.

(** The file is the list of its words; a missing word leaves [key] as it was. *)
Fixpoint read_words (n : nat) (file : list Z) (key : Z) : list Z :=
  match n with
  | O => []
  | S n => let key := match file with k :: _ => k | [] => key end in key :: read_words n (tail file) key
  end.

Definition BFilterBitEncode_LoadFromDb (encode_ file : list Z) (key : Z) : option (list Z) :=
  BitSetSIMD_BlockSet32 encode_ (read_words (Z.to_nat (bit_hash_size / 32)) file key).

Definition BFilterBitEncode_EncodePersistent (encode_ : list Z) : option (list Z) :=
  hash_key ← BitSetSIMD_Dump encode_;
  mapM (fun i => zget hash_key i) (seqZ 0 (bit_hash_size / 32)).

(** * BBFilterEncode: the bits of an edge are in one block *)

Definition BBFilterEncode_BlockHash (key1 key2 : Z) : option Z :=
  umod (u64 (u64 (key1 * 19692027) + u64 (key2 * 3201251))) (BLOCK_NUMS C).

Definition BBFilterEncode_Hash : Z -> Z -> Z -> Z -> option Z := BFilterEncode_Hash (BLOCK_SIZE C).

Definition BBFilterEncode_EdgeSet (encode_ : list Z) (vertex1 vertex2 : Z) : option (list Z) :=
  let edge := ordered_pair vertex1 vertex2 in
  b ← BBFilterEncode_BlockHash edge.1 edge.2;
  let block_offset := u64 (b * BLOCK_SIZE C) in
  set_bits (fun i => h ← hash_i BBFilterEncode_Hash edge i; Some (u64 (block_offset + h)))
    (Z.to_nat (BIT_HASH_BEST_NUMS C)) encode_.

Definition BBFilterEncode_NEpairTest (encode_ : list Z) (vertex1 vertex2 : Z) : option PairType :=
  let edge := ordered_pair vertex1 vertex2 in
  b ← BBFilterEncode_BlockHash edge.1 edge.2;
  let block_offset := u64 (b * BLOCK_SIZE C) in
  test_bits (fun i => h ← hash_i BBFilterEncode_Hash edge i; Some (u64 (block_offset + h)))
    (Z.to_nat (BIT_HASH_BEST_NUMS C)) encode_.

Definition BBFilterEncode_InsertPair : list Z -> Z -> Z -> option (list Z) := BBFilterEncode_EdgeSet.

(** * CBFilterEncode: counters of ELEMENT_SIZE bits *)

Definition element_nums_ : option Z := udiv bit_hash_size (ELEMENT_SIZE C).

Definition CBFilterEncode_Hash (key1 key2 hash_param1 hash_param2 : Z) : option Z :=
  nums ← element_nums_;
  h ← BFilterEncode_Hash nums key1 key2 hash_param1 hash_param2;
  Some (u64 (h * ELEMENT_SIZE C)).

Definition CBFilterEncode_EdgeSet (encode_ : list Z) (vertex1 vertex2 : Z) : option (list Z) :=
  let edge := ordered_pair vertex1 vertex2 in
  for_loop (Z.to_nat (COUNT_HASH_BEST_NUMS C)) 0
    (fun i d =>
       hash_val ← hash_i CBFilterEncode_Hash edge i;
       count ← BitSetSIMD_BlockGet d hash_val (ELEMENT_SIZE C);
       BitSetSIMD_BlockSet d hash_val (ELEMENT_SIZE C) (u32 (count + 1))) encode_.

Definition CBFilterEncode_NEpairTest (encode_ : list Z) (vertex1 vertex2 : Z) : option PairType :=
  let edge := ordered_pair vertex1 vertex2 in
  NEpairTest_loop
    (fun i =>
       hash_val ← hash_i CBFilterEncode_Hash edge i;
       count ← BitSetSIMD_BlockGet encode_ hash_val (ELEMENT_SIZE C);
       Some (negb (count =? 0)))
    (Z.to_nat (COUNT_HASH_BEST_NUMS C)) 0.

Definition CBFilterEncode_InsertPair : list Z -> Z -> Z -> option (list Z) := CBFilterEncode_EdgeSet.

Definition CBFilterEncode_IsDeletable (vertex1 vertex2 : Z) : bool := true.

Definition CBFilterEncode_DeletePair (encode_ : list Z) (vertex1 vertex2 : Z) : option (list Z) :=
  let edge := ordered_pair vertex1 vertex2 in
  for_loop (Z.to_nat (COUNT_HASH_BEST_NUMS C)) 0
    (fun i d =>
       hash_val ← hash_i CBFilterEncode_Hash edge i;
       count ← BitSetSIMD_BlockGet d hash_val (ELEMENT_SIZE C);
       BitSetSIMD_BlockSet d hash_val (ELEMENT_SIZE C) (u32 (count - 1))) encode_.

(** * BFilterIntEncode: an array of 32-bit counters *)

Definition int_hash_size : Z := u64 (VERTEX_SIZE C * K_SIZE C).

Definition BFilterIntEncode_new : list Z := replicate (Z.to_nat int_hash_size) 0.

Definition BFilterIntEncode_NEpairTest (encode_ : list Z) (vertex1 vertex2 : Z) : option PairType :=
  let edge := ordered_pair vertex1 vertex2 in
  NEpairTest_loop
    (fun i => h ← hash_i (BFilterEncode_Hash int_hash_size) edge i; count ← zget encode_ h; Some (negb (count =? 0)))
    (Z.to_nat (INT_HASH_BEST_NUMS C)) 0.

Definition BFilterIntEncode_EdgeSet (encode_ : list Z) (vertex1 vertex2 : Z) : option (list Z) :=
  let edge := ordered_pair vertex1 vertex2 in
  for_loop (Z.to_nat (INT_HASH_BEST_NUMS C)) 0
    (fun i d =>
       h ← hash_i (BFilterEncode_Hash int_hash_size) edge i;
       count ← zget d h;
       zset d h (u32 (count + 1))) encode_.

Definition BFilterIntEncode_InsertPair : list Z -> Z -> Z -> option (list Z) := BFilterIntEncode_EdgeSet.

(** [DeletePair] keeps the hash in a [uint32_t]. *)
Definition BFilterIntEncode_DeletePair (encode_ : list Z) (vertex1 vertex2 : Z) : option (list Z) :=
  let edge := ordered_pair vertex1 vertex2 in
  for_loop (Z.to_nat (INT_HASH_BEST_NUMS C)) 0
    (fun i d =>
       h ← hash_i (BFilterEncode_Hash int_hash_size) edge i;
       let hash_val := u32 h in
       count ← zget d hash_val;
       if 0 <? count then zset d hash_val (u32 (count - 1)) else Some d) encode_.

Definition BFilterIntEncode_LoadFromDb (encode_ file : list Z) : option (list Z) :=
  for_loop (Z.to_nat int_hash_size) 0
    (fun i d => match zget file i with Some v => zset d i v | None => Some d end) encode_.

Definition BFilterIntEncode_EncodePersistent (encode_ : list Z) : option (list Z) :=
  mapM (fun i => zget encode_ i) (seqZ 0 int_hash_size).

(** * The builders *)

(** The edges that [BuildEncoding] sets: those whose first end is the smaller,
    over the lists of the vertices 1, 2, ... or over the rows of the database. *)
Definition build_row (EdgeSet : list Z -> Z -> Z -> option (list Z)) (vertex1 : Z) (neighbors : list Z)
    (encode_ : list Z) : option (list Z) :=
  foldM (fun vertex2 d => if vertex1 <? vertex2 then EdgeSet d vertex1 vertex2 else Some d) neighbors encode_.

Definition BFilterVend_BuildEncoding (EdgeSet : list Z -> Z -> Z -> option (list Z))
    (adjacency_list_ : option (list (list Z))) (data_db_ : list (Z * list Z)) (encode_ : list Z) : option (list Z) :=
  match adjacency_list_ with
  | Some adj =>
      for_loop (Z.to_nat (Z.of_nat (length adj) - 1)) 1
        (fun vertex1 d => list ← zget adj vertex1; build_row EdgeSet vertex1 list d) encode_
  | None => foldM (fun row d => build_row EdgeSet row.1 row.2 d) data_db_ encode_
  end.

(** The filter of [BFilterBitVend]: the constructor's [type] argument. *)
Definition BFilterBitVend_EdgeSet (type : Z) : list Z -> Z -> Z -> option (list Z) :=
  if type =? 0 then BFilterBitEncode_EdgeSet else if type =? 1 then CBFilterEncode_EdgeSet else BBFilterEncode_EdgeSet.

Definition BFilterBitVend_Determine (type : Z) : list Z -> Z -> Z -> option PairType :=
  if type =? 0 then BFilterBitEncode_NEpairTest
  else if type =? 1 then CBFilterEncode_NEpairTest else BBFilterEncode_NEpairTest.

(** [LoadDbData]: the adjacency lists are overwritten from the database. *)
Definition Vend_LoadDbData (adj : list (list Z)) (data_db_ : list (Z * list Z)) : option (list (list Z)) :=
  foldM (fun row adj => zset adj row.1 row.2)
    data_db_ (take (Z.to_nat (VERTEX_SIZE C + 1)) adj ++
              replicate (Z.to_nat (VERTEX_SIZE C + 1) - length adj) []).

(** [BFilterBitVend::Delete]: the counting filter deletes, the others are built
    again from the database, which is read into the lists. A null adjacency list
    is dereferenced. *)
Definition BFilterBitVend_Delete (type : Z) (adjacency_list_ : option (list (list Z))) (data_db_ : list (Z * list Z))
    (encode_ : list Z) (vertex1 vertex2 : Z) : option (list Z * option (list (list Z))) :=
  if type =? 1 then encode_ ← CBFilterEncode_DeletePair encode_ vertex1 vertex2; Some (encode_, adjacency_list_)
  else
    adj ← adjacency_list_;
    adj ← Vend_LoadDbData adj data_db_;
    encode_ ← BFilterVend_BuildEncoding (BFilterBitVend_EdgeSet type) (Some adj) data_db_ (BFilterBitEncode_Clear encode_);
    Some (encode_, Some adj).

End bits.

(** * The edges that a builder sets *)

Definition forward (u : Z) (N : list Z) : list (Z * Z) := map (pair u) (filter (fun v => u < v) N).

(** Those of the lists of the vertices 1, ..., [m], and of the rows of a
    database. *)
Definition forward_edges (adj : list (list Z)) (m : Z) : list (Z * Z) :=
  flat_map (fun u => forward u (default [] (zget adj u))) (seqZ 1 m).
Definition row_edges (rows : list (Z * list Z)) : list (Z * Z) := flat_map (fun row => forward row.1 row.2) rows.

Lemma elem_forward u N a b : (a, b) ∈ forward u N <-> a = u /\ u < b /\ b ∈ N.
Proof.
  unfold forward. rewrite list_elem_of_fmap. split.
  - intros (y & [= -> ->] & Hy%list_elem_of_filter). tauto.
  - intros (-> & Hlt & Hb). exists b. split; [done|]. by apply list_elem_of_filter.
Qed.

Lemma elem_forward_edges adj m a b :
  (a, b) ∈ forward_edges adj m <-> 1 <= a <= m /\ a < b /\ b ∈ default [] (zget adj a).
Proof.
  unfold forward_edges. rewrite list_elem_of_In, in_flat_map. split.
  - intros (x & Hx%list_elem_of_In%elem_of_seqZ & Hin%list_elem_of_In%elem_forward). destruct Hin as (-> & Hlt & Hb). split; [lia|done].
  - intros (Ha & Hlt & Hb). exists a. split; [apply list_elem_of_In, elem_of_seqZ; lia|]. by apply list_elem_of_In, elem_forward.
Qed.

(** The builder sets them one after the other. *)
Section builder.
Context (EdgeSet : list Z -> Z -> Z -> option (list Z)).
Notation set_all := (foldM (fun e d => EdgeSet d e.1 e.2)).

Lemma build_row_edges u N d : build_row EdgeSet u N d = set_all (forward u N) d.
Proof.
  unfold build_row, forward. revert d. induction N as [|v N IH]; intros d; [done|]. cbn [foldM]. destruct (Z.ltb_spec u v).
  - rewrite filter_cons_True by done. cbn [map foldM fst snd]. destruct (EdgeSet d u v) as [d'|]; [apply IH|done].
  - rewrite filter_cons_False by lia. apply IH.
Qed.

Lemma build_lists adj db d :
  BFilterVend_BuildEncoding EdgeSet (Some adj) db d = set_all (forward_edges adj (Z.of_nat (length adj) - 1)) d.
Proof.
  unfold BFilterVend_BuildEncoding, forward_edges. rewrite for_loop_foldM, foldM_flat_map.
  destruct adj as [|N0 adj]; [done|]. rewrite Z2Nat.id by (cbn [length]; lia).
  apply foldM_ext. intros u d' Hu%elem_of_seqZ. destruct (zget_is_Some (N0 :: adj) u) as [N EN]; [lia|]. rewrite EN. apply build_row_edges.
Qed.

Lemma build_db rows d : BFilterVend_BuildEncoding EdgeSet None rows d = set_all (row_edges rows) d.
Proof.
  unfold BFilterVend_BuildEncoding, row_edges. rewrite foldM_flat_map. apply foldM_ext. intros [u N] d' _. apply build_row_edges.
Qed.

(** What every insertion of an edge keeps, the builder establishes. *)
Lemma set_all_ok (holds : list (Z * Z) -> list Z -> Prop) edges d :
  (forall M d e, (exists post, edges = rev M ++ e :: post) -> holds M d -> exists d', EdgeSet d e.1 e.2 = Some d' /\ holds (e :: M) d') ->
  holds [] d -> exists d', set_all edges d = Some d' /\ holds (rev edges) d'.
Proof.
  intros Hset H0. apply (foldM_inv (fun pre d' => holds (rev pre) d')); [done|]. intros pre e post d1 E H1.
  destruct (Hset (rev pre) d1 e) as (d2 & E2 & H2); [by exists post; rewrite rev_involutive|done|].
  exists d2. split; [done|]. by rewrite rev_app_distr.
Qed.
End builder.

(** * The bit filters *)

Section positions.
Context (position : Z -> option Z) (n : nat) (size : Z).
Context (Hpos : forall i, 0 <= i < Z.of_nat n -> exists h, position i = Some h /\ 0 <= h < size).

(** The bits of the functions that come before [m]. *)
Definition marks (m q : Z) : Prop := exists i, 0 <= i < m /\ position i = Some q.

Lemma set_bits_exact d :
  bytes_ok d -> nbits d = size ->
  exists d', set_bits position n d = Some d' /\ bytes_ok d' /\ nbits d' = size /\
    forall q, 0 <= q -> bit_at d' q = true <-> marks (Z.of_nat n) q \/ bit_at d q = true.
Proof.
  intros Hd Hs. unfold set_bits.
  apply (for_loop_inv (fun i d' => bytes_ok d' /\ nbits d' = size /\ forall q, 0 <= q -> bit_at d' q = true <-> marks i q \/ bit_at d q = true)).
  - split; [done|]. split; [done|]. intros q _. split; [by right|]. intros [(i & Hi & _)|]; [lia|done].
  - intros i d1 Hi (Hd1 & Hs1 & Hb1). destruct (Hpos i ltac:(lia)) as (h & Eh & Hh). rewrite Eh. bind_step.
    destruct (BitSetSIMD_SetOne_spec d1 h Hd1 ltac:(lia)) as (d2 & E2 & Hrw). exists d2. split; [done|].
    pose proof (rewrites_nbits _ _ _ Hrw). destruct Hrw as (Hd2 & _ & Hb2). split; [done|]. split; [lia|]. intros q Hq.
    rewrite Hb2, orb_true_iff, Z.eqb_eq, Hb1 by done. unfold marks. split.
    + intros [->|[(j & Hj & Ej)|Hq1]]; [left; exists i; split; [lia|done]|left; exists j; split; [lia|done]|by right].
    + intros [(j & Hj & Ej)|Hq1]; [|by right; right]. destruct (decide (j = i)) as [->|]; [left; congruence|].
      right. left. exists j. split; [lia|done].
Qed.

Lemma test_bits_exact d :
  bytes_ok d -> nbits d = size ->
  exists t, test_bits position n d = Some t /\ t <> Neighbor /\
    (t = Uncertain <-> forall q, marks (Z.of_nat n) q -> bit_at d q = true).
Proof.
  intros Hd Hs. unfold test_bits.
  cut (forall m i, 0 <= i -> i + Z.of_nat m = Z.of_nat n ->
    exists t, NEpairTest_loop (fun i => p ← position i; BitSetSIMD_IsOne d p) m i = Some t /\ t <> Neighbor /\
      (t = Uncertain <-> forall j q, i <= j < Z.of_nat n -> position j = Some q -> bit_at d q = true)).
  { intros H. destruct (H n 0) as (t & Et & Hn & Ht); [lia..|]. exists t. split; [done|]. split; [done|]. rewrite Ht. unfold marks.
    split; [intros Hall q (j & Hj & Ej); by apply (Hall j)|]. intros Hall j q Hj Ej. apply Hall. by exists j. }
  induction m as [|m IH]; intros i Hi Hm; cbn [NEpairTest_loop]; [exists Uncertain; split; [done|]; split; [done|]; split; [lia|done]|].
  destruct (Hpos i ltac:(lia)) as (h & Eh & Hh). rewrite Eh. bind_step. rewrite BitSetSIMD_IsOne_spec by (done || lia). bind_step.
  destruct (bit_at d h) eqn:Ebit.
  - destruct (IH (i + 1)) as (t & Et & Hn & Ht); [lia..|]. exists t. split; [done|]. split; [done|]. rewrite Ht. split.
    + intros Hall j q Hj Ej. destruct (decide (j = i)) as [->|]; [congruence|]. apply (Hall j q); [lia|done].
    + intros Hall j q Hj. apply Hall. lia.
  - exists NonNeighbor. split; [done|]. split; [done|]. split; [done|]. intros Hall. by rewrite (Hall i h) in Ebit by (done || lia).
Qed.
End positions.

Lemma hash_params i : 0 <= i < 60 -> exists p1 p2, zget HASH_PARAM1 i = Some p1 /\ zget HASH_PARAM2 i = Some p2.
Proof.
  intros Hi. destruct (zget_is_Some HASH_PARAM1 i Hi) as [p1 H1]. destruct (zget_is_Some HASH_PARAM2 i Hi) as [p2 H2].
  eauto.
Qed.

Lemma hash_i_range size e i :
  0 < size -> 0 <= i < 60 -> exists h, hash_i (BFilterEncode_Hash size) e i = Some h /\ 0 <= h < size.
Proof.
  intros Hs Hi. destruct (hash_params i Hi) as (p1 & p2 & E1 & E2). unfold hash_i. rewrite E1, E2. bind_step.
  unfold BFilterEncode_Hash, umod. rewrite (proj2 (Z.eqb_neq size 0)) by lia. eexists. split; [done|].
  by apply Z.mod_pos_bound.
Qed.

Definition bits_ok (C : Config) (d : list Z) : Prop := bytes_ok d /\ nbits d = bit_hash_size C.

Section bit_filters.
Context (C : Config) (type : Z).
Context (Hsize : 0 < bit_hash_size C < 2 ^ 56) (Hn : 0 <= BIT_HASH_BEST_NUMS C <= 60).
Context (Hblocks : 0 < BLOCK_SIZE C /\ 0 < BLOCK_NUMS C /\ BLOCK_NUMS C * BLOCK_SIZE C <= bit_hash_size C) (Htype : type <> 1).
Notation n := (BIT_HASH_BEST_NUMS C).

(** The position of the function [i] for an edge, in the plain and in the blocked
    filter. *)
Definition bit_position (e : Z * Z) (i : Z) : option Z :=
  if type =? 0 then hash_i (BFilterEncode_Hash (bit_hash_size C)) e i
  else b ← BBFilterEncode_BlockHash C e.1 e.2; h ← hash_i (BBFilterEncode_Hash C) e i; Some (u64 (u64 (b * BLOCK_SIZE C) + h)).

Lemma bit_position_ok e i : 0 <= i < Z.of_nat (Z.to_nat n) -> exists h, bit_position e i = Some h /\ 0 <= h < bit_hash_size C.
Proof.
  intros Hi. unfold bit_position. destruct (type =? 0); [apply hash_i_range; lia|].
  unfold BBFilterEncode_BlockHash, umod. rewrite (proj2 (Z.eqb_neq (BLOCK_NUMS C) 0)) by lia. bind_step. set (b := _ mod BLOCK_NUMS C).
  assert (0 <= b < BLOCK_NUMS C) by (apply Z.mod_pos_bound; lia).
  destruct (hash_i_range (BLOCK_SIZE C) e i ltac:(lia) ltac:(lia)) as (h & Eh & Hh). unfold BBFilterEncode_Hash. rewrite Eh. bind_step.
  eexists. split; [done|]. assert (b * BLOCK_SIZE C + h < BLOCK_NUMS C * BLOCK_SIZE C) by nia.
  rewrite (u64_small (b * BLOCK_SIZE C)), u64_small; nia.
Qed.

Lemma bit_operations d u v :
  BFilterBitVend_EdgeSet C type d u v = set_bits (bit_position (ordered_pair u v)) (Z.to_nat n) d /\
  BFilterBitVend_Determine C type d u v = test_bits (bit_position (ordered_pair u v)) (Z.to_nat n) d.
Proof.
  unfold BFilterBitVend_EdgeSet, BFilterBitVend_Determine, bit_position. rewrite (proj2 (Z.eqb_neq type 1)) by done.
  destruct (type =? 0); [done|]. unfold BBFilterEncode_EdgeSet, BBFilterEncode_NEpairTest.
  unfold BBFilterEncode_BlockHash, umod. rewrite (proj2 (Z.eqb_neq (BLOCK_NUMS C) 0)) by lia. bind_step. by bind_step.
Qed.

(** The bits of the filter are those of the edges in [M], and no others. *)
Definition bits_of (M : list (Z * Z)) (d : list Z) : Prop :=
  bits_ok C d /\ forall q, 0 <= q -> bit_at d q = true <-> exists e, e ∈ M /\ marks (bit_position e) n q.

(** The pairs that cannot be told from the edges in [M]. *)
Definition covered (M : list (Z * Z)) (e : Z * Z) : Prop :=
  forall q, marks (bit_position e) n q -> exists e', e' ∈ M /\ marks (bit_position e') n q.

Lemma covered_stored M e : e ∈ M -> covered M e.
Proof using Type. intros He q Hq. by exists e. Qed.

Lemma bits_same M M' d : (forall e, e ∈ M <-> e ∈ M') -> bits_of M d -> bits_of M' d.
Proof using Type. intros HM [Hd Hb]. split; [done|]. intros q Hq. rewrite Hb by done. by setoid_rewrite HM. Qed.

Lemma bits_set M d u v :
  bits_of M d -> exists d', BFilterBitVend_EdgeSet C type d u v = Some d' /\ bits_of (ordered_pair u v :: M) d'.
Proof.
  intros [[Hd Hs] Hb]. rewrite (proj1 (bit_operations d u v)).
  destruct (set_bits_exact _ _ _ (bit_position_ok (ordered_pair u v)) d Hd Hs) as (d' & -> & Hd' & Hs' & Hb'). exists d'. split; [done|].
  split; [done|]. intros q Hq. rewrite Hb', Hb, Z2Nat.id by lia. setoid_rewrite elem_of_cons. split.
  - intros [Hm|(e & He & Hm)]; eauto.
  - intros (e & [->|He] & Hm); eauto.
Qed.

Lemma bits_test M d u v :
  bits_of M d -> exists t, BFilterBitVend_Determine C type d u v = Some t /\ BFilterBitVend_Determine C type d v u = Some t /\
    t <> Neighbor /\ (t = Uncertain <-> covered M (ordered_pair u v)).
Proof.
  intros [[Hd Hs] Hb]. rewrite (proj2 (bit_operations d u v)), (proj2 (bit_operations d v u)), (ordered_pair_swap v u).
  destruct (test_bits_exact _ _ _ (bit_position_ok (ordered_pair u v)) d Hd Hs) as (t & -> & Hnn & Ht). exists t.
  split; [done|]. split; [done|]. split; [done|]. rewrite Ht, Z2Nat.id by lia. unfold covered.
  assert (forall q, marks (bit_position (ordered_pair u v)) n q -> 0 <= q) as Hq.
  { intros q (i & Hi & Ei). destruct (bit_position_ok (ordered_pair u v) i) as (h & Eh & Hh); [lia|]. rewrite Ei in Eh. injection Eh as ->. lia. }
  split; intros Hall q Hm; [by apply Hb, Hall; [apply Hq|]|]. apply Hb; [by apply Hq|]. by apply Hall.
Qed.

(** The builder, from lists and from rows. *)
Lemma bits_edges edges d :
  (forall e, e ∈ edges -> e.1 < e.2) -> bits_of [] d ->
  exists d', foldM (fun e d => BFilterBitVend_EdgeSet C type d e.1 e.2) edges d = Some d' /\ bits_of edges d'.
Proof.
  intros Hlt H0. destruct (set_all_ok (BFilterBitVend_EdgeSet C type) bits_of edges d) as (d' & E & Hd'); [|done|].
  - intros M d1 [u v] (post & E) H1. destruct (bits_set M d1 u v H1) as (d2 & E2 & H2). exists d2. split; [done|].
    pose proof (Hlt (u, v) ltac:(rewrite E; set_solver)) as Huv. cbn [fst snd] in Huv.
    unfold ordered_pair in H2. by rewrite (proj2 (Z.ltb_ge v u)) in H2 by lia.
  - exists d'. split; [done|]. eapply bits_same; [|exact Hd']. intros e. by rewrite !list_elem_of_In, <- in_rev.
Qed.

Lemma bits_build adj db d :
  bits_of [] d ->
  exists d', BFilterVend_BuildEncoding (BFilterBitVend_EdgeSet C type) (Some adj) db d = Some d' /\
    bits_of (forward_edges adj (Z.of_nat (length adj) - 1)) d'.
Proof. intros H0. rewrite build_lists. apply bits_edges; [|done]. intros [a b] (_ & Hlt & _)%elem_forward_edges. done. Qed.

Lemma bits_build_rows rows d :
  bits_of [] d ->
  exists d', BFilterVend_BuildEncoding (BFilterBitVend_EdgeSet C type) None rows d = Some d' /\ bits_of (row_edges rows) d'.
Proof.
  intros H0. rewrite build_db. apply bits_edges; [|done]. intros [a b] Hin. unfold row_edges in Hin.
  apply list_elem_of_In, in_flat_map in Hin as ([u N] & _ & Hin%list_elem_of_In%elem_forward). cbn [fst snd] in *. lia.
Qed.
End bit_filters.

Lemma new_filter_bits C : 0 < bit_hash_size C < 2 ^ 56 -> bit_hash_size C mod 8 = 0 -> bits_ok C (BFilterBitEncode_new C).
Proof.
  intros Hsize H8. unfold BFilterBitEncode_new, BitSetSIMD_new. pose proof (Z.div_mod (bit_hash_size C) 8 ltac:(lia)).
  split; [apply bytes_ok_zero; lia|]. unfold nbits. rewrite length_replicate. lia.
Qed.

Lemma no_bits C type d : bits_ok C d -> (forall q, 0 <= q -> bit_at d q = false) -> bits_of C type [] d.
Proof. intros Hd Hz. split; [done|]. intros q Hq. rewrite Hz by done. split; [done|]. by intros (e & []%not_elem_of_nil & _). Qed.

Lemma new_bits C type : 0 < bit_hash_size C < 2 ^ 56 -> bit_hash_size C mod 8 = 0 -> bits_of C type [] (BFilterBitEncode_new C).
Proof. intros Hsize H8. apply no_bits; [by apply new_filter_bits|]. intros q _. apply bit_at_zero. Qed.

Lemma cleared_bits C type d : bits_ok C d -> bits_of C type [] (BFilterBitEncode_Clear d).
Proof.
  intros [Hd Hs]. unfold BFilterBitEncode_Clear. pose proof (BitSetSIMD_Clear_spec d Hd) as Hc.
  apply no_bits; [|intros q Hq; by apply Hc]. split; [apply Hc|]. by rewrite (rewrites_nbits _ _ _ Hc).
Qed.

(** ** The counting filter of integers *)

Section counters.
Context (C : Config) (Hsize : 0 < int_hash_size C < 2 ^ 32) (Hn : 0 <= INT_HASH_BEST_NUMS C <= 60).
Notation size := (int_hash_size C).
Notation n := (INT_HASH_BEST_NUMS C).

Definition int_slot (e : Z * Z) (i : Z) : Z := default 0 (hash_i (BFilterEncode_Hash size) e i).

Lemma int_slot_ok e i : 0 <= i < n -> hash_i (BFilterEncode_Hash size) e i = Some (int_slot e i) /\ 0 <= int_slot e i < size.
Proof.
  intros Hi. destruct (hash_i_range size e i ltac:(lia) ltac:(lia)) as (h & Eh & Hh). unfold int_slot. by rewrite Eh.
Qed.

(** How many of the first [m] functions take [e] to the slot [h]. *)
Definition hits_upto (m : Z) (e : Z * Z) (h : Z) : Z :=
  Z.of_nat (length (filter (fun i => int_slot e i = h) (seqZ 0 m))).
Definition hits : Z * Z -> Z -> Z := hits_upto n.

(** The sum over the edges of the filter. *)
Definition total (M : list (Z * Z)) (h : Z) : Z := foldr (fun e t => hits e h + t) 0 M.

Definition counts (M : list (Z * Z)) (d : list Z) : Prop :=
  Z.of_nat (length d) = size /\ forall h, 0 <= h < size -> zget d h = Some (total M h).

Lemma hits_upto_succ m e h :
  0 <= m -> hits_upto (m + 1) e h = hits_upto m e h + (if decide (int_slot e m = h) then 1 else 0).
Proof using Type.
  intros Hm. unfold hits_upto. rewrite seqZ_app, filter_app, length_app by lia. change (seqZ (0 + m) 1) with [0 + m].
  rewrite Z.add_0_l. case_decide; [rewrite filter_cons_True by done|rewrite filter_cons_False by done]; simpl; lia.
Qed.

Lemma hits_upto_bound m e h : 0 <= m -> 0 <= hits_upto m e h <= m.
Proof using Type.
  intros Hm. unfold hits_upto. pose proof (length_filter (fun i => int_slot e i = h) (seqZ 0 m)) as Hl.
  rewrite length_seqZ in Hl. lia.
Qed.

Lemma total_bound M h : 0 <= total M h <= n * Z.of_nat (length M).
Proof.
  induction M as [|e M IH]; [simpl; lia|]. cbn [total foldr length]. change (foldr _ 0 M) with (total M h).
  pose proof (hits_upto_bound n e h ltac:(lia)). unfold hits. lia.
Qed.

Lemma total_app M1 M2 h : total (M1 ++ M2) h = total M1 h + total M2 h.
Proof using Type. induction M1 as [|e M1 IH]; simpl; [done|]. change (foldr _ 0 ?l) with (total l h). lia. Qed.

(** The loop that adds [s] for every function. *)
Lemma counter_loop (step : Z -> list Z -> option (list Z)) (s : Z) e d :
  Z.of_nat (length d) = size -> (s = 1 \/ s = -1) ->
  (forall h, 0 <= h < size -> exists c, zget d h = Some c /\ 0 <= c /\ (s = -1 -> hits e h <= c) /\ (s = 1 -> c + n < 2 ^ 32)) ->
  (forall i d c, 0 <= i < n -> zget d (int_slot e i) = Some c -> (s = -1 -> 0 < c) -> 0 <= c + s < 2 ^ 32 ->
     step i d = zset d (int_slot e i) (c + s)) ->
  (forall h c, 0 <= h < size -> zget d h = Some c -> c < 2 ^ 32) ->
  exists d', for_loop (Z.to_nat n) 0 step d = Some d' /\ Z.of_nat (length d') = size /\
    forall h c, 0 <= h < size -> zget d h = Some c -> zget d' h = Some (c + s * hits e h).
Proof.
  intros Hl Hs Hd Hstep Hlt.
  destruct (for_loop_inv (fun i d' => Z.of_nat (length d') = size /\
      forall h c, 0 <= h < size -> zget d h = Some c -> zget d' h = Some (c + s * hits_upto i e h))
    step (Z.to_nat n) 0 d) as (d' & -> & Hl' & Hd').
  - split; [done|]. intros h c Hh ->. change (hits_upto 0 e h) with 0. f_equal. lia.
  - intros i d1 Hi [Hl1 Hd1]. destruct (int_slot_ok e i ltac:(lia)) as [_ Hb].
    destruct (Hd (int_slot e i) Hb) as (c & Ec & Hc0 & Hdel & Hins). pose proof (Hlt _ _ Hb Ec) as Hc32.
    pose proof (hits_upto_bound i e (int_slot e i) ltac:(lia)) as Hb1.
    assert (hits_upto (i + 1) e (int_slot e i) <= hits e (int_slot e i)) as Hmono.
    { unfold hits, hits_upto. replace n with (i + 1 + (n - (i + 1))) by lia.
      rewrite (seqZ_app 0 (i + 1)), filter_app, length_app by lia. lia. }
    rewrite hits_upto_succ, decide_True in Hmono by (done || lia).
    rewrite (Hstep i d1 (c + s * hits_upto i e (int_slot e i)) ltac:(lia) (Hd1 _ _ Hb Ec)); [|lia|lia].
    rewrite zset_Some by lia. eexists. split; [done|]. split; [by rewrite length_insert|].
    intros h c' Hh Ec'. rewrite hits_upto_succ by lia.
    rewrite (zget_zset d1 (int_slot e i) h _ _ (zset_Some d1 (int_slot e i) (c + s * hits_upto i e (int_slot e i) + s) ltac:(lia))).
    destruct (Z.eqb_spec h (int_slot e i)) as [->|Hne].
    + rewrite decide_True by done. rewrite Ec in Ec'. injection Ec' as <-. f_equal. lia.
    + rewrite decide_False by congruence. rewrite (Hd1 h c' Hh Ec'). f_equal. lia.
  - exists d'. split; [done|]. split; [done|]. intros h c Hh Ec. rewrite (Hd' h c Hh Ec). unfold hits.
    by rewrite Z.add_0_l, Z2Nat.id by lia.
Qed.

Lemma int_insert M d u v :
  counts M d -> n * Z.of_nat (S (length M)) < 2 ^ 32 ->
  exists d', BFilterIntEncode_InsertPair C d u v = Some d' /\ counts (ordered_pair u v :: M) d'.
Proof.
  intros [Hl Hd] Hfit. unfold BFilterIntEncode_InsertPair, BFilterIntEncode_EdgeSet.
  assert (forall h, total M h <= n * Z.of_nat (length M)) as Hb by (intros; apply total_bound).
  destruct (counter_loop (fun i d => h ← hash_i (BFilterEncode_Hash size) (ordered_pair u v) i; count ← zget d h;
      zset d h (u32 (count + 1))) 1 (ordered_pair u v) d) as (d' & -> & Hl' & Hd'); [done|lia| | | |].
  - intros h Hh. exists (total M h). specialize (Hb h). pose proof (total_bound M h). repeat split; [auto|lia..].
  - intros i d0 c Hi Ec _ Hc. destruct (int_slot_ok (ordered_pair u v) i Hi) as [-> _]. bind_step. rewrite Ec. bind_step.
    by rewrite u32_small by lia.
  - intros h c Hh. rewrite Hd by done. intros [= <-]. specialize (Hb h). lia.
  - exists d'. split; [done|]. split; [done|]. intros h Hh. rewrite (Hd' h _ Hh (Hd h Hh)). cbn [total foldr].
    change (foldr _ 0 M) with (total M h). f_equal. lia.
Qed.

Lemma int_delete M1 M2 d u v :
  counts (M1 ++ ordered_pair u v :: M2) d -> n * Z.of_nat (length (M1 ++ ordered_pair u v :: M2)) < 2 ^ 32 ->
  exists d', BFilterIntEncode_DeletePair C d u v = Some d' /\ counts (M1 ++ M2) d'.
Proof.
  intros [Hl Hd] Hfit. unfold BFilterIntEncode_DeletePair.
  assert (forall h, total (M1 ++ ordered_pair u v :: M2) h = total (M1 ++ M2) h + hits (ordered_pair u v) h) as Ht.
  { intros h. rewrite !total_app. cbn [total foldr]. change (foldr _ 0 M2) with (total M2 h). lia. }
  destruct (counter_loop (fun i d => h ← hash_i (BFilterEncode_Hash size) (ordered_pair u v) i;
      count ← zget d (u32 h); if 0 <? count then zset d (u32 h) (u32 (count - 1)) else Some d) (-1) (ordered_pair u v) d)
    as (d' & E & Hl' & Hd'); [done|lia| | | |].
  - intros h Hh. eexists. split; [by apply Hd|]. rewrite Ht. pose proof (total_bound (M1 ++ M2) h).
    pose proof (hits_upto_bound n (ordered_pair u v) h ltac:(lia)). unfold hits. lia.
  - intros i d0 c Hi Ec Hpos Hc. destruct (int_slot_ok (ordered_pair u v) i Hi) as [-> Hb]. bind_step.
    rewrite u32_small by lia. rewrite Ec. bind_step. rewrite (proj2 (Z.ltb_lt 0 c)) by lia. by rewrite u32_small by lia.
  - intros h c Hh. rewrite Hd by done. intros [= <-]. pose proof (total_bound (M1 ++ ordered_pair u v :: M2) h). lia.
  - cbv zeta. rewrite E. exists d'. split; [done|]. split; [done|]. intros h Hh. rewrite (Hd' h _ Hh (Hd h Hh)), Ht. f_equal. lia.
Qed.

Lemma int_test M d u v :
  counts M d -> exists t, BFilterIntEncode_NEpairTest C d u v = Some t /\ t <> Neighbor /\
    (ordered_pair u v ∈ M -> t = Uncertain).
Proof.
  intros [Hl Hd]. unfold BFilterIntEncode_NEpairTest.
  cut (forall m i, 0 <= i -> i + Z.of_nat m <= n ->
    exists t, NEpairTest_loop (fun i => h ← hash_i (BFilterEncode_Hash size) (ordered_pair u v) i; count ← zget d h;
      Some (negb (count =? 0))) m i = Some t /\ t <> Neighbor /\ (ordered_pair u v ∈ M -> t = Uncertain)).
  { intros H. apply (H (Z.to_nat n) 0); lia. }
  induction m as [|m IH]; intros i Hi Hm; cbn [NEpairTest_loop]; [by exists Uncertain|].
  destruct (int_slot_ok (ordered_pair u v) i ltac:(lia)) as [-> Hb]. bind_step. rewrite Hd by done. bind_step.
  destruct (Z.eqb_spec (total M (int_slot (ordered_pair u v) i)) 0) as [E0|]; cbn [negb]; [|apply IH; lia].
  exists NonNeighbor. split; [done|]. split; [done|]. intros (M1 & M2 & ->)%list_elem_of_split. exfalso.
  rewrite total_app in E0. cbn [total foldr] in E0. change (foldr _ 0 M2) with (total M2 (int_slot (ordered_pair u v) i)) in E0.
  pose proof (total_bound M1 (int_slot (ordered_pair u v) i)). pose proof (total_bound M2 (int_slot (ordered_pair u v) i)).
  assert (1 <= hits (ordered_pair u v) (int_slot (ordered_pair u v) i)); [|lia].
  pose proof (hits_upto_succ i (ordered_pair u v) (int_slot (ordered_pair u v) i) Hi) as Hs. rewrite decide_True in Hs by done.
  pose proof (hits_upto_bound i (ordered_pair u v) (int_slot (ordered_pair u v) i) Hi).
  unfold hits, hits_upto in *. replace n with (i + 1 + (n - (i + 1))) by lia.
  rewrite (seqZ_app 0 (i + 1)), filter_app, length_app by lia. lia.
Qed.
Lemma int_new : counts [] (BFilterIntEncode_new C).
Proof.
  unfold BFilterIntEncode_new. split; [rewrite length_replicate; lia|]. intros h Hh. by rewrite zget_lookup, lookup_replicate_2 by lia.
Qed.

(** Counters are equal when the edges are the same, however they are ordered. *)
Lemma total_perm M M' h : M ≡ₚ M' -> total M h = total M' h.
Proof using Type. induction 1 as [|e M M' _ IH|e e' M|M1 M2 M3 _ IH1 _ IH2]; cbn [total foldr] in *; [done|unfold total in IH; by rewrite IH|lia|congruence]. Qed.

Lemma counts_perm M M' d : M ≡ₚ M' -> counts M d -> counts M' d.
Proof using Type. intros HM [Hl Hd]. split; [done|]. intros h Hh. rewrite Hd by done. by rewrite (total_perm M M'). Qed.

Lemma counts_unique M d d' : counts M d -> counts M d' -> d = d'.
Proof using Type. intros [Hl Hd] [Hl' Hd']. apply zget_list_eq; [lia|]. intros i Hi. by rewrite Hd, Hd' by lia. Qed.

Lemma int_edges edges :
  (forall e, e ∈ edges -> e.1 < e.2) -> n * Z.of_nat (length edges) < 2 ^ 32 ->
  exists d, foldM (fun e d => BFilterIntEncode_EdgeSet C d e.1 e.2) edges (BFilterIntEncode_new C) = Some d /\ counts edges d.
Proof.
  intros Hlt Hfit. destruct (set_all_ok (BFilterIntEncode_EdgeSet C) counts edges (BFilterIntEncode_new C)) as (d & E & Hd); [|apply int_new|].
  - intros M d1 [u v] (post & E) H1. pose proof (f_equal length E) as Hl. rewrite length_app, length_rev in Hl. cbn [length] in Hl.
    destruct (int_insert M d1 u v H1) as (d2 & E2 & H2); [nia|]. exists d2. split; [done|].
    pose proof (Hlt (u, v) ltac:(rewrite E; set_solver)) as Huv. cbn [fst snd] in Huv.
    unfold ordered_pair in H2. by rewrite (proj2 (Z.ltb_ge v u)) in H2 by lia.
  - exists d. split; [done|]. eapply counts_perm; [|exact Hd]. symmetry. apply Permutation_rev.
Qed.

Lemma int_build adj db :
  n * Z.of_nat (length (forward_edges adj (Z.of_nat (length adj) - 1))) < 2 ^ 32 ->
  exists d, BFilterVend_BuildEncoding (BFilterIntEncode_EdgeSet C) (Some adj) db (BFilterIntEncode_new C) = Some d /\
    counts (forward_edges adj (Z.of_nat (length adj) - 1)) d.
Proof. intros Hfit. rewrite build_lists. apply int_edges; [|done]. intros [a b] (_ & Hlt & _)%elem_forward_edges. done. Qed.

Lemma int_build_rows rows :
  n * Z.of_nat (length (row_edges rows)) < 2 ^ 32 ->
  exists d, BFilterVend_BuildEncoding (BFilterIntEncode_EdgeSet C) None rows (BFilterIntEncode_new C) = Some d /\ counts (row_edges rows) d.
Proof.
  intros Hfit. rewrite build_db. apply int_edges; [|done]. intros [a b] Hin. unfold row_edges in Hin.
  apply list_elem_of_In, in_flat_map in Hin as ([u N] & _ & Hin%list_elem_of_In%elem_forward). cbn [fst snd] in *. lia.
Qed.

Lemma int_save_load M d d0 :
  counts M d -> Z.of_nat (length d0) = size ->
  exists file, BFilterIntEncode_EncodePersistent C d = Some file /\ BFilterIntEncode_LoadFromDb C d0 file = Some d.
Proof.
  intros [Hl _] Hl0. exists d. split.
  - unfold BFilterIntEncode_EncodePersistent. by rewrite <- Hl, mapM_zget_all.
  - unfold BFilterIntEncode_LoadFromDb.
    destruct (for_loop_inv (fun i d1 => Z.of_nat (length d1) = size /\ forall j, 0 <= j < i -> zget d1 j = zget d j)
      (fun i d1 => match zget d i with Some v => zset d1 i v | None => Some d1 end) (Z.to_nat size) 0 d0) as (d1 & -> & Hl1 & H1).
    + split; [done|lia].
    + intros i d1 Hi [Hl1 H1]. destruct (zget_is_Some d i) as [x Ex]; [lia|]. rewrite Ex. pose proof (zset_Some d1 i x ltac:(lia)) as Es.
      rewrite Es. eexists. split; [done|]. split; [by rewrite length_insert|]. intros j Hj. rewrite (zget_zset d1 i j x _ Es).
      destruct (Z.eqb_spec j i) as [->|]; [by rewrite Ex|apply H1; lia].
    + f_equal. apply zget_list_eq; [lia|]. intros i Hi. apply H1. lia.
Qed.
End counters.

(** An edge of an adjacency list, in the order in which the filters hash it. *)
Definition stored_edge (adj : list (list Z)) (u v : Z) : Prop :=
  let '(a, b) := ordered_pair u v in 1 <= a /\ a < b /\ exists N, zget adj a = Some N /\ b ∈ N.

Lemma BFilter_build (C : Config) (type : Z) (adj : list (list Z)) (db : list (Z * list Z)) :
  0 < bit_hash_size C < 2 ^ 56 -> bit_hash_size C mod 8 = 0 -> 0 <= BIT_HASH_BEST_NUMS C <= 60 ->
  0 < BLOCK_SIZE C /\ 0 < BLOCK_NUMS C /\ BLOCK_NUMS C * BLOCK_SIZE C <= bit_hash_size C -> type <> 1 ->
  exists d, BFilterVend_BuildEncoding (BFilterBitVend_EdgeSet C type) (Some adj) db (BFilterBitEncode_new C) = Some d /\
    bits_ok C d /\
    forall u v, exists t, BFilterBitVend_Determine C type d u v = Some t /\
      BFilterBitVend_Determine C type d v u = Some t /\ t <> Neighbor /\ answers t (stored_edge adj u v).
Proof.
  intros Hsize H8 Hn Hblocks Htype.
  destruct (bits_build C type Hsize Hn Hblocks Htype adj db _ (new_bits C type Hsize H8)) as (d & -> & Hd). exists d. split; [done|].
  split; [apply Hd|]. intros u v. destruct (bits_test C type Hsize Hn Hblocks Htype _ d u v Hd) as (t & Et & Et' & Hnn & Ht). exists t.
  split; [done|]. split; [done|]. split; [done|]. destruct t; [done| |done]. cbn [answers]. unfold stored_edge. intros Hedge.
  discriminate (proj2 Ht). apply covered_stored. destruct (ordered_pair u v) as [a b]. destruct Hedge as (Ha & Hab & N & EN & HN).
  apply elem_forward_edges. rewrite EN. apply zget_Some_inv in EN. split; [lia|done].
Qed.

(** What is saved is read back, whatever is in [key] before. *)
Lemma read_words_all file key : read_words (length file) file key = file.
Proof.
  revert key. induction file as [|k file IH]; intros key; [done|]. cbn [length read_words tail]. by rewrite IH.
Qed.

Lemma BFilter_words (C : Config) (d d0 : list Z) :
  0 < bit_hash_size C < 2 ^ 56 -> bit_hash_size C mod 32 = 0 -> bits_ok C d -> bits_ok C d0 ->
  exists ws, BFilterBitEncode_EncodePersistent C d = Some ws /\ Z.to_nat (bit_hash_size C / 32) = length ws /\
    Forall (fun w => 0 <= w < 2 ^ 32) ws /\ BitSetSIMD_BlockSet32 d0 ws = Some d.
Proof.
  intros Hsize H32 [Hd Hn] [_ Hn0]. unfold nbits in *. pose proof (Z.div_mod (bit_hash_size C) 32 ltac:(lia)) as Hdm.
  destruct (Dump_BlockSet32 d d0 Hd) as (ws & Hws & Hl & Hu & Hset); [|lia|].
  { replace (Z.of_nat (length d)) with (bit_hash_size C / 32 * 4) by lia. apply Z.mod_mul. lia. }
  exists ws. split; [|split; [lia|done]]. unfold BFilterBitEncode_EncodePersistent. rewrite Hws. bind_step.
  replace (bit_hash_size C / 32) with (Z.of_nat (length ws)) by lia. apply mapM_zget_all.
Qed.

Lemma BFilter_save_load (C : Config) (d d0 : list Z) (key : Z) :
  0 < bit_hash_size C < 2 ^ 56 -> bit_hash_size C mod 32 = 0 -> bits_ok C d -> bits_ok C d0 ->
  exists file, BFilterBitEncode_EncodePersistent C d = Some file /\ BFilterBitEncode_LoadFromDb C d0 file key = Some d.
Proof.
  intros Hsize H32 Hd Hd0. destruct (BFilter_words C d d0 Hsize H32 Hd Hd0) as (ws & EP & Hlen & _ & Hset). exists ws. split; [done|].
  unfold BFilterBitEncode_LoadFromDb. by rewrite Hlen, read_words_all.
Qed.

(** * Properties *)

(** The plain and the blocked Bloom filter built from adjacency lists have
    no false negative: the build is defined, every later test is defined,
    symmetric, never Neighbor, and NonNeighbor only for pairs that are not an
    edge. *)
Theorem BFilter_no_false_negative (C : Config) (type : Z) (adj : list (list Z)) (db : list (Z * list Z))
    (Hsize : 0 < bit_hash_size C < 2 ^ 56) (H8 : bit_hash_size C mod 8 = 0) (Hn : 0 <= BIT_HASH_BEST_NUMS C <= 60)
    (Hblocks : 0 < BLOCK_SIZE C /\ 0 < BLOCK_NUMS C /\ BLOCK_NUMS C * BLOCK_SIZE C <= bit_hash_size C)
    (Htype : type <> 1) :
  exists d, BFilterVend_BuildEncoding (BFilterBitVend_EdgeSet C type) (Some adj) db (BFilterBitEncode_new C) = Some d /\
    forall u v, exists t, BFilterBitVend_Determine C type d u v = Some t /\
      BFilterBitVend_Determine C type d v u = Some t /\ t <> Neighbor /\ answers t (stored_edge adj u v).
Proof.
  destruct (BFilter_build C type adj db Hsize H8 Hn Hblocks Htype) as (d & HB & _ & Htest). by exists d.
Qed.

(** The operations of [BFilterIntEncode], with the edges that are stored. *)
Inductive int_step (C : Config) : list (Z * Z) * list Z -> list (Z * Z) * list Z -> Prop :=
| int_step_insert M d u v d' :
    INT_HASH_BEST_NUMS C * Z.of_nat (S (length M)) < 2 ^ 32 ->
    BFilterIntEncode_InsertPair C d u v = Some d' -> int_step C (M, d) (ordered_pair u v :: M, d')
| int_step_delete M1 M2 d u v d' :
    BFilterIntEncode_DeletePair C d u v = Some d' ->
    int_step C (M1 ++ ordered_pair u v :: M2, d) (M1 ++ M2, d').

Lemma int_reachable C M d :
  0 < int_hash_size C < 2 ^ 32 -> 0 <= INT_HASH_BEST_NUMS C <= 60 ->
  rtc (int_step C) ([], BFilterIntEncode_new C) (M, d) ->
  counts C M d /\ INT_HASH_BEST_NUMS C * Z.of_nat (length M) < 2 ^ 32.
Proof.
  intros Hsize Hn. set (P := fun st : list (Z * Z) * list Z => counts C st.1 st.2 /\
    INT_HASH_BEST_NUMS C * Z.of_nat (length st.1) < 2 ^ 32).
  intros Hr. change (P (M, d)). revert Hr. apply (rtc_ind_r P).
  - unfold P, counts, BFilterIntEncode_new. cbn [fst snd length]. rewrite length_replicate. split; [|lia].
    split; [lia|]. intros h Hh. rewrite zget_lookup by lia. by rewrite lookup_replicate_2 by lia.
  - unfold P. intros st1 st2 _ Hstep [Hc Hlen]. destruct Hstep as [M0 d0 u v d' Hroom E|M1 M2 d0 u v d' E]; cbn [fst snd] in *.
    + destruct (int_insert C Hsize Hn M0 d0 u v Hc Hroom) as (d'' & E' & Hc'). rewrite E in E'. injection E' as <-.
      split; [done|]. cbn [length]. lia.
    + destruct (int_delete C Hsize Hn M1 M2 d0 u v Hc Hlen) as (d'' & E' & Hc'). rewrite E in E'. injection E' as <-.
      split; [done|]. rewrite length_app in *. cbn [length] in Hlen. nia.
Qed.

(** C32: in every state that insertions and deletions of stored edges reach, the
    next operation is defined, each counter of the integer filter is the number
    of hits of the stored edges, and a stored edge is never answered
    NonNeighbor. *)
Theorem IntFilter_invariant (C : Config) (M : list (Z * Z)) (d : list Z) (u v : Z)
    (Hsize : 0 < int_hash_size C < 2 ^ 32) (Hn : 0 <= INT_HASH_BEST_NUMS C <= 60)
    (Hreach : rtc (int_step C) ([], BFilterIntEncode_new C) (M, d))
    (Hroom : INT_HASH_BEST_NUMS C * Z.of_nat (S (length M)) < 2 ^ 32) :
  is_Some (BFilterIntEncode_InsertPair C d u v) /\
  (ordered_pair u v ∈ M -> is_Some (BFilterIntEncode_DeletePair C d u v)) /\
  (forall h, 0 <= h < int_hash_size C -> zget d h = Some (total C M h)) /\
  exists t, BFilterIntEncode_NEpairTest C d u v = Some t /\ t <> Neighbor /\ (ordered_pair u v ∈ M -> t = Uncertain).
Proof.
  destruct (int_reachable C M d Hsize Hn Hreach) as [Hc Hlen]. split; [|split; [|split]].
  - destruct (int_insert C Hsize Hn M d u v Hc Hroom) as (d' & -> & _). eauto.
  - intros (M1 & M2 & ->)%list_elem_of_split.
    destruct (int_delete C Hsize Hn M1 M2 d u v Hc Hlen) as (d' & -> & _). eauto.
  - apply Hc.
  - by apply (int_test C Hsize Hn).
Qed.

(** * Witnesses *)

Definition triangle : list (list Z) := [[]; [2; 3]; [1; 3]; [1; 2]; []].

Lemma BFilter_no_false_negative_witness :
  exists d, BFilterVend_BuildEncoding (BFilterBitVend_EdgeSet small_config 2) (Some triangle) []
      (BFilterBitEncode_new small_config) = Some d /\
    forall u v, exists t, BFilterBitVend_Determine small_config 2 d u v = Some t /\
      BFilterBitVend_Determine small_config 2 d v u = Some t /\ t <> Neighbor /\ answers t (stored_edge triangle u v).
Proof.
  apply (BFilter_no_false_negative small_config 2 triangle []).
  - vm_compute. auto.
  - reflexivity.
  - vm_compute. split; discriminate.
  - vm_compute. split; [reflexivity|]. split; [reflexivity|discriminate].
  - discriminate.
Defined.

Definition one_edge : list Z := default [] (BFilterIntEncode_InsertPair small_config (BFilterIntEncode_new small_config) 5 2).

Lemma IntFilter_invariant_witness :
  is_Some (BFilterIntEncode_InsertPair small_config one_edge 5 2) /\
  (ordered_pair 5 2 ∈ [(2, 5)] -> is_Some (BFilterIntEncode_DeletePair small_config one_edge 5 2)) /\
  (forall h, 0 <= h < int_hash_size small_config -> zget one_edge h = Some (total small_config [(2, 5)] h)) /\
  exists t, BFilterIntEncode_NEpairTest small_config one_edge 5 2 = Some t /\ t <> Neighbor /\
    (ordered_pair 5 2 ∈ [(2, 5)] -> t = Uncertain).
Proof.
  apply (IntFilter_invariant small_config [(2, 5)] one_edge 5 2).
  - vm_compute. auto.
  - vm_compute. split; discriminate.
  - apply rtc_once. apply (int_step_insert small_config [] (BFilterIntEncode_new small_config) 5 2); vm_compute; reflexivity.
  - vm_compute. reflexivity.
Defined.

(** * What the code gets wrong *)

(** The counting filter of 40 vertices has counters beyond bit 2048, whose first
    byte [BlockSet] takes modulo 256: setting the edge (1, 5) clears a counter of
    the edge (2, 7). *)
Example CBFilter_false_negative :
  let C := default demo_config (InitConfig false 3 40 76) in
  (d ← CBFilterEncode_EdgeSet C (BFilterBitEncode_new C) 2 7;
   d ← CBFilterEncode_EdgeSet C d 1 5;
   CBFilterEncode_NEpairTest C d 2 7) = Some NonNeighbor.
Proof. vm_compute. reflexivity. Qed.

(** Deleting an edge that is not stored takes a hit away from one that is. *)
Example IntFilter_delete_absent :
  (d ← BFilterIntEncode_InsertPair small_config (BFilterIntEncode_new small_config) 1 2;
   d ← BFilterIntEncode_DeletePair small_config d 2 19;
   BFilterIntEncode_NEpairTest small_config d 1 2) = Some NonNeighbor.
Proof. vm_compute. reflexivity. Qed.
