(* ===== verification/Db.v ===== *)
(** The neighbor database: [RocksDb] ([src/dbengine/rocksdb.cpp],
    [src/include/dbengine/rocksdb.h]) over the store of the RocksDB library.

    The library is a parameter, a class of the three calls the code makes with
    the laws its documentation gives them; keys and values are strings of bytes.
    Failures of the storage are not modelled: a write succeeds. *)
From S2P Require Import Prelude.
From stdpp Require Import options.
Local Open Scope Z_scope.
Set Default Proof Using "Type*".

(** * The store *)

Class Store (T : Type) := {
  store_Get : T -> list Z -> option (list Z);
  store_Put : T -> list Z -> list Z -> T;
  store_rows : T -> list (list Z * list Z)
}.

Class StoreLaws (T : Type) `{Store T} : Prop := {
  store_get_put db k v : store_Get (store_Put db k v) k = Some v;
  store_get_other db k k' v : k <> k' -> store_Get (store_Put db k v) k' = store_Get db k';
  store_rows_get db k v : (k, v) ∈ store_rows db <-> store_Get db k = Some v;
  store_rows_nodup db : NoDup (store_rows db).*1
}.

(** * Strings *)

(** [std::to_string] of a [uint32_t], which has at most ten digits. *)
Fixpoint decimal (fuel : nat) (n : Z) : list Z :=
  match fuel with
  | O => []
  | S fuel => if n <? 10 then [48 + n] else decimal fuel (n / 10) ++ [48 + n mod 10]
  end.
Definition to_string (n : Z) : list Z := decimal 10 n.

(** [std::stoul]: white space, a sign, digits. It throws when there is no digit
    or the number is over 64 bits. *)
Definition is_space (c : Z) : bool := (c =? 32) || ((9 <=? c) && (c <=? 13)).
Definition is_digit (c : Z) : bool := (48 <=? c) && (c <=? 57).

Fixpoint skip_spaces (s : list Z) : list Z :=
  match s with c :: s' => if is_space c then skip_spaces s' else s | [] => [] end.

Fixpoint read_digits (s : list Z) (acc : Z) : Z :=
  match s with c :: s' => if is_digit c then read_digits s' (10 * acc + (c - 48)) else acc | [] => acc end.

Definition stoul (s : list Z) : option Z :=
  let s := skip_spaces s in
  let '(neg, s) := match s with
                   | 45 :: s' => (true, s')
                   | 43 :: s' => (false, s')
                   | _ => (false, s)
                   end in
  match s with
  | c :: _ =>
      if is_digit c then
        let v := read_digits s 0 in
        if v <? 2 ^ 64 then Some (if neg then u64 (- v) else v) else None
      else None
  | [] => None
  end.

(** * RocksDb *)

(** [ValueToString(value, len)]: the four bytes of the integer in memory. *)
Definition ValueToString_int (value : Z) : list Z :=
  [u8 value; u8 (Z.shiftr value 8); u8 (Z.shiftr value 16); u8 (Z.shiftr value 24)].

(** [ValueToString(value, len, data)]. *)
Definition ValueToString (value : list Z) : list Z := flat_map ValueToString_int value.

(** [StringToValue(data, value)] of a list: [len / 4] integers. *)
Fixpoint StringToValue (data : list Z) : list Z :=
  match data with
  | a :: b :: c :: d :: data => a + Z.shiftl b 8 + Z.shiftl c 16 + Z.shiftl d 24 :: StringToValue data
  | _ => []
  end.

(** Into a set, and of one integer. *)
Definition StringToValue_set (data : list Z) (value : gset Z) : gset Z := value ∪ list_to_set (StringToValue data).
Definition StringToValue_int (data : list Z) : option Z := v ← stoul data; Some (u32 v).

Section RocksDb.
Context {T : Type} `{Store T}.

(** The three [Get]: whether the key is there, and the value. *)
Definition RocksDb_Get_int (db : T) (key : Z) (value : Z) : option (bool * Z) :=
  match store_Get db (to_string key) with
  | None => Some (false, value)
  | Some data => v ← StringToValue_int data; Some (true, v)
  end.

Definition RocksDb_Get (db : T) (key : Z) (value : list Z) : bool * list Z :=
  match store_Get db (to_string key) with
  | None => (false, value)
  | Some data => (true, StringToValue data)
  end.

Definition RocksDb_Get_set (db : T) (key : Z) (value : gset Z) : bool * gset Z :=
  match store_Get db (to_string key) with
  | None => (false, value)
  | Some data => (true, StringToValue_set data value)
  end.

Definition RocksDb_Put_int (db : T) (key value : Z) : T := store_Put db (to_string key) (ValueToString_int value).

Definition RocksDb_Put (db : T) (key : Z) (value : list Z) : T :=
  match value with
  | [] => db
  | _ => store_Put db (to_string key) (ValueToString value)
  end.

Definition RocksDb_BatchWrite (db : T) (keys : list Z) (values : list (list Z)) : option T :=
  _ ← guardb (Z.of_nat (length keys) =? Z.of_nat (length values));
  Some (foldl (fun db kv => store_Put db (to_string kv.1) (ValueToString kv.2)) db (zip keys values)).

(** [InitIter] and [Next] until it fails: the rows of a scan. *)
Definition RocksDb_scan (db : T) : option (list (Z * list Z)) :=
  mapM (fun row => key ← StringToValue_int row.1; Some (key, StringToValue row.2)) (store_rows db).
End RocksDb.

(** * Proofs *)

(** ** Integers as strings *)

Lemma decimal_digits fuel n : 0 <= n -> Forall (fun c => is_digit c = true) (decimal fuel n).
Proof.
  revert n. induction fuel as [|fuel IH]; intros n Hn; cbn [decimal]; [constructor|].
  pose proof (Z.mod_pos_bound n 10 ltac:(lia)). pose proof (Z.div_pos n 10 ltac:(lia) ltac:(lia)).
  assert (forall m, 0 <= m < 10 -> is_digit (48 + m) = true) as Hd.
  { intros m Hm. unfold is_digit. apply andb_true_iff. split; apply Z.leb_le; lia. }
  destruct (Z.ltb_spec n 10); [constructor; [apply Hd; lia|constructor]|].
  apply Forall_app. split; [apply IH; lia|]. constructor; [apply Hd; lia|constructor].
Qed.

Lemma read_digits_app s t acc :
  Forall (fun c => is_digit c = true) s -> read_digits (s ++ t) acc = read_digits t (read_digits s acc).
Proof.
  intros Hs. revert acc. induction Hs as [|c s Hc Hs IH]; intros acc; [done|]. cbn [app read_digits]. rewrite Hc. apply IH.
Qed.

Lemma read_decimal fuel n :
  0 <= n < 10 ^ Z.of_nat fuel -> read_digits (decimal fuel n) 0 = n.
Proof.
  revert n. induction fuel as [|fuel IH]; intros n Hn; [simpl in *; lia|]. cbn [decimal].
  rewrite Nat2Z.inj_succ, Z.pow_succ_r in Hn by lia.
  pose proof (Z.mod_pos_bound n 10 ltac:(lia)). pose proof (Z.div_mod n 10 ltac:(lia)).
  pose proof (Z.div_pos n 10 ltac:(lia) ltac:(lia)).
  assert (forall m acc, 0 <= m < 10 -> read_digits [48 + m] acc = 10 * acc + m) as Hd.
  { intros m acc Hm. cbn [read_digits]. unfold is_digit.
    rewrite (proj2 (Z.leb_le 48 (48 + m))), (proj2 (Z.leb_le (48 + m) 57)) by lia. cbn [andb]. lia. }
  destruct (Z.ltb_spec n 10); [rewrite Hd by lia; lia|].
  rewrite read_digits_app by (apply decimal_digits; lia). rewrite IH, Hd by lia. lia.
Qed.

Lemma stoul_to_string n : 0 <= n < 2 ^ 32 -> StringToValue_int (to_string n) = Some n.
Proof.
  intros Hn. unfold StringToValue_int, stoul. pose proof (read_decimal 10 n ltac:(simpl; lia)) as Hr.
  fold (to_string n) in Hr. pose proof (decimal_digits 10 n ltac:(lia)) as Hd. fold (to_string n) in Hd.
  destruct (to_string n) as [|c s] eqn:E.
  { exfalso. unfold to_string in E. cbn [decimal] in E. destruct (n <? 10); [done|]. by apply app_eq_nil in E as [_ E]. }
  pose proof (Forall_inv Hd) as Hc. pose proof Hc as Hc'.
  unfold is_digit in Hc'. apply andb_true_iff in Hc' as [H1%Z.leb_le H2%Z.leb_le].
  assert (is_space c = false) as Hsp.
  { unfold is_space. apply orb_false_iff. split; [apply Z.eqb_neq; lia|]. apply andb_false_iff. right. apply Z.leb_gt. lia. }
  cbn [skip_spaces]. rewrite Hsp.
  assert (match c with 45 => (true, s) | 43 => (false, s) | _ => (false, c :: s) end = (false, c :: s)) as Hsign.
  { destruct c as [|p|p]; [lia| |lia]. repeat (destruct p as [p|p|]; try done; try lia). }
  rewrite Hsign. cbv beta iota in Hc. rewrite Hc, Hr, (proj2 (Z.ltb_lt n (2 ^ 64))) by lia. bind_step.
  by rewrite u32_small by lia.
Qed.

Lemma to_string_inj m n : 0 <= m < 2 ^ 32 -> 0 <= n < 2 ^ 32 -> to_string m = to_string n -> m = n.
Proof. intros Hm Hn H. pose proof (stoul_to_string m Hm) as E. rewrite H, stoul_to_string in E by done. congruence. Qed.

(** ** Lists as strings *)

Lemma int_bytes v : 0 <= v < 2 ^ 32 ->
  u8 v + Z.shiftl (u8 (Z.shiftr v 8)) 8 + Z.shiftl (u8 (Z.shiftr v 16)) 16 + Z.shiftl (u8 (Z.shiftr v 24)) 24 = v.
Proof.
  intros Hv. unfold u8. rewrite !Z.shiftl_mul_pow2, !Z.shiftr_div_pow2 by lia.
  change (2 ^ 8) with 256. change (2 ^ 16) with 65536. change (2 ^ 24) with 16777216. Z.to_euclidean_division_equations; lia.
Qed.

Lemma StringToValue_ValueToString l :
  Forall (fun v => 0 <= v < 2 ^ 32) l -> StringToValue (ValueToString l) = l.
Proof.
  induction 1 as [|v l Hv Hl IH]; [done|]. unfold ValueToString in *. cbn [flat_map ValueToString_int app StringToValue].
  by rewrite IH, int_bytes.
Qed.

(** ** The database as a map from vertices to lists *)

Section laws.
Context {T : Type} `{StoreLaws T}.

Definition vertex_key (v : Z) : Prop := 0 <= v < 2 ^ 32.
Definition ids_ok (l : list Z) : Prop := Forall (fun x => 0 <= x < 2 ^ 32) l.

Lemma Get_Put_same db v l old :
  ids_ok l -> l <> [] -> RocksDb_Get (RocksDb_Put db v l) v old = (true, l).
Proof.
  intros Hl Hne. unfold RocksDb_Get, RocksDb_Put. destruct l as [|x l]; [done|].
  rewrite store_get_put. by rewrite StringToValue_ValueToString.
Qed.

Lemma Get_Put_other db v w l old :
  vertex_key v -> vertex_key w -> v <> w -> RocksDb_Get (RocksDb_Put db v l) w old = RocksDb_Get db w old.
Proof.
  intros Hv Hw Hne. unfold RocksDb_Get, RocksDb_Put. destruct l as [|x l]; [done|].
  rewrite store_get_other; [done|]. intros E. by apply Hne, to_string_inj.
Qed.
End laws.

(** * A store, for concrete runs *)

#[export] Instance gmap_store : Store (gmap (list Z) (list Z)) := {|
  store_Get db k := db !! k;
  store_Put db k v := <[k := v]> db;
  store_rows db := map_to_list db
|}.

#[export] Instance gmap_store_laws : StoreLaws (gmap (list Z) (list Z)).
Proof.
  split; simpl.
  - intros. apply lookup_insert_eq.
  - intros. by apply lookup_insert_ne.
  - intros. apply elem_of_map_to_list.
  - intros. apply NoDup_fst_map_to_list.
Qed.
