(* ===== verification/Varint.v ===== *)
(** The variable-length integer codec: class [VarintCodec] of
    [src/include/encode/codec/varint_codec.h] and the interface [Codec] of
    [codec.h].

    An integer is 1 to 5 bytes of seven bits, the least significant first; a
    set top bit announces another byte. A list is coded by the differences of
    its elements ([is_delta_]) or by the elements. The decoders are given over
    a reader [rd] of the byte at a position: an array for [Decode], an array of
    pointers into a memory for the "undirect" variants and [Find]. *)
From S2P Require Import Prelude.
From stdpp Require Import options.
Local Open Scope Z_scope.
Set Default Proof Using "Type*".

(** [Codec::FindRes]. *)
Inductive FindRes := EXIST | LESS_THAN_MIN | GRATER_THAN_MAX | NOT_EXIST.

Definition FindRes_val (r : FindRes) : Z :=
  match r with EXIST => 0 | LESS_THAN_MIN => 2 | GRATER_THAN_MAX => 4 | NOT_EXIST => 15 end.

#[export] Instance FindRes_eq_dec : EqDecision FindRes.
Proof. solve_decision. Defined.

(** [DeltaInfo]. *)
Record DeltaInfo := { delta_bits : Z; val_bits : Z; total_bits : Z }.

Definition mask_7_zero : Z := 128.
Definition bound : list Z := [2 ^ 7; 2 ^ 14; 2 ^ 21; 2 ^ 28].

(** The bytes [EncodeArray] writes for one value, branch by branch. *)
Definition VarintCodec_bytes (val : Z) : list Z :=
  let low := Z.lor (Z.land val 0x7F) mask_7_zero in
  let mid n := Z.lor (Z.land (Z.shiftr val n) 0x7F) mask_7_zero in
  if val <? 2 ^ 7 then [Z.land val 0x7F]
  else if val <? 2 ^ 14 then [low; u8 (Z.shiftr val 7)]
  else if val <? 2 ^ 21 then [low; mid 7; u8 (Z.shiftr val 14)]
  else if val <? 2 ^ 28 then [low; mid 7; mid 14; u8 (Z.shiftr val 21)]
  else [low; mid 7; mid 14; mid 21; u8 (Z.shiftr val 28)].

(** [GetOneEncodeLength]. *)
Definition VarintCodec_GetOneEncodeLength (integer : Z) : Z :=
  if integer <? 2 ^ 7 then 1 else if integer <? 2 ^ 14 then 2
  else if integer <? 2 ^ 21 then 3 else if integer <? 2 ^ 28 then 4 else 5.

Section VarintCodec.
Context (is_delta_ : bool).

(** The values that are coded: differences modulo 2^32, or the elements. *)
Fixpoint VarintCodec_vals (prev : Z) (in_ : list Z) : list Z :=
  match in_ with
  | [] => []
  | x :: in_' => (if is_delta_ then u32 (x - prev) else x) ::
                 VarintCodec_vals (if is_delta_ then x else prev) in_'
  end.

(** [EncodeArray]: the bytes written to [out], whose number is
    [out_bytes_length]. *)
Definition VarintCodec_EncodeArray (in_ : list Z) : list Z :=
  concat (map VarintCodec_bytes (VarintCodec_vals 0 in_)).

(** [EncodeUnDirectArray]: the same bytes, each stored through the next pointer
    of [out]; the pointer left in [out] is the number of bytes. *)
Definition VarintCodec_EncodeUnDirectArray (in_ : list Z) (mem out : list Z)
  : option (list Z * Z) :=
  foldM (fun b '(mem, k) => p ← zget out k; mem ← zset mem p b; Some (mem, k + 1))
        (VarintCodec_EncodeArray in_) (mem, 0).

(** [GetEncodeLength]. *)
Definition VarintCodec_GetEncodeLength (in_ : list Z) : Z :=
  foldr (fun v size => VarintCodec_GetOneEncodeLength v + size) 0 (VarintCodec_vals 0 in_).

(** [ParseEncode]: per element, the lengths of its difference, of itself, and
    the total so far. *)
Fixpoint ParseEncode_loop (first : bool) (pre size : Z) (in_ : list Z) : list DeltaInfo :=
  match in_ with
  | [] => []
  | x :: in_' =>
      let val := if is_delta_ then u32 (x - pre) else x in
      let bits := VarintCodec_GetOneEncodeLength val in
      let size := size + bits in
      {| delta_bits := if first then 0 else bits;
         val_bits := VarintCodec_GetOneEncodeLength x; total_bits := size |}
      :: ParseEncode_loop false (if is_delta_ then x else pre) size in_'
  end.

Definition VarintCodec_ParseEncode (in_ : list Z) : list DeltaInfo := ParseEncode_loop true 0 0 in_.

Section decoding.
Context (rd : Z -> option Z).

(** One value read without a check of the end: the unrolled body. Returns the
    value and the position after it. *)
Definition VarintCodec_read5 (pos : Z) : option (Z * Z) :=
  c ← rd pos;
  let v := Z.land c 0x7F in
  if c <? 128 then Some (v, pos + 1) else
  c ← rd (pos + 1);
  let v := Z.lor v (Z.shiftl (Z.land c 0x7F) 7) in
  if c <? 128 then Some (v, pos + 2) else
  c ← rd (pos + 2);
  let v := Z.lor v (Z.shiftl (Z.land c 0x7F) 14) in
  if c <? 128 then Some (v, pos + 3) else
  c ← rd (pos + 3);
  let v := Z.lor v (Z.shiftl (Z.land c 0x7F) 21) in
  if c <? 128 then Some (v, pos + 4) else
  c ← rd (pos + 4);
  Some (Z.lor v (Z.shiftl (Z.land c 0x0F) 28), pos + 5).

(** [(c & 127) << shift]: an [int] shift, undefined when the result does not
    fit. *)
Definition VarintCodec_shift (c shift : Z) : option Z :=
  let x := Z.shiftl (Z.land c 127) shift in
  _ ← guardb ((shift <? 32) && (x <? 2 ^ 32)); Some x.

(** [while (endbyte > inbyte + 5)]: every turn reads a byte at least, so more
    turns than bytes are enough. Returns the position and [prev]. *)
Fixpoint Decode_fast (fuel : nat) (pos endbyte prev : Z) (out : list Z) : option (Z * Z * list Z) :=
  if pos + 5 <? endbyte then
    match fuel with
    | O => None
    | S fuel' =>
        r ← VarintCodec_read5 pos;
        let '(v, pos) := r in
        if is_delta_
        then let prev := u32 (v + prev) in Decode_fast fuel' pos endbyte prev (out ++ [prev])
        else Decode_fast fuel' pos endbyte prev (out ++ [v])
    end
  else Some (pos, prev, out).

(** The inner loop on the last bytes: one value, read up to the end at most. It
    is [None] when the bytes end before the value does. *)
Fixpoint VarintCodec_read_tail (fuel : nat) (pos endbyte v shift : Z) : option (option Z * Z) :=
  if pos <? endbyte then
    match fuel with
    | O => None
    | S fuel' =>
        c ← rd pos;
        s ← VarintCodec_shift c shift;
        let v := u32 (v + s) in
        if c <? 128 then Some (Some v, pos + 1)
        else VarintCodec_read_tail fuel' (pos + 1) endbyte v (shift + 7)
    end
  else Some (None, pos).

Fixpoint Decode_tail (fuel : nat) (pos endbyte prev : Z) (out : list Z) : option (list Z) :=
  if pos <? endbyte then
    match fuel with
    | O => None
    | S fuel' =>
        r ← VarintCodec_read_tail (S (Z.to_nat (endbyte - pos))) pos endbyte 0 0;
        match r with
        | (Some v, pos) =>
            if is_delta_
            then let prev := u32 (v + prev) in Decode_tail fuel' pos endbyte prev (out ++ [prev])
            else Decode_tail fuel' pos endbyte prev (out ++ [v])
        | (None, pos) => Decode_tail fuel' pos endbyte prev out
        end
    end
  else Some out.

Definition VarintCodec_decode (in_bytes_length : Z) : option (list Z) :=
  let fuel := S (Z.to_nat in_bytes_length) in
  r ← Decode_fast fuel 0 in_bytes_length 0 [];
  let '(pos, prev, out) := r in
  Decode_tail fuel pos in_bytes_length prev out.

(** The loops of [Find]; [inr] continues with the position and [prev]. *)
Fixpoint Find_fast (fuel : nat) (pos endbyte prev element : Z) : option (FindRes * Z + Z * Z) :=
  if pos + 5 <? endbyte then
    match fuel with
    | O => None
    | S fuel' =>
        r ← VarintCodec_read5 pos;
        let '(v, pos) := r in
        if is_delta_ then
          let prev := u32 (v + prev) in
          if element =? prev then Some (inl (EXIST, pos))
          else if element <? prev then Some (inl (NOT_EXIST, pos))
          else Find_fast fuel' pos endbyte prev element
        else
          if element =? v then Some (inl (EXIST, pos))
          else if element <? v then Some (inl (NOT_EXIST, pos))
          else Find_fast fuel' pos endbyte prev element
    end
  else Some (inr (pos, prev)).

Fixpoint Find_tail (fuel : nat) (pos endbyte prev element : Z) : option (FindRes * Z) :=
  if pos <? endbyte then
    match fuel with
    | O => None
    | S fuel' =>
        r ← VarintCodec_read_tail (S (Z.to_nat (endbyte - pos))) pos endbyte 0 0;
        match r with
        | (Some v, pos) =>
            let prev := if is_delta_ then u32 (v + prev) else prev in
            if element =? (if is_delta_ then prev else v) then Some (EXIST, pos)
            else if element <? v then Some (NOT_EXIST, pos)
            else Find_tail fuel' pos endbyte prev element
        | (None, pos) => Find_tail fuel' pos endbyte prev element
        end
    end
  else Some (if prev <? element then GRATER_THAN_MAX else NOT_EXIST, pos).

(** [Find]: the answer and the position [inbyte] is left at. *)
Definition VarintCodec_Find (in_bytes_length element : Z) : option (FindRes * Z) :=
  let fuel := S (Z.to_nat in_bytes_length) in
  first ← (if is_delta_ then
             r ← VarintCodec_read5 0;
             let '(v, pos) := r in
             let prev := u32 (v + 0) in
             if element =? prev then Some (inl (EXIST, pos))
             else if element <? prev then Some (inl (LESS_THAN_MIN, pos))
             else Some (inr (pos, prev))
           else Some (inr (0, 0)));
  match first with
  | inl r => Some r
  | inr (pos, prev) =>
      mid ← Find_fast fuel pos in_bytes_length prev element;
      match mid with
      | inl r => Some r
      | inr (pos, prev) => Find_tail fuel pos in_bytes_length prev element
      end
  end.
End decoding.

(** [Decode] reads an array of bytes, [DecodeUnDirectArray] and [Find] an array
    of pointers. *)
Definition VarintCodec_Decode (inbyte : list Z) (in_bytes_length : Z) : option (list Z) :=
  VarintCodec_decode (zget inbyte) in_bytes_length.

Definition VarintCodec_through (mem ptrs : list Z) (k : Z) : option Z := p ← zget ptrs k; zget mem p.

Definition VarintCodec_DecodeUnDirectArray (mem inbyte : list Z) (in_bytes_length : Z)
  : option (list Z) :=
  VarintCodec_decode (VarintCodec_through mem inbyte) in_bytes_length.

Definition VarintCodec_FindUnDirect (mem inbyte : list Z) (in_bytes_length element : Z)
  : option (FindRes * Z) :=
  VarintCodec_Find (VarintCodec_through mem inbyte) in_bytes_length element.
End VarintCodec.

(** * The bytes of a value *)

Lemma land_127 x : Z.land x 127 = x mod 2 ^ 7.
Proof. apply (Z.land_ones x 7). lia. Qed.

Lemma lor_128 x : 0 <= x < 128 -> Z.lor x mask_7_zero = x + 128.
Proof. intros Hx. apply (lor_low x 1 7); lia. Qed.

(** The seven-bit digits of a value: [digit val k] is the byte without its top
    bit, [continued val k] says whether another byte follows. *)
Definition digit (val k : Z) : Z := (val / 2 ^ (7 * k)) mod 2 ^ 7.

Lemma digit_bound val k : 0 <= digit val k < 128.
Proof. apply Z.mod_pos_bound. lia. Qed.

Definition byte_of (val n k : Z) : Z := if k <? n - 1 then digit val k + 128 else digit val k.

Lemma mid_byte val k :
  0 <= val -> 0 <= k -> Z.lor (Z.land (Z.shiftr val (7 * k)) 0x7F) mask_7_zero = digit val k + 128.
Proof.
  intros Hv Hk. rewrite Z.shiftr_div_pow2, land_127 by lia. apply lor_128, (digit_bound val k).
Qed.

Lemma last_byte val k :
  0 <= val < 2 ^ (7 * (k + 1)) -> 0 <= k -> u8 (Z.shiftr val (7 * k)) = digit val k.
Proof.
  intros Hv Hk. rewrite Z.shiftr_div_pow2 by lia. unfold digit.
  assert (0 <= val / 2 ^ (7 * k) < 2 ^ 7) as Hq.
  { split; [apply Z.div_pos; lia|]. apply Z.div_lt_upper_bound; [lia|].
    rewrite <- Z.pow_add_r by lia. replace (7 * k + 7) with (7 * (k + 1)) by lia. lia. }
  rewrite u8_small, Z.mod_small by lia. done.
Qed.

Lemma bytes_digits val :
  0 <= val < 2 ^ 32 ->
  VarintCodec_bytes val =
  map (byte_of val (VarintCodec_GetOneEncodeLength val))
      (seqZ 0 (VarintCodec_GetOneEncodeLength val)).
Proof.
  intros Hv. unfold VarintCodec_bytes, VarintCodec_GetOneEncodeLength. cbv zeta.
  assert (Z.lor (Z.land val 0x7F) mask_7_zero = digit val 0 + 128) as Hlow
    by (rewrite <- (mid_byte val 0), Z.mul_0_r, Z.shiftr_0_r by lia; reflexivity).
  assert (Z.land val 0x7F = digit val 0) as Hd0
    by (unfold digit; rewrite land_127; f_equal; symmetry; apply Z.div_1_r).
  pose proof (mid_byte val 1) as H1. pose proof (mid_byte val 2) as H2. pose proof (mid_byte val 3) as H3.
  change (7 * 1) with 7 in H1; change (7 * 2) with 14 in H2; change (7 * 3) with 21 in H3.
  repeat match goal with |- context [val <? ?b] => destruct (Z.ltb_spec val b) end;
    rewrite ?Hlow, ?Hd0, ?H1, ?H2, ?H3 by lia.
  - done.
  - pose proof (last_byte val 1) as HL.
    change (7 * 1) with 7 in HL; change (7 * (1 + 1)) with 14 in HL. by rewrite HL by lia.
  - pose proof (last_byte val 2) as HL.
    change (7 * 2) with 14 in HL; change (7 * (2 + 1)) with 21 in HL. by rewrite HL by lia.
  - pose proof (last_byte val 3) as HL.
    change (7 * 3) with 21 in HL; change (7 * (3 + 1)) with 28 in HL. by rewrite HL by lia.
  - pose proof (last_byte val 4) as HL.
    change (7 * 4) with 28 in HL; change (7 * (4 + 1)) with 35 in HL. by rewrite HL by lia.
Qed.

Lemma length_bytes val :
  0 <= val < 2 ^ 32 -> Z.of_nat (length (VarintCodec_bytes val)) = VarintCodec_GetOneEncodeLength val.
Proof.
  intros Hv. rewrite bytes_digits, length_map, length_seqZ by done.
  unfold VarintCodec_GetOneEncodeLength. split_ltb; lia.
Qed.

(** The first [k] digits. *)
Definition low_part (val k : Z) : Z := val mod 2 ^ (7 * k).

Lemma low_part_S val k :
  0 <= k -> low_part val (k + 1) = low_part val k + digit val k * 2 ^ (7 * k).
Proof.
  intros Hk. unfold low_part, digit. replace (7 * (k + 1)) with (7 * k + 7) by lia.
  rewrite Z.pow_add_r by lia. rewrite Z.rem_mul_r by lia. lia.
Qed.

Lemma low_part_bound val k : 0 <= k -> 0 <= low_part val k < 2 ^ (7 * k).
Proof. intros Hk. apply Z.mod_pos_bound. lia. Qed.

Lemma low_part_all val k : 0 <= val < 2 ^ (7 * k) -> low_part val k = val.
Proof. apply Z.mod_small. Qed.

Lemma encode_length_spec val :
  0 <= val < 2 ^ 32 -> let n := VarintCodec_GetOneEncodeLength val in
  1 <= n <= 5 /\ val < 2 ^ (7 * n).
Proof. intros Hv. unfold VarintCodec_GetOneEncodeLength. split_ltb; lia. Qed.

(** * Reading a value back *)

Section reading.
Context (rd : Z -> option Z).

(** The reader gives the bytes [l] from position [pos]. *)
Definition reads (pos : Z) (l : list Z) : Prop :=
  forall k b, l !! k = Some b -> rd (pos + Z.of_nat k) = Some b.

Lemma reads_app pos l1 l2 :
  reads pos (l1 ++ l2) <-> reads pos l1 /\ reads (pos + Z.of_nat (length l1)) l2.
Proof.
  split.
  - intros H. split.
    + intros k b Hk. apply H. rewrite lookup_app_l; [done|]. by eapply lookup_lt_Some.
    + intros k b Hk. rewrite <- (H (length l1 + k)%nat b); [f_equal; lia|].
      rewrite lookup_app_r by lia. by replace (length l1 + k - length l1)%nat with k by lia.
  - intros [H1 H2] k b Hk. apply lookup_app_Some in Hk as [Hk|[Hge Hk]]; [by apply H1|].
    rewrite <- (H2 _ _ Hk). f_equal. lia.
Qed.

Lemma reads_byte pos val k :
  0 <= val < 2 ^ 32 -> reads pos (VarintCodec_bytes val) ->
  0 <= k < VarintCodec_GetOneEncodeLength val ->
  rd (pos + k) = Some (byte_of val (VarintCodec_GetOneEncodeLength val) k).
Proof.
  intros Hv H Hk. rewrite <- (Z2Nat.id k) at 1 by lia. apply H.
  rewrite bytes_digits by done. apply list_lookup_fmap_Some. exists k. split; [done|].
  apply lookup_seqZ. lia.
Qed.

Lemma byte_of_test val n k : (byte_of val n k <? 128) = negb (k <? n - 1).
Proof.
  pose proof (digit_bound val k). unfold byte_of. destruct (k <? n - 1); simpl; split_ltb; lia || done.
Qed.

Lemma byte_of_digit val n k : Z.land (byte_of val n k) 127 = digit val k.
Proof.
  pose proof (digit_bound val k). rewrite land_127. unfold byte_of. destruct (k <? n - 1).
  - replace (digit val k + 128) with (digit val k + 1 * 2 ^ 7) by lia.
    rewrite Z.mod_add, Z.mod_small by lia. done.
  - apply Z.mod_small. lia.
Qed.

Lemma lor_digit val k : 0 <= k -> Z.lor (low_part val k) (Z.shiftl (digit val k) (7 * k)) = low_part val (k + 1).
Proof. intros Hk. rewrite lor_low, low_part_S by (try apply low_part_bound; lia). done. Qed.

Lemma read5_bytes pos val :
  0 <= val < 2 ^ 32 -> reads pos (VarintCodec_bytes val) ->
  VarintCodec_read5 rd pos = Some (val, pos + VarintCodec_GetOneEncodeLength val).
Proof.
  intros Hv Hr. destruct (encode_length_spec val Hv) as [Hn Hlt]. cbv zeta in *.
  pose proof (reads_byte pos val) as Hb.
  set (n := VarintCodec_GetOneEncodeLength val) in *.
  assert (low_part val n = val) as Hall by (apply low_part_all; lia).
  assert (digit val 0 = low_part val 1) as E0.
  { unfold digit, low_part. simpl (2 ^ (7 * 0)). by rewrite Z.div_1_r. }
  pose proof (lor_digit val 1 ltac:(lia)) as E1. pose proof (lor_digit val 2 ltac:(lia)) as E2.
  pose proof (lor_digit val 3 ltac:(lia)) as E3. pose proof (lor_digit val 4 ltac:(lia)) as E4.
  change (7 * 1) with 7 in E1; change (7 * 2) with 14 in E2; change (7 * 3) with 21 in E3;
    change (7 * 4) with 28 in E4; change (1 + 1) with 2 in E1; change (2 + 1) with 3 in E2;
    change (3 + 1) with 4 in E3; change (4 + 1) with 5 in E4.
  unfold VarintCodec_read5. replace pos with (pos + 0) at 1 by lia.
  rewrite (Hb 0 Hv Hr) by lia. bind_step. rewrite byte_of_test, byte_of_digit, E0.
  destruct (Z.ltb_spec 0 (n - 1)); cbn [negb];
    [|replace n with 1 in * by lia; by rewrite Hall].
  rewrite (Hb 1 Hv Hr) by lia. bind_step. rewrite byte_of_test, byte_of_digit, E1.
  destruct (Z.ltb_spec 1 (n - 1)); cbn [negb];
    [|replace n with 2 in * by lia; by rewrite Hall].
  rewrite (Hb 2 Hv Hr) by lia. bind_step. rewrite byte_of_test, byte_of_digit, E2.
  destruct (Z.ltb_spec 2 (n - 1)); cbn [negb];
    [|replace n with 3 in * by lia; by rewrite Hall].
  rewrite (Hb 3 Hv Hr) by lia. bind_step. rewrite byte_of_test, byte_of_digit, E3.
  destruct (Z.ltb_spec 3 (n - 1)); cbn [negb];
    [|replace n with 4 in * by lia; by rewrite Hall].
  rewrite (Hb 4 Hv Hr) by lia. bind_step. replace n with 5 in * by lia.
  unfold byte_of. change (4 <? 5 - 1) with false. cbv iota.
  change 15 with (Z.ones 4). rewrite Z.land_ones by lia. rewrite Z.mod_small.
  - by rewrite E4, Hall.
  - unfold digit. rewrite Z.mod_small.
    + split; [apply Z.div_pos; lia|]. apply Z.div_lt_upper_bound; lia.
    + split; [apply Z.div_pos; lia|]. apply Z.div_lt_upper_bound; lia.
Qed.

Lemma tail_shift val k n :
  0 <= val < 2 ^ 32 -> 0 <= k <= 4 ->
  VarintCodec_shift (byte_of val n k) (7 * k) = Some (digit val k * 2 ^ (7 * k)).
Proof.
  intros Hv Hk. unfold VarintCodec_shift. rewrite byte_of_digit, Z.shiftl_mul_pow2 by lia.
  pose proof (low_part_S val k ltac:(lia)) as HS. pose proof (low_part_bound val k ltac:(lia)).
  assert (low_part val (k + 1) <= val) by (apply Z.mod_le; lia).
  rewrite (proj2 (Z.ltb_lt (7 * k) 32)), (proj2 (Z.ltb_lt _ (2 ^ 32))) by lia. done.
Qed.

Lemma read_tail_bytes pos val endbyte fuel :
  0 <= val < 2 ^ 32 -> reads pos (VarintCodec_bytes val) ->
  let n := VarintCodec_GetOneEncodeLength val in
  pos + n <= endbyte -> (Z.to_nat n <= fuel)%nat ->
  VarintCodec_read_tail rd fuel pos endbyte 0 0 = Some (Some val, pos + n).
Proof.
  intros Hv Hr n Hend Hfuel. destruct (encode_length_spec val Hv) as [Hn Hlt]. fold n in Hn, Hlt.
  cut (forall j fuel k, (j <= fuel)%nat -> 0 <= k < n -> Z.of_nat j = n - k ->
    VarintCodec_read_tail rd fuel (pos + k) endbyte (low_part val k) (7 * k) = Some (Some val, pos + n)).
  { intros Hc. specialize (Hc (Z.to_nat n) fuel 0). unfold low_part in Hc. simpl (2 ^ (7 * 0)) in Hc.
    rewrite Z.mod_1_r, Z.add_0_r in Hc. apply Hc; lia. }
  clear Hfuel fuel. induction j as [|j IH]; intros fuel k Hj Hk Hjk; [lia|].
  destruct fuel as [|fuel]; [lia|]. cbn [VarintCodec_read_tail].
  rewrite (proj2 (Z.ltb_lt (pos + k) endbyte)), (reads_byte pos val k Hv Hr) by lia. fold n. bind_step.
  rewrite tail_shift by lia. bind_step. rewrite byte_of_test, <- low_part_S by lia.
  assert (0 <= low_part val (k + 1) <= val) as Hlow.
  { split; [apply low_part_bound; lia|apply Z.mod_le; lia]. }
  rewrite u32_small by lia.
  destruct (Z.ltb_spec k (n - 1)); cbn [negb].
  - replace (pos + k + 1) with (pos + (k + 1)) by lia.
    replace (7 * k + 7) with (7 * (k + 1)) by lia. apply IH; lia.
  - replace (k + 1) with n by lia. rewrite low_part_all by lia. do 2 f_equal. lia.
Qed.
End reading.

(** * Whole arrays *)

Definition u32s (l : list Z) : Prop := Forall (fun x => 0 <= x < 2 ^ 32) l.

Lemma vals_u32 d prev l : u32s l -> u32s (VarintCodec_vals d prev l).
Proof.
  intros Hl. revert prev. induction Hl as [|x l Hx Hl IH]; intros prev; constructor; [|apply IH].
  destruct d; [apply u32_bound|done].
Qed.

Lemma length_encode d l :
  u32s l -> Z.of_nat (length (VarintCodec_EncodeArray d l)) = VarintCodec_GetEncodeLength d l.
Proof.
  intros Hl. unfold VarintCodec_EncodeArray, VarintCodec_GetEncodeLength.
  pose proof (vals_u32 d 0 l Hl) as Hv. induction Hv as [|x vs Hx Hv IH]; [done|].
  cbn [map concat foldr]. rewrite length_app, Nat2Z.inj_add, IH, length_bytes by done. done.
Qed.

(** Restoring an element from the previous one and the value coded for it. *)
Lemma delta_restore x prev : 0 <= x < 2 ^ 32 -> u32 (u32 (x - prev) + prev) = x.
Proof.
  intros Hx. unfold u32. rewrite Z.add_mod_idemp_l by lia. replace (x - prev + prev) with x by lia.
  by apply Z.mod_small.
Qed.

Section decode_array.
Context (d : bool) (rd : Z -> option Z) (endbyte : Z).

(** The state of the decoders: the elements still to decode are [l], their
    bytes are at [pos] and end at [endbyte]. *)
Definition coded (pos prev : Z) (l : list Z) : Prop :=
  u32s l /\ reads rd pos (concat (map VarintCodec_bytes (VarintCodec_vals d prev l))) /\
  pos + Z.of_nat (length (concat (map VarintCodec_bytes (VarintCodec_vals d prev l)))) = endbyte.

Definition next_val (prev x : Z) : Z := if d then u32 (x - prev) else x.
Definition next_prev (prev x : Z) : Z := if d then x else prev.

Lemma coded_cons pos prev x l :
  coded pos prev (x :: l) ->
  let n := VarintCodec_GetOneEncodeLength (next_val prev x) in
  0 <= next_val prev x < 2 ^ 32 /\ 0 <= x < 2 ^ 32 /\ reads rd pos (VarintCodec_bytes (next_val prev x)) /\
  1 <= n <= 5 /\ pos + n <= endbyte /\ coded (pos + n) (next_prev prev x) l.
Proof.
  intros (Hl & Hr & He). apply Forall_cons in Hl as [Hx Hl]. cbn [VarintCodec_vals map concat] in *.
  fold (next_val prev x) (next_prev prev x) in Hr, He.
  assert (0 <= next_val prev x < 2 ^ 32) as Hv by (unfold next_val; destruct d; [apply u32_bound|done]).
  apply reads_app in Hr as [Hr1 Hr2]. rewrite length_bytes in Hr2 by done.
  rewrite length_app, Nat2Z.inj_add, length_bytes in He by done.
  destruct (encode_length_spec _ Hv) as [Hn _]. cbv zeta in *.
  split; [done|]. split; [done|]. split; [done|]. split; [done|].
  split; [lia|]. split; [done|]. split; [done|]. lia.
Qed.

Lemma coded_nil pos prev : coded pos prev [] -> pos = endbyte.
Proof. intros (_ & _ & He). simpl in He. lia. Qed.

Lemma coded_le pos prev l : coded pos prev l -> pos <= endbyte.
Proof. intros (_ & _ & He). lia. Qed.

Lemma Decode_tail_coded fuel pos prev l out :
  coded pos prev l -> (Z.to_nat (endbyte - pos) < fuel)%nat ->
  Decode_tail d rd fuel pos endbyte prev out = Some (out ++ l).
Proof.
  revert pos prev l out. induction fuel as [|fuel IH]; intros pos prev l out Hc Hf; [lia|].
  cbn [Decode_tail]. destruct l as [|x l].
  { apply coded_nil in Hc as ->. by rewrite Z.ltb_irrefl, app_nil_r. }
  apply coded_cons in Hc as (Hv & Hx & Hr & Hn & Hend & Hc). cbv zeta in *.
  rewrite (proj2 (Z.ltb_lt pos endbyte)) by lia.
  rewrite (read_tail_bytes rd pos _ endbyte _ Hv Hr) by lia. bind_step.
  pose proof (coded_le _ _ _ Hc). unfold next_val, next_prev in *. destruct d.
  - rewrite delta_restore by done. rewrite (IH _ _ l) by (done || lia). by rewrite <- app_assoc.
  - rewrite (IH _ _ l) by (done || lia). by rewrite <- app_assoc.
Qed.

Lemma Decode_fast_coded fuel pos prev l out :
  coded pos prev l -> (Z.to_nat (endbyte - pos) < fuel)%nat ->
  exists pos' prev' l1 l2, Decode_fast d rd fuel pos endbyte prev out = Some (pos', prev', out ++ l1) /\
    l = l1 ++ l2 /\ coded pos' prev' l2 /\ pos <= pos'.
Proof.
  revert pos prev l out. induction fuel as [|fuel IH]; intros pos prev l out Hc Hf; [lia|].
  cbn [Decode_fast]. destruct (Z.ltb_spec (pos + 5) endbyte) as [Hlt|Hge].
  2: { exists pos, prev, [], l. rewrite app_nil_r. auto with lia. }
  destruct l as [|x l]; [apply coded_nil in Hc; lia|].
  apply coded_cons in Hc as (Hv & Hx & Hr & Hn & Hend & Hc). cbv zeta in *.
  rewrite (read5_bytes rd pos _ Hv Hr). bind_step. pose proof (coded_le _ _ _ Hc).
  assert (exists pos' prev' l1 l2, Decode_fast d rd fuel (pos + VarintCodec_GetOneEncodeLength (next_val prev x))
    endbyte (next_prev prev x) (out ++ [x]) = Some (pos', prev', (out ++ [x]) ++ l1) /\ l = l1 ++ l2 /\
    coded pos' prev' l2 /\ pos + VarintCodec_GetOneEncodeLength (next_val prev x) <= pos')
    as (pos' & prev' & l1 & l2 & E & -> & Hc' & Hp) by (apply IH; done || lia).
  exists pos', prev', (x :: l1), l2. rewrite <- app_assoc in E. cbn [app] in E.
  unfold next_val, next_prev in *.
  destruct d; rewrite ?delta_restore by done; rewrite E; auto with lia.
Qed.

Lemma decode_coded l : coded 0 0 l -> 0 <= endbyte -> VarintCodec_decode d rd endbyte = Some l.
Proof.
  intros Hc He. unfold VarintCodec_decode.
  destruct (Decode_fast_coded (S (Z.to_nat endbyte)) 0 0 l [] Hc) as (pos & prev & l1 & l2 & E & -> & Hc2 & Hp);
    [lia|]. rewrite E. bind_step. cbn [app]. by rewrite (Decode_tail_coded _ _ _ l2) by (done || lia).
Qed.
End decode_array.

Lemma coded_array d l :
  u32s l -> coded d (zget (VarintCodec_EncodeArray d l)) (VarintCodec_GetEncodeLength d l) 0 0 l.
Proof.
  intros Hl. split; [done|]. split.
  - intros k b Hk. rewrite zget_lookup by lia. by rewrite Z.add_0_l, Nat2Z.id.
  - rewrite <- length_encode by done. done.
Qed.

Lemma decode_encode d l :
  u32s l -> VarintCodec_Decode d (VarintCodec_EncodeArray d l) (VarintCodec_GetEncodeLength d l) = Some l.
Proof.
  intros Hl. apply decode_coded; [by apply coded_array|].
  rewrite <- length_encode by done. lia.
Qed.

(** * Search *)

(** The reference search of a sorted list, the first element apart. *)
Fixpoint find_ref (l : list Z) (e : Z) : FindRes :=
  match l with
  | [] => GRATER_THAN_MAX
  | x :: l' => if e =? x then EXIST else if e <? x then NOT_EXIST else find_ref l' e
  end.

Definition find_sorted (l : list Z) (e : Z) : FindRes :=
  match l with
  | [] => NOT_EXIST
  | x :: l' => if e =? x then EXIST else if e <? x then LESS_THAN_MIN else find_ref l' e
  end.

Lemma sorted_cons_inv (p : Z) l :
  StronglySorted Z.lt (p :: l) -> StronglySorted Z.lt l /\ forall x, x ∈ l -> p < x.
Proof. intros [H1 H2]%StronglySorted_inv. by rewrite Forall_forall in H2. Qed.

Section find_array.
Context (rd : Z -> option Z) (endbyte : Z).

Lemma Find_tail_above fuel pos prev l e :
  coded true rd endbyte pos prev l -> StronglySorted Z.lt (prev :: l) -> e < prev ->
  (Z.to_nat (endbyte - pos) < fuel)%nat ->
  exists p, Find_tail true rd fuel pos endbyte prev e = Some (NOT_EXIST, p).
Proof.
  revert pos prev l. induction fuel as [|fuel IH]; intros pos prev l Hc Hs He Hf; [lia|].
  cbn [Find_tail]. destruct l as [|x l].
  { apply coded_nil in Hc as ->. rewrite Z.ltb_irrefl, (proj2 (Z.ltb_ge prev e)) by lia. eauto. }
  apply coded_cons in Hc as (Hv & Hx & Hr & Hn & Hend & Hc). cbv zeta in *.
  rewrite (proj2 (Z.ltb_lt pos endbyte)) by lia.
  rewrite (read_tail_bytes rd pos _ endbyte _ Hv Hr) by lia. bind_step.
  pose proof (coded_le _ _ _ _ _ _ Hc). unfold next_val, next_prev in *.
  rewrite delta_restore by done. apply sorted_cons_inv in Hs as [Hs Hlt].
  specialize (Hlt x ltac:(apply elem_of_cons; auto)).
  rewrite (proj2 (Z.eqb_neq e x)) by lia. destruct (e <? _); [eauto|].
  apply (IH _ _ l); done || lia.
Qed.

Lemma Find_tail_coded fuel pos prev l e :
  coded true rd endbyte pos prev l -> StronglySorted Z.lt (prev :: l) -> prev < e -> 0 <= prev ->
  (Z.to_nat (endbyte - pos) < fuel)%nat ->
  exists p, Find_tail true rd fuel pos endbyte prev e = Some (find_ref l e, p).
Proof.
  revert pos prev l. induction fuel as [|fuel IH]; intros pos prev l Hc Hs He Hprev Hf; [lia|].
  cbn [Find_tail]. destruct l as [|x l].
  { apply coded_nil in Hc as ->. rewrite Z.ltb_irrefl, (proj2 (Z.ltb_lt prev e)) by lia. eauto. }
  apply coded_cons in Hc as (Hv & Hx & Hr & Hn & Hend & Hc). cbv zeta in *.
  rewrite (proj2 (Z.ltb_lt pos endbyte)) by lia.
  rewrite (read_tail_bytes rd pos _ endbyte _ Hv Hr) by lia. bind_step.
  pose proof (coded_le _ _ _ _ _ _ Hc). unfold next_val, next_prev in *.
  rewrite delta_restore by done. apply sorted_cons_inv in Hs as [Hs Hlt].
  specialize (Hlt x ltac:(apply elem_of_cons; auto)). rewrite (u32_small (x - prev)) in * by lia.
  cbn [find_ref]. destruct (Z.eqb_spec e x) as [->|Hne]; [eauto|].
  destruct (Z.ltb_spec e (x - prev)); [rewrite (proj2 (Z.ltb_lt e x)) by lia; eauto|].
  destruct (Z.ltb_spec e x).
  - apply (Find_tail_above _ _ _ l); done || lia.
  - apply (IH _ _ l); done || lia.
Qed.

Lemma Find_fast_coded fuel pos prev l e :
  coded true rd endbyte pos prev l -> StronglySorted Z.lt (prev :: l) -> prev < e -> 0 <= prev ->
  (Z.to_nat (endbyte - pos) < fuel)%nat ->
  (exists p, Find_fast true rd fuel pos endbyte prev e = Some (inl (find_ref l e, p))) \/
  (exists pos' prev' l2, Find_fast true rd fuel pos endbyte prev e = Some (inr (pos', prev')) /\
     coded true rd endbyte pos' prev' l2 /\ StronglySorted Z.lt (prev' :: l2) /\ prev' < e /\
     0 <= prev' /\ pos <= pos' /\ find_ref l e = find_ref l2 e).
Proof.
  revert pos prev l. induction fuel as [|fuel IH]; intros pos prev l Hc Hs He Hprev Hf; [lia|].
  cbn [Find_fast]. destruct (Z.ltb_spec (pos + 5) endbyte) as [Hlt5|Hge].
  2: { right. exists pos, prev, l. auto 10 with lia. }
  destruct l as [|x l]; [apply coded_nil in Hc; lia|].
  apply coded_cons in Hc as (Hv & Hx & Hr & Hn & Hend & Hc). cbv zeta in *.
  rewrite (read5_bytes rd pos _ Hv Hr). bind_step. pose proof (coded_le _ _ _ _ _ _ Hc).
  unfold next_val, next_prev in *. rewrite delta_restore by done.
  apply sorted_cons_inv in Hs as [Hs Hlt]. specialize (Hlt x ltac:(apply elem_of_cons; auto)).
  cbn [find_ref]. destruct (Z.eqb_spec e x) as [->|Hne]; [eauto|].
  destruct (Z.ltb_spec e x); [eauto|].
  destruct (IH _ _ l Hc Hs) as [H1|(p & q & l2 & E & Hc2 & Hs2 & Hq & Hq0 & Hp & Hf2)]; [lia|lia|lia|auto|].
  right. exists p, q, l2. auto 10 with lia.
Qed.

Lemma Find_coded l e :
  coded true rd endbyte 0 0 l -> StronglySorted Z.lt l -> l <> [] -> 0 <= e -> 0 <= endbyte ->
  exists p, VarintCodec_Find true rd endbyte e = Some (find_sorted l e, p).
Proof.
  intros Hc Hs Hne He Hend0. destruct l as [|x l]; [done|]. unfold VarintCodec_Find.
  apply coded_cons in Hc as (Hv & Hx & Hr & Hn & Hend & Hc). cbv zeta in *.
  rewrite (read5_bytes rd 0 _ Hv Hr). bind_step. pose proof (coded_le _ _ _ _ _ _ Hc).
  unfold next_val, next_prev in *. rewrite delta_restore by done.
  cbn [find_sorted]. destruct (Z.eqb_spec e x) as [->|Hex]; [bind_step; eauto|].
  destruct (Z.ltb_spec e x); bind_step; [eauto|].
  destruct (Find_fast_coded (S (Z.to_nat endbyte)) _ x l e Hc Hs) as
    [(p & ->)|(p & q & l2 & -> & Hc2 & Hs2 & Hq & Hq0 & Hp & ->)]; [lia|lia|lia|bind_step; eauto|].
  bind_step. apply Find_tail_coded; done || lia.
Qed.
End find_array.

Lemma find_sorted_spec l e :
  StronglySorted Z.lt l -> l <> [] ->
  match find_sorted l e with
  | EXIST => e ∈ l
  | LESS_THAN_MIN => forall x, x ∈ l -> e < x
  | GRATER_THAN_MAX => forall x, x ∈ l -> x < e
  | NOT_EXIST => e ∉ l /\ (exists x, x ∈ l /\ x < e) /\ (exists x, x ∈ l /\ e < x)
  end.
Proof.
  intros Hs Hne. destruct l as [|x l]; [done|]. cbn [find_sorted].
  pose proof (sorted_cons_inv _ _ Hs) as [Hs' Hlt].
  destruct (Z.eqb_spec e x) as [->|Hex]; [apply elem_of_cons; auto|].
  destruct (Z.ltb_spec e x).
  { intros y [->|Hy]%elem_of_cons; [done|]. apply Hlt in Hy. lia. }
  assert (forall l, StronglySorted Z.lt l -> match find_ref l e with
    | EXIST => e ∈ l | GRATER_THAN_MAX => forall y, y ∈ l -> y < e
    | NOT_EXIST => e ∉ l /\ exists y, y ∈ l /\ e < y | LESS_THAN_MIN => False end) as Href.
  { clear. induction l as [|y l IH]; intros Hs; cbn [find_ref].
    - intros y Hy. by apply not_elem_of_nil in Hy.
    - apply sorted_cons_inv in Hs as [Hs Hlt]. specialize (IH Hs).
      destruct (Z.eqb_spec e y) as [->|Hey]; [apply elem_of_cons; auto|].
      destruct (Z.ltb_spec e y).
      + split; [|exists y; rewrite elem_of_cons; auto].
        intros [->|Hin]%elem_of_cons; [done|]. apply Hlt in Hin. lia.
      + destruct (find_ref l e); [apply elem_of_cons; auto|done| |].
        * intros z [->|Hz]%elem_of_cons; [lia|auto].
        * destruct IH as [Hn (z & Hz & Hez)]. split.
          -- intros [->|Hin]%elem_of_cons; done.
          -- exists z. rewrite elem_of_cons. auto. }
  specialize (Href l Hs'). destruct (find_ref l e); [apply elem_of_cons; auto|done| |].
  - intros y [->|Hy]%elem_of_cons; [lia|auto].
  - destruct Href as [Hn (z & Hz & Hez)]. split; [|split].
    + intros [->|Hin]%elem_of_cons; done.
    + exists x. rewrite elem_of_cons. auto with lia.
    + exists z. rewrite elem_of_cons. auto.
Qed.

(** * Writing through pointers *)

Lemma write_through bs mem out :
  NoDup out -> (length bs <= length out)%nat ->
  Forall (fun p => 0 <= p < Z.of_nat (length mem)) out ->
  exists mem', foldM (fun b '(mem, k) => p ← zget out k; mem ← zset mem p b; Some (mem, k + 1))
        bs (mem, 0) = Some (mem', Z.of_nat (length bs)) /\ length mem' = length mem /\
    (forall k b, bs !! k = Some b -> VarintCodec_through mem' out (Z.of_nat k) = Some b) /\
    (forall p, p ∉ take (length bs) out -> zget mem' p = zget mem p).
Proof.
  intros Hnd Hlen Hrange.
  destruct (foldM_inv (fun pre '(mem', k) => k = Z.of_nat (length pre) /\ length mem' = length mem /\
      (forall i b, pre !! i = Some b -> VarintCodec_through mem' out (Z.of_nat i) = Some b) /\
      (forall p, p ∉ take (length pre) out -> zget mem' p = zget mem p))
    (fun b '(mem, k) => p ← zget out k; mem ← zset mem p b; Some (mem, k + 1)) bs (mem, 0))
    as ([mem' k] & E & -> & Hm & Hthr & Hframe); [done| |eauto].
  intros pre b post [mem1 k] -> (-> & Hm & Hthr & Hframe). rewrite length_app in Hlen. cbn [length] in Hlen.
  destruct (lookup_lt_is_Some_2 out (length pre)) as [p Hp]; [lia|].
  rewrite zget_lookup, Nat2Z.id, Hp by lia. bind_step.
  pose proof (proj1 (Forall_lookup _ _) Hrange _ _ Hp) as Hpr. cbv beta in Hpr.
  destruct (zset mem1 p b) as [mem2|] eqn:E2; [|rewrite zset_Some in E2 by lia; done]. bind_step.
  eexists. split; [done|]. rewrite length_app. cbn [length]. split; [lia|].
  split; [by rewrite (zset_length _ _ _ _ E2)|]. split.
  - intros i x Hi. unfold VarintCodec_through in *. apply lookup_app_Some in Hi as [Hi|[Hge Hi]].
    + specialize (Hthr i x Hi). destruct (zget out (Z.of_nat i)) as [q|] eqn:Eq; [|done].
      bind_step. rewrite (zget_zset _ _ _ _ _ E2). destruct (Z.eqb_spec q p) as [->|]; [|done].
      rewrite zget_lookup, Nat2Z.id in Eq by lia.
      pose proof (NoDup_lookup _ _ _ _ Hnd Eq Hp). apply lookup_lt_Some in Hi. lia.
    + apply list_lookup_singleton_Some in Hi as [Hi0 <-].
      replace i with (length pre) by lia. rewrite zget_lookup, Nat2Z.id, Hp by lia. bind_step.
      rewrite (zget_zset _ _ _ _ _ E2), Z.eqb_refl. done.
  - intros q Hq. rewrite (zget_zset _ _ _ _ _ E2).
    replace (length pre + 1)%nat with (S (length pre)) in Hq by lia.
    rewrite (take_S_r _ _ p) in Hq by done. rewrite not_elem_of_app, list_elem_of_singleton in Hq.
    destruct Hq as [Hq Hne]. rewrite (proj2 (Z.eqb_neq q p)) by done. auto.
Qed.

Lemma EncodeUnDirectArray_coded d l mem out :
  u32s l -> NoDup out -> VarintCodec_GetEncodeLength d l <= Z.of_nat (length out) ->
  Forall (fun p => 0 <= p < Z.of_nat (length mem)) out ->
  exists mem', VarintCodec_EncodeUnDirectArray d l mem out =
      Some (mem', VarintCodec_GetEncodeLength d l) /\ length mem' = length mem /\
    coded d (VarintCodec_through mem' out) (VarintCodec_GetEncodeLength d l) 0 0 l /\
    (forall p, p ∉ take (Z.to_nat (VarintCodec_GetEncodeLength d l)) out -> zget mem' p = zget mem p).
Proof.
  intros Hl Hnd Hlen Hr. unfold VarintCodec_EncodeUnDirectArray.
  pose proof (length_encode d l Hl) as HL.
  destruct (write_through (VarintCodec_EncodeArray d l) mem out Hnd) as (mem' & E & Hm & Ht & Hf);
    [lia|done|].
  exists mem'. rewrite E, HL. split; [done|]. split; [done|]. split.
  - split; [done|]. split; [|by rewrite <- length_encode].
    intros k b Hk. rewrite Z.add_0_l. by apply Ht.
  - intros p Hp. apply Hf. by rewrite <- (Nat2Z.id (length _)), HL.
Qed.

(** * Properties *)

(** C26: decoding the bytes of a list, by differences or not, through the
    unrolled and the tail loop, gives the list back; and the number of bytes is
    what [GetEncodeLength] announces. *)
Theorem Varint_roundtrip (d : bool) (l : list Z) (Hl : Forall (fun x => 0 <= x < 2 ^ 32) l) :
  VarintCodec_Decode d (VarintCodec_EncodeArray d l) (VarintCodec_GetEncodeLength d l) = Some l /\
  Z.of_nat (length (VarintCodec_EncodeArray d l)) = VarintCodec_GetEncodeLength d l.
Proof. split; [by apply decode_encode|by apply length_encode]. Qed.

Lemma Varint_roundtrip_witness :
  VarintCodec_Decode true (VarintCodec_EncodeArray true [5; 3; 1000; 300000; 4294967295])
    (VarintCodec_GetEncodeLength true [5; 3; 1000; 300000; 4294967295]) =
    Some [5; 3; 1000; 300000; 4294967295] /\
  Z.of_nat (length (VarintCodec_EncodeArray true [5; 3; 1000; 300000; 4294967295])) =
    VarintCodec_GetEncodeLength true [5; 3; 1000; 300000; 4294967295].
Proof. apply (Varint_roundtrip true [5; 3; 1000; 300000; 4294967295]). repeat constructor; lia. Defined.

(** The bytes written through an array of distinct pointers are decoded
    and searched through it: the list comes back, memory outside the pointers
    used is untouched, and [Find] classifies an element of a sorted list. *)
Theorem Varint_undirect (l mem out : list Z) (e : Z)
    (Hl : Forall (fun x => 0 <= x < 2 ^ 32) l) (Hs : StronglySorted Z.lt l) (Hne : l <> [])
    (Hnd : NoDup out) (Hlen : VarintCodec_GetEncodeLength true l <= Z.of_nat (length out))
    (Hr : Forall (fun p => 0 <= p < Z.of_nat (length mem)) out) (He : 0 <= e) :
  exists mem' p r, let n := VarintCodec_GetEncodeLength true l in
    VarintCodec_EncodeUnDirectArray true l mem out = Some (mem', n) /\
    (forall q, q ∉ take (Z.to_nat n) out -> zget mem' q = zget mem q) /\
    VarintCodec_DecodeUnDirectArray true mem' out n = Some l /\
    VarintCodec_FindUnDirect true mem' out n e = Some (r, p) /\
    match r with
    | EXIST => e ∈ l
    | LESS_THAN_MIN => forall x, x ∈ l -> e < x
    | GRATER_THAN_MAX => forall x, x ∈ l -> x < e
    | NOT_EXIST => e ∉ l /\ (exists x, x ∈ l /\ x < e) /\ (exists x, x ∈ l /\ e < x)
    end.
Proof.
  destruct (EncodeUnDirectArray_coded true l mem out Hl Hnd Hlen Hr) as (mem' & E & _ & Hc & Hf).
  assert (0 <= VarintCodec_GetEncodeLength true l) as H0 by (rewrite <- length_encode by done; lia).
  destruct (Find_coded _ _ l e Hc Hs Hne He H0) as [p Hp].
  exists mem', p, (find_sorted l e). cbv zeta. split; [done|]. split; [done|].
  split; [by apply decode_coded|]. split; [done|]. by apply find_sorted_spec.
Qed.

Lemma Varint_undirect_witness :
  exists mem' p r, let n := VarintCodec_GetEncodeLength true [7; 500; 70000] in
    VarintCodec_EncodeUnDirectArray true [7; 500; 70000] (repeat 0 9) [8; 2; 4; 0; 6; 1; 3] = Some (mem', n) /\
    (forall q, q ∉ take (Z.to_nat n) [8; 2; 4; 0; 6; 1; 3] -> zget mem' q = zget (repeat 0 9) q) /\
    VarintCodec_DecodeUnDirectArray true mem' [8; 2; 4; 0; 6; 1; 3] n = Some [7; 500; 70000] /\
    VarintCodec_FindUnDirect true mem' [8; 2; 4; 0; 6; 1; 3] n 501 = Some (r, p) /\
    match r with
    | EXIST => 501 ∈ [7; 500; 70000]
    | LESS_THAN_MIN => forall x, x ∈ [7; 500; 70000] -> 501 < x
    | GRATER_THAN_MAX => forall x, x ∈ [7; 500; 70000] -> x < 501
    | NOT_EXIST => 501 ∉ [7; 500; 70000] /\ (exists x, x ∈ [7; 500; 70000] /\ x < 501) /\
        (exists x, x ∈ [7; 500; 70000] /\ 501 < x)
    end.
Proof.
  apply (Varint_undirect [7; 500; 70000] (repeat 0 9) [8; 2; 4; 0; 6; 1; 3] 501).
  - repeat constructor; lia.
  - repeat constructor; lia.
  - discriminate.
  - apply (bool_decide_unpack _). vm_compute. exact I.
  - vm_compute. congruence.
  - repeat constructor; simpl; lia.
  - lia.
Defined.
