(* ===== verification/SimdTables.v ===== *)
(** The tables of the SIMD codec ([src/include/encode/codec/SIMD/delta_simd_codec.h]),
    as the source writes them. The two tables of 256 rows are in two halves, the
    control bytes below and from 128 on. *)
From S2P Require Import Prelude.
From stdpp Require Import options.
Local Open Scope Z_scope.

(** The data length of a control byte. *)
Definition lengthTable : list Z :=
  [4; 5; 6; 7; 5; 6; 7; 8; 6; 7; 8; 9; 7; 8; 9; 10; 5; 6; 7; 8; 6; 7; 8; 9;
   7; 8; 9; 10; 8; 9; 10; 11; 6; 7; 8; 9; 7; 8; 9; 10; 8; 9; 10; 11; 9; 10; 11; 12;
   7; 8; 9; 10; 8; 9; 10; 11; 9; 10; 11; 12; 10; 11; 12; 13; 5; 6; 7; 8; 6; 7; 8; 9;
   7; 8; 9; 10; 8; 9; 10; 11; 6; 7; 8; 9; 7; 8; 9; 10; 8; 9; 10; 11; 9; 10; 11; 12;
   7; 8; 9; 10; 8; 9; 10; 11; 9; 10; 11; 12; 10; 11; 12; 13; 8; 9; 10; 11; 9; 10; 11; 12;
   10; 11; 12; 13; 11; 12; 13; 14; 6; 7; 8; 9; 7; 8; 9; 10; 8; 9; 10; 11; 9; 10; 11; 12;
   7; 8; 9; 10; 8; 9; 10; 11; 9; 10; 11; 12; 10; 11; 12; 13; 8; 9; 10; 11; 9; 10; 11; 12;
   10; 11; 12; 13; 11; 12; 13; 14; 9; 10; 11; 12; 10; 11; 12; 13; 11; 12; 13; 14; 12; 13; 14; 15;
   7; 8; 9; 10; 8; 9; 10; 11; 9; 10; 11; 12; 10; 11; 12; 13; 8; 9; 10; 11; 9; 10; 11; 12;
   10; 11; 12; 13; 11; 12; 13; 14; 9; 10; 11; 12; 10; 11; 12; 13; 11; 12; 13; 14; 12; 13; 14; 15;
   10; 11; 12; 13; 11; 12; 13; 14; 12; 13; 14; 15; 13; 14; 15; 16].

(** The running lengths of the four values of a control byte. *)
Definition TotalLengthTable_lo : list (list Z) :=
  [[1; 2; 3; 4];
   [2; 3; 4; 5];
   [3; 4; 5; 6];
   [4; 5; 6; 7];
   [1; 3; 4; 5];
   [2; 4; 5; 6];
   [3; 5; 6; 7];
   [4; 6; 7; 8];
   [1; 4; 5; 6];
   [2; 5; 6; 7];
   [3; 6; 7; 8];
   [4; 7; 8; 9];
   [1; 5; 6; 7];
   [2; 6; 7; 8];
   [3; 7; 8; 9];
   [4; 8; 9; 10];
   [1; 2; 4; 5];
   [2; 3; 5; 6];
   [3; 4; 6; 7];
   [4; 5; 7; 8];
   [1; 3; 5; 6];
   [2; 4; 6; 7];
   [3; 5; 7; 8];
   [4; 6; 8; 9];
   [1; 4; 6; 7];
   [2; 5; 7; 8];
   [3; 6; 8; 9];
   [4; 7; 9; 10];
   [1; 5; 7; 8];
   [2; 6; 8; 9];
   [3; 7; 9; 10];
   [4; 8; 10; 11];
   [1; 2; 5; 6];
   [2; 3; 6; 7];
   [3; 4; 7; 8];
   [4; 5; 8; 9];
   [1; 3; 6; 7];
   [2; 4; 7; 8];
   [3; 5; 8; 9];
   [4; 6; 9; 10];
   [1; 4; 7; 8];
   [2; 5; 8; 9];
   [3; 6; 9; 10];
   [4; 7; 10; 11];
   [1; 5; 8; 9];
   [2; 6; 9; 10];
   [3; 7; 10; 11];
   [4; 8; 11; 12];
   [1; 2; 6; 7];
   [2; 3; 7; 8];
   [3; 4; 8; 9];
   [4; 5; 9; 10];
   [1; 3; 7; 8];
   [2; 4; 8; 9];
   [3; 5; 9; 10];
   [4; 6; 10; 11];
   [1; 4; 8; 9];
   [2; 5; 9; 10];
   [3; 6; 10; 11];
   [4; 7; 11; 12];
   [1; 5; 9; 10];
   [2; 6; 10; 11];
   [3; 7; 11; 12];
   [4; 8; 12; 13];
   [1; 2; 3; 5];
   [2; 3; 4; 6];
   [3; 4; 5; 7];
   [4; 5; 6; 8];
   [1; 3; 4; 6];
   [2; 4; 5; 7];
   [3; 5; 6; 8];
   [4; 6; 7; 9];
   [1; 4; 5; 7];
   [2; 5; 6; 8];
   [3; 6; 7; 9];
   [4; 7; 8; 10];
   [1; 5; 6; 8];
   [2; 6; 7; 9];
   [3; 7; 8; 10];
   [4; 8; 9; 11];
   [1; 2; 4; 6];
   [2; 3; 5; 7];
   [3; 4; 6; 8];
   [4; 5; 7; 9];
   [1; 3; 5; 7];
   [2; 4; 6; 8];
   [3; 5; 7; 9];
   [4; 6; 8; 10];
   [1; 4; 6; 8];
   [2; 5; 7; 9];
   [3; 6; 8; 10];
   [4; 7; 9; 11];
   [1; 5; 7; 9];
   [2; 6; 8; 10];
   [3; 7; 9; 11];
   [4; 8; 10; 12];
   [1; 2; 5; 7];
   [2; 3; 6; 8];
   [3; 4; 7; 9];
   [4; 5; 8; 10];
   [1; 3; 6; 8];
   [2; 4; 7; 9];
   [3; 5; 8; 10];
   [4; 6; 9; 11];
   [1; 4; 7; 9];
   [2; 5; 8; 10];
   [3; 6; 9; 11];
   [4; 7; 10; 12];
   [1; 5; 8; 10];
   [2; 6; 9; 11];
   [3; 7; 10; 12];
   [4; 8; 11; 13];
   [1; 2; 6; 8];
   [2; 3; 7; 9];
   [3; 4; 8; 10];
   [4; 5; 9; 11];
   [1; 3; 7; 9];
   [2; 4; 8; 10];
   [3; 5; 9; 11];
   [4; 6; 10; 12];
   [1; 4; 8; 10];
   [2; 5; 9; 11];
   [3; 6; 10; 12];
   [4; 7; 11; 13];
   [1; 5; 9; 11];
   [2; 6; 10; 12];
   [3; 7; 11; 13];
   [4; 8; 12; 14]].

Definition TotalLengthTable_hi : list (list Z) :=
  [[1; 2; 3; 6];
   [2; 3; 4; 7];
   [3; 4; 5; 8];
   [4; 5; 6; 9];
   [1; 3; 4; 7];
   [2; 4; 5; 8];
   [3; 5; 6; 9];
   [4; 6; 7; 10];
   [1; 4; 5; 8];
   [2; 5; 6; 9];
   [3; 6; 7; 10];
   [4; 7; 8; 11];
   [1; 5; 6; 9];
   [2; 6; 7; 10];
   [3; 7; 8; 11];
   [4; 8; 9; 12];
   [1; 2; 4; 7];
   [2; 3; 5; 8];
   [3; 4; 6; 9];
   [4; 5; 7; 10];
   [1; 3; 5; 8];
   [2; 4; 6; 9];
   [3; 5; 7; 10];
   [4; 6; 8; 11];
   [1; 4; 6; 9];
   [2; 5; 7; 10];
   [3; 6; 8; 11];
   [4; 7; 9; 12];
   [1; 5; 7; 10];
   [2; 6; 8; 11];
   [3; 7; 9; 12];
   [4; 8; 10; 13];
   [1; 2; 5; 8];
   [2; 3; 6; 9];
   [3; 4; 7; 10];
   [4; 5; 8; 11];
   [1; 3; 6; 9];
   [2; 4; 7; 10];
   [3; 5; 8; 11];
   [4; 6; 9; 12];
   [1; 4; 7; 10];
   [2; 5; 8; 11];
   [3; 6; 9; 12];
   [4; 7; 10; 13];
   [1; 5; 8; 11];
   [2; 6; 9; 12];
   [3; 7; 10; 13];
   [4; 8; 11; 14];
   [1; 2; 6; 9];
   [2; 3; 7; 10];
   [3; 4; 8; 11];
   [4; 5; 9; 12];
   [1; 3; 7; 10];
   [2; 4; 8; 11];
   [3; 5; 9; 12];
   [4; 6; 10; 13];
   [1; 4; 8; 11];
   [2; 5; 9; 12];
   [3; 6; 10; 13];
   [4; 7; 11; 14];
   [1; 5; 9; 12];
   [2; 6; 10; 13];
   [3; 7; 11; 14];
   [4; 8; 12; 15];
   [1; 2; 3; 7];
   [2; 3; 4; 8];
   [3; 4; 5; 9];
   [4; 5; 6; 10];
   [1; 3; 4; 8];
   [2; 4; 5; 9];
   [3; 5; 6; 10];
   [4; 6; 7; 11];
   [1; 4; 5; 9];
   [2; 5; 6; 10];
   [3; 6; 7; 11];
   [4; 7; 8; 12];
   [1; 5; 6; 10];
   [2; 6; 7; 11];
   [3; 7; 8; 12];
   [4; 8; 9; 13];
   [1; 2; 4; 8];
   [2; 3; 5; 9];
   [3; 4; 6; 10];
   [4; 5; 7; 11];
   [1; 3; 5; 9];
   [2; 4; 6; 10];
   [3; 5; 7; 11];
   [4; 6; 8; 12];
   [1; 4; 6; 10];
   [2; 5; 7; 11];
   [3; 6; 8; 12];
   [4; 7; 9; 13];
   [1; 5; 7; 11];
   [2; 6; 8; 12];
   [3; 7; 9; 13];
   [4; 8; 10; 14];
   [1; 2; 5; 9];
   [2; 3; 6; 10];
   [3; 4; 7; 11];
   [4; 5; 8; 12];
   [1; 3; 6; 10];
   [2; 4; 7; 11];
   [3; 5; 8; 12];
   [4; 6; 9; 13];
   [1; 4; 7; 11];
   [2; 5; 8; 12];
   [3; 6; 9; 13];
   [4; 7; 10; 14];
   [1; 5; 8; 12];
   [2; 6; 9; 13];
   [3; 7; 10; 14];
   [4; 8; 11; 15];
   [1; 2; 6; 10];
   [2; 3; 7; 11];
   [3; 4; 8; 12];
   [4; 5; 9; 13];
   [1; 3; 7; 11];
   [2; 4; 8; 12];
   [3; 5; 9; 13];
   [4; 6; 10; 14];
   [1; 4; 8; 12];
   [2; 5; 9; 13];
   [3; 6; 10; 14];
   [4; 7; 11; 15];
   [1; 5; 9; 13];
   [2; 6; 10; 14];
   [3; 7; 11; 15];
   [4; 8; 12; 16]].

Definition TotalLengthTable : list (list Z) := TotalLengthTable_lo ++ TotalLengthTable_hi.

(** The byte shuffle of a control byte. *)
Definition shuffleTable_lo : list (list Z) :=
  [[0; -1; -1; -1; 1; -1; -1; -1; 2; -1; -1; -1; 3; -1; -1; -1];
   [0; 1; -1; -1; 2; -1; -1; -1; 3; -1; -1; -1; 4; -1; -1; -1];
   [0; 1; 2; -1; 3; -1; -1; -1; 4; -1; -1; -1; 5; -1; -1; -1];
   [0; 1; 2; 3; 4; -1; -1; -1; 5; -1; -1; -1; 6; -1; -1; -1];
   [0; -1; -1; -1; 1; 2; -1; -1; 3; -1; -1; -1; 4; -1; -1; -1];
   [0; 1; -1; -1; 2; 3; -1; -1; 4; -1; -1; -1; 5; -1; -1; -1];
   [0; 1; 2; -1; 3; 4; -1; -1; 5; -1; -1; -1; 6; -1; -1; -1];
   [0; 1; 2; 3; 4; 5; -1; -1; 6; -1; -1; -1; 7; -1; -1; -1];
   [0; -1; -1; -1; 1; 2; 3; -1; 4; -1; -1; -1; 5; -1; -1; -1];
   [0; 1; -1; -1; 2; 3; 4; -1; 5; -1; -1; -1; 6; -1; -1; -1];
   [0; 1; 2; -1; 3; 4; 5; -1; 6; -1; -1; -1; 7; -1; -1; -1];
   [0; 1; 2; 3; 4; 5; 6; -1; 7; -1; -1; -1; 8; -1; -1; -1];
   [0; -1; -1; -1; 1; 2; 3; 4; 5; -1; -1; -1; 6; -1; -1; -1];
   [0; 1; -1; -1; 2; 3; 4; 5; 6; -1; -1; -1; 7; -1; -1; -1];
   [0; 1; 2; -1; 3; 4; 5; 6; 7; -1; -1; -1; 8; -1; -1; -1];
   [0; 1; 2; 3; 4; 5; 6; 7; 8; -1; -1; -1; 9; -1; -1; -1];
   [0; -1; -1; -1; 1; -1; -1; -1; 2; 3; -1; -1; 4; -1; -1; -1];
   [0; 1; -1; -1; 2; -1; -1; -1; 3; 4; -1; -1; 5; -1; -1; -1];
   [0; 1; 2; -1; 3; -1; -1; -1; 4; 5; -1; -1; 6; -1; -1; -1];
   [0; 1; 2; 3; 4; -1; -1; -1; 5; 6; -1; -1; 7; -1; -1; -1];
   [0; -1; -1; -1; 1; 2; -1; -1; 3; 4; -1; -1; 5; -1; -1; -1];
   [0; 1; -1; -1; 2; 3; -1; -1; 4; 5; -1; -1; 6; -1; -1; -1];
   [0; 1; 2; -1; 3; 4; -1; -1; 5; 6; -1; -1; 7; -1; -1; -1];
   [0; 1; 2; 3; 4; 5; -1; -1; 6; 7; -1; -1; 8; -1; -1; -1];
   [0; -1; -1; -1; 1; 2; 3; -1; 4; 5; -1; -1; 6; -1; -1; -1];
   [0; 1; -1; -1; 2; 3; 4; -1; 5; 6; -1; -1; 7; -1; -1; -1];
   [0; 1; 2; -1; 3; 4; 5; -1; 6; 7; -1; -1; 8; -1; -1; -1];
   [0; 1; 2; 3; 4; 5; 6; -1; 7; 8; -1; -1; 9; -1; -1; -1];
   [0; -1; -1; -1; 1; 2; 3; 4; 5; 6; -1; -1; 7; -1; -1; -1];
   [0; 1; -1; -1; 2; 3; 4; 5; 6; 7; -1; -1; 8; -1; -1; -1];
   [0; 1; 2; -1; 3; 4; 5; 6; 7; 8; -1; -1; 9; -1; -1; -1];
   [0; 1; 2; 3; 4; 5; 6; 7; 8; 9; -1; -1; 10; -1; -1; -1];
   [0; -1; -1; -1; 1; -1; -1; -1; 2; 3; 4; -1; 5; -1; -1; -1];
   [0; 1; -1; -1; 2; -1; -1; -1; 3; 4; 5; -1; 6; -1; -1; -1];
   [0; 1; 2; -1; 3; -1; -1; -1; 4; 5; 6; -1; 7; -1; -1; -1];
   [0; 1; 2; 3; 4; -1; -1; -1; 5; 6; 7; -1; 8; -1; -1; -1];
   [0; -1; -1; -1; 1; 2; -1; -1; 3; 4; 5; -1; 6; -1; -1; -1];
   [0; 1; -1; -1; 2; 3; -1; -1; 4; 5; 6; -1; 7; -1; -1; -1];
   [0; 1; 2; -1; 3; 4; -1; -1; 5; 6; 7; -1; 8; -1; -1; -1];
   [0; 1; 2; 3; 4; 5; -1; -1; 6; 7; 8; -1; 9; -1; -1; -1];
   [0; -1; -1; -1; 1; 2; 3; -1; 4; 5; 6; -1; 7; -1; -1; -1];
   [0; 1; -1; -1; 2; 3; 4; -1; 5; 6; 7; -1; 8; -1; -1; -1];
   [0; 1; 2; -1; 3; 4; 5; -1; 6; 7; 8; -1; 9; -1; -1; -1];
   [0; 1; 2; 3; 4; 5; 6; -1; 7; 8; 9; -1; 10; -1; -1; -1];
   [0; -1; -1; -1; 1; 2; 3; 4; 5; 6; 7; -1; 8; -1; -1; -1];
   [0; 1; -1; -1; 2; 3; 4; 5; 6; 7; 8; -1; 9; -1; -1; -1];
   [0; 1; 2; -1; 3; 4; 5; 6; 7; 8; 9; -1; 10; -1; -1; -1];
   [0; 1; 2; 3; 4; 5; 6; 7; 8; 9; 10; -1; 11; -1; -1; -1];
   [0; -1; -1; -1; 1; -1; -1; -1; 2; 3; 4; 5; 6; -1; -1; -1];
   [0; 1; -1; -1; 2; -1; -1; -1; 3; 4; 5; 6; 7; -1; -1; -1];
   [0; 1; 2; -1; 3; -1; -1; -1; 4; 5; 6; 7; 8; -1; -1; -1];
   [0; 1; 2; 3; 4; -1; -1; -1; 5; 6; 7; 8; 9; -1; -1; -1];
   [0; -1; -1; -1; 1; 2; -1; -1; 3; 4; 5; 6; 7; -1; -1; -1];
   [0; 1; -1; -1; 2; 3; -1; -1; 4; 5; 6; 7; 8; -1; -1; -1];
   [0; 1; 2; -1; 3; 4; -1; -1; 5; 6; 7; 8; 9; -1; -1; -1];
   [0; 1; 2; 3; 4; 5; -1; -1; 6; 7; 8; 9; 10; -1; -1; -1];
   [0; -1; -1; -1; 1; 2; 3; -1; 4; 5; 6; 7; 8; -1; -1; -1];
   [0; 1; -1; -1; 2; 3; 4; -1; 5; 6; 7; 8; 9; -1; -1; -1];
   [0; 1; 2; -1; 3; 4; 5; -1; 6; 7; 8; 9; 10; -1; -1; -1];
   [0; 1; 2; 3; 4; 5; 6; -1; 7; 8; 9; 10; 11; -1; -1; -1];
   [0; -1; -1; -1; 1; 2; 3; 4; 5; 6; 7; 8; 9; -1; -1; -1];
   [0; 1; -1; -1; 2; 3; 4; 5; 6; 7; 8; 9; 10; -1; -1; -1];
   [0; 1; 2; -1; 3; 4; 5; 6; 7; 8; 9; 10; 11; -1; -1; -1];
   [0; 1; 2; 3; 4; 5; 6; 7; 8; 9; 10; 11; 12; -1; -1; -1];
   [0; -1; -1; -1; 1; -1; -1; -1; 2; -1; -1; -1; 3; 4; -1; -1];
   [0; 1; -1; -1; 2; -1; -1; -1; 3; -1; -1; -1; 4; 5; -1; -1];
   [0; 1; 2; -1; 3; -1; -1; -1; 4; -1; -1; -1; 5; 6; -1; -1];
   [0; 1; 2; 3; 4; -1; -1; -1; 5; -1; -1; -1; 6; 7; -1; -1];
   [0; -1; -1; -1; 1; 2; -1; -1; 3; -1; -1; -1; 4; 5; -1; -1];
   [0; 1; -1; -1; 2; 3; -1; -1; 4; -1; -1; -1; 5; 6; -1; -1];
   [0; 1; 2; -1; 3; 4; -1; -1; 5; -1; -1; -1; 6; 7; -1; -1];
   [0; 1; 2; 3; 4; 5; -1; -1; 6; -1; -1; -1; 7; 8; -1; -1];
   [0; -1; -1; -1; 1; 2; 3; -1; 4; -1; -1; -1; 5; 6; -1; -1];
   [0; 1; -1; -1; 2; 3; 4; -1; 5; -1; -1; -1; 6; 7; -1; -1];
   [0; 1; 2; -1; 3; 4; 5; -1; 6; -1; -1; -1; 7; 8; -1; -1];
   [0; 1; 2; 3; 4; 5; 6; -1; 7; -1; -1; -1; 8; 9; -1; -1];
   [0; -1; -1; -1; 1; 2; 3; 4; 5; -1; -1; -1; 6; 7; -1; -1];
   [0; 1; -1; -1; 2; 3; 4; 5; 6; -1; -1; -1; 7; 8; -1; -1];
   [0; 1; 2; -1; 3; 4; 5; 6; 7; -1; -1; -1; 8; 9; -1; -1];
   [0; 1; 2; 3; 4; 5; 6; 7; 8; -1; -1; -1; 9; 10; -1; -1];
   [0; -1; -1; -1; 1; -1; -1; -1; 2; 3; -1; -1; 4; 5; -1; -1];
   [0; 1; -1; -1; 2; -1; -1; -1; 3; 4; -1; -1; 5; 6; -1; -1];
   [0; 1; 2; -1; 3; -1; -1; -1; 4; 5; -1; -1; 6; 7; -1; -1];
   [0; 1; 2; 3; 4; -1; -1; -1; 5; 6; -1; -1; 7; 8; -1; -1];
   [0; -1; -1; -1; 1; 2; -1; -1; 3; 4; -1; -1; 5; 6; -1; -1];
   [0; 1; -1; -1; 2; 3; -1; -1; 4; 5; -1; -1; 6; 7; -1; -1];
   [0; 1; 2; -1; 3; 4; -1; -1; 5; 6; -1; -1; 7; 8; -1; -1];
   [0; 1; 2; 3; 4; 5; -1; -1; 6; 7; -1; -1; 8; 9; -1; -1];
   [0; -1; -1; -1; 1; 2; 3; -1; 4; 5; -1; -1; 6; 7; -1; -1];
   [0; 1; -1; -1; 2; 3; 4; -1; 5; 6; -1; -1; 7; 8; -1; -1];
   [0; 1; 2; -1; 3; 4; 5; -1; 6; 7; -1; -1; 8; 9; -1; -1];
   [0; 1; 2; 3; 4; 5; 6; -1; 7; 8; -1; -1; 9; 10; -1; -1];
   [0; -1; -1; -1; 1; 2; 3; 4; 5; 6; -1; -1; 7; 8; -1; -1];
   [0; 1; -1; -1; 2; 3; 4; 5; 6; 7; -1; -1; 8; 9; -1; -1];
   [0; 1; 2; -1; 3; 4; 5; 6; 7; 8; -1; -1; 9; 10; -1; -1];
   [0; 1; 2; 3; 4; 5; 6; 7; 8; 9; -1; -1; 10; 11; -1; -1];
   [0; -1; -1; -1; 1; -1; -1; -1; 2; 3; 4; -1; 5; 6; -1; -1];
   [0; 1; -1; -1; 2; -1; -1; -1; 3; 4; 5; -1; 6; 7; -1; -1];
   [0; 1; 2; -1; 3; -1; -1; -1; 4; 5; 6; -1; 7; 8; -1; -1];
   [0; 1; 2; 3; 4; -1; -1; -1; 5; 6; 7; -1; 8; 9; -1; -1];
   [0; -1; -1; -1; 1; 2; -1; -1; 3; 4; 5; -1; 6; 7; -1; -1];
   [0; 1; -1; -1; 2; 3; -1; -1; 4; 5; 6; -1; 7; 8; -1; -1];
   [0; 1; 2; -1; 3; 4; -1; -1; 5; 6; 7; -1; 8; 9; -1; -1];
   [0; 1; 2; 3; 4; 5; -1; -1; 6; 7; 8; -1; 9; 10; -1; -1];
   [0; -1; -1; -1; 1; 2; 3; -1; 4; 5; 6; -1; 7; 8; -1; -1];
   [0; 1; -1; -1; 2; 3; 4; -1; 5; 6; 7; -1; 8; 9; -1; -1];
   [0; 1; 2; -1; 3; 4; 5; -1; 6; 7; 8; -1; 9; 10; -1; -1];
   [0; 1; 2; 3; 4; 5; 6; -1; 7; 8; 9; -1; 10; 11; -1; -1];
   [0; -1; -1; -1; 1; 2; 3; 4; 5; 6; 7; -1; 8; 9; -1; -1];
   [0; 1; -1; -1; 2; 3; 4; 5; 6; 7; 8; -1; 9; 10; -1; -1];
   [0; 1; 2; -1; 3; 4; 5; 6; 7; 8; 9; -1; 10; 11; -1; -1];
   [0; 1; 2; 3; 4; 5; 6; 7; 8; 9; 10; -1; 11; 12; -1; -1];
   [0; -1; -1; -1; 1; -1; -1; -1; 2; 3; 4; 5; 6; 7; -1; -1];
   [0; 1; -1; -1; 2; -1; -1; -1; 3; 4; 5; 6; 7; 8; -1; -1];
   [0; 1; 2; -1; 3; -1; -1; -1; 4; 5; 6; 7; 8; 9; -1; -1];
   [0; 1; 2; 3; 4; -1; -1; -1; 5; 6; 7; 8; 9; 10; -1; -1];
   [0; -1; -1; -1; 1; 2; -1; -1; 3; 4; 5; 6; 7; 8; -1; -1];
   [0; 1; -1; -1; 2; 3; -1; -1; 4; 5; 6; 7; 8; 9; -1; -1];
   [0; 1; 2; -1; 3; 4; -1; -1; 5; 6; 7; 8; 9; 10; -1; -1];
   [0; 1; 2; 3; 4; 5; -1; -1; 6; 7; 8; 9; 10; 11; -1; -1];
   [0; -1; -1; -1; 1; 2; 3; -1; 4; 5; 6; 7; 8; 9; -1; -1];
   [0; 1; -1; -1; 2; 3; 4; -1; 5; 6; 7; 8; 9; 10; -1; -1];
   [0; 1; 2; -1; 3; 4; 5; -1; 6; 7; 8; 9; 10; 11; -1; -1];
   [0; 1; 2; 3; 4; 5; 6; -1; 7; 8; 9; 10; 11; 12; -1; -1];
   [0; -1; -1; -1; 1; 2; 3; 4; 5; 6; 7; 8; 9; 10; -1; -1];
   [0; 1; -1; -1; 2; 3; 4; 5; 6; 7; 8; 9; 10; 11; -1; -1];
   [0; 1; 2; -1; 3; 4; 5; 6; 7; 8; 9; 10; 11; 12; -1; -1];
   [0; 1; 2; 3; 4; 5; 6; 7; 8; 9; 10; 11; 12; 13; -1; -1]].

Definition shuffleTable_hi : list (list Z) :=
  [[0; -1; -1; -1; 1; -1; -1; -1; 2; -1; -1; -1; 3; 4; 5; -1];
   [0; 1; -1; -1; 2; -1; -1; -1; 3; -1; -1; -1; 4; 5; 6; -1];
   [0; 1; 2; -1; 3; -1; -1; -1; 4; -1; -1; -1; 5; 6; 7; -1];
   [0; 1; 2; 3; 4; -1; -1; -1; 5; -1; -1; -1; 6; 7; 8; -1];
   [0; -1; -1; -1; 1; 2; -1; -1; 3; -1; -1; -1; 4; 5; 6; -1];
   [0; 1; -1; -1; 2; 3; -1; -1; 4; -1; -1; -1; 5; 6; 7; -1];
   [0; 1; 2; -1; 3; 4; -1; -1; 5; -1; -1; -1; 6; 7; 8; -1];
   [0; 1; 2; 3; 4; 5; -1; -1; 6; -1; -1; -1; 7; 8; 9; -1];
   [0; -1; -1; -1; 1; 2; 3; -1; 4; -1; -1; -1; 5; 6; 7; -1];
   [0; 1; -1; -1; 2; 3; 4; -1; 5; -1; -1; -1; 6; 7; 8; -1];
   [0; 1; 2; -1; 3; 4; 5; -1; 6; -1; -1; -1; 7; 8; 9; -1];
   [0; 1; 2; 3; 4; 5; 6; -1; 7; -1; -1; -1; 8; 9; 10; -1];
   [0; -1; -1; -1; 1; 2; 3; 4; 5; -1; -1; -1; 6; 7; 8; -1];
   [0; 1; -1; -1; 2; 3; 4; 5; 6; -1; -1; -1; 7; 8; 9; -1];
   [0; 1; 2; -1; 3; 4; 5; 6; 7; -1; -1; -1; 8; 9; 10; -1];
   [0; 1; 2; 3; 4; 5; 6; 7; 8; -1; -1; -1; 9; 10; 11; -1];
   [0; -1; -1; -1; 1; -1; -1; -1; 2; 3; -1; -1; 4; 5; 6; -1];
   [0; 1; -1; -1; 2; -1; -1; -1; 3; 4; -1; -1; 5; 6; 7; -1];
   [0; 1; 2; -1; 3; -1; -1; -1; 4; 5; -1; -1; 6; 7; 8; -1];
   [0; 1; 2; 3; 4; -1; -1; -1; 5; 6; -1; -1; 7; 8; 9; -1];
   [0; -1; -1; -1; 1; 2; -1; -1; 3; 4; -1; -1; 5; 6; 7; -1];
   [0; 1; -1; -1; 2; 3; -1; -1; 4; 5; -1; -1; 6; 7; 8; -1];
   [0; 1; 2; -1; 3; 4; -1; -1; 5; 6; -1; -1; 7; 8; 9; -1];
   [0; 1; 2; 3; 4; 5; -1; -1; 6; 7; -1; -1; 8; 9; 10; -1];
   [0; -1; -1; -1; 1; 2; 3; -1; 4; 5; -1; -1; 6; 7; 8; -1];
   [0; 1; -1; -1; 2; 3; 4; -1; 5; 6; -1; -1; 7; 8; 9; -1];
   [0; 1; 2; -1; 3; 4; 5; -1; 6; 7; -1; -1; 8; 9; 10; -1];
   [0; 1; 2; 3; 4; 5; 6; -1; 7; 8; -1; -1; 9; 10; 11; -1];
   [0; -1; -1; -1; 1; 2; 3; 4; 5; 6; -1; -1; 7; 8; 9; -1];
   [0; 1; -1; -1; 2; 3; 4; 5; 6; 7; -1; -1; 8; 9; 10; -1];
   [0; 1; 2; -1; 3; 4; 5; 6; 7; 8; -1; -1; 9; 10; 11; -1];
   [0; 1; 2; 3; 4; 5; 6; 7; 8; 9; -1; -1; 10; 11; 12; -1];
   [0; -1; -1; -1; 1; -1; -1; -1; 2; 3; 4; -1; 5; 6; 7; -1];
   [0; 1; -1; -1; 2; -1; -1; -1; 3; 4; 5; -1; 6; 7; 8; -1];
   [0; 1; 2; -1; 3; -1; -1; -1; 4; 5; 6; -1; 7; 8; 9; -1];
   [0; 1; 2; 3; 4; -1; -1; -1; 5; 6; 7; -1; 8; 9; 10; -1];
   [0; -1; -1; -1; 1; 2; -1; -1; 3; 4; 5; -1; 6; 7; 8; -1];
   [0; 1; -1; -1; 2; 3; -1; -1; 4; 5; 6; -1; 7; 8; 9; -1];
   [0; 1; 2; -1; 3; 4; -1; -1; 5; 6; 7; -1; 8; 9; 10; -1];
   [0; 1; 2; 3; 4; 5; -1; -1; 6; 7; 8; -1; 9; 10; 11; -1];
   [0; -1; -1; -1; 1; 2; 3; -1; 4; 5; 6; -1; 7; 8; 9; -1];
   [0; 1; -1; -1; 2; 3; 4; -1; 5; 6; 7; -1; 8; 9; 10; -1];
   [0; 1; 2; -1; 3; 4; 5; -1; 6; 7; 8; -1; 9; 10; 11; -1];
   [0; 1; 2; 3; 4; 5; 6; -1; 7; 8; 9; -1; 10; 11; 12; -1];
   [0; -1; -1; -1; 1; 2; 3; 4; 5; 6; 7; -1; 8; 9; 10; -1];
   [0; 1; -1; -1; 2; 3; 4; 5; 6; 7; 8; -1; 9; 10; 11; -1];
   [0; 1; 2; -1; 3; 4; 5; 6; 7; 8; 9; -1; 10; 11; 12; -1];
   [0; 1; 2; 3; 4; 5; 6; 7; 8; 9; 10; -1; 11; 12; 13; -1];
   [0; -1; -1; -1; 1; -1; -1; -1; 2; 3; 4; 5; 6; 7; 8; -1];
   [0; 1; -1; -1; 2; -1; -1; -1; 3; 4; 5; 6; 7; 8; 9; -1];
   [0; 1; 2; -1; 3; -1; -1; -1; 4; 5; 6; 7; 8; 9; 10; -1];
   [0; 1; 2; 3; 4; -1; -1; -1; 5; 6; 7; 8; 9; 10; 11; -1];
   [0; -1; -1; -1; 1; 2; -1; -1; 3; 4; 5; 6; 7; 8; 9; -1];
   [0; 1; -1; -1; 2; 3; -1; -1; 4; 5; 6; 7; 8; 9; 10; -1];
   [0; 1; 2; -1; 3; 4; -1; -1; 5; 6; 7; 8; 9; 10; 11; -1];
   [0; 1; 2; 3; 4; 5; -1; -1; 6; 7; 8; 9; 10; 11; 12; -1];
   [0; -1; -1; -1; 1; 2; 3; -1; 4; 5; 6; 7; 8; 9; 10; -1];
   [0; 1; -1; -1; 2; 3; 4; -1; 5; 6; 7; 8; 9; 10; 11; -1];
   [0; 1; 2; -1; 3; 4; 5; -1; 6; 7; 8; 9; 10; 11; 12; -1];
   [0; 1; 2; 3; 4; 5; 6; -1; 7; 8; 9; 10; 11; 12; 13; -1];
   [0; -1; -1; -1; 1; 2; 3; 4; 5; 6; 7; 8; 9; 10; 11; -1];
   [0; 1; -1; -1; 2; 3; 4; 5; 6; 7; 8; 9; 10; 11; 12; -1];
   [0; 1; 2; -1; 3; 4; 5; 6; 7; 8; 9; 10; 11; 12; 13; -1];
   [0; 1; 2; 3; 4; 5; 6; 7; 8; 9; 10; 11; 12; 13; 14; -1];
   [0; -1; -1; -1; 1; -1; -1; -1; 2; -1; -1; -1; 3; 4; 5; 6];
   [0; 1; -1; -1; 2; -1; -1; -1; 3; -1; -1; -1; 4; 5; 6; 7];
   [0; 1; 2; -1; 3; -1; -1; -1; 4; -1; -1; -1; 5; 6; 7; 8];
   [0; 1; 2; 3; 4; -1; -1; -1; 5; -1; -1; -1; 6; 7; 8; 9];
   [0; -1; -1; -1; 1; 2; -1; -1; 3; -1; -1; -1; 4; 5; 6; 7];
   [0; 1; -1; -1; 2; 3; -1; -1; 4; -1; -1; -1; 5; 6; 7; 8];
   [0; 1; 2; -1; 3; 4; -1; -1; 5; -1; -1; -1; 6; 7; 8; 9];
   [0; 1; 2; 3; 4; 5; -1; -1; 6; -1; -1; -1; 7; 8; 9; 10];
   [0; -1; -1; -1; 1; 2; 3; -1; 4; -1; -1; -1; 5; 6; 7; 8];
   [0; 1; -1; -1; 2; 3; 4; -1; 5; -1; -1; -1; 6; 7; 8; 9];
   [0; 1; 2; -1; 3; 4; 5; -1; 6; -1; -1; -1; 7; 8; 9; 10];
   [0; 1; 2; 3; 4; 5; 6; -1; 7; -1; -1; -1; 8; 9; 10; 11];
   [0; -1; -1; -1; 1; 2; 3; 4; 5; -1; -1; -1; 6; 7; 8; 9];
   [0; 1; -1; -1; 2; 3; 4; 5; 6; -1; -1; -1; 7; 8; 9; 10];
   [0; 1; 2; -1; 3; 4; 5; 6; 7; -1; -1; -1; 8; 9; 10; 11];
   [0; 1; 2; 3; 4; 5; 6; 7; 8; -1; -1; -1; 9; 10; 11; 12];
   [0; -1; -1; -1; 1; -1; -1; -1; 2; 3; -1; -1; 4; 5; 6; 7];
   [0; 1; -1; -1; 2; -1; -1; -1; 3; 4; -1; -1; 5; 6; 7; 8];
   [0; 1; 2; -1; 3; -1; -1; -1; 4; 5; -1; -1; 6; 7; 8; 9];
   [0; 1; 2; 3; 4; -1; -1; -1; 5; 6; -1; -1; 7; 8; 9; 10];
   [0; -1; -1; -1; 1; 2; -1; -1; 3; 4; -1; -1; 5; 6; 7; 8];
   [0; 1; -1; -1; 2; 3; -1; -1; 4; 5; -1; -1; 6; 7; 8; 9];
   [0; 1; 2; -1; 3; 4; -1; -1; 5; 6; -1; -1; 7; 8; 9; 10];
   [0; 1; 2; 3; 4; 5; -1; -1; 6; 7; -1; -1; 8; 9; 10; 11];
   [0; -1; -1; -1; 1; 2; 3; -1; 4; 5; -1; -1; 6; 7; 8; 9];
   [0; 1; -1; -1; 2; 3; 4; -1; 5; 6; -1; -1; 7; 8; 9; 10];
   [0; 1; 2; -1; 3; 4; 5; -1; 6; 7; -1; -1; 8; 9; 10; 11];
   [0; 1; 2; 3; 4; 5; 6; -1; 7; 8; -1; -1; 9; 10; 11; 12];
   [0; -1; -1; -1; 1; 2; 3; 4; 5; 6; -1; -1; 7; 8; 9; 10];
   [0; 1; -1; -1; 2; 3; 4; 5; 6; 7; -1; -1; 8; 9; 10; 11];
   [0; 1; 2; -1; 3; 4; 5; 6; 7; 8; -1; -1; 9; 10; 11; 12];
   [0; 1; 2; 3; 4; 5; 6; 7; 8; 9; -1; -1; 10; 11; 12; 13];
   [0; -1; -1; -1; 1; -1; -1; -1; 2; 3; 4; -1; 5; 6; 7; 8];
   [0; 1; -1; -1; 2; -1; -1; -1; 3; 4; 5; -1; 6; 7; 8; 9];
   [0; 1; 2; -1; 3; -1; -1; -1; 4; 5; 6; -1; 7; 8; 9; 10];
   [0; 1; 2; 3; 4; -1; -1; -1; 5; 6; 7; -1; 8; 9; 10; 11];
   [0; -1; -1; -1; 1; 2; -1; -1; 3; 4; 5; -1; 6; 7; 8; 9];
   [0; 1; -1; -1; 2; 3; -1; -1; 4; 5; 6; -1; 7; 8; 9; 10];
   [0; 1; 2; -1; 3; 4; -1; -1; 5; 6; 7; -1; 8; 9; 10; 11];
   [0; 1; 2; 3; 4; 5; -1; -1; 6; 7; 8; -1; 9; 10; 11; 12];
   [0; -1; -1; -1; 1; 2; 3; -1; 4; 5; 6; -1; 7; 8; 9; 10];
   [0; 1; -1; -1; 2; 3; 4; -1; 5; 6; 7; -1; 8; 9; 10; 11];
   [0; 1; 2; -1; 3; 4; 5; -1; 6; 7; 8; -1; 9; 10; 11; 12];
   [0; 1; 2; 3; 4; 5; 6; -1; 7; 8; 9; -1; 10; 11; 12; 13];
   [0; -1; -1; -1; 1; 2; 3; 4; 5; 6; 7; -1; 8; 9; 10; 11];
   [0; 1; -1; -1; 2; 3; 4; 5; 6; 7; 8; -1; 9; 10; 11; 12];
   [0; 1; 2; -1; 3; 4; 5; 6; 7; 8; 9; -1; 10; 11; 12; 13];
   [0; 1; 2; 3; 4; 5; 6; 7; 8; 9; 10; -1; 11; 12; 13; 14];
   [0; -1; -1; -1; 1; -1; -1; -1; 2; 3; 4; 5; 6; 7; 8; 9];
   [0; 1; -1; -1; 2; -1; -1; -1; 3; 4; 5; 6; 7; 8; 9; 10];
   [0; 1; 2; -1; 3; -1; -1; -1; 4; 5; 6; 7; 8; 9; 10; 11];
   [0; 1; 2; 3; 4; -1; -1; -1; 5; 6; 7; 8; 9; 10; 11; 12];
   [0; -1; -1; -1; 1; 2; -1; -1; 3; 4; 5; 6; 7; 8; 9; 10];
   [0; 1; -1; -1; 2; 3; -1; -1; 4; 5; 6; 7; 8; 9; 10; 11];
   [0; 1; 2; -1; 3; 4; -1; -1; 5; 6; 7; 8; 9; 10; 11; 12];
   [0; 1; 2; 3; 4; 5; -1; -1; 6; 7; 8; 9; 10; 11; 12; 13];
   [0; -1; -1; -1; 1; 2; 3; -1; 4; 5; 6; 7; 8; 9; 10; 11];
   [0; 1; -1; -1; 2; 3; 4; -1; 5; 6; 7; 8; 9; 10; 11; 12];
   [0; 1; 2; -1; 3; 4; 5; -1; 6; 7; 8; 9; 10; 11; 12; 13];
   [0; 1; 2; 3; 4; 5; 6; -1; 7; 8; 9; 10; 11; 12; 13; 14];
   [0; -1; -1; -1; 1; 2; 3; 4; 5; 6; 7; 8; 9; 10; 11; 12];
   [0; 1; -1; -1; 2; 3; 4; 5; 6; 7; 8; 9; 10; 11; 12; 13];
   [0; 1; 2; -1; 3; 4; 5; 6; 7; 8; 9; 10; 11; 12; 13; 14];
   [0; 1; 2; 3; 4; 5; 6; 7; 8; 9; 10; 11; 12; 13; 14; 15]].

Definition shuffleTable : list (list Z) := shuffleTable_lo ++ shuffleTable_hi.

(** The order in which the search-tree codec writes a list: row [n - 1] for a
    list of [n] elements. A row stops where the C array is filled with zeros. *)
Definition ary_order : list (list Z) :=
  [[0];
   [0; 1];
   [0; 1; 2];
   [0; 1; 2; 3];
   [0; 1; 2; 4; 3];
   [0; 1; 2; 5; 3; 4];
   [0; 1; 2; 6; 3; 4; 5];
   [0; 1; 2; 7; 3; 4; 5; 6];
   [0; 5; 6; 8; 1; 2; 3; 4; 7];
   [0; 5; 6; 9; 1; 2; 3; 4; 7; 8];
   [0; 5; 6; 10; 1; 2; 3; 4; 7; 8; 9];
   [0; 5; 6; 11; 1; 2; 3; 4; 7; 8; 9; 10];
   [0; 5; 10; 12; 1; 2; 3; 4; 6; 7; 8; 9; 11];
   [0; 5; 10; 13; 1; 2; 3; 4; 6; 7; 8; 9; 11; 12];
   [0; 5; 10; 14; 1; 2; 3; 4; 6; 7; 8; 9; 11; 12; 13];
   [0; 5; 10; 15; 1; 2; 3; 4; 6; 7; 8; 9; 11; 12; 13; 14];
   [0; 5; 10; 16; 1; 2; 3; 4; 6; 7; 8; 9; 11; 12; 13; 14; 15];
   [0; 5; 10; 17; 1; 2; 3; 4; 6; 7; 8; 9; 11; 12; 13; 14; 15; 16];
   [0; 5; 10; 18; 1; 2; 3; 4; 6; 7; 8; 9; 11; 12; 13; 14; 15; 16; 17];
   [0; 5; 10; 19; 1; 2; 3; 4; 6; 7; 8; 9; 11; 12; 13; 14; 15; 16; 17; 18];
   [0; 5; 10; 20; 1; 2; 3; 4; 6; 7; 8; 9; 15; 16; 17; 18; 11; 12; 13; 14; 19];
   [0; 5; 10; 21; 1; 2; 3; 4; 6; 7; 8; 9; 15; 16; 17; 18; 11; 12; 13; 14; 19; 20];
   [0; 5; 10; 22; 1; 2; 3; 4; 6; 7; 8; 9; 15; 16; 17; 18; 11; 12; 13; 14; 19; 20; 21];
   [0; 5; 10; 23; 1; 2; 3; 4; 6; 7; 8; 9; 15; 16; 17; 18; 11; 12; 13; 14; 19; 20; 21; 22];
   [0; 5; 10; 24; 1; 2; 3; 4; 6; 7; 8; 9; 15; 20; 21; 22; 11; 12; 13; 14; 16; 17; 18; 19; 23];
   [0; 5; 10; 25; 1; 2; 3; 4; 6; 7; 8; 9; 15; 20; 21; 22; 11; 12; 13; 14; 16; 17; 18; 19; 23; 24];
   [0; 5; 10; 26; 1; 2; 3; 4; 6; 7; 8; 9; 15; 20; 21; 22; 11; 12; 13; 14; 16; 17; 18; 19; 23; 24; 25];
   [0; 5; 10; 27; 1; 2; 3; 4; 6; 7; 8; 9; 15; 20; 21; 22; 11; 12; 13; 14; 16; 17; 18; 19; 23; 24; 25; 26];
   [0; 5; 10; 28; 1; 2; 3; 4; 6; 7; 8; 9; 15; 20; 25; 26; 11; 12; 13; 14; 16; 17; 18; 19; 21; 22; 23; 24; 27];
   [0; 5; 10; 29; 1; 2; 3; 4; 6; 7; 8; 9; 15; 20; 25; 26; 11; 12; 13; 14; 16; 17; 18; 19; 21; 22; 23; 24; 27; 28];
   [0; 5; 10; 30; 1; 2; 3; 4; 6; 7; 8; 9; 15; 20; 25; 26; 11; 12; 13; 14; 16; 17; 18; 19; 21; 22; 23; 24; 27; 28; 29];
   [0; 5; 10; 31; 1; 2; 3; 4; 6; 7; 8; 9; 15; 20; 25; 26; 11; 12; 13; 14; 16; 17; 18; 19; 21; 22; 23; 24; 27; 28; 29; 30];
   [0; 5; 10; 32; 1; 2; 3; 4; 6; 7; 8; 9; 15; 20; 25; 30; 11; 12; 13; 14; 16; 17; 18; 19; 21; 22; 23; 24; 26; 27; 28; 29; 31];
   [0; 5; 10; 33; 1; 2; 3; 4; 6; 7; 8; 9; 15; 20; 25; 30; 11; 12; 13; 14; 16; 17; 18; 19; 21; 22; 23; 24; 26; 27; 28; 29; 31; 32];
   [0; 5; 10; 34; 1; 2; 3; 4; 6; 7; 8; 9; 15; 20; 25; 30; 11; 12; 13; 14; 16; 17; 18; 19; 21; 22; 23; 24; 26; 27; 28; 29; 31; 32; 33];
   [0; 5; 10; 35; 1; 2; 3; 4; 6; 7; 8; 9; 15; 20; 25; 30; 11; 12; 13; 14; 16; 17; 18; 19; 21; 22; 23; 24; 26; 27; 28; 29; 31; 32; 33; 34];
   [0; 5; 14; 36; 1; 2; 3; 4; 6; 7; 8; 9; 19; 24; 29; 34; 10; 11; 12; 13; 15; 16; 17; 18; 20; 21; 22; 23; 25; 26; 27; 28; 30; 31; 32; 33; 35];
   [0; 5; 14; 37; 1; 2; 3; 4; 6; 7; 8; 9; 19; 24; 29; 34; 10; 11; 12; 13; 15; 16; 17; 18; 20; 21; 22; 23; 25; 26; 27; 28; 30; 31; 32; 33; 35; 36];
   [0; 5; 14; 38; 1; 2; 3; 4; 6; 7; 8; 9; 19; 24; 29; 34; 10; 11; 12; 13; 15; 16; 17; 18; 20; 21; 22; 23; 25; 26; 27; 28; 30; 31; 32; 33; 35; 36; 37];
   [0; 5; 14; 39; 1; 2; 3; 4; 6; 7; 8; 9; 19; 24; 29; 34; 10; 11; 12; 13; 15; 16; 17; 18; 20; 21; 22; 23; 25; 26; 27; 28; 30; 31; 32; 33; 35; 36; 37; 38]].

(** * What the tables hold

    [code control j] is the two-bit code of value [j] (its length less one),
    [start control j] the offset of its first byte. *)

Definition code (control j : Z) : Z := Z.land (Z.shiftr control (2 * j)) 3.

Definition start (control j : Z) : Z :=
  foldr (fun i acc => (if i <? j then code control i + 1 else 0) + acc) 0 [0; 1; 2; 3].

Definition tables_ok (control : Z) : bool :=
  match zget shuffleTable control, zget lengthTable control, zget TotalLengthTable control with
  | Some shuf, Some len, Some total =>
      (len =? start control 4) &&
      forallb (fun j =>
        bool_decide (zget total j = Some (start control (j + 1))) &&
        forallb (fun b =>
          bool_decide (zget shuf (4 * j + b) =
            Some (if b <=? code control j then start control j + b else -1))) [0; 1; 2; 3]) [0; 1; 2; 3]
  | _, _, _ => false
  end.

Lemma tables_ok_all control : 0 <= control < 256 -> tables_ok control = true.
Proof. apply forall_below. by vm_compute. Qed.

(** The order of a list is a permutation that starts with the least and has the
    largest at the end of the first group. *)
Definition order_ok (n : Z) (row : list Z) : bool :=
  (Z.of_nat (length row) =? n) && forallb (fun i => bool_decide (i ∈ row)) (seqZ 0 n) &&
  bool_decide (zget row 0 = Some 0) && ((n <? 4) || bool_decide (zget row 3 = Some (n - 1))).

Lemma ary_order_ok n :
  1 <= n <= 40 -> exists row, zget ary_order (n - 1) = Some row /\ order_ok n row = true.
Proof.
  intros Hn.
  assert (match zget ary_order (n - 1) with
          | Some row => order_ok (n - 1 + 1) row | None => false end = true) as H.
  { apply (forall_below 40 (fun m => match zget ary_order m with
      | Some row => order_ok (m + 1) row | None => false end)); [by vm_compute|lia]. }
  rewrite Z.sub_add in H. destruct (zget ary_order (n - 1)) as [row|]; [eauto|done].
Qed.
