(* ===== verification/SimdCodec.v ===== *)
(** The SIMD delta codecs: [DeltaSIMDCodec] and its versions V1 and V2; V3 is in
    [SimdTree] ([src/include/encode/codec/SIMD/delta_simd_codec.{h,cpp}]).

    A list is coded as control bytes (two bits of length per value, four values
    per byte) followed by the little-endian bytes of the values. An SSE register
    is its four 32-bit lanes, or its sixteen bytes while it is shuffled. The
    memory a decoder reads is a function [mem] from addresses to bytes: the
    16-byte loads read past the code, and the theorems hold whatever they find
    there. The virtual methods that tell the versions apart are a class,
    [DeltaOps]. *)
From S2P Require Import Prelude BitSet Varint SimdTables.
From stdpp Require Import options.
Local Open Scope Z_scope.
Set Default Proof Using "Type*".

(** * SSE operations *)

Definition mm_loadu_si128 (mem : Z -> Z) (ptr : Z) : list Z :=
  map (fun k => mem (ptr + k)) (seqZ 0 16).

Definition mm_shuffle_epi8 (data shuf : list Z) : list Z :=
  map (fun s => if s <? 0 then 0 else nth (Z.to_nat (Z.land s 15)) data 0) shuf.

(** The lanes of sixteen bytes, little-endian. *)
Definition mm_lanes (bytes : list Z) : list Z :=
  map (fun j => nth (Z.to_nat (4 * j)) bytes 0 + 2 ^ 8 * nth (Z.to_nat (4 * j + 1)) bytes 0
                + 2 ^ 16 * nth (Z.to_nat (4 * j + 2)) bytes 0
                + 2 ^ 24 * nth (Z.to_nat (4 * j + 3)) bytes 0) [0; 1; 2; 3].

Definition mm_add_epi32 (a b : list Z) : list Z := zip_with (fun x y => u32 (x + y)) a b.

(** [_mm_slli_si128] by [4 * k] bytes. *)
Definition mm_slli_lanes (a : list Z) (k : nat) : list Z := take 4 (replicate k 0 ++ a).

(** [_mm_shuffle_epi32(a, 0xFF)]: the last lane everywhere. *)
Definition mm_last_lane (a : list Z) : list Z := mm_set1_epi32 (nth 3 a 0).

(** * Encoding *)

Class DeltaOps := {
  (** [GenValue(pre, original, count)]: the value to code and the new [pre]. *)
  GenValue : Z -> Z -> Z -> Z * Z;
  (** [RecoveryFromDelta(data, pre)]. *)
  RecoveryFromDelta : list Z -> list Z -> list Z
}.

Definition prefix_sums (data : list Z) : list Z :=
  let data := mm_add_epi32 data (mm_slli_lanes data 1) in
  mm_add_epi32 data (mm_slli_lanes data 2).

Definition DeltaSIMDCodec : DeltaOps := {|
  GenValue pre original count := (u32 (original - pre), original);
  RecoveryFromDelta data pre := mm_add_epi32 (prefix_sums data) (mm_last_lane pre)
|}.

Definition DeltaSIMDCodecV1 : DeltaOps := {|
  GenValue pre original count :=
    if count mod 4 =? 0 then (original, original) else (u32 (original - pre), pre);
  RecoveryFromDelta data pre :=
    mm_add_epi32 data (mm_lanes (mm_shuffle_epi8
      (concat (map (fun x => [x mod 2 ^ 8; x / 2 ^ 8 mod 2 ^ 8; x / 2 ^ 16 mod 2 ^ 8; x / 2 ^ 24 mod 2 ^ 8]) data))
      [-1; -1; -1; -1; 0; 1; 2; 3; 0; 1; 2; 3; 0; 1; 2; 3]))
|}.

Definition DeltaSIMDCodecV2 : DeltaOps := {|
  GenValue pre original count :=
    if count mod 4 =? 0 then (original, original) else (u32 (original - pre), original);
  RecoveryFromDelta data pre := prefix_sums data
|}.

(** [EncodeDelta]: the bytes of a value and its code. *)
Definition EncodeDelta (val : Z) : list Z * Z :=
  let b n := Z.land (Z.shiftr val n) 0xFF in
  if val <? 2 ^ 8 then ([u8 val], 0)
  else if val <? 2 ^ 16 then ([b 0; b 8], 1)
  else if val <? 2 ^ 24 then ([b 0; b 8; b 16], 2)
  else ([b 0; b 8; b 16; b 24], 3).

Definition DeltaSIMDCodec_GetOneEncodeLength (integer : Z) : Z :=
  if integer <? 2 ^ 8 then 1 else if integer <? 2 ^ 16 then 2 else if integer <? 2 ^ 24 then 3 else 4.

(** The stores of a list of bytes at [off] of a vector. *)
Definition store_bytes (bytes : list Z) (out : list Z) (off : Z) : option (list Z) :=
  r ← foldM (fun b '(out, k) => out ← zset out k b; Some (out, k + 1)) bytes (out, off);
  Some r.1.

Section codec.
Context `{DeltaOps}.

(** The loop of [EncodeDeltas]: the control bytes written, the data bytes
    written, and [len]. *)
Fixpoint EncodeDeltas_loop (in_ : list Z) (c shift key prev len : Z) (keys data : list Z)
  : list Z * list Z * Z :=
  match in_ with
  | [] => (keys ++ [key], data, len)
  | x :: in_' =>
      let '(shift, keys, key) := if shift =? 8 then (0, keys ++ [key], 0) else (shift, keys, key) in
      let '(val, prev) := GenValue prev x c in
      let '(bytes, code) := EncodeDelta val in
      EncodeDeltas_loop in_' (c + 1) (u8 (shift + 2)) (u8 (Z.lor key (Z.shiftl code shift))) prev
        (u32 (len + code + 1)) keys (data ++ bytes)
  end.

(** [EncodeDeltas]: control bytes, data bytes and the data length as the
    [uint8_t] that is returned; nothing is written for an empty list. *)
Definition EncodeDeltas (in_ : list Z) : list Z * list Z * Z :=
  match in_ with
  | [] => ([], [], 0)
  | _ => let '(keys, data, len) := EncodeDeltas_loop in_ 0 0 0 0 0 [] [] in (keys, data, u8 len)
  end.

(** [EncodeArray] at [off] of the output, given what [EncodeDeltas] writes: the
    new output and the number of bytes. *)
Definition EncodeArray_with (EncodeDeltas : list Z -> option (list Z * list Z * Z)) (in_ out : list Z) (off : Z)
  : option (list Z * Z) :=
  let keyLen := (Z.of_nat (length in_) + 3) / 4 in
  r ← EncodeDeltas in_;
  let '(keys, data, dataLen) := r in
  out ← store_bytes keys out off;
  out ← store_bytes data out (off + keyLen);
  Some (out, u32 (keyLen + dataLen)).

Definition DeltaSIMDCodec_EncodeArray : list Z -> list Z -> Z -> option (list Z * Z) :=
  EncodeArray_with (fun in_ => Some (EncodeDeltas in_)).

(** [GetRequiredBytes]. *)
Fixpoint GetRequiredBytes_loop (in_ : list Z) (c pre len : Z) : Z :=
  match in_ with
  | [] => len
  | x :: in_' =>
      let '(val, pre) := GenValue pre x c in
      GetRequiredBytes_loop in_' (c + 1) pre (u32 (len + DeltaSIMDCodec_GetOneEncodeLength val))
  end.

Definition DeltaSIMDCodec_GetRequiredBytes (list : list Z) : Z :=
  GetRequiredBytes_loop list 0 0 (u32 ((Z.of_nat (length list) + 3) / 4)).

(** * Search *)

(** [DecodeData]: the lanes of a group and the pointer after it. *)
Definition DecodeData (mem : Z -> Z) (control data_ptr : Z) : option (list Z * Z) :=
  len ← zget lengthTable control;
  shuf ← zget shuffleTable control;
  Some (mm_lanes (mm_shuffle_epi8 (mm_loadu_si128 mem data_ptr) shuf), data_ptr + len).

Definition LAST_COMPARE_MASK : list Z := [0x0F; 0x01; 0x03; 0x07].

Definition lt_mask (a b : list Z) : Z := mm_movemask (mm_cmplt_epi32 a b).
Definition eq_mask (a b : list Z) : Z := mm_movemask (mm_cmpeq_epi32 a b).

(** The groups between the first and the last, [n] of them from [i]. *)
Fixpoint FindWithCount_mid (mem : Z -> Z) (inbyte : Z) (compare : list Z) (n : nat) (i data_ptr : Z)
    (pre : list Z) : option (FindRes + list Z * Z) :=
  match n with
  | O => Some (inr (pre, data_ptr))
  | S n' =>
      r ← DecodeData mem (mem (inbyte + i)) data_ptr;
      let '(data, data_ptr) := r in
      let pre := RecoveryFromDelta data pre in
      if lt_mask pre compare =? 15 then FindWithCount_mid mem inbyte compare n' (i + 1) data_ptr pre
      else Some (inl (if negb (eq_mask pre compare =? 0) then EXIST else NOT_EXIST))
  end.

(** [FindWithCount] of the sequential codecs. *)
Definition DeltaSIMDCodec_FindWithCount (mem : Z -> Z) (inbyte count element : Z) : option FindRes :=
  let control_bytes := u32 (count + 3) / 4 in
  let left := Z.land count 3 in
  let data_ptr := inbyte + control_bytes in
  let compare := mm_set1_epi32 element in
  last ← zget LAST_COMPARE_MASK left;
  if control_bytes =? 1 then
    r ← DecodeData mem (mem inbyte) data_ptr;
    let '(data, data_ptr) := r in
    let pre := RecoveryFromDelta data (mm_set1_epi32 0) in
    let mask := Z.land (lt_mask pre compare) last in
    if mask =? 0 then Some (if nth 0 pre 0 =? element then EXIST else LESS_THAN_MIN)
    else if mask =? Z.land 15 last then Some GRATER_THAN_MAX
    else Some (if negb (Z.land (eq_mask pre compare) last =? 0) then EXIST else NOT_EXIST)
  else
    r ← DecodeData mem (mem inbyte) data_ptr;
    let '(data, data_ptr) := r in
    let pre := RecoveryFromDelta data (mm_set1_epi32 0) in
    let mask := lt_mask pre compare in
    if mask =? 0 then Some (if nth 0 pre 0 =? element then EXIST else LESS_THAN_MIN)
    else if negb (mask =? 15) then
      Some (if negb (eq_mask pre compare =? 0) then EXIST else NOT_EXIST)
    else
      mid ← FindWithCount_mid mem inbyte compare (Z.to_nat (u32 (control_bytes - 1) - 1)) 1 data_ptr pre;
      match mid with
      | inl res => Some res
      | inr (pre, data_ptr) =>
          r ← DecodeData mem (mem (inbyte + u32 (control_bytes - 1))) data_ptr;
          let '(data, _) := r in
          let pre := RecoveryFromDelta data pre in
          let mask := Z.land (lt_mask pre compare) last in
          if mask =? Z.land 15 last then Some GRATER_THAN_MAX
          else Some (if negb (Z.land (eq_mask pre compare) last =? 0) then EXIST else NOT_EXIST)
      end.
End codec.

Definition ENCODE_LENGTH_MASK : list Z := [0xFF; 0x03; 0x0F; 0x3F].

(** [GetEncodeLength(in, in_size)]: control and data bytes of a coded list. *)
Definition DeltaSIMDCodec_GetEncodeLength (mem : Z -> Z) (in_ in_size : Z) : option Z :=
  let res := u32 ((in_size + 3) / 4) in
  let data_byte_len := u32 (res - 1) in
  let md := Z.land in_size 3 in
  res ← for_loop (Z.to_nat data_byte_len) 0
          (fun i res => l ← zget lengthTable (mem (in_ + i)); Some (u32 (res + l))) res;
  m ← zget ENCODE_LENGTH_MASK md;
  l ← zget lengthTable (Z.land (mem (in_ + data_byte_len)) m);
  Some (u32 (res + (l - Z.land (4 - md) 3))).

(** [ParseEncode]. *)
Fixpoint DeltaSIMD_ParseEncode_loop (first : bool) (pre size : Z) (in_ : list Z) : list DeltaInfo :=
  match in_ with
  | [] => []
  | x :: in_' =>
      let bits := DeltaSIMDCodec_GetOneEncodeLength (u32 (x - pre)) in
      let size := size + bits in
      {| delta_bits := if first then 0 else bits;
         val_bits := DeltaSIMDCodec_GetOneEncodeLength x; total_bits := size |}
      :: DeltaSIMD_ParseEncode_loop false x size in_'
  end.

Definition DeltaSIMDCodec_ParseEncode (in_ : list Z) : list DeltaInfo :=
  DeltaSIMD_ParseEncode_loop true 0 0 in_.

(** * The bytes of a value *)

Definition vbytes (v : Z) : list Z := (EncodeDelta v).1.
Definition vcode (v : Z) : Z := (EncodeDelta v).2.

Lemma byte_at v n : 0 <= n -> Z.land (Z.shiftr v n) 0xFF = (v / 2 ^ n) mod 2 ^ 8.
Proof. intros Hn. rewrite Z.shiftr_div_pow2 by done. apply (Z.land_ones _ 8). lia. Qed.

Lemma vcode_spec v :
  0 <= v < 2 ^ 32 -> 0 <= vcode v <= 3 /\ v < 2 ^ (8 * (vcode v + 1)) /\
  DeltaSIMDCodec_GetOneEncodeLength v = vcode v + 1.
Proof.
  intros Hv. unfold vcode, EncodeDelta, DeltaSIMDCodec_GetOneEncodeLength. split_ltb; lia.
Qed.

Lemma vbytes_eq v :
  0 <= v < 2 ^ 32 -> vbytes v = map (fun b => (v / 2 ^ (8 * b)) mod 2 ^ 8) (seqZ 0 (vcode v + 1)).
Proof.
  intros Hv. unfold vbytes, vcode, EncodeDelta.
  repeat match goal with |- context [v <? ?b] => destruct (Z.ltb_spec v b) end; cbn [fst snd];
    rewrite ?byte_at by lia; [|done..].
  unfold u8. cbn [seqZ map]. simpl. by rewrite Z.div_1_r.
Qed.

Lemma length_vbytes v : 0 <= v < 2 ^ 32 -> Z.of_nat (length (vbytes v)) = vcode v + 1.
Proof.
  intros Hv. rewrite vbytes_eq, length_map, length_seqZ by done. destruct (vcode_spec v Hv). lia.
Qed.

(** The value is the sum of its bytes. *)
Lemma low_bytes v n :
  0 <= v < 2 ^ 32 -> 0 <= n <= 3 -> v < 2 ^ (8 * (n + 1)) ->
  let b k := if k <=? n then (v / 2 ^ (8 * k)) mod 2 ^ 8 else 0 in
  b 0 + 2 ^ 8 * b 1 + 2 ^ 16 * b 2 + 2 ^ 24 * b 3 = v.
Proof.
  intros Hv Hn Hlt b.
  assert (forall k, 0 <= k -> v mod 2 ^ (8 * (k + 1)) =
    v mod 2 ^ (8 * k) + 2 ^ (8 * k) * ((v / 2 ^ (8 * k)) mod 2 ^ 8)) as HS.
  { intros k Hk. replace (8 * (k + 1)) with (8 * k + 8) by lia.
    rewrite Z.pow_add_r by lia. apply Z.rem_mul_r; lia. }
  pose proof (HS 0 ltac:(lia)) as H0. pose proof (HS 1 ltac:(lia)) as H1.
  pose proof (HS 2 ltac:(lia)) as H2. pose proof (HS 3 ltac:(lia)) as H3. clear HS.
  change (8 * 0) with 0 in *. change (8 * (0 + 1)) with 8 in *. change (8 * 1) with 8 in *.
  change (8 * (1 + 1)) with 16 in *. change (8 * 2) with 16 in *. change (8 * (2 + 1)) with 24 in *.
  change (8 * 3) with 24 in *. change (8 * (3 + 1)) with 32 in *.
  rewrite Z.pow_0_r, Z.mod_1_r in H0. unfold b. change (8 * 0) with 0. change (8 * 1) with 8.
  change (8 * 2) with 16. change (8 * 3) with 24.
  assert (n = 0 \/ n = 1 \/ n = 2 \/ n = 3) as [-> | [-> | [-> | ->]]] by lia;
    cbn [Z.leb Z.compare Pos.compare Pos.compare_cont]; rewrite Z.pow_0_r in *.
  - rewrite (Z.mod_small v) in H0 by lia. lia.
  - rewrite (Z.mod_small v (2 ^ 16)) in H1 by lia. lia.
  - rewrite (Z.mod_small v (2 ^ 24)) in H2 by lia. lia.
  - rewrite (Z.mod_small v (2 ^ 32)) in H3 by lia. lia.
Qed.

(** * A group of values *)

(** The control byte of up to four values. *)
Definition group_key (vs : list Z) : Z := foldr (fun v acc => vcode v + 4 * acc) 0 vs.

Lemma group_key_bound vs :
  u32s vs -> 0 <= group_key vs < 4 ^ Z.of_nat (length vs).
Proof.
  induction 1 as [|v vs Hv _ IH]; [done|]. cbn [group_key foldr length].
  change (foldr _ 0 vs) with (group_key vs). destruct (vcode_spec v Hv).
  rewrite Nat2Z.inj_succ, Z.pow_succ_r by lia. lia.
Qed.

Lemma code_cons c k j : 0 <= c <= 3 -> 0 <= k -> 0 < j -> code (c + 4 * k) j = code k (j - 1).
Proof.
  intros Hc Hk Hj. unfold code. rewrite !Z.shiftr_div_pow2 by lia. f_equal.
  replace (2 * j) with (2 + 2 * (j - 1)) by lia. rewrite Z.pow_add_r, <- Z.div_div by lia.
  change (2 ^ 2) with 4. rewrite (Z.mul_comm 4 k), Z.div_add, (Z.div_small c 4) by lia. done.
Qed.

Lemma code_head c k : 0 <= c <= 3 -> code (c + 4 * k) 0 = c.
Proof.
  intros Hc. unfold code. rewrite Z.mul_0_r, Z.shiftr_0_r. change 3 with (Z.ones 2).
  rewrite Z.land_ones by lia. change (2 ^ 2) with 4.
  rewrite (Z.mul_comm 4 k), Z.mod_add, Z.mod_small by lia. done.
Qed.

Lemma group_code vs j v :
  u32s vs -> vs !! j = Some v -> code (group_key vs) (Z.of_nat j) = vcode v.
Proof.
  intros Hvs. revert j. induction Hvs as [|w vs Hw Hvs IH]; intros j Hj; [done|].
  cbn [group_key foldr]. change (foldr _ 0 vs) with (group_key vs).
  destruct (vcode_spec w Hw) as [Hc _]. pose proof (group_key_bound vs Hvs).
  destruct j as [|j].
  - simpl in Hj. simplify_eq. by apply code_head.
  - rewrite code_cons by lia. replace (Z.of_nat (S j) - 1) with (Z.of_nat j) by lia. by apply IH.
Qed.

(** The offset of a value's bytes in its group. *)
Lemma group_start vs j :
  u32s vs -> (j <= length vs)%nat -> (length vs <= 4)%nat ->
  start (group_key vs) (Z.of_nat j) = Z.of_nat (length (concat (map vbytes (take j vs)))).
Proof.
  intros Hvs Hj Hlen.
  assert (forall i, (i < 4)%nat -> (if Z.of_nat i <? Z.of_nat j then code (group_key vs) (Z.of_nat i) + 1 else 0) =
    Z.of_nat (length (match take j vs !! i with Some v => vbytes v | None => [] end))) as Hi.
  { intros i Hi. destruct (Z.ltb_spec (Z.of_nat i) (Z.of_nat j)) as [Hlt|Hge].
    - destruct (lookup_lt_is_Some_2 vs i) as [v Hv]; [lia|].
      rewrite lookup_take_lt, Hv by lia. rewrite (group_code vs i v Hvs Hv).
      rewrite length_vbytes; [done|]. exact (Forall_lookup_1 _ _ _ _ Hvs Hv).
    - rewrite lookup_take_ge by lia. done. }
  unfold start. cbn [foldr].
  pose proof (Hi 0%nat ltac:(lia)) as H0. pose proof (Hi 1%nat ltac:(lia)) as H1.
  pose proof (Hi 2%nat ltac:(lia)) as H2. pose proof (Hi 3%nat ltac:(lia)) as H3. clear Hi.
  change (Z.of_nat 0) with 0 in *. change (Z.of_nat 1) with 1 in *.
  change (Z.of_nat 2) with 2 in *. change (Z.of_nat 3) with 3 in *.
  rewrite H0, H1, H2, H3. clear H0 H1 H2 H3.
  assert (length (take j vs) <= 4)%nat as Hl by (rewrite length_take; lia).
  destruct (take j vs) as [|a [|b [|c [|d [|? ?]]]]]; cbn [lookup list_lookup map concat length] in *;
    rewrite ?length_app; simpl; lia.
Qed.

(** ** Decoding a group *)

Definition reads_mem (mem : Z -> Z) (pos : Z) (l : list Z) : Prop :=
  forall k b, l !! k = Some b -> mem (pos + Z.of_nat k) = b.

Lemma reads_mem_app mem pos l1 l2 :
  reads_mem mem pos (l1 ++ l2) <-> reads_mem mem pos l1 /\ reads_mem mem (pos + Z.of_nat (length l1)) l2.
Proof.
  split.
  - intros H. split.
    + intros k b Hk. apply H. rewrite lookup_app_l; [done|]. by eapply lookup_lt_Some.
    + intros k b Hk. rewrite <- (H (length l1 + k)%nat b); [f_equal; lia|].
      rewrite lookup_app_r by lia. by replace (length l1 + k - length l1)%nat with k by lia.
  - intros [H1 H2] k b Hk. apply lookup_app_Some in Hk as [Hk|[Hge Hk]]; [by apply H1|].
    rewrite <- (H2 _ _ Hk). f_equal. lia.
Qed.

Lemma nth_lookup_Z (l : list Z) i x : zget l i = Some x -> nth (Z.to_nat i) l 0 = x.
Proof. intros [_ H]%zget_Some_inv. by apply nth_lookup_Some. Qed.

Lemma loadu_nth mem ptr s : 0 <= s < 16 -> nth (Z.to_nat s) (mm_loadu_si128 mem ptr) 0 = mem (ptr + s).
Proof.
  intros Hs. apply nth_lookup_Some. unfold mm_loadu_si128.
  apply list_lookup_fmap_Some. exists s. split; [done|]. apply lookup_seqZ. lia.
Qed.

Lemma tables_shuffle control j b :
  0 <= control < 256 -> 0 <= j < 4 -> 0 <= b < 4 ->
  exists shuf, zget shuffleTable control = Some shuf /\
    zget shuf (4 * j + b) = Some (if b <=? code control j then start control j + b else -1).
Proof.
  intros Hc Hj Hb. pose proof (tables_ok_all control Hc) as H. unfold tables_ok in H.
  destruct (zget shuffleTable control) as [shuf|]; [|done]. exists shuf. split; [done|].
  destruct (zget lengthTable control); [|done]. destruct (zget TotalLengthTable control); [|done].
  apply andb_true_iff in H as [_ H]. rewrite forallb_forall in H.
  assert (In j [0; 1; 2; 3]) as Hin by (simpl; lia). specialize (H j Hin).
  apply andb_true_iff in H as [_ H]. rewrite forallb_forall in H.
  assert (In b [0; 1; 2; 3]) as Hinb by (simpl; lia). specialize (H b Hinb).
  by apply bool_decide_eq_true in H.
Qed.

Lemma tables_length control :
  0 <= control < 256 -> zget lengthTable control = Some (start control 4).
Proof.
  intros Hc. pose proof (tables_ok_all control Hc) as H. unfold tables_ok in H.
  destruct (zget shuffleTable control); [|done]. destruct (zget lengthTable control) as [len|]; [|done].
  destruct (zget TotalLengthTable control); [|done]. apply andb_true_iff in H as [H _]. f_equal. lia.
Qed.

Lemma code_bound control i : 0 <= code control i <= 3.
Proof.
  unfold code. pose proof (Z.land_ones (Z.shiftr control (2 * i)) 2 ltac:(lia)) as H.
  change (Z.ones 2) with 3 in H. rewrite H.
  pose proof (Z.mod_pos_bound (Z.shiftr control (2 * i)) (2 ^ 2) ltac:(lia)). lia.
Qed.

Lemma start_bound control j : 0 <= j <= 4 -> 0 <= control < 256 -> 0 <= start control j <= 4 * j.
Proof.
  intros Hj Hc. pose proof (code_bound control) as Hcode.
  unfold start. cbn [foldr]. pose proof (Hcode 0). pose proof (Hcode 1). pose proof (Hcode 2).
  pose proof (Hcode 3). split_ltb; lia.
Qed.

(** The lanes of a group: the bytes the control byte selects. *)
Lemma DecodeData_lanes mem control ptr :
  0 <= control < 256 ->
  exists lanes, DecodeData mem control ptr = Some (lanes, ptr + start control 4) /\
    lanes = map (fun j =>
      let b k := if k <=? code control j then mem (ptr + (start control j + k)) else 0 in
      b 0 + 2 ^ 8 * b 1 + 2 ^ 16 * b 2 + 2 ^ 24 * b 3) [0; 1; 2; 3].
Proof.
  intros Hc. unfold DecodeData. rewrite tables_length by done. bind_step.
  destruct (tables_shuffle control 0 0 Hc ltac:(lia) ltac:(lia)) as (shuf & Hs & _).
  rewrite Hs. bind_step. eexists. split; [done|].
  assert (forall j b, 0 <= j < 4 -> 0 <= b < 4 ->
    nth (Z.to_nat (4 * j + b)) (mm_shuffle_epi8 (mm_loadu_si128 mem ptr) shuf) 0 =
    if b <=? code control j then mem (ptr + (start control j + b)) else 0) as Hb.
  { intros j b Hj Hb. destruct (tables_shuffle control j b Hc Hj Hb) as (shuf' & Hs' & Hget).
    rewrite Hs in Hs'. injection Hs' as <-. apply nth_lookup_Some. unfold mm_shuffle_epi8.
    apply list_lookup_fmap_Some. eexists. split; [|by apply zget_Some_inv in Hget as [_ ?]].
    pose proof (start_bound control j ltac:(lia) Hc).
    destruct (Z.leb_spec b (code control j)) as [Hle|]; [|done].
    rewrite (proj2 (Z.ltb_ge _ 0)) by lia.
    pose proof (code_bound control j). assert (start control j + b < 16) as Hlt by lia.
    change 15 with (Z.ones 4). rewrite Z.land_ones by lia. rewrite Z.mod_small by lia.
    symmetry. apply loadu_nth. lia. }
  unfold mm_lanes. apply map_ext_in. intros j Hj. assert (0 <= j < 4) by (simpl in Hj; lia).
  rewrite <- !Hb by lia. rewrite Z.add_0_r. done.
Qed.

(** The lanes of a group whose bytes are in memory: the values, then junk. *)
Lemma DecodeData_group mem ptr vs :
  u32s vs -> (length vs <= 4)%nat -> reads_mem mem ptr (concat (map vbytes vs)) ->
  exists junk ptr', DecodeData mem (group_key vs) ptr = Some (vs ++ junk, ptr') /\
    (length vs + length junk = 4)%nat /\
    (length vs = 4%nat -> ptr' = ptr + Z.of_nat (length (concat (map vbytes vs)))).
Proof.
  intros Hvs Hlen Hr. pose proof (group_key_bound vs Hvs) as Hk.
  assert (4 ^ Z.of_nat (length vs) <= 4 ^ 4) as Hp by (apply Z.pow_le_mono_r; lia).
  destruct (DecodeData_lanes mem (group_key vs) ptr) as (lanes & E & Hl); [lia|].
  exists (drop (length vs) lanes), (ptr + start (group_key vs) 4). rewrite E.
  assert (length lanes = 4%nat) as Hll by (by rewrite Hl).
  assert (take (length vs) lanes = vs) as Htake.
  { apply list_eq_same_length with (n := length vs); [done|rewrite length_take; lia|].
    intros j x y Hj Hx Hy. rewrite lookup_take_lt, Hl in Hx by done.
    apply list_lookup_fmap_Some in Hx as (z & -> & Hz).
    assert (z = Z.of_nat j) as -> by (destruct j as [|[|[|[|?]]]]; simpl in Hz; simplify_eq; lia).
    cbv zeta. rewrite (group_code vs j y Hvs Hy), group_start by (done || lia).
    pose proof (Forall_lookup_1 _ _ _ _ Hvs Hy) as Hyr. cbv beta in Hyr.
    destruct (vcode_spec y Hyr) as (Hc & Hlt & _).
    assert (forall k, 0 <= k ->
      (if k <=? vcode y then mem (ptr + (Z.of_nat (length (concat (map vbytes (take j vs)))) + k)) else 0) =
      (if k <=? vcode y then (y / 2 ^ (8 * k)) mod 2 ^ 8 else 0)) as Hb.
    { intros k Hk0. destruct (Z.leb_spec k (vcode y)) as [Hk1|]; [|done].
      rewrite Z.add_assoc, <- (Z2Nat.id k) at 1 by done.
      rewrite <- (take_drop_middle vs j y Hy), map_app, concat_app in Hr. cbn [map concat] in Hr.
      apply reads_mem_app in Hr as [_ Hr]. apply reads_mem_app in Hr as [Hr _].
      apply Hr. rewrite vbytes_eq by done. apply list_lookup_fmap_Some. exists k.
      split; [done|]. apply lookup_seqZ. lia. }
    rewrite (Hb 0), (Hb 1), (Hb 2), (Hb 3) by lia. by apply low_bytes. }
  split.
  - f_equal. f_equal. rewrite <- (take_drop (length vs) lanes) at 1. by rewrite Htake.
  - split; [rewrite length_drop; lia|]. intros H4. f_equal.
    change 4 with (Z.of_nat 4). rewrite group_start by (done || lia).
    by rewrite take_ge by lia.
Qed.

(** * What an encoding writes *)

Section encoding.
Context `{ops : DeltaOps}.

(** The values coded from position [c] with previous value [p], and the last
    previous value. *)
Fixpoint gen_vals (c p : Z) (xs : list Z) : list Z * Z :=
  match xs with
  | [] => ([], p)
  | x :: xs' => let '(v, p) := GenValue p x c in
                let '(vs, p) := gen_vals (c + 1) p xs' in (v :: vs, p)
  end.

(** The control bytes of a list of values. *)
Fixpoint keys_of (vs : list Z) : list Z :=
  match vs with
  | [] => []
  | a :: b :: c :: d :: ((_ :: _) as vs') => group_key [a; b; c; d] :: keys_of vs'
  | _ => [group_key vs]
  end.

Definition data_of (vs : list Z) : list Z := concat (map vbytes vs).
Definition data_len (vs : list Z) : Z := foldr (fun v acc => vcode v + 1 + acc) 0 vs.

Lemma length_gen c p xs : length (gen_vals c p xs).1 = length xs.
Proof.
  revert c p. induction xs as [|x xs IH]; intros c p; [done|]. cbn [gen_vals].
  destruct (GenValue p x c) as [v q]. specialize (IH (c + 1) q).
  destruct (gen_vals (c + 1) q xs). simpl in *. by rewrite IH.
Qed.

Lemma gen_app c p xs ys :
  gen_vals c p (xs ++ ys) =
  let '(vs, q) := gen_vals c p xs in
  let '(ws, r) := gen_vals (c + Z.of_nat (length xs)) q ys in (vs ++ ws, r).
Proof.
  revert c p. induction xs as [|x xs IH]; intros c p; cbn [gen_vals app length].
  - rewrite Z.add_0_r. by destruct (gen_vals c p ys).
  - destruct (GenValue p x c) as [v q]. rewrite IH.
    destruct (gen_vals (c + 1) q xs) as [vs r].
    replace (c + Z.of_nat (S (length xs))) with (c + 1 + Z.of_nat (length xs)) by lia.
    by destruct (gen_vals (c + 1 + Z.of_nat (length xs)) r ys).
Qed.

Lemma data_len_spec vs : u32s vs -> data_len vs = Z.of_nat (length (data_of vs)) /\ 0 <= data_len vs <= 4 * Z.of_nat (length vs).
Proof.
  induction 1 as [|v vs Hv Hvs [IH1 IH2]]; [done|]. unfold data_of in *. cbn [data_len foldr map concat length].
  change (foldr _ 0 vs) with (data_len vs). rewrite length_app, Nat2Z.inj_add, length_vbytes by done.
  destruct (vcode_spec v Hv). lia.
Qed.

Lemma key_pack k c s :
  0 <= c <= 3 -> 0 <= s <= 6 -> 0 <= k < 2 ^ s -> u8 (Z.lor k (Z.shiftl c s)) = k + c * 2 ^ s.
Proof.
  intros Hc Hs Hk. rewrite lor_low by lia.
  assert (2 ^ s <= 2 ^ 6) by (apply Z.pow_le_mono_r; lia). apply u8_small. nia.
Qed.

(** One turn of the loop, in the middle of a control byte. *)
Lemma EncodeDeltas_step x xs c s key prev len keys data v p :
  GenValue prev x c = (v, p) -> 0 <= v < 2 ^ 32 -> 0 <= s <= 6 -> 0 <= key < 2 ^ s ->
  0 <= len < 2 ^ 32 - 4 ->
  EncodeDeltas_loop (x :: xs) c s key prev len keys data =
  EncodeDeltas_loop xs (c + 1) (s + 2) (key + vcode v * 2 ^ s) p (len + vcode v + 1) keys (data ++ vbytes v).
Proof.
  intros Hg Hv Hs Hk Hlen. cbn [EncodeDeltas_loop]. rewrite (proj2 (Z.eqb_neq s 8)) by lia.
  rewrite Hg. unfold vcode, vbytes. pose proof (vcode_spec v Hv) as [Hc _]. unfold vcode in Hc.
  destruct (EncodeDelta v) as [bytes code] eqn:E. cbn [fst snd] in *.
  rewrite key_pack, u8_small, u32_small by lia. done.
Qed.

(** The loop from the start of a control byte, one to four values to its end. *)
Lemma EncodeDeltas_flush xs c key prev len keys data :
  xs <> [] ->
  EncodeDeltas_loop xs c 8 key prev len keys data =
  EncodeDeltas_loop xs c 0 0 prev len (keys ++ [key]) data.
Proof. destruct xs; done. Qed.

Lemma gen_cons c p x xs v q :
  GenValue p x c = (v, q) -> gen_vals c p (x :: xs) = (v :: (gen_vals (c + 1) q xs).1, (gen_vals (c + 1) q xs).2).
Proof. intros Hg. cbn [gen_vals]. rewrite Hg. by destruct (gen_vals (c + 1) q xs). Qed.

Lemma data_of_cons v vs : data_of (v :: vs) = vbytes v ++ data_of vs.
Proof. done. Qed.

Lemma GenValue_pair p x c : exists v q, GenValue p x c = (v, q).
Proof. destruct (GenValue p x c). eauto. Qed.

(** A turn of the loop: the value [v] of [x], after which the previous id is [q]. *)
Tactic Notation "take_value" constr(x) constr(c) constr(p) "of" hyp(Hv) "as" ident(v) ident(q) :=
  let G := fresh "G" in let H := fresh "Hv" in let Hc := fresh "Hc" in
  destruct (GenValue_pair p x c) as (v & q & G); rewrite (gen_cons _ _ _ _ _ _ G) in *; cbn [fst snd] in *;
  apply Forall_cons in Hv as [H Hv]; destruct (vcode_spec v H) as [Hc _]; cbn [length] in *;
  rewrite (EncodeDeltas_step _ _ _ _ _ _ _ _ _ _ _ G) by lia.

(** The end of the loop within a group of four. *)
Ltac last_value :=
  cbn [EncodeDeltas_loop gen_vals fst keys_of data_len foldr]; rewrite !data_of_cons;
  unfold group_key, data_of; cbn [foldr map concat]; rewrite app_nil_r, <- ?app_assoc; f_equal; [do 3 f_equal; lia|lia].

Lemma EncodeDeltas_loop_spec n xs c prev len keys data :
  (length xs <= n)%nat -> xs <> [] -> u32s (gen_vals c prev xs).1 -> 0 <= len ->
  len + 4 * Z.of_nat (length xs) < 2 ^ 32 ->
  EncodeDeltas_loop xs c 0 0 prev len keys data =
  (keys ++ keys_of (gen_vals c prev xs).1, data ++ data_of (gen_vals c prev xs).1,
   len + data_len (gen_vals c prev xs).1).
Proof.
  revert xs c prev len keys data.
  induction n as [|n IH]; intros xs c prev len keys data Hn Hne Hv Hl0 Hl.
  { destruct xs; [done|simpl in Hn; lia]. }
  destruct xs as [|x0 xs]; [done|]. take_value x0 c prev of Hv as v0 p0. rewrite Z.add_0_l, Z.mul_1_r.
  destruct xs as [|x1 xs]; [last_value|]. take_value x1 (c + 1) p0 of Hv as v1 p1.
  destruct xs as [|x2 xs]; [last_value|]. take_value x2 (c + 1 + 1) p1 of Hv as v2 p2.
  destruct xs as [|x3 xs]; [last_value|]. take_value x3 (c + 1 + 1 + 1) p2 of Hv as v3 p3.
  match goal with |- EncodeDeltas_loop _ _ _ ?k _ _ _ _ = _ =>
    replace k with (group_key [v0; v1; v2; v3]) by (unfold group_key; cbn [foldr]; lia) end.
  destruct xs as [|x4 xs].
  { cbn [EncodeDeltas_loop gen_vals fst keys_of data_len foldr]. rewrite !data_of_cons.
    unfold data_of. cbn [map concat]. rewrite app_nil_r, <- !app_assoc. f_equal. lia. }
  change (0 + 2 + 2 + 2 + 2) with 8. rewrite EncodeDeltas_flush by done.
  rewrite IH by (done || (cbn [length] in *; lia)).
  rewrite !data_of_cons. cbn [data_len foldr]. change (foldr _ 0 ?l) with (data_len l).
  rewrite <- !app_assoc. f_equal; [|lia]. f_equal. f_equal.
  pose proof (length_gen (c + 1 + 1 + 1 + 1) p3 (x4 :: xs)) as Hlen.
  destruct (gen_vals (c + 1 + 1 + 1 + 1) p3 (x4 :: xs)).1; done.
Qed.

Lemma EncodeDeltas_spec xs :
  u32s (gen_vals 0 0 xs).1 -> 4 * Z.of_nat (length xs) < 2 ^ 32 ->
  EncodeDeltas xs = (keys_of (gen_vals 0 0 xs).1, data_of (gen_vals 0 0 xs).1,
                     u8 (data_len (gen_vals 0 0 xs).1)).
Proof.
  intros Hv Hl. unfold EncodeDeltas. destruct xs as [|x xs]; [done|].
  rewrite (EncodeDeltas_loop_spec (length (x :: xs))) by (done || lia). done.
Qed.

Lemma length_keys vs : Z.of_nat (length (keys_of vs)) = (Z.of_nat (length vs) + 3) / 4.
Proof.
  assert (forall n vs, (length vs <= n)%nat -> Z.of_nat (length (keys_of vs)) = (Z.of_nat (length vs) + 3) / 4) as H.
  { induction n as [|n IH]; intros [|a [|b [|c [|d [|e ws]]]]] Hn; try done; [simpl in Hn; lia|].
    change (keys_of (a :: b :: c :: d :: e :: ws)) with (group_key [a; b; c; d] :: keys_of (e :: ws)).
    cbn [length] in *. rewrite !Nat2Z.inj_succ, IH by (cbn [length]; lia). cbn [length].
    rewrite Nat2Z.inj_succ.
    replace (Z.succ (Z.succ (Z.succ (Z.succ (Z.succ (Z.of_nat (length ws)))))) + 3)
      with (Z.succ (Z.of_nat (length ws)) + 3 + 1 * 4) by lia.
    rewrite Z.div_add by lia. lia. }
  by apply (H (length vs)).
Qed.

(** [GetRequiredBytes] announces the size of the encoding. *)
Lemma GetRequiredBytes_loop_spec xs c p len :
  u32s (gen_vals c p xs).1 -> 0 <= len -> len + 4 * Z.of_nat (length xs) < 2 ^ 32 ->
  GetRequiredBytes_loop xs c p len = len + data_len (gen_vals c p xs).1.
Proof.
  revert c p len. induction xs as [|x xs IH]; intros c p len Hv Hl Hn.
  { cbn. lia. }
  cbn [GetRequiredBytes_loop]. destruct (GenValue p x c) as [v q] eqn:G.
  rewrite (gen_cons _ _ _ _ _ _ G) in *. cbn [fst snd length] in *. apply Forall_cons in Hv as [Hv0 Hv].
  destruct (vcode_spec v Hv0) as (Hc & _ & ->). rewrite u32_small by lia. rewrite IH by (done || lia).
  cbn [data_len foldr]. change (foldr _ 0 ?l) with (data_len l). lia.
Qed.
End encoding.

(** * The contract of the virtual methods

    [good p P]: the scalar [p] the encoder carries agrees with the lanes [P] the
    decoder carries. Whatever follows the values of a group in its lanes, the
    recovered lanes start with the elements. *)
Class DeltaLaws (ops : DeltaOps) := {
  good : Z -> list Z -> Prop;
  good_start : good 0 (mm_set1_epi32 0);
  gen_u32 : forall c p xs, u32s xs -> u32s (gen_vals c p xs).1;
  recover : forall c p P xs junk, c mod 4 = 0 -> good p P -> u32s xs ->
    (length xs + length junk = 4)%nat ->
    exists tail, RecoveryFromDelta ((gen_vals c p xs).1 ++ junk) P = xs ++ tail /\
      (length xs + length tail = 4)%nat /\
      (length xs = 4%nat -> good (gen_vals c p xs).2 xs)
}.

Lemma u32_offset a : exists k, u32 a = a + k * 2 ^ 32.
Proof. exists (- (a / 2 ^ 32)). unfold u32. pose proof (Z.div_mod a (2 ^ 32)). lia. Qed.

(** Proves an equality of wrapped sums: every [u32 a], the innermost first, is
    an integer in range at a multiple of 2^32 from [a]. *)
Ltac u32_solve :=
  repeat match goal with
  | |- context [u32 ?a] =>
      lazymatch a with context [u32 _] => fail | _ =>
        let k := fresh "k" in let E := fresh "E" in let y := fresh "y" in
        pose proof (u32_bound a); destruct (u32_offset a) as [k E];
        generalize dependent (u32 a); intros y ? E
      end
  end; lia.

Lemma cons_eq {A} (x y : A) l l' : x = y -> l = l' -> x :: l = y :: l'.
Proof. by intros -> ->. Qed.

(** The cases of a group: its elements and what follows them in the lanes. *)
Ltac group_cases xs junk Hlen :=
  destruct xs as [|? [|? [|? [|? [|? ?]]]]]; cbn [length] in Hlen; try lia;
  destruct junk as [|? [|? [|? [|? [|? ?]]]]]; cbn [length] in Hlen; try lia;
  unfold u32s in *;
  repeat match goal with H : Forall _ (_ :: _) |- _ => apply Forall_cons in H as [? H] end.

Ltac lanes_eq :=
  repeat match goal with
  | |- _ = ?l => is_evar l; reflexivity
  | |- _ :: _ = _ :: _ => apply cons_eq; [u32_solve|]
  end.

Lemma gen_u32_of (ops : DeltaOps) :
  (forall p x c, 0 <= x < 2 ^ 32 -> 0 <= (GenValue p x c).1 < 2 ^ 32) ->
  forall c p xs, u32s xs -> u32s (gen_vals c p xs).1.
Proof.
  intros H c p xs Hxs. revert c p. induction Hxs as [|x xs Hx Hxs IH]; intros c p; [constructor|].
  cbn [gen_vals]. specialize (H p x c Hx). destruct (GenValue p x c) as [v q].
  specialize (IH (c + 1) q). destruct (gen_vals (c + 1) q xs). by constructor.
Qed.

#[export] Instance DeltaSIMDCodec_laws : DeltaLaws DeltaSIMDCodec.
Proof.
  refine {| good p P := length P = 4%nat /\ nth 3 P 0 = p /\ 0 <= p < 2 ^ 32 |}.
  - done.
  - apply gen_u32_of. intros p x c Hx. apply u32_bound.
  - intros c p P xs junk _ (HP & Hp & Hpr) Hxs Hlen.
    destruct P as [|a [|b [|d [|e [|? ?]]]]]; try done. cbn [nth] in Hp. subst e.
    group_cases xs junk Hlen; cbn -[u32 Z.add Z.sub];
      (eexists; split; [lanes_eq|split; [reflexivity|done]]).
Defined.

Lemma byte_parts x :
  0 <= x < 2 ^ 32 ->
  x mod 2 ^ 8 + 2 ^ 8 * (x / 2 ^ 8 mod 2 ^ 8) + 2 ^ 16 * (x / 2 ^ 16 mod 2 ^ 8)
  + 2 ^ 24 * (x / 2 ^ 24 mod 2 ^ 8) = x.
Proof.
  intros Hx. pose proof (low_bytes x 3 Hx ltac:(lia) ltac:(lia)) as H. cbv beta zeta in H.
  change (2 ^ (8 * 0)) with 1 in H. rewrite Z.div_1_r in H. exact H.
Qed.

Definition parts_sum (x : Z) : Z :=
  x mod 2 ^ 8 + 2 ^ 8 * (x / 2 ^ 8 mod 2 ^ 8) + 2 ^ 16 * (x / 2 ^ 16 mod 2 ^ 8)
  + 2 ^ 24 * (x / 2 ^ 24 mod 2 ^ 8).

(** V1 adds the first lane to the three others. *)
Lemma V1_recover a b c d P :
  RecoveryFromDelta (DeltaOps := DeltaSIMDCodecV1) [a; b; c; d] P =
  [u32 (a + 0); u32 (b + parts_sum a); u32 (c + parts_sum a); u32 (d + parts_sum a)].
Proof. reflexivity. Qed.

#[export] Instance DeltaSIMDCodecV1_laws : DeltaLaws DeltaSIMDCodecV1.
Proof.
  refine {| good p P := True |}.
  - done.
  - apply gen_u32_of. intros p x c Hx. cbn [GenValue DeltaSIMDCodecV1].
    destruct (c mod 4 =? 0); [done|apply u32_bound].
  - intros c p P xs junk Hc _ Hxs Hlen.
    assert ((c + 1) mod 4 = 1 /\ (c + 1 + 1) mod 4 = 2 /\ (c + 1 + 1 + 1) mod 4 = 3) as (E1 & E2 & E3).
    { pose proof (Z.div_mod c 4 ltac:(lia)). rewrite Hc in *.
      repeat split; symmetry; apply (Z.mod_unique_pos _ _ (c / 4)); lia. }
    group_cases xs junk Hlen; cbn [gen_vals GenValue DeltaSIMDCodecV1];
      rewrite ?Hc, ?E1, ?E2, ?E3;
      cbn [Z.eqb fst snd app length]; rewrite V1_recover; unfold parts_sum; rewrite ?byte_parts by done;
      (eexists; split; [lanes_eq|split; [reflexivity|done]]).
Defined.

#[export] Instance DeltaSIMDCodecV2_laws : DeltaLaws DeltaSIMDCodecV2.
Proof.
  refine {| good p P := True |}.
  - done.
  - apply gen_u32_of. intros p x c Hx. cbn [GenValue DeltaSIMDCodecV2].
    destruct (c mod 4 =? 0); [done|apply u32_bound].
  - intros c p P xs junk Hc _ Hxs Hlen.
    assert ((c + 1) mod 4 = 1 /\ (c + 1 + 1) mod 4 = 2 /\ (c + 1 + 1 + 1) mod 4 = 3) as (E1 & E2 & E3).
    { pose proof (Z.div_mod c 4 ltac:(lia)). rewrite Hc in *.
      repeat split; symmetry; apply (Z.mod_unique_pos _ _ (c / 4)); lia. }
    group_cases xs junk Hlen; cbn [gen_vals GenValue DeltaSIMDCodecV2];
      rewrite ?Hc, ?E1, ?E2, ?E3; cbn -[u32 Z.add Z.sub];
      (eexists; split; [lanes_eq|split; [reflexivity|done]]).
Defined.

(** * Comparing lanes *)

(** Ids are below 2^31, where the signed comparison of SSE is the integers'. *)
Definition small_ids (l : list Z) : Prop := Forall (fun x => 0 <= x < 2 ^ 31) l.

Lemma small_u32s l : small_ids l -> u32s l.
Proof. intros H. eapply Forall_impl; [exact H|]. simpl. lia. Qed.

Definition full_mask (k : nat) : Z := 2 ^ Z.of_nat k - 1.

Lemma masked_lanes (test : Z -> bool) xs tail :
  (1 <= length xs)%nat -> (length xs + length tail = 4)%nat ->
  Z.land (mm_movemask (map test (xs ++ tail))) (full_mask (length xs)) = mm_movemask (map test xs).
Proof.
  intros Hx Hl.
  destruct xs as [|a [|b [|c [|d [|? ?]]]]]; cbn [length] in *; try lia;
  destruct tail as [|j0 [|j1 [|j2 [|? ?]]]]; cbn [length] in *; try lia; cbn [map app];
  repeat match goal with |- context [test ?x] => destruct (test x) end; done.
Qed.

Lemma movemask_zero (test : Z -> bool) xs :
  (mm_movemask (map test xs) =? 0) = forallb (fun x => negb (test x)) xs.
Proof.
  pose proof (mm_movemask_nonzero (map test xs)) as H. apply (f_equal negb) in H.
  rewrite negb_involutive in H. rewrite H. clear H.
  induction xs as [|x xs IH]; [done|]. cbn [map existsb forallb]. rewrite negb_orb, IH. done.
Qed.

Lemma movemask_bound m : 0 <= mm_movemask m < 2 ^ Z.of_nat (length m).
Proof.
  induction m as [|b m IH]; [done|]. cbn [mm_movemask length].
  rewrite Nat2Z.inj_succ, Z.pow_succ_r by lia. destruct b; simpl; lia.
Qed.

Lemma movemask_full (test : Z -> bool) xs :
  (mm_movemask (map test xs) =? full_mask (length xs)) = forallb test xs.
Proof.
  unfold full_mask. induction xs as [|x xs IH]; [done|]. cbn [map mm_movemask forallb length].
  rewrite <- IH, Nat2Z.inj_succ, Z.pow_succ_r by lia. pose proof (movemask_bound (map test xs)) as Hb.
  rewrite length_map in Hb. destruct (test x); cbn [Z.b2z andb]; split_ltb; lia || done.
Qed.

Lemma lt_mask_map xs e : length xs = 4%nat ->
  lt_mask xs (mm_set1_epi32 e) = mm_movemask (map (fun x => s32 x <? s32 e) xs).
Proof. intros H. destruct xs as [|a [|b [|c [|d [|? ?]]]]]; done. Qed.

Lemma eq_mask_map xs e : length xs = 4%nat ->
  eq_mask xs (mm_set1_epi32 e) = mm_movemask (map (fun x => u32 x =? u32 e) xs).
Proof. intros H. destruct xs as [|a [|b [|c [|d [|? ?]]]]]; done. Qed.

(** What the three masks of a group say about its elements. *)
Lemma group_masks xs tail e :
  small_ids xs -> 0 <= e < 2 ^ 31 -> (1 <= length xs)%nat -> (length xs + length tail = 4)%nat ->
  let lt := Z.land (lt_mask (xs ++ tail) (mm_set1_epi32 e)) (full_mask (length xs)) in
  let eq := Z.land (eq_mask (xs ++ tail) (mm_set1_epi32 e)) (full_mask (length xs)) in
  (lt =? 0) = bool_decide (Forall (fun x => e <= x) xs) /\
  (lt =? full_mask (length xs)) = bool_decide (Forall (fun x => x < e) xs) /\
  negb (eq =? 0) = bool_decide (e ∈ xs).
Proof.
  intros Hs He Hx Hl. assert (length (xs ++ tail) = 4%nat) as H4 by (rewrite length_app; lia).
  cbv zeta. rewrite lt_mask_map, eq_mask_map, !masked_lanes, !movemask_zero, movemask_full by done.
  rewrite (s32_small e), (u32_small e) by lia. clear H4 Hx Hl.
  induction Hs as [|x xs Hx Hs (IH1 & IH2 & IH3)]; [done|]. cbn [forallb].
  rewrite (s32_small x), (u32_small x), IH1, IH2 by lia. split; [|split].
  - apply eq_true_iff_eq. rewrite andb_true_iff, !bool_decide_eq_true, Forall_cons.
    destruct (Z.ltb_spec x e); simpl; intuition lia.
  - apply eq_true_iff_eq. rewrite andb_true_iff, !bool_decide_eq_true, Forall_cons.
    destruct (Z.ltb_spec x e); simpl; intuition lia.
  - rewrite negb_andb, negb_involutive, IH3. apply eq_true_iff_eq.
    rewrite orb_true_iff, !bool_decide_eq_true, elem_of_cons.
    destruct (Z.eqb_spec x e); intuition (congruence || lia).
Qed.

(** ** Reference search, group by group *)

Lemma find_ref_below xs ys e : Forall (fun x => x < e) xs -> find_ref (xs ++ ys) e = find_ref ys e.
Proof.
  induction 1 as [|x xs Hx Hxs IH]; [done|]. cbn [app find_ref].
  rewrite (proj2 (Z.eqb_neq e x)), (proj2 (Z.ltb_ge e x)) by lia. done.
Qed.

Lemma find_ref_here xs ys e :
  StronglySorted Z.lt xs -> ~ Forall (fun x => x < e) xs ->
  find_ref (xs ++ ys) e = if bool_decide (e ∈ xs) then EXIST else NOT_EXIST.
Proof.
  intros Hs. induction xs as [|x xs IH]; intros Hn; [by destruct Hn|]. cbn [app find_ref].
  apply sorted_cons_inv in Hs as [Hs Hlt].
  destruct (Z.eqb_spec e x) as [->|Hne].
  { by rewrite bool_decide_eq_true_2 by (apply elem_of_cons; auto). }
  destruct (Z.ltb_spec e x) as [Hex|Hex].
  - rewrite bool_decide_eq_false_2; [done|]. intros [->|Hin]%elem_of_cons; [done|].
    apply Hlt in Hin. lia.
  - rewrite IH; [|done|].
    + rewrite (bool_decide_ext (e ∈ x :: xs) (e ∈ xs)); [done|]. rewrite elem_of_cons. naive_solver.
    + intros Hall. apply Hn. constructor; [lia|done].
Qed.

Section find.
Context {ops : DeltaOps} {laws : DeltaLaws ops} (mem : Z -> Z) (e : Z) (He : 0 <= e < 2 ^ 31).

Lemma group_recovered c p P xs ptr :
  c mod 4 = 0 -> good p P -> small_ids xs -> (1 <= length xs <= 4)%nat ->
  reads_mem mem ptr (data_of (gen_vals c p xs).1) ->
  exists data ptr' tail, DecodeData mem (group_key (gen_vals c p xs).1) ptr = Some (data, ptr') /\
    RecoveryFromDelta data P = xs ++ tail /\ (length xs + length tail = 4)%nat /\
    (length xs = 4%nat -> ptr' = ptr + Z.of_nat (length (data_of (gen_vals c p xs).1)) /\
       good (gen_vals c p xs).2 xs).
Proof.
  intros Hc Hg Hs Hl Hr. pose proof (small_u32s _ Hs) as Hu.
  pose proof (gen_u32 c p xs Hu) as Hv. pose proof (length_gen c p xs) as Hlen.
  destruct (DecodeData_group mem ptr (gen_vals c p xs).1) as (junk & ptr' & E & Hj & Hp); [done|lia|done|].
  destruct (recover c p P xs junk Hc Hg Hu ltac:(lia)) as (tail & E2 & Ht & Hg2).
  exists ((gen_vals c p xs).1 ++ junk), ptr', tail. split; [done|]. split; [done|]. split; [done|].
  intros H4. split; [apply Hp; lia|by apply Hg2].
Qed.

(** The last group's mask. *)
Lemma last_mask n k :
  (1 <= k <= 4)%nat -> n mod 4 = Z.of_nat k mod 4 ->
  zget LAST_COMPARE_MASK (Z.land n 3) = Some (full_mask k).
Proof.
  intros Hk Hn. pose proof (Z.land_ones n 2 ltac:(lia)) as H. change (Z.ones 2) with 3 in H.
  rewrite H. change (2 ^ 2) with 4. rewrite Hn.
  destruct k as [|[|[|[|[|?]]]]]; try lia; done.
Qed.

Lemma last_some n : exists last, zget LAST_COMPARE_MASK (Z.land n 3) = Some last.
Proof.
  assert (0 <= Z.land n 3 < 4) as Hn.
  { change 3 with (Z.ones 2). rewrite Z.land_ones by lia. apply Z.mod_pos_bound. lia. }
  generalize dependent (Z.land n 3). intros k Hk.
  assert (k = 0 \/ k = 1 \/ k = 2 \/ k = 3) as [-> | [-> | [-> | ->]]] by lia; eexists; reflexivity.
Qed.

Lemma take_4 (l : list Z) :
  (4 < length l)%nat -> exists xs ys, l = xs ++ ys /\ length xs = 4%nat /\ ys <> [].
Proof.
  intros Hl. exists (take 4 l), (drop 4 l). rewrite take_drop, length_take.
  split; [done|]. split; [lia|]. intros Hd. apply (f_equal length) in Hd.
  rewrite length_drop in Hd. simpl in Hd. lia.
Qed.

Lemma groups_pos (l : list Z) : l <> [] -> 1 <= (Z.of_nat (length l) + 3) / 4.
Proof.
  intros Hl. apply Z.div_le_lower_bound; [lia|]. destruct l; [done|]. cbn [length]. lia.
Qed.

Lemma groups_succ n : (n + 4 + 3) / 4 = (n + 3) / 4 + 1.
Proof. replace (n + 4 + 3) with (n + 3 + 1 * 4) by lia. by rewrite Z.div_add. Qed.

Lemma mod4_drop count n : count mod 4 = (n + 4) mod 4 -> count mod 4 = n mod 4.
Proof. intros ->. replace (n + 4) with (n + 1 * 4) by lia. by rewrite Z.mod_add. Qed.

Lemma keys_one vs : (1 <= length vs <= 4)%nat -> keys_of vs = [group_key vs].
Proof. destruct vs as [|a [|b [|c [|d [|f vs]]]]]; simpl; done || lia. Qed.

Lemma full_mask_land k : (1 <= k <= 4)%nat -> Z.land 15 (full_mask k) = full_mask k.
Proof. intros Hk. destruct k as [|[|[|[|[|?]]]]]; try lia; done. Qed.

(** The first group of four of a longer list. *)
Lemma group_split c p xs ys :
  length xs = 4%nat -> ys <> [] ->
  exists vs q ws r, gen_vals c p xs = (vs, q) /\ gen_vals (c + 4) q ys = (ws, r) /\
    gen_vals c p (xs ++ ys) = (vs ++ ws, r) /\ length vs = 4%nat /\
    keys_of (vs ++ ws) = group_key vs :: keys_of ws /\ data_of (vs ++ ws) = data_of vs ++ data_of ws.
Proof.
  intros Hxs Hys. pose proof (gen_app c p xs ys) as Happ. pose proof (length_gen c p xs) as Hvs.
  rewrite Hxs in Happ. change (Z.of_nat 4) with 4 in Happ.
  destruct (gen_vals c p xs) as [vs q]. pose proof (length_gen (c + 4) q ys) as Hws.
  destruct (gen_vals (c + 4) q ys) as [ws r] eqn:Ews. cbn [fst] in *.
  exists vs, q, ws, r. do 3 (split; [done|]). split; [lia|]. split.
  - destruct vs as [|v0 [|v1 [|v2 [|v3 [|? ?]]]]]; simpl in Hvs; try lia.
    destruct ws; [destruct ys; [done|simpl in Hws; lia]|done].
  - unfold data_of. by rewrite map_app, concat_app.
Qed.

Lemma land_15 z : 0 <= z < 16 -> Z.land z 15 = z.
Proof. intros Hz. change 15 with (Z.ones 4). rewrite Z.land_ones by lia. by apply Z.mod_small. Qed.

(** The masks of a full group. *)
Lemma full_group_masks xs :
  small_ids xs -> length xs = 4%nat ->
  (lt_mask xs (mm_set1_epi32 e) =? 0) = bool_decide (Forall (fun x => e <= x) xs) /\
  (lt_mask xs (mm_set1_epi32 e) =? 15) = bool_decide (Forall (fun x => x < e) xs) /\
  negb (eq_mask xs (mm_set1_epi32 e) =? 0) = bool_decide (e ∈ xs).
Proof.
  intros Hs Hxs. destruct (group_masks xs [] e Hs He ltac:(lia) ltac:(simpl; lia)) as (H0 & H15 & Heq).
  cbv zeta in *. rewrite app_nil_r, Hxs in *. change (full_mask 4) with 15 in *.
  assert (forall test : Z -> bool, Z.land (mm_movemask (map test xs)) 15 = mm_movemask (map test xs)) as HL.
  { intros test. apply land_15. pose proof (movemask_bound (map test xs)) as HB.
    rewrite length_map, Hxs in HB. exact HB. }
  rewrite !lt_mask_map, !eq_mask_map in * by done. rewrite !HL in *. done.
Qed.

(** What the decoder sees of a full group. *)
Lemma full_group c p P xs vs q ptr :
  c mod 4 = 0 -> good p P -> small_ids xs -> length xs = 4%nat -> gen_vals c p xs = (vs, q) ->
  reads_mem mem ptr (data_of vs) ->
  exists data, DecodeData mem (group_key vs) ptr = Some (data, ptr + Z.of_nat (length (data_of vs))) /\
    RecoveryFromDelta data P = xs /\ good q xs.
Proof.
  intros Hc Hg Hs Hxs Ev Hd.
  destruct (group_recovered c p P xs ptr Hc Hg Hs) as (data & ptr' & tail & E & E2 & Ht & H4);
    [lia|by rewrite Ev|]. rewrite Ev in E, H4. destruct H4 as [-> Hq]; [done|].
  destruct tail; [|simpl in Ht; lia]. rewrite app_nil_r in E2. eauto.
Qed.

(** The last group. *)
Definition last_step (key data_ptr last : Z) (pre : list Z) : option FindRes :=
  r ← DecodeData mem key data_ptr;
  let '(data, _) := r in
  let pre := RecoveryFromDelta data pre in
  let mask := Z.land (lt_mask pre (mm_set1_epi32 e)) last in
  if mask =? Z.land 15 last then Some GRATER_THAN_MAX
  else Some (if negb (Z.land (eq_mask pre (mm_set1_epi32 e)) last =? 0) then EXIST else NOT_EXIST).

Lemma last_step_spec c p P rest ptr :
  c mod 4 = 0 -> good p P -> small_ids rest -> StronglySorted Z.lt rest -> (1 <= length rest <= 4)%nat ->
  reads_mem mem ptr (data_of (gen_vals c p rest).1) ->
  last_step (group_key (gen_vals c p rest).1) ptr (full_mask (length rest)) P = Some (find_ref rest e).
Proof.
  intros Hc Hg Hs Hsort Hl Hd. unfold last_step.
  destruct (group_recovered c p P rest ptr Hc Hg Hs) as (data & ptr' & tail & E & E2 & Ht & _); [lia|done|].
  rewrite E. bind_step. rewrite E2.
  destruct (group_masks rest tail e Hs He ltac:(lia) Ht) as (_ & Hfull & Heq). cbv zeta in Hfull, Heq.
  rewrite full_mask_land, Hfull, Heq by lia.
  pose proof (find_ref_below rest [] e) as Hbelow. pose proof (find_ref_here rest [] e Hsort) as Hhere.
  rewrite app_nil_r in Hbelow, Hhere.
  destruct (bool_decide_reflect (Forall (fun x => x < e) rest)) as [Hall|Hall].
  - by rewrite Hbelow by done.
  - by rewrite Hhere by done.
Qed.

Definition rest_steps (inbyte last : Z) (m i ptr : Z) (P : list Z) : option FindRes :=
  mid ← FindWithCount_mid mem inbyte (mm_set1_epi32 e) (Z.to_nat (m - 1)) i ptr P;
  match mid with
  | inl res => Some res
  | inr (pre, data_ptr) => last_step (mem (inbyte + (i + (m - 1)))) data_ptr last pre
  end.

(** The groups after the first. *)
Lemma find_rest n inbyte count last rest c p P i ptr :
  (length rest <= n)%nat -> rest <> [] -> c mod 4 = 0 -> good p P -> small_ids rest ->
  StronglySorted Z.lt rest -> count mod 4 = Z.of_nat (length rest) mod 4 ->
  zget LAST_COMPARE_MASK (Z.land count 3) = Some last ->
  reads_mem mem (inbyte + i) (keys_of (gen_vals c p rest).1) ->
  reads_mem mem ptr (data_of (gen_vals c p rest).1) ->
  rest_steps inbyte last ((Z.of_nat (length rest) + 3) / 4) i ptr P = Some (find_ref rest e).
Proof.
  revert rest c p P i ptr. induction n as [|n IH];
    intros rest c p P i ptr Hn Hne Hc Hg Hs Hsort Hcnt Hlast Hk Hd; unfold rest_steps.
  { destruct rest; [done|simpl in Hn; lia]. }
  destruct (decide (length rest <= 4)%nat) as [Hle|Hgt].
  - assert (1 <= length rest)%nat as H1 by (destruct rest; [done|simpl; lia]).
    assert ((Z.of_nat (length rest) + 3) / 4 = 1) as ->.
    { symmetry. apply (Z.div_unique_pos _ 4 1 (Z.of_nat (length rest) - 1)); lia. }
    change (Z.to_nat (1 - 1)) with 0%nat. cbn [FindWithCount_mid]. bind_step.
    rewrite keys_one in Hk by (rewrite length_gen; lia).
    replace (mem (inbyte + (i + (1 - 1)))) with (group_key (gen_vals c p rest).1)
      by (rewrite <- (Hk 0%nat _ eq_refl); f_equal; lia).
    rewrite (last_mask count (length rest)) in Hlast by (done || lia). injection Hlast as <-.
    by apply last_step_spec.
  - destruct (take_4 rest) as (xs & ys & -> & Hxs & Hys); [lia|]. rewrite length_app, Hxs in *.
    destruct (group_split c p xs ys Hxs Hys) as (vs & q & ws & r & Ev & Ew & E & Hvs & HK & HD).
    rewrite E in Hk, Hd. cbn [fst] in Hk, Hd. rewrite HK in Hk. rewrite HD in Hd.
    apply reads_mem_app in Hd as [Hd1 Hd2]. apply (reads_mem_app _ _ [_]) in Hk as [Hk1 Hk2].
    apply Forall_app in Hs as [Hs1 Hs2]. rewrite Nat2Z.inj_add, (Z.add_comm (Z.of_nat 4)) in *.
    change (Z.of_nat 4) with 4 in *. rewrite groups_succ, Z.add_simpl_r.
    pose proof (groups_pos ys Hys) as Hm. set (m := (Z.of_nat (length ys) + 3) / 4) in *.
    replace (Z.to_nat m) with (S (Z.to_nat (m - 1))) by lia. cbn [FindWithCount_mid].
    replace (mem (inbyte + i)) with (group_key vs) by (rewrite <- (Hk1 0%nat _ eq_refl); f_equal; lia).
    destruct (full_group c p P xs vs q ptr Hc Hg Hs1 Hxs Ev Hd1) as (data & E1 & E2 & Hq).
    rewrite E1. bind_step. rewrite E2.
    destruct (full_group_masks xs Hs1 Hxs) as (_ & Hfm & Heq). rewrite Hfm, Heq.
    destruct (bool_decide_reflect (Forall (fun x => x < e) xs)) as [Hall|Hall].
    + rewrite find_ref_below by done. replace (i + m) with (i + 1 + (m - 1)) by lia.
      apply (IH ys (c + 4) q xs (i + 1)); try done.
      * lia.
      * replace (c + 4) with (c + 1 * 4) by lia. by rewrite Z.mod_add.
      * by apply StronglySorted_app_1_r in Hsort.
      * by apply mod4_drop.
      * rewrite Ew. cbn [fst]. by rewrite Z.add_assoc.
      * by rewrite Ew.
    + rewrite find_ref_here; [done|by apply StronglySorted_app_1_l in Hsort|done].
Qed.

Lemma control_bytes_eq n :
  1 <= n < 2 ^ 30 ->
  u32 (n + 3) / 4 = (n + 3) / 4 /\ 1 <= (n + 3) / 4 < 2 ^ 30 /\ ((n + 3) / 4 =? 1) = (n <=? 4).
Proof.
  intros Hn. rewrite u32_small by lia. pose proof (Z.div_mod (n + 3) 4 ltac:(lia)).
  pose proof (Z.mod_pos_bound (n + 3) 4 ltac:(lia)). split; [done|]. split; [lia|].
  apply eq_true_iff_eq. rewrite Z.eqb_eq, Z.leb_le. lia.
Qed.

Lemma find_sorted_first xs ys :
  xs <> [] -> Forall (fun y => e <= y) xs ->
  find_sorted (xs ++ ys) e = if nth 0 xs 0 =? e then EXIST else LESS_THAN_MIN.
Proof.
  intros Hne Hall. destruct Hall as [|x xs Hx _]; [done|]. cbn [app find_sorted nth]. rewrite Z.eqb_sym.
  destruct (Z.eqb_spec x e); [done|]. by rewrite (proj2 (Z.ltb_lt e x)) by lia.
Qed.

Lemma find_sorted_ref xs ys :
  StronglySorted Z.lt xs -> xs <> [] -> ~ Forall (fun y => e <= y) xs ->
  find_sorted (xs ++ ys) e = find_ref (xs ++ ys) e.
Proof.
  intros Hs Hne Hn. destruct xs as [|x l]; [done|]. cbn [app find_sorted find_ref].
  destruct (Z.eqb_spec e x); [done|]. destruct (Z.ltb_spec e x); [|done].
  exfalso. apply Hn. apply sorted_cons_inv in Hs as [_ Hlt]. constructor; [lia|].
  apply Forall_forall. intros y Hy. apply Hlt in Hy. lia.
Qed.

(** The search of a list of one group. *)
Lemma FindWithCount_short inbyte l :
  StronglySorted Z.lt l -> small_ids l -> (1 <= length l <= 4)%nat ->
  reads_mem mem inbyte (keys_of (gen_vals 0 0 l).1 ++ data_of (gen_vals 0 0 l).1) ->
  DeltaSIMDCodec_FindWithCount mem inbyte (Z.of_nat (length l)) e = Some (find_sorted l e).
Proof.
  intros Hsort Hs Hlen Hr. apply reads_mem_app in Hr as [Hk Hd].
  rewrite keys_one in * by (rewrite length_gen; lia).
  destruct (control_bytes_eq (Z.of_nat (length l))) as (Hcb & Hcb2 & Hone); [lia|].
  unfold DeltaSIMDCodec_FindWithCount. cbv zeta. rewrite Hcb, Hone, (last_mask _ (length l)) by (done || lia).
  bind_step. rewrite (proj2 (Z.leb_le _ _)) in * by lia. apply Z.eqb_eq in Hone as ->.
  replace (mem inbyte) with (group_key (gen_vals 0 0 l).1) by (rewrite <- (Hk 0%nat _ eq_refl); f_equal; lia).
  destruct (group_recovered 0 0 (mm_set1_epi32 0) l (inbyte + 1)) as (data & ptr' & tail & E & E2 & Ht & _);
    [done|apply good_start|done|lia|done|]. rewrite E. bind_step. rewrite E2.
  destruct (group_masks l tail e Hs He ltac:(lia) Ht) as (Hzero & Hfull & Heq). cbv zeta in Hzero, Hfull, Heq.
  rewrite full_mask_land, Hzero, Hfull, Heq by lia.
  assert (l <> []) as Hne by (intros ->; simpl in Hlen; lia).
  pose proof (find_sorted_first l [] Hne) as Hfirst. pose proof (find_sorted_ref l [] Hsort Hne) as Href.
  pose proof (find_ref_below l [] e) as Hbelow. pose proof (find_ref_here l [] e Hsort) as Hhere.
  rewrite app_nil_r in Hbelow, Hhere, Hfirst, Href.
  destruct (bool_decide_reflect (Forall (fun x => e <= x) l)) as [Hge|Hge].
  { rewrite Hfirst by done. by destruct l. }
  rewrite Href by done. destruct (bool_decide_reflect (Forall (fun x => x < e) l)) as [Hall|Hall].
  - by rewrite Hbelow by done.
  - by rewrite Hhere by done.
Qed.

(** The sequential search is the reference search. *)
Lemma FindWithCount_spec inbyte l :
  StronglySorted Z.lt l -> small_ids l -> l <> [] -> Z.of_nat (length l) < 2 ^ 30 ->
  reads_mem mem inbyte (keys_of (gen_vals 0 0 l).1 ++ data_of (gen_vals 0 0 l).1) ->
  DeltaSIMDCodec_FindWithCount mem inbyte (Z.of_nat (length l)) e = Some (find_sorted l e).
Proof.
  intros Hsort Hs Hne Hlen Hr.
  destruct (decide (length l <= 4)%nat) as [Hle|Hgt].
  { apply FindWithCount_short; try done. destruct l; [done|simpl in *; lia]. }
  apply reads_mem_app in Hr as [Hk Hd]. rewrite length_keys, length_gen in Hd.
  destruct (control_bytes_eq (Z.of_nat (length l))) as (Hcb & Hcb2 & Hone); [lia|].
  destruct (last_some (Z.of_nat (length l))) as [last Hlast].
  unfold DeltaSIMDCodec_FindWithCount. cbv zeta. rewrite Hcb, Hone, Hlast. bind_step.
  rewrite (proj2 (Z.leb_gt _ _)) by lia.
  destruct (take_4 l) as (xs & ys & -> & Hxs & Hys); [lia|]. rewrite length_app, Hxs in *.
  destruct (group_split 0 0 xs ys Hxs Hys) as (vs & q & ws & r & Ev & Ew & E & Hvs & HK & HD).
  rewrite E in Hk, Hd. cbn [fst] in Hk, Hd. rewrite HK in Hk. rewrite HD in Hd.
  apply reads_mem_app in Hd as [Hd1 Hd2]. apply (reads_mem_app _ _ [_]) in Hk as [Hk1 Hk2].
  apply Forall_app in Hs as [Hs1 Hs2]. rewrite Nat2Z.inj_add, (Z.add_comm (Z.of_nat 4)) in *.
  change (Z.of_nat 4) with 4 in *. rewrite groups_succ in *.
  pose proof (groups_pos ys Hys) as Hm. set (m := (Z.of_nat (length ys) + 3) / 4) in *.
  rewrite Z.add_simpl_r, (u32_small m) by lia.
  replace (mem inbyte) with (group_key vs) by (rewrite <- (Hk1 0%nat _ eq_refl); f_equal; lia).
  destruct (full_group 0 0 (mm_set1_epi32 0) xs vs q (inbyte + (m + 1))) as (data & E1 & E2 & Hq);
    [done|apply good_start|done..|]. rewrite E1. bind_step. rewrite E2.
  assert (xs <> []) as Hxne by (intros ->; done). pose proof (StronglySorted_app_1_l _ _ _ Hsort) as Hsx.
  destruct (full_group_masks xs Hs1 Hxs) as (H0 & Hfm & Heq). rewrite H0, Hfm, Heq.
  destruct (bool_decide_reflect (Forall (fun x => e <= x) xs)) as [Hge|Hge].
  { by rewrite find_sorted_first. }
  rewrite find_sorted_ref by done. destruct (bool_decide_reflect (Forall (fun x => x < e) xs)) as [Hall|Hall].
  - cbn [negb]. rewrite find_ref_below by done.
    rewrite <- (find_rest (length ys) inbyte (Z.of_nat (length ys) + 4) last ys 4 q xs 1
                  (inbyte + (m + 1) + Z.of_nat (length (data_of vs)))); try done.
    + unfold rest_steps. fold m. unfold last_step. by replace (1 + (m - 1)) with m by lia.
    + by apply StronglySorted_app_1_r in Hsort.
    + by apply mod4_drop.
    + by change 4 with (0 + 4); rewrite Ew.
    + by change 4 with (0 + 4); rewrite Ew.
  - cbn [negb]. by rewrite find_ref_here.
Qed.
End find.

(** * The encoded array *)

Lemma store_bytes_spec bytes pre mid post :
  length mid = length bytes ->
  store_bytes bytes (pre ++ mid ++ post) (Z.of_nat (length pre)) = Some (pre ++ bytes ++ post).
Proof.
  intros Hl. unfold store_bytes.
  assert (foldM (fun b '(out, k) => out ← zset out k b; Some (out, k + 1)) bytes
            (pre ++ mid ++ post, Z.of_nat (length pre)) =
          Some (pre ++ bytes ++ post, Z.of_nat (length pre + length bytes))) as ->; [|done].
  revert pre mid Hl. induction bytes as [|b bytes IH]; intros pre mid Hl.
  { destruct mid; [|done]. cbn [foldM]. by rewrite Nat.add_0_r. }
  destruct mid as [|x mid]; [done|]. cbn [foldM].
  rewrite zset_Some by (rewrite !length_app; cbn [length]; lia).
  bind_step. rewrite Nat2Z.id, insert_app_r_alt by lia. rewrite Nat.sub_diag. cbn [app list_insert insert].
  replace (pre ++ b :: mid ++ post) with ((pre ++ [b]) ++ mid ++ post) by by rewrite <- app_assoc.
  replace (Z.of_nat (length pre) + 1) with (Z.of_nat (length (pre ++ [b])))
    by (rewrite length_app; cbn [length]; lia).
  rewrite IH by (simpl in Hl; lia). f_equal. f_equal; [by rewrite <- app_assoc|].
  rewrite length_app. cbn [length]. lia.
Qed.

Lemma group_code_all vs j :
  u32s vs -> code (group_key vs) (Z.of_nat j) = match vs !! j with Some v => vcode v | None => 0 end.
Proof.
  intros Hvs. destruct (vs !! j) as [v|] eqn:E; [by apply group_code|].
  revert j E. induction Hvs as [|w vs Hw Hvs IH]; intros j E.
  { cbn [group_key foldr]. unfold code. by rewrite Z.shiftr_0_l. }
  destruct j as [|j]; [done|]. cbn [group_key foldr]. change (foldr _ 0 vs) with (group_key vs).
  destruct (vcode_spec w Hw) as [Hc _]. pose proof (group_key_bound vs Hvs).
  rewrite code_cons by lia. replace (Z.of_nat (S j) - 1) with (Z.of_nat j) by lia. by apply IH.
Qed.

(** A group of fewer than four values counts one byte for each missing one. *)
Lemma group_start_4 vs :
  u32s vs -> (length vs <= 4)%nat ->
  start (group_key vs) 4 = data_len vs + (4 - Z.of_nat (length vs)).
Proof.
  intros Hvs Hl. pose proof (fun j => group_code_all vs j Hvs) as H.
  pose proof (H 0%nat) as H0. pose proof (H 1%nat) as H1. pose proof (H 2%nat) as H2. pose proof (H 3%nat) as H3.
  unfold start. cbn -[code group_key Z.add Z.sub length data_len]. 
  change (Z.of_nat 0) with 0 in H0. change (Z.of_nat 1) with 1 in H1.
  change (Z.of_nat 2) with 2 in H2. change (Z.of_nat 3) with 3 in H3.
  rewrite H0, H1, H2, H3. clear H H0 H1 H2 H3.
  destruct vs as [|a [|b [|c [|d [|? ?]]]]]; cbn [length lookup list_lookup data_len foldr] in *; lia.
Qed.

Lemma data_len_app vs ws : data_len (vs ++ ws) = data_len vs + data_len ws.
Proof.
  induction vs as [|v vs IH]; [done|]. cbn [app data_len foldr].
  change (foldr _ 0 ?l) with (data_len l). rewrite IH. lia.
Qed.

Lemma length_key_mask vs n :
  u32s vs -> (1 <= length vs <= 4)%nat -> n mod 4 = Z.of_nat (length vs) mod 4 ->
  exists mask, zget ENCODE_LENGTH_MASK (Z.land n 3) = Some mask /\
    zget lengthTable (Z.land (group_key vs) mask) = Some (data_len vs + (4 - Z.of_nat (length vs))) /\
    Z.land (4 - Z.land n 3) 3 = 4 - Z.of_nat (length vs).
Proof.
  intros Hvs Hl Hn. pose proof (Z.land_ones n 2 ltac:(lia)) as H. change (Z.ones 2) with 3 in H.
  change (2 ^ 2) with 4 in H. rewrite H, Hn. clear H. pose proof (group_key_bound vs Hvs) as Hk.
  assert (Z.land (group_key vs) (Z.ones (2 * Z.of_nat (length vs))) = group_key vs) as Hm.
  { rewrite Z.land_ones by lia. apply Z.mod_small. rewrite Z.pow_mul_r by lia. exact Hk. }
  assert (4 ^ Z.of_nat (length vs) <= 4 ^ 4) as Hp by (apply Z.pow_le_mono_r; lia).
  exists (Z.ones (2 * Z.of_nat (length vs))).
  rewrite Hm, tables_length, group_start_4 by (done || lia).
  destruct (length vs) as [|[|[|[|[|?]]]]]; try lia; done.
Qed.

Section lengths.
Context (mem : Z -> Z).

(** The loop of [GetEncodeLength] over the groups before the last. *)
Lemma GetEncodeLength_loop n vs in_ i res :
  (length vs <= n)%nat -> vs <> [] -> u32s vs -> reads_mem mem (in_ + i) (keys_of vs) ->
  0 <= res -> res + 4 * Z.of_nat (length vs) < 2 ^ 32 ->
  exists front back, vs = front ++ back /\ (1 <= length back <= 4)%nat /\
    Z.of_nat (length back) mod 4 = Z.of_nat (length vs) mod 4 /\
    for_loop (Z.to_nat ((Z.of_nat (length vs) + 3) / 4 - 1)) i
      (fun i res => l ← zget lengthTable (mem (in_ + i)); Some (u32 (res + l))) res =
    Some (res + data_len front) /\
    mem (in_ + (i + ((Z.of_nat (length vs) + 3) / 4 - 1))) = group_key back.
Proof.
  revert vs i res. induction n as [|n IH]; intros vs i res Hn Hne Hv Hk H0 Hr.
  { destruct vs; [done|simpl in Hn; lia]. }
  destruct (decide (length vs <= 4)%nat) as [Hle|Hgt].
  - assert (1 <= length vs)%nat as H1 by (destruct vs; [done|simpl; lia]).
    assert ((Z.of_nat (length vs) + 3) / 4 = 1) as ->.
    { symmetry. apply (Z.div_unique_pos _ 4 1 (Z.of_nat (length vs) - 1)); lia. }
    exists [], vs. split; [done|]. split; [done|]. split; [done|]. split; [by cbn; rewrite Z.add_0_r|].
    rewrite keys_one in Hk by lia. rewrite <- (Hk 0%nat _ eq_refl). f_equal. lia.
  - destruct (take_4 vs) as (xs & ys & -> & Hxs & Hys); [lia|].
    assert (keys_of (xs ++ ys) = group_key xs :: keys_of ys) as HK.
    { destruct xs as [|a [|b [|c [|d [|? ?]]]]]; simpl in Hxs; try lia. by destruct ys. }
    rewrite HK in Hk. apply (reads_mem_app _ _ [_]) in Hk as [Hk1 Hk2].
    apply Forall_app in Hv as [Hv1 Hv2]. rewrite length_app, Hxs, Nat2Z.inj_add, (Z.add_comm (Z.of_nat 4)) in *.
    change (Z.of_nat 4) with 4 in *. rewrite groups_succ, Z.add_simpl_r.
    pose proof (groups_pos ys Hys) as Hm. pose proof (data_len_spec xs Hv1) as [_ Hdl]. rewrite Hxs in Hdl.
    destruct (IH ys (i + 1) (res + data_len xs)) as (front & back & Hys' & Hb & Hmod & Hloop & Hmem);
      [lia|done|done|by rewrite Z.add_assoc|lia|lia|].
    exists (xs ++ front), back. split; [by rewrite <- app_assoc, <- Hys'|]. split; [done|]. split.
    { rewrite Hmod. replace (Z.of_nat (length ys) + 4) with (Z.of_nat (length ys) + 1 * 4) by lia.
      by rewrite Z.mod_add. }
    set (m := (Z.of_nat (length ys) + 3) / 4) in *. split.
    + replace (Z.to_nat m) with (S (Z.to_nat (m - 1))) by lia. cbn [for_loop].
      pose proof (group_key_bound xs Hv1) as Hgk. rewrite Hxs in Hgk.
      replace (mem (in_ + i)) with (group_key xs) by (rewrite <- (Hk1 0%nat _ eq_refl); f_equal; lia).
      rewrite tables_length, group_start_4, Hxs by (done || lia). bind_step.
      rewrite u32_small by lia. replace (res + (data_len xs + (4 - Z.of_nat 4))) with (res + data_len xs) by lia.
      rewrite Hloop, data_len_app. f_equal. lia.
    + rewrite <- Hmem. f_equal. lia.
Qed.

Lemma GetEncodeLength_spec in_ vs :
  vs <> [] -> u32s vs -> Z.of_nat (length vs) < 2 ^ 28 -> reads_mem mem in_ (keys_of vs) ->
  DeltaSIMDCodec_GetEncodeLength mem in_ (Z.of_nat (length vs)) =
  Some (Z.of_nat (length (keys_of vs)) + data_len vs).
Proof.
  intros Hne Hv Hl Hk. unfold DeltaSIMDCodec_GetEncodeLength. rewrite length_keys.
  pose proof (groups_pos vs Hne) as Hm. pose proof (data_len_spec vs Hv) as [_ Hdl].
  set (m := (Z.of_nat (length vs) + 3) / 4) in *.
  assert (m <= Z.of_nat (length vs) + 3) by (apply Z.div_le_upper_bound; lia).
  rewrite (u32_small m), (u32_small (m - 1)) by lia.
  destruct (GetEncodeLength_loop (length vs) vs in_ 0 m) as (front & back & -> & Hb & Hmod & Hloop & Hmem);
    [done|done|done|by rewrite Z.add_0_r|lia|lia|].
  fold m in Hloop, Hmem. rewrite Hloop. bind_step. rewrite Z.add_0_l in Hmem. rewrite Hmem.
  apply Forall_app in Hv as [Hv1 Hv2].
  destruct (length_key_mask back (Z.of_nat (length (front ++ back)))) as (mask & -> & E & ->); [done|done|done|].
  bind_step. rewrite E. bind_step. rewrite data_len_app in *. pose proof (data_len_spec front Hv1) as [_ ?].
  pose proof (data_len_spec back Hv2) as [_ ?]. rewrite u32_small by lia. f_equal. lia.
Qed.
End lengths.

(** Storing the bytes of an encoding at [off] changes nothing else. The data
    length is returned as a [uint8_t], hence the bound on the list. *)
Lemma EncodeArray_with_spec EncodeDeltas l vs out off :
  EncodeDeltas l = Some (keys_of vs, data_of vs, u8 (data_len vs)) -> length vs = length l ->
  u32s vs -> Z.of_nat (length l) < 64 -> 0 <= off ->
  let n := Z.of_nat (length (keys_of vs ++ data_of vs)) in
  off + n <= Z.of_nat (length out) ->
  exists out', EncodeArray_with EncodeDeltas l out off = Some (out', n) /\
    (forall a, ~ (off <= a < off + n) -> zget out' a = zget out a) /\
    forall k b, (keys_of vs ++ data_of vs) !! k = Some b -> zget out' (off + Z.of_nat k) = Some b.
Proof.
  intros HE Hlen Hv Hn Hoff. cbv zeta. pose proof (data_len_spec _ Hv) as [Hd Hdb].
  unfold EncodeArray_with. rewrite HE. bind_step.
  rewrite Hlen in Hdb. pose proof (length_keys vs) as Hkl. rewrite Hlen in Hkl.
  set (ks := keys_of vs) in *. set (ds := data_of vs) in *.
  rewrite (u8_small (data_len _)), Hd, <- Hkl by lia. rewrite length_app. intros Hout.
  pose proof (Z.div_mod (Z.of_nat (length l) + 3) 4 ltac:(lia)).
  pose proof (Z.mod_pos_bound (Z.of_nat (length l) + 3) 4 ltac:(lia)).
  destruct (split_at out off (length ks + length ds)) as (pre & mid & post & -> & Hpre & Hmid); [lia|lia|].
  destruct (split_at mid 0 (length ks)) as (m0 & m1 & m2 & -> & Hm0 & Hm1); [lia|lia|].
  destruct m0; [|simpl in Hm0; lia]. cbn [app] in *. rewrite length_app in Hmid.
  rewrite <- Hpre, <- app_assoc, store_bytes_spec by done. bind_step.
  replace (Z.of_nat (length pre) + Z.of_nat (length ks)) with (Z.of_nat (length (pre ++ ks)))
    by (rewrite length_app; lia).
  rewrite app_assoc, store_bytes_spec by lia. bind_step.
  exists ((pre ++ ks) ++ ds ++ post). split; [f_equal; f_equal; rewrite u32_small by lia; lia|].
  split.
  - intros a Ha. rewrite <- !app_assoc, (app_assoc ks), (app_assoc m1).
    apply zget_frame; rewrite !length_app; lia.
  - intros k b Hk. rewrite <- app_assoc, (app_assoc ks). apply zget_middle. done.
Qed.

Section array.
Context {ops : DeltaOps} {laws : DeltaLaws ops}.

Lemma GetRequiredBytes_spec l :
  u32s l -> Z.of_nat (length l) < 2 ^ 28 ->
  DeltaSIMDCodec_GetRequiredBytes l =
  Z.of_nat (length (keys_of (gen_vals 0 0 l).1 ++ data_of (gen_vals 0 0 l).1)).
Proof.
  intros Hl Hn. pose proof (gen_u32 0 0 l Hl) as Hv. pose proof (data_len_spec _ Hv) as [Hd _].
  unfold DeltaSIMDCodec_GetRequiredBytes.
  assert (0 <= (Z.of_nat (length l) + 3) / 4 <= Z.of_nat (length l) + 3) as Hm.
  { split; [apply Z.div_pos; lia|apply Z.div_le_upper_bound; lia]. }
  rewrite u32_small, GetRequiredBytes_loop_spec by (done || lia).
  rewrite length_app, Nat2Z.inj_add, length_keys, length_gen, Hd. done.
Qed.

(** [EncodeArray] writes the code at [off] and nothing else. *)
Lemma EncodeArray_spec l out off :
  u32s l -> Z.of_nat (length l) < 64 -> 0 <= off ->
  off + DeltaSIMDCodec_GetRequiredBytes l <= Z.of_nat (length out) ->
  exists out', DeltaSIMDCodec_EncodeArray l out off = Some (out', DeltaSIMDCodec_GetRequiredBytes l) /\
    (forall a, ~ (off <= a < off + DeltaSIMDCodec_GetRequiredBytes l) -> zget out' a = zget out a) /\
    forall k b, (keys_of (gen_vals 0 0 l).1 ++ data_of (gen_vals 0 0 l).1) !! k = Some b ->
      zget out' (off + Z.of_nat k) = Some b.
Proof.
  intros Hl Hn Hoff. rewrite GetRequiredBytes_spec by (done || lia). pose proof (gen_u32 0 0 l Hl) as Hv.
  apply EncodeArray_with_spec; [|by rewrite length_gen|done..].
  f_equal. apply EncodeDeltas_spec; [done|lia].
Qed.
End array.

(** Encoding a list of fewer than 64 ids is defined and writes exactly the
    bytes [GetRequiredBytes] announces, which [GetEncodeLength] finds again from
    the bytes: the sizes the builders lay their blocks out with agree, for the
    base codec and for V1 and V2. *)
Theorem Simd_lengths (ops : DeltaOps) (laws : DeltaLaws ops) (l out : list Z) (off : Z)
    (Hl : Forall (fun x => 0 <= x < 2 ^ 32) l) (Hne : l <> []) (Hn : Z.of_nat (length l) < 64)
    (Hoff : 0 <= off) (Hroom : off + DeltaSIMDCodec_GetRequiredBytes l <= Z.of_nat (length out)) :
  let n := DeltaSIMDCodec_GetRequiredBytes l in
  exists out', DeltaSIMDCodec_EncodeArray l out off = Some (out', n) /\
    (forall a, ~ (off <= a < off + n) -> zget out' a = zget out a) /\
    forall mem, (forall a b, zget out' a = Some b -> mem a = b) ->
      DeltaSIMDCodec_GetEncodeLength mem off (Z.of_nat (length l)) = Some n.
Proof.
  cbv zeta. destruct (EncodeArray_spec l out off Hl Hn Hoff Hroom) as (out' & E & Hf & Hr).
  exists out'. split; [done|]. split; [done|]. intros mem Hmem.
  pose proof (gen_u32 0 0 l Hl) as Hv. pose proof (data_len_spec _ Hv) as [Hd _].
  pose proof (length_gen 0 0 l) as HL. rewrite <- HL at 1.
  rewrite GetEncodeLength_spec, GetRequiredBytes_spec by
    first [done | lia | (intros Hnil; rewrite Hnil in HL; by destruct l)
          | (intros k b Hk; apply Hmem, Hr; by apply lookup_app_l_Some)].
  by rewrite length_app, Nat2Z.inj_add, Hd.
Qed.

Lemma Simd_lengths_witness :
  let l := [7; 500; 70000; 70001; 16777999; 4294967295] in
  let n := DeltaSIMDCodec_GetRequiredBytes (H := DeltaSIMDCodecV2) l in
  exists out', DeltaSIMDCodec_EncodeArray (H := DeltaSIMDCodecV2) l (repeat 9 24) 3 = Some (out', n) /\
    (forall a, ~ (3 <= a < 3 + n) -> zget out' a = zget (repeat 9 24) a) /\
    forall mem, (forall a b, zget out' a = Some b -> mem a = b) ->
      DeltaSIMDCodec_GetEncodeLength mem 3 (Z.of_nat (length l)) = Some n.
Proof.
  apply (Simd_lengths DeltaSIMDCodecV2 _ [7; 500; 70000; 70001; 16777999; 4294967295] (repeat 9 24) 3).
  - repeat constructor; lia.
  - discriminate.
  - simpl. lia.
  - lia.
  - vm_compute. congruence.
Defined.

(** C27: searching the code of a sorted list classifies the element as the list
    does, whatever bytes lie after the code (the 16-byte loads read past it),
    for the base codec and for V1 and V2. *)
Theorem Simd_search (ops : DeltaOps) (laws : DeltaLaws ops) (l out : list Z) (off e : Z)
    (Hl : Forall (fun x => 0 <= x < 2 ^ 31) l) (Hs : StronglySorted Z.lt l) (Hne : l <> [])
    (Hn : Z.of_nat (length l) < 64) (Hoff : 0 <= off)
    (Hroom : off + DeltaSIMDCodec_GetRequiredBytes l <= Z.of_nat (length out)) (He : 0 <= e < 2 ^ 31) :
  exists out' r n, DeltaSIMDCodec_EncodeArray l out off = Some (out', n) /\
    (forall mem, (forall a b, zget out' a = Some b -> mem a = b) ->
       DeltaSIMDCodec_FindWithCount mem off (Z.of_nat (length l)) e = Some r) /\
    match r with
    | EXIST => e ∈ l
    | LESS_THAN_MIN => forall x, x ∈ l -> e < x
    | GRATER_THAN_MAX => forall x, x ∈ l -> x < e
    | NOT_EXIST => e ∉ l /\ (exists x, x ∈ l /\ x < e) /\ (exists x, x ∈ l /\ e < x)
    end.
Proof.
  destruct (EncodeArray_spec l out off (small_u32s l Hl) Hn Hoff Hroom) as (out' & E & _ & Hr).
  exists out', (find_sorted l e), (DeltaSIMDCodec_GetRequiredBytes l). split; [done|].
  split; [|by apply find_sorted_spec]. intros mem Hmem. apply FindWithCount_spec; try done; [lia|].
  intros k b Hk. by apply Hmem, Hr.
Qed.

Lemma Simd_search_witness :
  exists out' r n, DeltaSIMDCodec_EncodeArray (H := DeltaSIMDCodecV1) [7; 500; 70000; 70001; 16777999] (repeat 9 24) 3
      = Some (out', n) /\
    (forall mem, (forall a b, zget out' a = Some b -> mem a = b) ->
       DeltaSIMDCodec_FindWithCount (H := DeltaSIMDCodecV1) mem 3 5 70001 = Some r) /\
    match r with
    | EXIST => 70001 ∈ [7; 500; 70000; 70001; 16777999]
    | LESS_THAN_MIN => forall x, x ∈ [7; 500; 70000; 70001; 16777999] -> 70001 < x
    | GRATER_THAN_MAX => forall x, x ∈ [7; 500; 70000; 70001; 16777999] -> x < 70001
    | NOT_EXIST => 70001 ∉ [7; 500; 70000; 70001; 16777999] /\
        (exists x, x ∈ [7; 500; 70000; 70001; 16777999] /\ x < 70001) /\
        (exists x, x ∈ [7; 500; 70000; 70001; 16777999] /\ 70001 < x)
    end.
Proof.
  apply (Simd_search DeltaSIMDCodecV1 _ [7; 500; 70000; 70001; 16777999] (repeat 9 24) 3 70001).
  - repeat constructor; lia.
  - repeat constructor; lia.
  - discriminate.
  - simpl. lia.
  - lia.
  - vm_compute. congruence.
  - lia.
Defined.


(** The data length is returned as a [uint8_t]: the code of sixty-four ids 2^24
    apart takes 272 bytes, 16 are announced by [EncodeArray]. *)
Example EncodeArray_length_wraps :
  let l := map (fun k => 2 ^ 24 * k) (seqZ 1 64) in
  DeltaSIMDCodec_GetRequiredBytes (H := DeltaSIMDCodec) l = 272 /\
  option_map snd (DeltaSIMDCodec_EncodeArray (H := DeltaSIMDCodec) l (repeat 0 272) 0) = Some 16.
Proof. split; vm_compute; reflexivity. Qed.
