(* ===== verification/SimdTree.v ===== *)
(** The tree-searched SIMD codec: [SearchTree] and [DeltaSIMDCodecV3]
    ([src/include/encode/codec/SIMD/delta_simd_codec.{h,cpp}]).

    V3 stores the elements in the order of a search tree, four per node, so that
    a search decodes one group per level. Nodes are indices into the array
    [nodes]; a null pointer is [None]. *)
From S2P Require Import Prelude BitSet Varint SimdTables SimdCodec.
From stdpp Require Import options.
Local Open Scope Z_scope.
Set Default Proof Using "Type*".

(** * The tree *)

Record TreeNode := {
  children : option (list (option Z));
  masks : list Z;
  idx_ : Z;
  child_size_ : Z
}.

Definition TreeNode_new (idx : Z) : TreeNode :=
  {| children := None; masks := []; idx_ := idx; child_size_ := 0 |}.

Definition SEARCH_MASK : list Z := [0x00; 0x01; 0x03; 0x07; 0x0F].

Record SearchTree := {
  groups_ : Z;
  size_ : Z;
  nodes : list TreeNode;
  encode_list : list (list Z)
}.

(** [nodes[n]->add_children(size)]: [new TreeNode *[size]] of null pointers. *)
Definition add_children (nodes : list TreeNode) (n size : Z) : option (list TreeNode) :=
  node ← zget nodes n;
  _ ← guardb (0 <=? size);
  zset nodes n {| children := Some (replicate (Z.to_nat size) None); masks := masks node;
                  idx_ := idx_ node; child_size_ := size |}.

(** [nodes[n]->children[i] = nodes[k]]. *)
Definition set_child (nodes : list TreeNode) (n i k : Z) : option (list TreeNode) :=
  node ← zget nodes n;
  _ ← zget nodes k;
  cs ← children node;
  cs ← zset cs i (Some k);
  zset nodes n {| children := Some cs; masks := masks node; idx_ := idx_ node;
                  child_size_ := child_size_ node |}.

(** [add_children(size)], then [children[i] = nodes[first + i]]. *)
Definition adopt (nodes : list TreeNode) (n size first : Z) : option (list TreeNode) :=
  nodes ← add_children nodes n size;
  for_loop (Z.to_nat size) 0 (fun i nodes => set_child nodes n i (first + i)) nodes.

(** [while (node_nums > parents_num * 5)]: the full levels. Every turn takes
    [parents_num * 5 > 0] from [node_nums], which is fuel enough. *)
Fixpoint full_levels (fuel : nat) (nodes : list TreeNode) (node_nums parents_num current_idx parents_idx : Z)
  : option (list TreeNode * Z * Z) :=
  if node_nums >? parents_num * 5 then
    match fuel with
    | O => None
    | S fuel =>
        r ← for_loop (Z.to_nat parents_num) 0 (fun i '(nodes, current_idx) =>
              nodes ← adopt nodes (i + parents_idx) 5 current_idx;
              Some (nodes, current_idx + 5)) (nodes, current_idx);
        let '(nodes, current_idx) := r in
        let parents_idx := parents_idx + parents_num in
        let parents_num := parents_num * 5 in
        full_levels fuel nodes (node_nums - parents_num) parents_num current_idx parents_idx
    end
  else Some (nodes, node_nums, current_idx).

(** [while (node_nums > 5)]: the last level, five nodes a turn. *)
Fixpoint last_level (fuel : nat) (nodes : list TreeNode) (node_nums current_idx parents_idx : Z)
  : option (list TreeNode * Z * Z) :=
  if node_nums >? 5 then
    match fuel with
    | O => None
    | S fuel =>
        nodes ← adopt nodes parents_idx 5 (node_nums + current_idx - 5);
        last_level fuel nodes (node_nums - 5) current_idx (parents_idx - 1)
    end
  else Some (nodes, node_nums, parents_idx).

(** ** The order of the elements *)

Definition push_mask (t : SearchTree) (n mask : Z) : option SearchTree :=
  node ← zget (nodes t) n;
  ns ← zset (nodes t) n {| children := children node; masks := masks node ++ [mask]; idx_ := idx_ node;
                           child_size_ := child_size_ node |};
  Some {| groups_ := groups_ t; size_ := size_ t; nodes := ns; encode_list := encode_list t |}.

Definition set_list (t : SearchTree) (n : Z) (l : list Z) : option SearchTree :=
  ls ← zset (encode_list t) n l;
  Some {| groups_ := groups_ t; size_ := size_ t; nodes := nodes t; encode_list := ls |}.

Definition push_list (t : SearchTree) (n x : Z) : option SearchTree :=
  l ← zget (encode_list t) n;
  set_list t n (l ++ [x]).

(** [while (encode_list[n].size() < k) push_back(pivot++)]. *)
Definition pad_list (t : SearchTree) (n k pivot : Z) : option (SearchTree * Z) :=
  l ← zget (encode_list t) n;
  for_loop (Z.to_nat (k - Z.of_nat (length l))) 0
    (fun _ '(t, pivot) => t ← push_list t n pivot; Some (t, pivot + 1)) (t, pivot).

Definition child (t : SearchTree) (n i : Z) : option Z :=
  node ← zget (nodes t) n;
  cs ← children node;
  c ← zget cs i;
  c.

Fixpoint search_children (fuel : nat) (t : SearchTree) (n begin : Z) : option (SearchTree * Z) :=
  match fuel with
  | O => None
  | S fuel =>
      node ← zget (nodes t) n;
      match children node with
      | None =>
          if idx_ node =? groups_ t - 1 then
            r ← for_loop (Z.to_nat (size_ t - 1 - begin)) 0
                  (fun _ '(t, begin) => t ← push_list t (idx_ node) begin; Some (t, begin + 1)) (t, begin);
            let '(t, begin) := r in Some (t, begin)
          else
            t ← set_list t (idx_ node) [begin; begin + 1; begin + 2; begin + 3];
            Some (t, begin + 4)
      | Some cs =>
          r ← for_loop (Z.to_nat (child_size_ node - 1)) 0 (fun i '(t, pivot1) =>
                c ← child t n i;
                r ← search_children fuel t c pivot1;
                let '(t, pivot1) := r in
                mask ← zget SEARCH_MASK i;
                t ← push_mask t n mask;
                t ← push_list t (idx_ node) pivot1;
                Some (t, pivot1 + 1)) (t, begin);
          let '(t, pivot1) := r in
          r ← pad_list t (idx_ node) 4 pivot1;
          let '(t, pivot1) := r in
          t ← push_mask t n 0x0F;
          c ← child t n (child_size_ node - 1);
          search_children fuel t c pivot1
      end
  end.

(** A tree is at most as high as it has nodes. *)
Definition search (t : SearchTree) (n begin : Z) : option (SearchTree * Z) :=
  search_children (length (nodes t)) t n begin.

Definition init_order (t : SearchTree) : option SearchTree :=
  let t := {| groups_ := groups_ t; size_ := size_ t; nodes := nodes t;
              encode_list := replicate (Z.to_nat (groups_ t)) [] |} in
  if size_ t <=? 4 then
    for_loop (Z.to_nat (size_ t)) 0 (fun i t => push_list t 0 i) t
  else
    root ← zget (nodes t) 0;
    if groups_ t <=? 4 then
      t ← push_list t 0 0;
      r ← for_loop (Z.to_nat (child_size_ root - 1)) 0 (fun i '(t, pivot) =>
            c ← child t 0 i;
            r ← search t c pivot;
            let '(t, pivot) := r in
            mask ← zget SEARCH_MASK (i + 1);
            t ← push_mask t 0 mask;
            t ← push_list t 0 pivot;
            Some (t, pivot + 1)) (t, 1);
      let '(t, pivot) := r in
      r ← pad_list t 0 3 pivot;
      let '(t, pivot) := r in
      c ← child t 0 (child_size_ root - 1);
      r ← search t c pivot;
      let '(t, _) := r in
      t ← push_mask t 0 0x07;
      push_list t 0 (size_ t - 1)
    else
      t ← set_list t 0 [0; 0; 0; size_ t - 1];
      ns ← zset (nodes t) 0 {| children := children root; masks := [0x01; 0x03; 0x07]; idx_ := idx_ root;
                               child_size_ := child_size_ root |};
      let t := {| groups_ := groups_ t; size_ := size_ t; nodes := ns; encode_list := encode_list t |} in
      c ← child t 0 0;
      r ← search t c 1;
      let '(t, pivot1) := r in
      t ← set_list t 0 [0; pivot1; 0; size_ t - 1];
      c ← child t 0 1;
      r ← search t c (pivot1 + 1);
      let '(t, pivot2) := r in
      t ← set_list t 0 [0; pivot1; pivot2; size_ t - 1];
      c ← child t 0 2;
      r ← search t c (pivot2 + 1);
      Some r.1.

(** [SearchTree(int size)]; with one node, or when the last level is full, the
    constructor returns before [init_order]. *)
Definition SearchTree_new (size : Z) : option SearchTree :=
  let node_nums := (size + 3) / 4 in
  let t ns := {| groups_ := node_nums; size_ := size; nodes := ns; encode_list := [] |} in
  let ns := map TreeNode_new (seqZ 0 node_nums) in
  if node_nums =? 1 then Some (t ns)
  else if node_nums <=? 4 then
    ns ← adopt ns 0 (node_nums - 1) 1;
    init_order (t ns)
  else
    ns ← adopt ns 0 3 1;
    r ← full_levels (Z.to_nat node_nums) ns (node_nums - 4) 3 4 1;
    let '(ns, rest, current_idx) := r in
    r ← last_level (Z.to_nat node_nums) ns rest current_idx (current_idx - 1);
    let '(ns, rest, parents_idx) := r in
    if rest =? 0 then Some (t ns)
    else
      ns ← adopt ns parents_idx rest current_idx;
      init_order (t ns).

Definition get_order (t : SearchTree) : list Z := concat (encode_list t).

(** [trees_ary]: the trees of 1, 1, 2, 3, ... 40 elements. *)
Definition trees_ary : list (option SearchTree) := map (fun n => SearchTree_new (Z.max 1 n)) (seqZ 0 41).

(** * DeltaSIMDCodecV3 *)

Section V3.
Local Existing Instance DeltaSIMDCodecV2.

(** [in[order[c]]] for the order of [count] elements; nothing is read for an
    empty list. *)
Definition ordered (in_ : list Z) (begin count : Z) : option (list Z) :=
  mapM (fun c => order ← zget ary_order (count - 1); o ← zget order c; zget in_ (o + begin)) (seqZ 0 count).

Definition DeltaSIMDCodecV3_EncodeDeltas (in_ : list Z) : option (list Z * list Z * Z) :=
  let count := Z.of_nat (length in_) in
  _ ← guardb (count <=? 40);
  if count =? 0 then Some ([], [], 0)
  else
    xs ← ordered in_ 0 count;
    let '(keys, data, len) := EncodeDeltas_loop xs 0 0 0 0 0 [] [] in
    Some (keys, data, u8 len).

Definition DeltaSIMDCodecV3_EncodeArray : list Z -> list Z -> Z -> option (list Z * Z) :=
  EncodeArray_with DeltaSIMDCodecV3_EncodeDeltas.

Definition DeltaSIMDCodecV3_GetRequiredBytes (list : list Z) : option Z :=
  let size := Z.of_nat (length list) in
  let len := u32 ((size + 3) / 4) in
  if size >? 40 then Some (u32 (size + len))
  else xs ← ordered list 0 size; Some (GetRequiredBytes_loop xs 0 0 len).

(** [GetRequiredBytes(list, begin, block_size)]. *)
Definition DeltaSIMDCodecV3_GetRequiredBytes_block (list : list Z) (begin block_size : Z) : option Z :=
  let len := u32 ((block_size + 3) / 4) in
  xs ← ordered list begin block_size;
  Some (GetRequiredBytes_loop xs 0 0 len).

(** ** Search *)

(** [DecodeData] of V3, which leaves the pointer alone, and
    [RecoveryFromDelta]. *)
Definition V3_lanes (mem : Z -> Z) (control data_ptr : Z) : option (list Z) :=
  shuf ← zget shuffleTable control;
  Some (prefix_sums (mm_lanes (mm_shuffle_epi8 (mm_loadu_si128 mem data_ptr) shuf))).

(** [RecoveryFromDelta(decode, recovery)]: two passes of prefix sums in place. *)
Definition RecoveryFromDelta_scalar (decode : list Z) : list Z :=
  match decode with
  | [d0; d1; d2; d3] =>
      let d1 := u32 (d1 + d0) in let d2 := u32 (d2 + d1) in let d3 := u32 (d3 + d2) in
      let d2 := u32 (d2 + d1) in let d3 := u32 (d3 + d2) in
      [d0; d1; d2; d3]
  | _ => decode
  end.

Context (HSIMD : bool).

Definition hsimd_hit (data : list Z) (element : Z) : bool :=
  HSIMD && existsb (Z.eqb element) (RecoveryFromDelta_scalar data).

(** [countByteLen]: the offset of every group's data. *)
Definition countByteLen (mem : Z -> Z) (inbyte group_nums : Z) : option (list Z) :=
  for_loop (Z.to_nat (group_nums - 1)) 0 (fun i out =>
    prev ← zget out i;
    len ← zget lengthTable (mem (inbyte + i));
    Some (out ++ [u32 (prev + len)])) [0].

Fixpoint DFS (fuel : nat) (t : SearchTree) (n : Z) (mem : Z -> Z) (element count : Z) (control_bytes_len : list Z)
    (inbytes data_ptr : Z) : option FindRes :=
  match fuel with
  | O => None
  | S fuel =>
      let compare := mm_set1_epi32 element in
      node ← zget (nodes t) n;
      len ← zget control_bytes_len (idx_ node);
      data ← V3_lanes mem (mem (inbytes + idx_ node)) (data_ptr + len);
      if hsimd_hit data element then Some EXIST
      else
        match children node with
        | None =>
            if idx_ node =? (count + 3) / 4 - 1 then
              last ← zget LAST_COMPARE_MASK (Z.land count 3);
              Some (if negb (Z.land (eq_mask data compare) last =? 0) then EXIST else NOT_EXIST)
            else Some (if negb (eq_mask data compare =? 0) then EXIST else NOT_EXIST)
        | Some _ =>
            if negb (eq_mask data compare =? 0) then Some EXIST
            else
              (* the body of the loop returns in its first turn *)
              _ ← guardb (0 <? child_size_ node);
              mask ← zget (masks node) 0;
              if lt_mask data compare =? mask then
                c ← child t n 0;
                DFS fuel t c mem element count control_bytes_len inbytes data_ptr
              else Some NOT_EXIST
        end
  end.

(** The loop over the root's children: the first whose mask matches. *)
Fixpoint matching_child (n : nat) (i : Z) (ms : list Z) (mask : Z) : option (option Z) :=
  match n with
  | O => Some None
  | S n' => m ← zget ms i; if mask =? m then Some (Some i) else matching_child n' (i + 1) ms mask
  end.

Definition DeltaSIMDCodecV3_FindWithCount (mem : Z -> Z) (inbyte count element : Z) : option FindRes :=
  t ← zget trees_ary count;
  t ← t;
  root ← zget (nodes t) 0;
  let control_bytes := u32 (count + 3) / 4 in
  let data_ptr := inbyte + control_bytes in
  let compare := mm_set1_epi32 element in
  data ← V3_lanes mem (mem inbyte) data_ptr;
  if hsimd_hit data element then Some EXIST
  else if control_bytes =? 1 then
    last ← zget LAST_COMPARE_MASK (Z.land count 3);
    if negb (Z.land (eq_mask data compare) last =? 0) then Some EXIST
    else
      let mask := Z.land (lt_mask data compare) last in
      Some (if mask =? 0 then LESS_THAN_MIN
            else if mask =? Z.land 15 last then GRATER_THAN_MAX else NOT_EXIST)
  else if negb (eq_mask data compare =? 0) then Some EXIST
  else
    let mask := lt_mask data compare in
    if mask =? 0 then Some LESS_THAN_MIN
    else if mask =? 15 then Some GRATER_THAN_MAX
    else
      control_byte_len ← countByteLen mem inbyte control_bytes;
      i ← matching_child (Z.to_nat (child_size_ root)) 0 (masks root) mask;
      match i with
      | Some i =>
          c ← child t 0 i;
          DFS (length (nodes t)) t c mem element count control_byte_len inbyte data_ptr
      | None => Some NOT_EXIST
      end.

(** [DecodeControl]: the running offsets of the values, four a group. *)
Definition DeltaSIMDCodecV3_DecodeControl (mem : Z -> Z) (inbyte count : Z) : option (list Z) :=
  r ← for_loop (Z.to_nat ((count + 2) / 4)) 0 (fun i '(out, pre) =>
        total ← zget TotalLengthTable (mem (inbyte + i));
        let data := mm_add_epi32 total pre in
        Some (out ++ data, mm_last_lane data)) ([0], mm_set1_epi32 0);
  Some r.1.
End V3.

(** * The order *)

(** The constructor arranges the elements as the table of orders does. *)
Definition same_order (n : Z) : bool :=
  match SearchTree_new n with
  | Some t => bool_decide (zget ary_order (n - 1) = Some (get_order t))
  | None => false
  end.

Lemma order_permutation n :
  1 <= n <= 40 -> exists row, zget ary_order (n - 1) = Some row /\ row ≡ₚ seqZ 0 n.
Proof.
  intros Hn. destruct (ary_order_ok n Hn) as (row & E & H). exists row. split; [done|].
  unfold order_ok in H. rewrite !andb_true_iff in H. destruct H as [[[Hl Hin] _] _]. apply Z.eqb_eq in Hl.
  symmetry. apply submseteq_length_Permutation; [|rewrite length_seqZ; lia].
  apply NoDup_submseteq; [apply NoDup_seqZ|]. intros i Hi%list_elem_of_In.
  rewrite forallb_forall in Hin. by apply Hin, bool_decide_eq_true in Hi.
Qed.

Lemma ordered_spec l :
  1 <= Z.of_nat (length l) <= 40 ->
  exists row, zget ary_order (Z.of_nat (length l) - 1) = Some row /\ row ≡ₚ seqZ 0 (Z.of_nat (length l)) /\
    ordered l 0 (Z.of_nat (length l)) = Some (map (fun o => nth (Z.to_nat o) l 0) row).
Proof.
  intros Hl. destruct (order_permutation _ Hl) as (row & E & Hp). exists row. split; [done|]. split; [done|].
  unfold ordered. rewrite E. apply mapM_Some_2. pose proof (Permutation_length Hp) as HL.
  rewrite length_seqZ, Nat2Z.id in HL.
  apply Forall2_same_length_lookup_2; [rewrite length_map, length_seqZ; lia|].
  intros i x y Hx Hy. apply lookup_seqZ in Hx as [-> Hi]. cbn [mbind option_bind].
  apply list_lookup_fmap_Some in Hy as (o & -> & Ho).
  assert (o ∈ seqZ 0 (Z.of_nat (length l))) as Hor by (rewrite <- Hp; by apply list_elem_of_lookup_2 in Ho).
  apply elem_of_seqZ in Hor. rewrite zget_lookup, Z.add_0_l, Nat2Z.id, Ho by lia. cbn [mbind option_bind].
  rewrite Z.add_0_r. apply zget_nth. lia.
Qed.

(** * What V3 writes *)

Section V3_encode.
Local Existing Instance DeltaSIMDCodecV2.
Local Existing Instance DeltaSIMDCodecV2_laws.
Context (l : list Z) (Hl : u32s l) (Hlen : 1 <= Z.of_nat (length l) <= 40).

(** The elements in the order of the code, and the values coded. *)
Definition v3_order : list Z := default [] (ordered l 0 (Z.of_nat (length l))).
Definition v3_vals : list Z := (gen_vals 0 0 v3_order).1.

Lemma v3_order_spec :
  exists row, zget ary_order (Z.of_nat (length l) - 1) = Some row /\ row ≡ₚ seqZ 0 (Z.of_nat (length l)) /\
    ordered l 0 (Z.of_nat (length l)) = Some v3_order /\
    v3_order = map (fun o => nth (Z.to_nat o) l 0) row.
Proof.
  destruct (ordered_spec l Hlen) as (row & E & Hp & Ho). exists row. unfold v3_order. rewrite Ho. done.
Qed.

Lemma length_v3_order : length v3_order = length l.
Proof.
  destruct v3_order_spec as (row & _ & Hp & _ & ->). rewrite length_map, Hp, length_seqZ. lia.
Qed.

Lemma v3_order_all (P : Z -> Prop) : Forall P l -> Forall P v3_order.
Proof.
  intros HP. destruct v3_order_spec as (row & _ & Hp & _ & ->).
  apply Forall_fmap. rewrite Hp. apply Forall_forall. intros o Ho. apply elem_of_seqZ in Ho.
  rewrite Forall_lookup in HP. unfold compose.
  destruct (lookup_lt_is_Some_2 l (Z.to_nat o)) as [x Hx]; [lia|].
  rewrite (nth_lookup_Some _ _ _ _ Hx). by apply HP in Hx.
Qed.

Lemma v3_u32s : u32s v3_vals.
Proof. apply gen_u32, v3_order_all, Hl. Qed.

Lemma length_v3_vals : length v3_vals = length l.
Proof. unfold v3_vals. by rewrite length_gen, length_v3_order. Qed.

Lemma V3_EncodeDeltas_spec :
  DeltaSIMDCodecV3_EncodeDeltas l = Some (keys_of v3_vals, data_of v3_vals, u8 (data_len v3_vals)).
Proof.
  unfold DeltaSIMDCodecV3_EncodeDeltas. rewrite (proj2 (Z.leb_le _ 40)) by lia. bind_step.
  rewrite (proj2 (Z.eqb_neq _ 0)) by lia. destruct v3_order_spec as (row & _ & _ & -> & _). bind_step.
  pose proof v3_u32s as Hu. pose proof length_v3_order as HL.
  pose proof (EncodeDeltas_spec v3_order Hu ltac:(lia)) as H. unfold EncodeDeltas in H.
  unfold v3_vals. destruct v3_order as [|x xs]; [simpl in HL; lia|].
  destruct (EncodeDeltas_loop (x :: xs) 0 0 0 0 0 [] []) as [[keys data] len]. by rewrite H.
Qed.

Lemma V3_GetRequiredBytes_spec :
  DeltaSIMDCodecV3_GetRequiredBytes l = Some (Z.of_nat (length (keys_of v3_vals ++ data_of v3_vals))).
Proof.
  unfold DeltaSIMDCodecV3_GetRequiredBytes. rewrite Z.gtb_ltb, (proj2 (Z.ltb_ge 40 _)) by lia.
  destruct v3_order_spec as (row & _ & _ & -> & _). bind_step. f_equal.
  pose proof v3_u32s as Hu. pose proof length_v3_order as HL. rewrite <- HL.
  apply (GetRequiredBytes_spec v3_order); [apply v3_order_all, Hl|lia].
Qed.

Lemma V3_EncodeArray_spec out off :
  0 <= off -> off + default 0 (DeltaSIMDCodecV3_GetRequiredBytes l) <= Z.of_nat (length out) ->
  exists out' n, DeltaSIMDCodecV3_EncodeArray l out off = Some (out', n) /\
    DeltaSIMDCodecV3_GetRequiredBytes l = Some n /\
    (forall a, ~ (off <= a < off + n) -> zget out' a = zget out a) /\
    forall k b, (keys_of v3_vals ++ data_of v3_vals) !! k = Some b -> zget out' (off + Z.of_nat k) = Some b.
Proof.
  intros Hoff Hroom. rewrite V3_GetRequiredBytes_spec in *. cbn [default] in Hroom.
  destruct (EncodeArray_with_spec _ l v3_vals out off V3_EncodeDeltas_spec length_v3_vals v3_u32s)
    as (out' & E & Hf & Hr); [lia|done|done|].
  eexists out', _. done.
Qed.

(** ** The groups *)

Definition grp {A} (g : nat) (xs : list A) : list A := take 4 (drop (4 * g) xs).


Lemma grp_split {A} g (xs : list A) :
  xs = take (4 * g) xs ++ grp g xs ++ drop 4 (drop (4 * g) xs).
Proof. unfold grp. by rewrite !take_drop. Qed.

(** The values of a group are coded from its elements alone. *)
Lemma grp_vals g :
  (4 * g < length l)%nat ->
  exists p, grp g v3_vals = (gen_vals (4 * Z.of_nat g) p (grp g v3_order)).1 /\
    length (take (4 * g) v3_order) = (4 * g)%nat.
Proof.
  intros Hg. pose proof length_v3_order as HL. unfold v3_vals.
  assert (length (take (4 * g) v3_order) = (4 * g)%nat) as Ht by (rewrite length_take; lia).
  pose proof (gen_app 0 0 (take (4 * g) v3_order) (grp g v3_order ++ drop 4 (drop (4 * g) v3_order))) as H.
  rewrite <- grp_split, Ht in H. pose proof (length_gen 0 0 (take (4 * g) v3_order)) as L1.
  destruct (gen_vals 0 0 (take (4 * g) v3_order)) as [vs q]. rewrite gen_app in H.
  pose proof (length_gen (0 + Z.of_nat (4 * g)) q (grp g v3_order)) as L2.
  destruct (gen_vals (0 + Z.of_nat (4 * g)) q (grp g v3_order)) as [ws r] eqn:E.
  destruct (gen_vals _ r (drop 4 (drop (4 * g) v3_order))) as [us r'] eqn:E2. cbn [fst] in *.
  exists q. split; [|done]. rewrite H. cbn [fst]. replace (4 * Z.of_nat g) with (0 + Z.of_nat (4 * g)) by lia.
  rewrite E. cbn [fst]. unfold grp. rewrite drop_app_length' by lia.
  destruct (decide (length ws = 4)%nat) as [H4|H4]; [by rewrite take_app_length'|].
  pose proof (length_gen (0 + Z.of_nat (4 * g) + Z.of_nat (length (grp g v3_order))) r (drop 4 (drop (4 * g) v3_order))) as L3.
  rewrite E2 in L3. cbn [fst] in L3. unfold grp in *. rewrite length_take, !length_drop in *.
  destruct us; [rewrite app_nil_r; apply take_ge; lia|simpl in L3; lia].
Qed.
End V3_encode.

Lemma keys_lookup g vs : (4 * g < length vs)%nat -> keys_of vs !! g = Some (group_key (grp g vs)).
Proof.
  revert vs. induction g as [|g IH]; intros vs Hg.
  { destruct vs as [|a [|b [|c [|d [|e vs]]]]]; done || (simpl in Hg; lia). }
  destruct vs as [|a [|b [|c [|d [|e vs]]]]]; try (simpl in Hg; lia).
  change (keys_of (a :: b :: c :: d :: e :: vs)) with (group_key [a; b; c; d] :: keys_of (e :: vs)).
  cbn [lookup list_lookup]. rewrite IH by (cbn [length] in *; lia). do 2 f_equal.
  unfold grp. by replace (4 * S g)%nat with (S (S (S (S (4 * g))))) by lia.
Qed.

Lemma data_grp g vs :
  data_of vs = data_of (take (4 * g) vs) ++ data_of (grp g vs) ++ data_of (drop 4 (drop (4 * g) vs)).
Proof. rewrite (grp_split g vs) at 1. unfold data_of. by rewrite !map_app, !concat_app. Qed.

Lemma take_grp g (vs : list Z) : take (4 * S g) vs = take (4 * g) vs ++ grp g vs.
Proof. unfold grp. replace (4 * S g)%nat with (4 * g + 4)%nat by lia. by rewrite take_take_drop. Qed.

Section V3_decode.
Local Existing Instance DeltaSIMDCodecV2.
Local Existing Instance DeltaSIMDCodecV2_laws.
Context (l : list Z) (Hs : small_ids l) (Hlen : 1 <= Z.of_nat (length l) <= 40).
Context (mem : Z -> Z) (inbyte : Z).
Hypothesis Hmem : reads_mem mem inbyte (keys_of (v3_vals l) ++ data_of (v3_vals l)).

Definition groups : Z := (Z.of_nat (length l) + 3) / 4.
Definition offset (g : nat) : Z := data_len (take (4 * g) (v3_vals l)).

Lemma group_of_lt g : Z.of_nat g < groups -> (4 * g < length l)%nat.
Proof using Type.
  unfold groups. intros Hg. pose proof (Z.div_mod (Z.of_nat (length l) + 3) 4 ltac:(lia)).
  pose proof (Z.mod_pos_bound (Z.of_nat (length l) + 3) 4 ltac:(lia)). lia.
Qed.

Lemma mem_key g : Z.of_nat g < groups -> mem (inbyte + Z.of_nat g) = group_key (grp g (v3_vals l)).
Proof.
  intros Hg%group_of_lt. pose proof (length_v3_vals l (small_u32s l Hs) Hlen).
  pose proof Hmem as Hm. apply reads_mem_app in Hm as [Hk _]. apply Hk, keys_lookup. lia.
Qed.

Lemma grp_u32s g : u32s (grp g (v3_vals l)) /\ u32s (take (4 * g) (v3_vals l)).
Proof.
  pose proof (v3_u32s l (small_u32s l Hs) Hlen) as H. unfold grp, u32s.
  split; [by apply Forall_take, Forall_drop|by apply Forall_take].
Qed.

Lemma length_grp {A} g (xs : list A) : length (grp g xs) = Nat.min 4 (length xs - 4 * g).
Proof. unfold grp. by rewrite length_take, length_drop. Qed.

Lemma countByteLen_spec :
  exists out, countByteLen mem inbyte groups = Some out /\
    forall g, Z.of_nat g < groups -> zget out (Z.of_nat g) = Some (offset g).
Proof.
  assert (1 <= groups) as Hg1 by (apply groups_pos; intros ->; simpl in Hlen; lia).
  pose proof (length_v3_vals l (small_u32s l Hs) Hlen) as HV.
  destruct (for_loop_inv (fun i out => Z.of_nat (length out) = i + 1 /\
      forall g, Z.of_nat g <= i -> zget out (Z.of_nat g) = Some (offset g))
    (fun i out => prev ← zget out i; len ← zget lengthTable (mem (inbyte + i)); Some (out ++ [u32 (prev + len)]))
    (Z.to_nat (groups - 1)) 0 [0]) as (out & E & _ & Hout).
  - split; [done|]. intros g Hg. assert (g = 0%nat) as -> by lia. done.
  - intros i out Hi [HL Ho]. pose proof (Ho (Z.to_nat i) ltac:(lia)) as Hi0. rewrite Z2Nat.id in Hi0 by lia.
    rewrite Hi0. bind_step. pose proof (mem_key (Z.to_nat i) ltac:(lia)) as Hk. rewrite Z2Nat.id in Hk by lia.
    rewrite Hk. destruct (grp_u32s (Z.to_nat i)) as [Hu1 Hu2]. pose proof (group_key_bound _ Hu1) as Hkb.
    assert (length (grp (Z.to_nat i) (v3_vals l)) = 4%nat) as Hfull.
    { pose proof (group_of_lt (S (Z.to_nat i)) ltac:(lia)). rewrite length_grp. lia. }
    rewrite Hfull in Hkb. rewrite tables_length, group_start_4, Hfull by (done || lia). bind_step.
    eexists. split; [done|]. rewrite length_app. cbn [length]. split; [lia|].
    intros g Hg. destruct (decide (Z.of_nat g <= i)) as [Hgi|Hgi].
    + rewrite <- (Ho g Hgi), !zget_lookup by lia. rewrite lookup_app_l by lia. done.
    + assert (g = S (Z.to_nat i)) as -> by lia. rewrite zget_lookup, Nat2Z.id by lia.
      rewrite lookup_app_r by lia. replace (S (Z.to_nat i) - length out)%nat with 0%nat by lia.
      cbn [lookup list_lookup]. f_equal. unfold offset. rewrite take_grp, data_len_app.
      destruct (data_len_spec _ Hu1) as [_ ?]. destruct (data_len_spec _ Hu2) as [_ Hb2].
      rewrite length_take in Hb2. rewrite u32_small; lia.
  - exists out. split; [done|]. intros g Hg. apply Hout. lia.
Qed.

(** Every group decodes to its elements, then whatever follows. *)
Lemma V3_group g :
  Z.of_nat g < groups ->
  exists tail, V3_lanes mem (mem (inbyte + Z.of_nat g)) (inbyte + groups + offset g)
      = Some (grp g (v3_order l) ++ tail) /\
    (length (grp g (v3_order l)) + length tail = 4)%nat.
Proof.
  intros Hg. rewrite mem_key by done. apply group_of_lt in Hg.
  destruct (grp_vals l (small_u32s l Hs) Hlen g Hg) as (p & Ev & _).
  pose proof Hmem as Hm. apply reads_mem_app in Hm as [_ Hd]. rewrite length_keys, (length_v3_vals l (small_u32s l Hs) Hlen) in Hd.
  rewrite (data_grp g) in Hd. apply reads_mem_app in Hd as [_ Hd]. apply reads_mem_app in Hd as [Hd _].
  destruct (data_len_spec _ (proj2 (grp_u32s g))) as [Ho _]. fold (offset g) in Ho. rewrite <- Ho in Hd.
  fold groups in Hd. rewrite Ev in Hd |- *. pose proof (length_v3_order l (small_u32s l Hs) Hlen) as HL.
  destruct (group_recovered mem (4 * Z.of_nat g) p (mm_set1_epi32 0) (grp g (v3_order l)) (inbyte + groups + offset g))
    as (data & ptr' & tail & E & E2 & Ht & _).
  - by rewrite Z.mul_comm, Z.mod_mul.
  - done.
  - unfold grp, small_ids. apply Forall_take, Forall_drop, (v3_order_all l (small_u32s l Hs) Hlen _ Hs).
  - rewrite length_grp. lia.
  - done.
  - exists tail. split; [|done]. unfold DecodeData in E. unfold V3_lanes.
    destruct (zget lengthTable _); [|done]. destruct (zget shuffleTable _); [|done].
    cbn [mbind option_bind] in *. injection E as <- _. f_equal. exact E2.
Qed.
End V3_decode.

(** * The search, on the positions of the elements

    The search reads the groups only through their masks; [V3_abs] is the search
    over functions that give the masks of a group. *)

Section abs.
Context (lt eq : Z -> Z).

Fixpoint DFS_abs (fuel : nat) (t : SearchTree) (n count : Z) : option FindRes :=
  match fuel with
  | O => None
  | S fuel =>
      node ← zget (nodes t) n;
      match children node with
      | None =>
          if idx_ node =? (count + 3) / 4 - 1 then
            last ← zget LAST_COMPARE_MASK (Z.land count 3);
            Some (if negb (Z.land (eq (idx_ node)) last =? 0) then EXIST else NOT_EXIST)
          else Some (if negb (eq (idx_ node) =? 0) then EXIST else NOT_EXIST)
      | Some _ =>
          if negb (eq (idx_ node) =? 0) then Some EXIST
          else
            _ ← guardb (0 <? child_size_ node);
            mask ← zget (masks node) 0;
            if lt (idx_ node) =? mask then c ← child t n 0; DFS_abs fuel t c count
            else Some NOT_EXIST
      end
  end.

Definition V3_abs (t : SearchTree) (count : Z) : option FindRes :=
  root ← zget (nodes t) 0;
  if (count + 3) / 4 =? 1 then
    last ← zget LAST_COMPARE_MASK (Z.land count 3);
    if negb (Z.land (eq 0) last =? 0) then Some EXIST
    else
      let mask := Z.land (lt 0) last in
      Some (if mask =? 0 then LESS_THAN_MIN
            else if mask =? Z.land 15 last then GRATER_THAN_MAX else NOT_EXIST)
  else if negb (eq 0 =? 0) then Some EXIST
  else if lt 0 =? 0 then Some LESS_THAN_MIN
  else if lt 0 =? 15 then Some GRATER_THAN_MAX
  else
    i ← matching_child (Z.to_nat (child_size_ root)) 0 (masks root) (lt 0);
    match i with
    | Some i => c ← child t 0 i; DFS_abs (length (nodes t)) t c count
    | None => Some NOT_EXIST
    end.
End abs.

(** Every node stands for one of the groups. *)
Definition tree_idx_ok (n : Z) : bool :=
  match zget trees_ary n with
  | Some (Some t) => forallb (fun node => (0 <=? idx_ node) && (idx_ node <? (n + 3) / 4)) (nodes t) &&
      bool_decide (0 < length (nodes t))%nat
  | _ => false
  end.

Lemma trees_ok n : 1 <= n <= 40 -> exists t, zget trees_ary n = Some (Some t) /\ (0 < length (nodes t))%nat /\
  forall k node, zget (nodes t) k = Some node -> 0 <= idx_ node < (n + 3) / 4.
Proof.
  intros Hn. assert (tree_idx_ok (n - 1 + 1) = true) as H.
  { apply (forall_below 40 (fun n => tree_idx_ok (n + 1))); [by vm_compute|lia]. }
  rewrite Z.sub_add in H. unfold tree_idx_ok in H.
  destruct (zget trees_ary n) as [[t|]|]; try done. exists t. split; [done|].
  apply andb_true_iff in H as [H H0]. apply bool_decide_eq_true in H0. split; [done|].
  intros k node [_ Hk]%zget_Some_inv. rewrite forallb_forall in H.
  specialize (H node (proj1 (list_elem_of_In _ _) (list_elem_of_lookup_2 _ _ _ Hk))).
  apply andb_true_iff in H as [? ?]. lia.
Qed.

Section V3_masks.
Context (l : list Z) (Hs : small_ids l) (Hlen : 1 <= Z.of_nat (length l) <= 40).
Context (mem : Z -> Z) (inbyte e : Z).
Hypothesis Hmem : reads_mem mem inbyte (keys_of (v3_vals l) ++ data_of (v3_vals l)).

Definition lanes_of (g : Z) : list Z :=
  default [] (V3_lanes mem (mem (inbyte + g)) (inbyte + groups l + offset l (Z.to_nat g))).
Definition lt_of (g : Z) : Z := lt_mask (lanes_of g) (mm_set1_epi32 e).
Definition eq_of (g : Z) : Z := eq_mask (lanes_of g) (mm_set1_epi32 e).

Lemma lanes_of_spec g :
  0 <= g < groups l ->
  V3_lanes mem (mem (inbyte + g)) (inbyte + groups l + offset l (Z.to_nat g)) = Some (lanes_of g) /\
  exists tail, lanes_of g = grp (Z.to_nat g) (v3_order l) ++ tail /\
    (length (grp (Z.to_nat g) (v3_order l)) + length tail = 4)%nat.
Proof.
  intros Hg. destruct (V3_group l Hs Hlen mem inbyte Hmem (Z.to_nat g)) as (tail & E & Ht); [lia|].
  rewrite Z2Nat.id in E by lia. unfold lanes_of. rewrite E. eauto.
Qed.

Lemma DFS_eq out fuel t n :
  (forall g, Z.of_nat g < groups l -> zget out (Z.of_nat g) = Some (offset l g)) ->
  (forall k node, zget (nodes t) k = Some node -> 0 <= idx_ node < groups l) ->
  DFS false fuel t n mem e (Z.of_nat (length l)) out inbyte (inbyte + groups l) =
  DFS_abs lt_of eq_of fuel t n (Z.of_nat (length l)).
Proof.
  intros Hout Ht. revert n. induction fuel as [|fuel IH]; intros n; [done|]. cbn [DFS DFS_abs].
  destruct (zget (nodes t) n) as [node|] eqn:En; [|done]. bind_step. specialize (Ht n node En).
  pose proof (Hout (Z.to_nat (idx_ node)) ltac:(lia)) as Ho. rewrite Z2Nat.id in Ho by lia.
  rewrite Ho. bind_step. destruct (lanes_of_spec (idx_ node) Ht) as [-> _]. bind_step.
  unfold hsimd_hit. cbn [andb]. destruct (children node); [|done].
  unfold eq_of at 1. destruct (eq_mask (lanes_of (idx_ node)) (mm_set1_epi32 e) =? 0); [|done].
  cbn [negb]. destruct (guardb _); [|done]. bind_step. destruct (zget (masks node) 0); [|done]. bind_step.
  unfold lt_of at 1. destruct (_ =? _); [|done]. destruct (child t n 0); [|done]. bind_step. apply IH.
Qed.

Lemma FindWithCount_abs t :
  zget trees_ary (Z.of_nat (length l)) = Some (Some t) -> (0 < length (nodes t))%nat ->
  (forall k node, zget (nodes t) k = Some node -> 0 <= idx_ node < groups l) ->
  DeltaSIMDCodecV3_FindWithCount false mem inbyte (Z.of_nat (length l)) e =
  V3_abs lt_of eq_of t (Z.of_nat (length l)).
Proof.
  intros Et Hn Ht. unfold DeltaSIMDCodecV3_FindWithCount, V3_abs. rewrite Et. bind_step.
  destruct (zget (nodes t) 0) as [root|]; [|done]. bind_step.
  destruct (control_bytes_eq (Z.of_nat (length l))) as (-> & Hcb & _); [lia|]. fold (groups l) in *.
  assert (offset l 0 = 0) as H0 by done.
  pose proof (lanes_of_spec 0 ltac:(lia)) as [E _]. rewrite Z.add_0_r in E.
  change (Z.to_nat 0) with 0%nat in E. rewrite H0, Z.add_0_r in E. rewrite E. bind_step.
  unfold hsimd_hit. cbn [andb]. change (eq_mask (lanes_of 0) (mm_set1_epi32 e)) with (eq_of 0).
  change (lt_mask (lanes_of 0) (mm_set1_epi32 e)) with (lt_of 0).
  destruct (groups l =? 1); [done|]. destruct (eq_of 0 =? 0); [|done]. cbn [negb].
  destruct (lt_of 0 =? 0); [done|]. destruct (lt_of 0 =? 15); [done|].
  destruct (countByteLen_spec l Hs Hlen mem inbyte Hmem) as (out & -> & Hout). bind_step.
  destruct (matching_child _ _ _ _) as [[i|]|]; [|done..]. bind_step.
  destruct (child t 0 i); [|done]. bind_step. by apply DFS_eq.
Qed.
End V3_masks.

(** ** Positions

    Element [o] of the sorted list has position [2 * o]; the element searched
    for has the position of its equal, or an odd one between its neighbors. *)

Definition position (l : list Z) (e : Z) : Z :=
  2 * Z.of_nat (length (filter (fun x => x < e) l)) - (if bool_decide (e ∈ l) then 0 else 1).

Definition of_position (n p : Z) : FindRes :=
  if Z.even p then EXIST else if p =? -1 then LESS_THAN_MIN
  else if p =? 2 * n - 1 then GRATER_THAN_MAX else NOT_EXIST.

Lemma list_empty_no_elem {A} (l : list A) : (forall x, x ∉ l) -> l = [].
Proof. destruct l as [|x l]; [done|]. intros H. destruct (H x). apply elem_of_cons. auto. Qed.

Lemma position_cons a l e :
  StronglySorted Z.lt (a :: l) ->
  position (a :: l) e = if a <? e then position l e + 2 else if a =? e then 0 else -1.
Proof.
  intros [Hs Hlt]%sorted_cons_inv. unfold position. rewrite filter_cons.
  destruct (Z.ltb_spec a e) as [Hae|Hae].
  - rewrite decide_True by done. cbn [length].
    rewrite (bool_decide_ext (e ∈ a :: l) (e ∈ l)); [lia|]. rewrite elem_of_cons.
    split; [|auto]. intros [->|]; [lia|done].
  - rewrite decide_False by lia.
    assert (filter (fun x => x < e) l = []) as ->.
    { apply list_empty_no_elem. intros x [Hx Hin]%list_elem_of_filter. apply Hlt in Hin. lia. }
    cbn [length]. destruct (Z.eqb_spec a e) as [->|Hne].
    + rewrite bool_decide_eq_true_2 by (apply elem_of_cons; auto). done.
    + rewrite bool_decide_eq_false_2; [done|]. intros [->|Hin]%elem_of_cons; [lia|].
      apply Hlt in Hin. lia.
Qed.

Lemma position_bound l e : -1 <= position l e <= 2 * Z.of_nat (length l).
Proof.
  unfold position. pose proof (length_filter (fun x => x < e) l) as H.
  destruct (bool_decide (e ∈ l)); lia.
Qed.

Lemma position_spec l e o x :
  StronglySorted Z.lt l -> l !! o = Some x ->
  (x <? e) = (2 * Z.of_nat o <? position l e) /\ (x =? e) = (2 * Z.of_nat o =? position l e).
Proof.
  revert o. induction l as [|a l IH]; intros o Hs Hx; [done|].
  rewrite position_cons by done. pose proof (sorted_cons_inv _ _ Hs) as [Hs' Hlt].
  pose proof (position_bound l e) as Hb. destruct o as [|o]; cbn [lookup list_lookup] in Hx.
  - injection Hx as ->. destruct (Z.ltb_spec x e), (Z.eqb_spec x e); split_ltb; split; lia.
  - specialize (IH o Hs' Hx) as [IH1 IH2]. pose proof (Hlt x (list_elem_of_lookup_2 _ _ _ Hx)) as Hax.
    destruct (Z.ltb_spec a e).
    + rewrite IH1, IH2. split; apply eq_true_iff_eq; rewrite ?Z.ltb_lt, ?Z.eqb_eq; lia.
    + destruct (Z.eqb_spec a e), (Z.ltb_spec x e), (Z.eqb_spec x e); split; split_ltb; lia.
Qed.

Lemma position_even l e : StronglySorted Z.lt l -> Z.even (position l e) = bool_decide (e ∈ l).
Proof.
  intros Hs. unfold position. destruct (bool_decide (e ∈ l)).
  - rewrite Z.sub_0_r, Z.even_mul. done.
  - rewrite Z.even_sub, Z.even_mul. done.
Qed.

Lemma find_of_position l e :
  StronglySorted Z.lt l -> l <> [] -> find_sorted l e = of_position (Z.of_nat (length l)) (position l e).
Proof.
  intros Hs Hne. unfold of_position. rewrite position_even by done.
  assert (forall l, StronglySorted Z.lt l -> find_ref l e =
    if bool_decide (e ∈ l) then EXIST
    else if position l e =? 2 * Z.of_nat (length l) - 1 then GRATER_THAN_MAX else NOT_EXIST) as Href.
  { clear. induction l as [|a l IH]; intros Hs.
    { unfold position. cbn. by rewrite bool_decide_eq_false_2 by apply not_elem_of_nil. }
    rewrite position_cons by done. pose proof (sorted_cons_inv _ _ Hs) as [Hs' Hlt]. cbn [find_ref length].
    pose proof (position_bound l e). destruct (Z.eqb_spec e a) as [->|Hea].
    { by rewrite bool_decide_eq_true_2 by (apply elem_of_cons; auto). }
    destruct (Z.ltb_spec e a) as [Hlt2|Hge].
    - rewrite bool_decide_eq_false_2.
      + rewrite (proj2 (Z.ltb_ge a e)), (proj2 (Z.eqb_neq a e)), (proj2 (Z.eqb_neq (-1) _)) by lia. done.
      + intros [->|Hin]%elem_of_cons; [done|]. apply Hlt in Hin. lia.
    - rewrite IH by done. rewrite (proj2 (Z.ltb_lt a e)) by lia.
      rewrite (bool_decide_ext (e ∈ a :: l) (e ∈ l)) by (rewrite elem_of_cons; naive_solver).
      destruct (bool_decide (e ∈ l)); [done|].
      destruct (Z.eqb_spec (position l e) (2 * Z.of_nat (length l) - 1)), (Z.eqb_spec (position l e + 2) (2 * Z.of_nat (S (length l)) - 1));
        done || lia. }
  destruct l as [|a l]; [done|]. pose proof (sorted_cons_inv _ _ Hs) as [Hs' Hlt].
  pose proof (position_bound l e) as Hb. pose proof (Href (a :: l) Hs) as H. cbn [find_sorted].
  destruct (Z.eqb_spec e a) as [->|Hea]; [by rewrite bool_decide_eq_true_2 by (apply elem_of_cons; auto)|].
  cbn [find_ref] in H. rewrite (proj2 (Z.eqb_neq e a)) in H by done. rewrite position_cons in * by done.
  destruct (Z.ltb_spec e a).
  - rewrite (proj2 (Z.ltb_ge a e)), (proj2 (Z.eqb_neq a e)) in * by lia.
    rewrite bool_decide_eq_false_2; [done|]. intros [->|Hin]%elem_of_cons; [done|]. apply Hlt in Hin. lia.
  - rewrite (proj2 (Z.ltb_lt a e)) in * by lia. rewrite H.
    by rewrite (proj2 (Z.eqb_neq (position l e + 2) (-1))) by lia.
Qed.

(** ** The search of up to twenty elements

    On positions the search is finite: every count, every position and every
    content of the lanes after the last element are evaluated. *)

Definition pos_mask (n : Z) (test : Z -> bool) (row : list Z) (junk : list bool) (g : Z) : Z :=
  mm_movemask (map test (grp (Z.to_nat g) row) ++ if g =? (n + 3) / 4 - 1 then junk else []).

Fixpoint all_lists (k : nat) : list (list bool) :=
  match k with
  | O => [[]]
  | S k => map (cons true) (all_lists k) ++ map (cons false) (all_lists k)
  end.

Lemma all_lists_spec l : l ∈ all_lists (length l).
Proof.
  induction l as [|b l IH]; cbn [all_lists length]; [by apply list_elem_of_singleton|].
  apply elem_of_app. destruct b; [left|right]; by apply list_elem_of_fmap_2.
Qed.

Definition V3_check (n : Z) : bool :=
  match zget ary_order (n - 1), zget trees_ary n with
  | Some row, Some (Some t) =>
      forallb (fun p => forallb (fun jl => forallb (fun je =>
        bool_decide (V3_abs (pos_mask n (fun o => 2 * o <? p) row jl) (pos_mask n (fun o => 2 * o =? p) row je) t n
                     = Some (of_position n p)))
      (all_lists (Z.to_nat (4 * ((n + 3) / 4) - n)))) (all_lists (Z.to_nat (4 * ((n + 3) / 4) - n))))
      (seqZ (-1) (2 * n + 1))
  | _, _ => false
  end.

Lemma V3_check_all n : 1 <= n <= 20 -> V3_check n = true.
Proof.
  intros Hn. replace n with (n - 1 + 1) by lia.
  apply (forall_below 20 (fun n => V3_check (n + 1))); [by vm_compute|lia].
Qed.

Lemma DFS_abs_ext lt lt' eq eq' fuel t n count :
  (forall k node, zget (nodes t) k = Some node -> 0 <= idx_ node < (count + 3) / 4) ->
  (forall g, 0 <= g < (count + 3) / 4 -> lt g = lt' g /\ eq g = eq' g) ->
  DFS_abs lt eq fuel t n count = DFS_abs lt' eq' fuel t n count.
Proof.
  intros Ht Hg. revert n. induction fuel as [|fuel IH]; intros n; [done|]. cbn [DFS_abs].
  destruct (zget (nodes t) n) as [node|] eqn:En; [|done]. bind_step.
  destruct (Hg (idx_ node) (Ht n node En)) as [-> ->].
  destruct (children node); [|done]. destruct (negb _); [done|].
  destruct (guardb _); [|done]. bind_step. destruct (zget (masks node) 0); [|done]. bind_step.
  destruct (_ =? _); [|done]. destruct (child t n 0); [|done]. bind_step. apply IH.
Qed.

Lemma V3_abs_ext lt lt' eq eq' t count :
  1 <= count -> (forall k node, zget (nodes t) k = Some node -> 0 <= idx_ node < (count + 3) / 4) ->
  (forall g, 0 <= g < (count + 3) / 4 -> lt g = lt' g /\ eq g = eq' g) ->
  V3_abs lt eq t count = V3_abs lt' eq' t count.
Proof.
  intros Hc Ht Hg. unfold V3_abs. destruct (zget (nodes t) 0) as [root|] eqn:E; [|done]. bind_step.
  destruct (Hg 0) as [-> ->]; [split; [lia|apply Z.div_str_pos; lia]|].
  destruct (_ =? 1); [done|]. destruct (negb _); [done|]. destruct (_ =? 0); [done|].
  destruct (_ =? 15); [done|]. destruct (matching_child _ _ _ _) as [[i|]|]; [|done..]. bind_step.
  destruct (child t 0 i); [|done]. bind_step. by apply DFS_abs_ext.
Qed.

Lemma grp_map {A B} (f : A -> B) g xs : grp g (map f xs) = map f (grp g xs).
Proof. unfold grp. by rewrite skipn_map, firstn_map. Qed.

Section V3_small.
Context (l : list Z) (Hs : small_ids l) (Hsort : StronglySorted Z.lt l).
Context (Hlen : 1 <= Z.of_nat (length l) <= 40).
Context (mem : Z -> Z) (inbyte e : Z) (He : 0 <= e < 2 ^ 31).
Hypothesis Hmem : reads_mem mem inbyte (keys_of (v3_vals l) ++ data_of (v3_vals l)).

(** A test of the elements of a group is a test of their positions. *)
Lemma test_positions row (test : Z -> bool) (ptest : Z -> bool) g :
  row ≡ₚ seqZ 0 (Z.of_nat (length l)) ->
  (forall o x, l !! o = Some x -> test x = ptest (Z.of_nat o)) ->
  map test (grp g (map (fun o => nth (Z.to_nat o) l 0) row)) = map ptest (grp g row).
Proof.
  intros Hp Ht. rewrite grp_map, map_map. apply map_ext_in. intros o Ho.
  assert (o ∈ row) as Hor.
  { apply list_elem_of_In in Ho. unfold grp in Ho. apply elem_of_take in Ho as (i & Ho & _).
    rewrite lookup_drop in Ho. by apply list_elem_of_lookup_2 in Ho. }
  rewrite Hp, elem_of_seqZ in Hor. destruct (lookup_lt_is_Some_2 l (Z.to_nat o)) as [x Hx]; [lia|].
  rewrite (nth_lookup_Some _ _ _ _ Hx), (Ht _ _ Hx), Z2Nat.id by lia. done.
Qed.

(** What follows the last element in the lanes. *)
Definition tail_of (g : Z) : list Z := drop (length (grp (Z.to_nat g) (v3_order l))) (lanes_of l mem inbyte g).

Lemma masks_positions row g :
  zget ary_order (Z.of_nat (length l) - 1) = Some row -> 0 <= g < groups l ->
  let last := groups l - 1 in
  lt_of l mem inbyte e g = pos_mask (Z.of_nat (length l)) (fun o => 2 * o <? position l e) row
    (map (fun x => s32 x <? s32 e) (tail_of last)) g /\
  eq_of l mem inbyte e g = pos_mask (Z.of_nat (length l)) (fun o => 2 * o =? position l e) row
    (map (fun x => u32 x =? u32 e) (tail_of last)) g.
Proof.
  intros Erow Hg last. subst last. destruct (v3_order_spec l (small_u32s l Hs) Hlen) as (row' & E & Hp & _ & Hord).
  assert (row' = row) as -> by congruence. clear E.
  destruct (lanes_of_spec l Hs Hlen mem inbyte Hmem g Hg) as (_ & tail & Ht & H4).
  assert (tail_of g = tail) as Htail by (unfold tail_of; by rewrite Ht, drop_app_length).
  unfold lt_of, eq_of, pos_mask. fold (groups l).
  rewrite lt_mask_map, eq_mask_map by (by rewrite Ht, length_app). rewrite Ht, !map_app.
  rewrite (s32_small e), (u32_small e) by lia.
  assert (Forall (fun x => 0 <= x < 2 ^ 31) (grp (Z.to_nat g) (v3_order l))) as Hg2.
  { unfold grp. apply Forall_take, Forall_drop, (v3_order_all l (small_u32s l Hs) Hlen _ Hs). }
  rewrite Forall_forall in Hg2.
  rewrite (map_ext_in (fun x => s32 x <? e) (fun x => x <? e))
    by (intros x Hx; apply list_elem_of_In, Hg2 in Hx; by rewrite s32_small).
  rewrite (map_ext_in (fun x => u32 x =? e) (fun x => x =? e))
    by (intros x Hx; apply list_elem_of_In, Hg2 in Hx; rewrite u32_small; [done|lia]).
  rewrite Hord, (test_positions row (fun x => x <? e) (fun o => 2 * o <? position l e)),
    (test_positions row (fun x => x =? e) (fun o => 2 * o =? position l e))
    by (done || (intros o x Hx; by apply position_spec)).
  destruct (Z.eqb_spec g (groups l - 1)) as [->|Hlast].
  { by rewrite Htail. }
  assert (tail = []) as ->; [|done]. apply length_zero_iff_nil.
  pose proof (length_v3_order l (small_u32s l Hs) Hlen) as HL.
  pose proof (group_of_lt l (S (Z.to_nat g)) ltac:(lia)). rewrite length_grp in H4. lia.
Qed.

Lemma length_last_tail :
  Z.of_nat (length (tail_of (groups l - 1))) = 4 * groups l - Z.of_nat (length l).
Proof.
  assert (1 <= groups l) as Hg1 by (apply groups_pos; intros ->; simpl in Hlen; lia).
  destruct (lanes_of_spec l Hs Hlen mem inbyte Hmem (groups l - 1) ltac:(lia)) as (_ & tail & Ht & H4).
  unfold tail_of. rewrite Ht, drop_app_length. pose proof (length_v3_order l (small_u32s l Hs) Hlen) as HL.
  rewrite length_grp in H4. pose proof (group_of_lt l (Z.to_nat (groups l - 1)) ltac:(lia)).
  pose proof (Z.div_mod (Z.of_nat (length l) + 3) 4 ltac:(lia)).
  pose proof (Z.mod_pos_bound (Z.of_nat (length l) + 3) 4 ltac:(lia)). fold (groups l) in *. lia.
Qed.

Lemma V3_find_small :
  Z.of_nat (length l) <= 20 ->
  DeltaSIMDCodecV3_FindWithCount false mem inbyte (Z.of_nat (length l)) e = Some (find_sorted l e).
Proof.
  intros H20. destruct (trees_ok _ Hlen) as (t & Et & Hnodes & Hidx).
  destruct (v3_order_spec l (small_u32s l Hs) Hlen) as (row & Erow & _).
  rewrite (FindWithCount_abs l Hs Hlen mem inbyte e Hmem t Et Hnodes Hidx).
  rewrite find_of_position by (done || (intros ->; simpl in Hlen; lia)).
  rewrite (V3_abs_ext _ _ _ _ t (Z.of_nat (length l)) (proj1 Hlen) Hidx (fun g Hg => masks_positions row g Erow Hg)).
  pose proof (V3_check_all (Z.of_nat (length l)) ltac:(lia)) as Hc. unfold V3_check in Hc.
  rewrite Erow, Et in Hc. rewrite forallb_forall in Hc.
  pose proof (position_bound l e) as Hb. pose proof length_last_tail as HT. fold (groups l) in Hc.
  assert (position l e <> 2 * Z.of_nat (length l)) as Hne.
  { intros Hpos. unfold position in Hpos. destruct (bool_decide_reflect (e ∈ l)) as [Hin|]; [|lia].
    pose proof (length_filter_lt (fun x => x < e) l e Hin (Z.lt_irrefl e)). lia. }
  specialize (Hc (position l e)). rewrite <- list_elem_of_In, elem_of_seqZ in Hc. specialize (Hc ltac:(lia)).
  set (jl := map (fun x => s32 x <? s32 e) (tail_of (groups l - 1))).
  set (je := map (fun x => u32 x =? u32 e) (tail_of (groups l - 1))).
  assert (forall A (f : Z -> A), length (map f (tail_of (groups l - 1))) = Z.to_nat (4 * groups l - Z.of_nat (length l))) as Hj
    by (intros; rewrite length_map; lia).
  rewrite forallb_forall in Hc. specialize (Hc jl). rewrite forallb_forall in Hc.
  rewrite <- (Hj _ (fun x => s32 x <? s32 e)) in Hc at 1. specialize (Hc (proj1 (list_elem_of_In _ _) (all_lists_spec jl)) je).
  rewrite <- (Hj _ (fun x => u32 x =? u32 e)) in Hc. specialize (Hc (proj1 (list_elem_of_In _ _) (all_lists_spec je))).
  by apply bool_decide_eq_true in Hc.
Qed.
End V3_small.

(** For five to forty elements the constructor of the search tree computes,
    without an access outside its arrays, the row of the table [ary_order] that
    encodes the lists, and that row is a permutation of the positions. *)
Theorem SearchTree_order (n : Z) (Hn : 5 <= n <= 40) :
  exists t, SearchTree_new n = Some t /\ zget ary_order (n - 1) = Some (get_order t) /\
    get_order t ≡ₚ seqZ 0 n.
Proof.
  destruct (order_permutation n ltac:(lia)) as (row & E & Hp).
  assert (same_order (n - 5 + 5) = true) as H.
  { apply (forall_below 36 (fun n => same_order (n + 5))); [by vm_compute|lia]. }
  rewrite Z.sub_add in H. unfold same_order in H. destruct (SearchTree_new n) as [t|]; [|done].
  apply bool_decide_eq_true in H. exists t. rewrite H in E. injection E as E. rewrite E in *. done.
Qed.

Lemma SearchTree_order_witness :
  exists t, SearchTree_new 23 = Some t /\ zget ary_order (23 - 1) = Some (get_order t) /\
    get_order t ≡ₚ seqZ 0 23.
Proof. apply (SearchTree_order 23). lia. Defined.

(** V3 announces the size of its code as it writes it, for up to forty
    values, and the code gives the size back. *)
Theorem V3_lengths (l out : list Z) (off n : Z) (Hl : Forall (fun x => 0 <= x < 2 ^ 32) l)
    (Hlen : 1 <= Z.of_nat (length l) <= 40) (Hoff : 0 <= off)
    (Hn : DeltaSIMDCodecV3_GetRequiredBytes l = Some n) (Hroom : off + n <= Z.of_nat (length out)) :
  exists out', DeltaSIMDCodecV3_EncodeArray l out off = Some (out', n) /\
    (forall a, ~ (off <= a < off + n) -> zget out' a = zget out a) /\
    forall mem, (forall a b, zget out' a = Some b -> mem a = b) ->
      DeltaSIMDCodec_GetEncodeLength mem off (Z.of_nat (length l)) = Some n.
Proof.
  destruct (V3_EncodeArray_spec l Hl Hlen out off Hoff) as (out' & n' & E & En & Hf & Hr); [rewrite Hn; exact Hroom|].
  assert (n' = n) as -> by congruence. exists out'. split; [done|]. split; [done|]. intros mem Hmem.
  pose proof (v3_u32s l Hl Hlen) as Hv. pose proof (length_v3_vals l Hl Hlen) as HL. rewrite <- HL.
  rewrite GetEncodeLength_spec by
    first [done | lia | (intros Hnil; rewrite Hnil in HL; simpl in HL; lia)
          | (intros k b Hk; apply Hmem, Hr; by apply lookup_app_l_Some)].
  rewrite (V3_GetRequiredBytes_spec l Hl Hlen) in Hn. injection Hn as <-.
  rewrite length_app, Nat2Z.inj_add. by rewrite (proj1 (data_len_spec _ Hv)).
Qed.

Lemma V3_lengths_witness :
  exists out', DeltaSIMDCodecV3_EncodeArray [7; 500; 70000; 70001; 16777999] (repeat 9 24) 3 = Some (out', 14) /\
    (forall a, ~ (3 <= a < 3 + 14) -> zget out' a = zget (repeat 9 24) a) /\
    forall mem, (forall a b, zget out' a = Some b -> mem a = b) ->
      DeltaSIMDCodec_GetEncodeLength mem 3 5 = Some 14.
Proof.
  apply (V3_lengths [7; 500; 70000; 70001; 16777999] (repeat 9 24) 3 14).
  - repeat constructor; lia.
  - simpl. lia.
  - lia.
  - vm_compute. reflexivity.
  - vm_compute. congruence.
Defined.

(** C28: without [HSIMD], the tree search of a code of up to twenty sorted ids
    classifies the element as the list does, whatever lies after the code. *)
Theorem V3_search (l out : list Z) (off n e : Z) (Hl : Forall (fun x => 0 <= x < 2 ^ 31) l)
    (Hs : StronglySorted Z.lt l) (Hlen : 1 <= Z.of_nat (length l) <= 20) (Hoff : 0 <= off)
    (Hn : DeltaSIMDCodecV3_GetRequiredBytes l = Some n) (Hroom : off + n <= Z.of_nat (length out))
    (He : 0 <= e < 2 ^ 31) :
  exists out' r, DeltaSIMDCodecV3_EncodeArray l out off = Some (out', n) /\
    (forall mem, (forall a b, zget out' a = Some b -> mem a = b) ->
       DeltaSIMDCodecV3_FindWithCount false mem off (Z.of_nat (length l)) e = Some r) /\
    match r with
    | EXIST => e ∈ l
    | LESS_THAN_MIN => forall x, x ∈ l -> e < x
    | GRATER_THAN_MAX => forall x, x ∈ l -> x < e
    | NOT_EXIST => e ∉ l /\ (exists x, x ∈ l /\ x < e) /\ (exists x, x ∈ l /\ e < x)
    end.
Proof.
  destruct (V3_EncodeArray_spec l (small_u32s l Hl) ltac:(lia) out off Hoff) as (out' & n' & E & En & _ & Hr);
    [rewrite Hn; exact Hroom|]. assert (n' = n) as -> by congruence.
  exists out', (find_sorted l e). split; [done|]. split.
  - intros mem Hmem. apply V3_find_small; [done|done|lia|done| |lia]. intros k b Hk. by apply Hmem, Hr.
  - apply find_sorted_spec; [done|]. intros ->. simpl in Hlen. lia.
Qed.

Lemma V3_search_witness :
  let l := [7; 500; 70000; 70001; 16777999] in
  exists out' r, DeltaSIMDCodecV3_EncodeArray l (repeat 9 24) 3 = Some (out', 14) /\
    (forall mem, (forall a b, zget out' a = Some b -> mem a = b) ->
       DeltaSIMDCodecV3_FindWithCount false mem 3 5 70001 = Some r) /\
    match r with
    | EXIST => 70001 ∈ l
    | LESS_THAN_MIN => forall x, x ∈ l -> 70001 < x
    | GRATER_THAN_MAX => forall x, x ∈ l -> x < 70001
    | NOT_EXIST => 70001 ∉ l /\ (exists x, x ∈ l /\ x < 70001) /\ (exists x, x ∈ l /\ 70001 < x)
    end.
Proof.
  apply (V3_search [7; 500; 70000; 70001; 16777999] (repeat 9 24) 3 14 70001).
  - repeat constructor; lia.
  - repeat constructor; lia.
  - simpl. lia.
  - lia.
  - vm_compute. reflexivity.
  - vm_compute. congruence.
  - lia.
Defined.

(** The code of [l] at address 0, as a memory. *)
Definition coded_memory (l : list Z) (a : Z) : Z :=
  match DeltaSIMDCodecV3_EncodeArray l (replicate 64 0) 0 with
  | Some (out, _) => nth (Z.to_nat a) out 0
  | None => 0
  end.

(** From twenty-one elements on, the loop of [DFS] returns in its first turn, so
    only the first child of an inner node is searched: the element is in the
    list and is reported missing. *)
Example DFS_first_child_only :
  let l := seqZ 100 24 in
  120 ∈ l /\ DeltaSIMDCodecV3_FindWithCount false (coded_memory l) 0 24 120 = Some NOT_EXIST.
Proof. split; [apply elem_of_seqZ; lia|vm_compute; reflexivity]. Qed.

(** With [HSIMD] the recovered lanes are summed up again before they are
    compared: an element that is not in the list is found. *)
Example HSIMD_sums_twice :
  let l := [1; 2; 4; 5] in
  3 ∉ l /\ DeltaSIMDCodecV3_FindWithCount true (coded_memory l) 0 4 3 = Some EXIST.
Proof. split; [apply (bool_decide_unpack _); vm_compute; exact I|vm_compute; reflexivity]. Qed.
