(* ===== verification/Codec.v ===== *)
(** What an encoder needs of a list codec: the virtual methods of
    [DeltaSIMDCodec] as a class, with the four codecs as instances, and their
    contract as a class of laws ([src/include/encode/codec/SIMD/]). The encoders
    are verified against the laws; [HSIMD] is off. *)
From S2P Require Import Prelude BitSet Varint SimdTables SimdCodec SimdTree.
From stdpp Require Import options.
Local Open Scope Z_scope.
Set Default Proof Using "Type*".

Class CodecOps := {
  codec_EncodeArray : list Z -> list Z -> Z -> option (list Z * Z);
  codec_GetRequiredBytes : list Z -> option Z;
  codec_GetRequiredBytes_block : list Z -> Z -> Z -> option Z;
  codec_FindWithCount : (Z -> Z) -> Z -> Z -> Z -> option FindRes
}.

(** The sequential codecs; their [GetRequiredBytes] of a block returns 0. *)
Definition sequential (ops : DeltaOps) : CodecOps := {|
  codec_EncodeArray := DeltaSIMDCodec_EncodeArray;
  codec_GetRequiredBytes l := Some (DeltaSIMDCodec_GetRequiredBytes l);
  codec_GetRequiredBytes_block _ _ _ := Some 0;
  codec_FindWithCount := DeltaSIMDCodec_FindWithCount
|}.

Definition tree_searched (HSIMD : bool) : CodecOps := {|
  codec_EncodeArray := DeltaSIMDCodecV3_EncodeArray;
  codec_GetRequiredBytes := DeltaSIMDCodecV3_GetRequiredBytes;
  codec_GetRequiredBytes_block := DeltaSIMDCodecV3_GetRequiredBytes_block;
  codec_FindWithCount := DeltaSIMDCodecV3_FindWithCount HSIMD
|}.

(** A list the codec takes: sorted ids below 2^31. *)
Record codable (l : list Z) : Prop := {
  codable_sorted : StronglySorted Z.lt l;
  codable_small : small_ids l;
  codable_ne : l <> []
}.

(** [codes l code]: [code] are the bytes of [l]; they are announced, written
    alone, measured and searched right wherever they are in memory. *)
Record codes (ops : CodecOps) (l code : list Z) : Prop := {
  codes_required : codec_GetRequiredBytes l = Some (Z.of_nat (length code));
  codes_bytes : Forall (fun x => 0 <= x < 2 ^ 8) code;
  codes_min : Z.of_nat (length l) + (Z.of_nat (length l) + 3) / 4 <= Z.of_nat (length code);
  codes_written : forall pre mid post, length mid = length code ->
    codec_EncodeArray l (pre ++ mid ++ post) (Z.of_nat (length pre)) =
    Some (pre ++ code ++ post, Z.of_nat (length code));
  codes_length : forall mem a, reads_mem mem a code ->
    DeltaSIMDCodec_GetEncodeLength mem a (Z.of_nat (length l)) = Some (Z.of_nat (length code));
  codes_find : forall mem a e, reads_mem mem a code -> 0 <= e < 2 ^ 31 ->
    codec_FindWithCount mem a (Z.of_nat (length l)) e = Some (find_sorted l e)
}.

(** The contract: every list of at most [bound] elements has a code. *)
Class CodecLaws (ops : CodecOps) (bound : Z) : Prop :=
  codec_codes : forall l, codable l -> Z.of_nat (length l) <= bound -> exists code, codes ops l code.

Lemma data_len_min vs : u32s vs -> Z.of_nat (length vs) <= data_len vs.
Proof.
  induction 1 as [|v vs H1 H2 IH]; [done|]. cbn [data_len foldr length].
  change (foldr _ 0 ?l) with (data_len l). destruct (vcode_spec v H1). lia.
Qed.

Section code_bytes.
Context (vs : list Z) (Hv : u32s vs) (Hne : vs <> []) (Hlen : Z.of_nat (length vs) < 64).

Definition code_bytes : list Z := keys_of vs ++ data_of vs.

Lemma code_bytes_length : Z.of_nat (length code_bytes) = (Z.of_nat (length vs) + 3) / 4 + data_len vs.
Proof using Hv.
  unfold code_bytes. rewrite length_app, Nat2Z.inj_add, length_keys. by rewrite (proj1 (data_len_spec vs Hv)).
Qed.

Lemma code_bytes_range : Forall (fun x => 0 <= x < 2 ^ 8) code_bytes.
Proof using Hv.
  unfold code_bytes. apply Forall_app. split.
  - apply Forall_lookup. intros g key Hg. pose proof (lookup_lt_Some _ _ _ Hg) as Hlt.
    pose proof (length_keys vs) as HL. pose proof (Z.div_mod (Z.of_nat (length vs) + 3) 4 ltac:(lia)).
    pose proof (Z.mod_pos_bound (Z.of_nat (length vs) + 3) 4 ltac:(lia)).
    rewrite keys_lookup in Hg by lia. injection Hg as <-.
    assert (u32s (grp g vs)) as Hgu by (unfold grp; by apply Forall_take, Forall_drop).
    pose proof (group_key_bound _ Hgu) as Hb.
    assert (4 ^ Z.of_nat (length (grp g vs)) <= 4 ^ 4).
    { apply Z.pow_le_mono_r; [lia|]. unfold grp. rewrite length_take. lia. }
    lia.
  - unfold data_of. clear Hne Hlen. induction Hv as [|v ws H1 H2 IH]; [constructor|]. cbn [map concat].
    apply Forall_app. split; [|by apply IH]. rewrite vbytes_eq by done. apply Forall_fmap, Forall_forall.
    intros b _. unfold compose. apply Z.mod_pos_bound. lia.
Qed.

Lemma code_bytes_written E l pre mid post :
  E l = Some (keys_of vs, data_of vs, u8 (data_len vs)) -> length vs = length l ->
  length mid = length code_bytes ->
  EncodeArray_with E l (pre ++ mid ++ post) (Z.of_nat (length pre)) =
  Some (pre ++ code_bytes ++ post, Z.of_nat (length code_bytes)).
Proof.
  intros HE Hl Hmid. unfold EncodeArray_with. rewrite HE. bind_step.
  pose proof code_bytes_length as HL. pose proof (data_len_spec vs Hv) as [Hd Hdb].
  unfold code_bytes in *. rewrite length_app in *. pose proof (length_keys vs) as Hk.
  destruct (split_at mid 0 (length (keys_of vs))) as (m0 & m1 & m2 & -> & Hm0 & Hm1); [lia|lia|].
  destruct m0; [|simpl in Hm0; lia]. cbn [app] in *. rewrite length_app in Hmid.
  rewrite <- app_assoc, store_bytes_spec by done. bind_step.
  replace (Z.of_nat (length pre) + (Z.of_nat (length l) + 3) / 4) with (Z.of_nat (length (pre ++ keys_of vs)))
    by (rewrite length_app, Nat2Z.inj_add, Hk, Hl; done).
  rewrite app_assoc, store_bytes_spec by lia. bind_step. rewrite <- !app_assoc. f_equal. f_equal.
  rewrite <- Hl, <- Hk, u8_small by lia. pose proof (Z.div_mod (Z.of_nat (length vs) + 3) 4 ltac:(lia)).
  pose proof (Z.mod_pos_bound (Z.of_nat (length vs) + 3) 4 ltac:(lia)). rewrite u32_small by lia. lia.
Qed.

Lemma code_bytes_measured mem a :
  reads_mem mem a code_bytes ->
  DeltaSIMDCodec_GetEncodeLength mem a (Z.of_nat (length vs)) = Some (Z.of_nat (length code_bytes)).
Proof.
  intros [Hk _]%reads_mem_app. rewrite GetEncodeLength_spec by (done || lia).
  by rewrite code_bytes_length, length_keys.
Qed.
End code_bytes.

Lemma sequential_laws (ops : DeltaOps) (laws : DeltaLaws ops) : CodecLaws (sequential ops) 63.
Proof.
  intros l [Hs Hids Hne] Hl. pose proof (small_u32s l Hids) as Hu.
  pose proof (gen_u32 0 0 l Hu) as Hv. pose proof (length_gen 0 0 l) as HL.
  assert ((gen_vals 0 0 l).1 <> []) as Hvne by (intros E; rewrite E in HL; by destruct l).
  exists (code_bytes (gen_vals 0 0 l).1). split.
  - cbn [codec_GetRequiredBytes sequential]. f_equal. apply GetRequiredBytes_spec; [done|lia].
  - by apply code_bytes_range.
  - rewrite code_bytes_length, HL by done. pose proof (data_len_min _ Hv). lia.
  - intros pre mid post Hmid. cbn [codec_EncodeArray sequential].
    apply code_bytes_written; [done|done|lia| |lia|done]. f_equal. apply EncodeDeltas_spec; [done|lia].
  - intros mem a Hr. rewrite <- HL. apply code_bytes_measured; [done|done|lia|done].
  - intros mem a e Hr He. cbn [codec_FindWithCount sequential]. apply FindWithCount_spec; done || lia.
Qed.

#[export] Instance V0_laws : CodecLaws (sequential DeltaSIMDCodec) 63.
Proof. apply sequential_laws, _. Qed.
#[export] Instance V1_laws : CodecLaws (sequential DeltaSIMDCodecV1) 63.
Proof. apply sequential_laws, _. Qed.
#[export] Instance V2_laws : CodecLaws (sequential DeltaSIMDCodecV2) 63.
Proof. apply sequential_laws, _. Qed.

(** V3 meets the contract up to twenty elements. *)
#[export] Instance V3_laws : CodecLaws (tree_searched false) 20.
Proof.
  intros l [Hs Hids Hne] Hl. pose proof (small_u32s l Hids) as Hu.
  assert (1 <= Z.of_nat (length l) <= 40) as Hlen by (destruct l; [done|cbn [length] in *; lia]).
  pose proof (v3_u32s l Hu Hlen) as Hv. pose proof (length_v3_vals l Hu Hlen) as HL.
  assert (v3_vals l <> []) as Hvne by (intros E; rewrite E in HL; simpl in HL; lia).
  exists (code_bytes (v3_vals l)). split.
  - by apply V3_GetRequiredBytes_spec.
  - by apply code_bytes_range.
  - rewrite code_bytes_length, HL by done. pose proof (data_len_min _ Hv). lia.
  - intros pre mid post Hmid. apply code_bytes_written; [done|done|lia| |lia|done]. by apply V3_EncodeDeltas_spec.
  - intros mem a Hr. rewrite <- HL. apply code_bytes_measured; [done|done|lia|done].
  - intros mem a e Hr He. by apply V3_find_small.
Qed.
