(* ===== verification/DeltaEncode.v ===== *)
(** The SIMD delta encodings: classes [SIMDEncode], [DeltaSIMDEncode] and its
    versions V1, V2 and V3 ([src/include/encode/SIMD/simd_encode.h],
    [src/include/encode/SIMD/delta_simd_encode.h]).

    A vertex's vector is a header byte (decodable flag, two bits of block model,
    five of block size) and an encoded block, followed by a hash area. The
    search loads sixteen bytes at a time and can read past the vector: [heap]
    gives the bytes that are there. *)
From S2P Require Import Prelude Config BitSet HashCount Encode Varint SimdTables SimdCodec SimdTree Codec.
From Stdlib Require Import Floats.SpecFloat.
From stdpp Require Import options.
Local Open Scope Z_scope.
Set Default Proof Using "Type*".

(** * SIMDEncode *)

Record SIMDEncode := {
  encode_size_ : Z;
  encode_bitset_ : list (list Z)
}.

Definition SIMDEncode_default (C : Config) : SIMDEncode :=
  {| encode_size_ := VERTEX_SIZE C;
     encode_bitset_ := replicate (Z.to_nat (VERTEX_SIZE C + 1)) (BitSetSIMD_new (PER_ENCODE_BIT_SIZE C)) |}.

Definition SIMDEncode_sized (bit_size vertex_size : Z) : SIMDEncode :=
  {| encode_size_ := u32 (vertex_size + 1);
     encode_bitset_ := replicate (Z.to_nat (vertex_size + 1)) (BitSetSIMD_new bit_size) |}.

(** [~SIMDEncode()]: the vectors deleted. *)
Definition SIMDEncode_delete (s : SIMDEncode) : option (list (list Z)) :=
  mapM (fun i => zget (encode_bitset_ s) i) (seqZ 0 (encode_size_ s + 1)).

Definition SIMDEncode_GetBytesSize (s : SIMDEncode) : option Z :=
  d ← zget (encode_bitset_ s) 0; Some (u32 (BitSetSIMD_GetBitSize d - 1)).

(** The four serialisers are those of [EncodeBitSet], word for word. *)
Definition SIMDEncode_EncodePersistent : Config -> list (list Z) -> option (list (list Z)) :=
  EncodeBitSet_EncodePersistent.
Definition SIMDEncode_LoadFromDb : list (list Z) -> list (list Z) -> option (list (list Z)) :=
  EncodeBitSet_LoadFromDb.
Definition SIMDEncode_EncodePersistent_dir : Config -> list (list Z) -> list (list Z) -> bool -> option (list (list Z)) :=
  EncodeBitSet_EncodePersistent_dir.
Definition SIMDEncode_LoadFromDb_dir :
  list (list Z) -> list (list Z) -> list (list Z) -> bool -> option (list (list Z) * list (list Z)) :=
  EncodeBitSet_LoadFromDb_dir.

(** * DeltaSIMDEncode *)

(** [0.35] as a [double]. *)
Definition d_0_35 : double := S754_finite false 6305039478318694 (-54).

Record BlockInfo := {
  bi_begin : Z;
  bi_size : Z;
  bi_type : BlockType
}.

(** What the versions of the encoding add to the codec's methods:
    [encode_byte_len] of a whole list, and in [DynamicChoose] the bytes that the
    element taken last adds to a block of the new size ([pre_val] is V1's). *)
Class DeltaVariant := {
  whole_bytes : list Z -> list DeltaInfo -> option Z;
  grow : list Z -> list DeltaInfo -> Z -> Z -> Z -> option (Z * Z)
}.

(** V0: [delta_infos.back().total_bits + (delta_infos.size() + 3) / 4]. *)
Definition variant_V0 : DeltaVariant := {|
  whole_bytes _ infos :=
    last ← zget infos (Z.of_nat (length infos) - 1);
    Some (u32 (total_bits last + (Z.of_nat (length infos) + 3) / 4));
  grow _ infos size i pre_val := info ← zget infos (size + i - 1); Some (delta_bits info, pre_val)
|}.

Definition variant_V1 : DeltaVariant := {|
  whole_bytes neighbors _ := Some (DeltaSIMDCodec_GetRequiredBytes (H := DeltaSIMDCodecV1) neighbors);
  grow neighbors infos size i pre_val :=
    x ← zget neighbors (size + i - 1);
    if size mod 4 =? 1 then info ← zget infos (size + i - 1); Some (val_bits info, x)
    else Some (DeltaSIMDCodec_GetOneEncodeLength (u32 (x - pre_val)), pre_val)
|}.

Definition variant_V2 : DeltaVariant := {|
  whole_bytes neighbors _ := Some (DeltaSIMDCodec_GetRequiredBytes (H := DeltaSIMDCodecV2) neighbors);
  grow _ infos size i pre_val :=
    info ← zget infos (size + i - 1);
    Some (if size mod 4 =? 1 then val_bits info else delta_bits info, pre_val)
|}.

Section DeltaSIMDEncode.
Context (C : Config) (heap : Z -> Z) (per_encode_bits_num_ : Z).
Context `{codec_ : CodecOps}.

Definition max_bytes_len_ : Z := u32 (per_encode_bits_num_ / 8 - 1).

(** The bytes at and after a vector. *)
Definition vec_mem (d : list Z) (a : Z) : Z := match zget d a with Some b => b | None => heap a end.

Definition DeltaSIMDEncode_Hash (vertex_id hash_begin : Z) : option Z :=
  m ← umod vertex_id (u32 (per_encode_bits_num_ - hash_begin)); Some (u32 (m + hash_begin)).

Definition DeltaSIMDEncode_GetBlockModel (encode : list Z) : option BlockType :=
  second ← BitSetSIMD_GetSecondBit encode;
  if (second : bool) then Some RightMost
  else third ← BitSetSIMD_GetThridBit encode; Some (if (third : bool) then Middle else LeftMost).

Definition DeltaSIMDEncode_GetBlockModel_v (E : list (list Z)) (vertex : Z) : option BlockType :=
  encode ← zget E vertex;
  b1 ← BitSetSIMD_IsOne encode 1;
  if (b1 : bool) then Some RightMost
  else b2 ← BitSetSIMD_IsOne encode 2; Some (if negb b2 then LeftMost else Middle).

Definition DeltaSIMDEncode_SetBlockModel (bitset : list Z) (type : BlockType) : option (list Z) :=
  match type with
  | LeftMost => BitSetSIMD_BlockSet bitset 1 2 0
  | FullHash | Middle => BitSetSIMD_BlockSet bitset 1 2 1
  | RightMost => BitSetSIMD_BlockSet bitset 1 2 3
  end.

Definition DeltaSIMDEncode_SetEncodeSize (encode : list Z) (val : Z) : option (list Z) :=
  BitSetSIMD_BlockSet encode 3 5 val.

Definition DeltaSIMDEncode_GetEncodeSize (encode : list Z) : option Z := BitSetSIMD_BlockGet encode 3 5.

Definition DeltaSIMDEncode_GetEncodeSize_v (E : list (list Z)) (vertex : Z) : option Z :=
  encode ← zget E vertex; BitSetSIMD_BlockGet encode 3 5.

Definition DeltaSIMDEncode_IsDecodable (E : list (list Z)) (vertex : Z) : option bool :=
  encode ← zget E vertex; BitSetSIMD_GetFirstBit encode.

(** ** Tests *)

Definition DeltaSIMDEncode_FindDecodable (encode : list Z) (vertex : Z) : option PairType :=
  size ← BitSetSIMD_GetEncodeSize encode;
  if size =? 0 then Some NonNeighbor
  else
    res ← codec_FindWithCount (vec_mem encode) 1 size vertex;
    Some (if FindRes_val res =? 0 then Neighbor else NonNeighbor).

Definition DeltaSIMDEncode_FindNonDecodable (encode : list Z) (vertex : Z) : option PairType :=
  in_size ← BitSetSIMD_GetEncodeSize encode;
  if in_size =? 0 then
    h ← DeltaSIMDEncode_Hash vertex 8;
    one ← BitSetSIMD_IsOne encode h;
    Some (if (one : bool) then Uncertain else NonNeighbor)
  else
    type ← DeltaSIMDEncode_GetBlockModel encode;
    res ← codec_FindWithCount (vec_mem encode) 1 in_size vertex;
    if FindRes_val res =? 0 then Some Neighbor
    else if negb (Z.land (FindRes_val res) (BlockType_val type) =? 0) then Some NonNeighbor
    else
      len ← DeltaSIMDCodec_GetEncodeLength (vec_mem encode) 1 in_size;
      let hash_begin := u32 ((1 + len) * 8) in
      if hash_begin =? per_encode_bits_num_ then Some Uncertain
      else
        h ← DeltaSIMDEncode_Hash vertex hash_begin;
        one ← BitSetSIMD_IsOne encode h;
        Some (if (one : bool) then Uncertain else NonNeighbor).

Definition DeltaSIMDEncode_NonNeighborTest (E : list (list Z)) (vertex1 vertex2 : Z) : option PairType :=
  decodable ← DeltaSIMDEncode_IsDecodable E vertex1;
  encode ← zget E vertex1;
  if (decodable : bool) then DeltaSIMDEncode_FindDecodable encode vertex2
  else DeltaSIMDEncode_FindNonDecodable encode vertex2.

(** [NEpairTest], with UNDIRECTED = 1. *)
Definition DeltaSIMDEncode_NEpairTest (E : list (list Z)) (vertex1 vertex2 : Z) : option PairType :=
  e1 ← zget E vertex1;
  e2 ← zget E vertex2;
  dec1 ← DeltaSIMDEncode_IsDecodable E vertex1;
  dec2 ← DeltaSIMDEncode_IsDecodable E vertex2;
  if (dec1 : bool) then
    if (dec2 : bool) then
      r1 ← DeltaSIMDEncode_FindDecodable e1 vertex2;
      r2 ← DeltaSIMDEncode_FindDecodable e2 vertex1;
      Some (PairType_min r1 r2)
    else DeltaSIMDEncode_FindDecodable e1 vertex2
  else if (dec2 : bool) then DeltaSIMDEncode_FindDecodable e2 vertex1
  else
    r1 ← DeltaSIMDEncode_FindNonDecodable e1 vertex2;
    r2 ← DeltaSIMDEncode_FindNonDecodable e2 vertex1;
    Some (PairType_min r1 r2).

(** [NEpairTest], with UNDIRECTED = 0. *)
Definition DeltaSIMDEncode_NEpairTest_directed : list (list Z) -> Z -> Z -> option PairType :=
  DeltaSIMDEncode_NonNeighborTest.

(** ** Choosing a block *)

(** The slots that [neighbors] with [keep] set occupy, up to [max_hash_count]
    and one more. *)
Fixpoint count_hash_loop (keep : Z -> bool) (hash_bits max_hash_count : Z) (ns : list Z) (i : Z)
    (hash_val : list bool) (hash_count : Z) : option Z :=
  if hash_count <=? max_hash_count then
    match ns with
    | [] => Some hash_count
    | x :: ns' =>
        if keep i then
          hash_now ← umod x hash_bits;
          taken ← zget hash_val hash_now;
          if negb (taken : bool) then
            hash_val ← zset hash_val hash_now true;
            count_hash_loop keep hash_bits max_hash_count ns' (i + 1) hash_val (hash_count + 1)
          else count_hash_loop keep hash_bits max_hash_count ns' (i + 1) hash_val hash_count
        else count_hash_loop keep hash_bits max_hash_count ns' (i + 1) hash_val hash_count
    end
  else Some hash_count.

Definition count_hash (neighbors : list Z) (keep : Z -> bool) (hash_bits max_hash_count : Z) : option Z :=
  count_hash_loop keep hash_bits max_hash_count neighbors 0 (replicate (Z.to_nat hash_bits) false) 0.

(** [FullHashScoreCount]: whether the score was raised, and the score. *)
Definition DeltaSIMDEncode_FullHashScoreCount (neighbors : list Z) (hash_bits score : Z) : option (bool * Z) :=
  q ← udiv (u32 (score * hash_bits)) (VERTEX_SIZE C);
  let max_hash_count := u32 (hash_bits - q) in
  hash_count ← count_hash neighbors (fun _ => true) hash_bits max_hash_count;
  if hash_count <=? max_hash_count then
    score ← udiv (u32 (VERTEX_SIZE C * u32 (hash_bits - hash_count))) hash_bits;
    Some (true, score)
  else Some (false, score).

(** [ScoreCount]. *)
Definition DeltaSIMDEncode_ScoreCount (block_info : BlockInfo) (neighbors : list Z) (hash_bits score : Z)
  : option (bool * Z) :=
  let first_idx := bi_begin block_info in
  let last_idx := bi_begin block_info + bi_size block_info - 1 in
  current_score ← match bi_type block_info with
                  | RightMost => first ← zget neighbors first_idx; Some (u32 (VERTEX_SIZE C - first + 1))
                  | LeftMost => zget neighbors last_idx
                  | _ => last ← zget neighbors last_idx; first ← zget neighbors first_idx;
                         Some (u32 (last - first + 1))
                  end;
  if hash_bits =? 0 then Some (if score <? current_score then (true, current_score) else (false, score))
  else
    max_hash_count ← (if score <=? current_score then Some hash_bits
                      else q ← udiv (u32 (u32 (score - current_score) * hash_bits)) (u32 (VERTEX_SIZE C - current_score));
                           Some (u32 (hash_bits - q)));
    let left := double_of_Z (Z.of_nat (length neighbors) - bi_size block_info) in
    match SFcompare (double_mul left d_0_35) (double_of_Z max_hash_count) with
    | Some Gt => Some (false, score)
    | _ =>
        hash_count ← count_hash neighbors (fun i => negb ((first_idx <=? i) && (i <=? last_idx))) hash_bits max_hash_count;
        if hash_count <=? max_hash_count then
          q ← udiv (u32 (u32 (VERTEX_SIZE C - current_score) * u32 (hash_bits - hash_count))) hash_bits;
          Some (true, u32 (current_score + q))
        else Some (false, score)
    end.

(** [ConstructEncode]. *)
Definition DeltaSIMDEncode_ConstructEncode (block_info : BlockInfo) (neighbors encode : list Z) : option (list Z) :=
  let last_idx := bi_begin block_info + bi_size block_info - 1 in
  encode ← DeltaSIMDEncode_SetBlockModel encode (bi_type block_info);
  r ← (if bool_decide (bi_type block_info = FullHash) then Some (encode, 0)
       else
         encode ← DeltaSIMDEncode_SetEncodeSize encode (bi_size block_info);
         block ← (if Z.of_nat (length neighbors) <? bi_begin block_info + bi_size block_info then None
                  else Some (take (Z.to_nat (bi_size block_info)) (drop (Z.to_nat (bi_begin block_info)) neighbors)));
         codec_EncodeArray block encode 1);
  let '(encode, out_bytes_length) := r in
  let hash_begin := u32 ((out_bytes_length + 1) * 8) in
  if hash_begin =? per_encode_bits_num_ then Some encode
  else
    foldM (fun '(i, x) encode =>
             if (bi_begin block_info <=? i) && (i <=? last_idx) then Some encode
             else h ← DeltaSIMDEncode_Hash x hash_begin; BitSetSIMD_SetOne encode h)
          (zip (seqZ 0 (Z.of_nat (length neighbors))) neighbors) encode.

(** The block elements counted in [best_block]: a running best score and block. *)
Definition grow_block (i size : Z) (type : BlockType) : BlockInfo :=
  {| bi_begin := i; bi_size := size; bi_type := type |}.

Section versions.
Context `{DeltaVariant}.

(** The [while] loop of [DynamicChoose]. A turn enlarges the block, which stays
    within the list, so the list's length is fuel enough. *)
Fixpoint DynamicChoose_while (fuel : nat) (neighbors : list Z) (infos : list DeltaInfo) (i size : Z)
    (type : BlockType) (pre_bytes pre_val score : Z) (best : BlockInfo) : option (Z * BlockInfo) :=
  if u32 (pre_bytes + (size + 3) / 4) <=? max_bytes_len_ then
    match fuel with
    | O => None
    | S fuel =>
        let type := if size + i =? Z.of_nat (length neighbors) then RightMost else type in
        let current_block := grow_block i size type in
        r ← DeltaSIMDEncode_ScoreCount current_block neighbors
              (u32 ((max_bytes_len_ - pre_bytes - (size + 3) / 4) * 8)) score;
        let '(better, score) := r in
        let best := if (better : bool) then current_block else best in
        if bool_decide (type = RightMost) then Some (score, best)
        else
          let size := size + 1 in
          r ← grow neighbors infos size i pre_val;
          let '(bytes, pre_val) := r in
          DynamicChoose_while fuel neighbors infos i size type (u32 (pre_bytes + bytes)) pre_val score best
    end
  else Some (score, best).

(** The body of the [for] loop: the blocks that begin at [i]. *)
Definition DynamicChoose_begin (neighbors : list Z) (infos : list DeltaInfo) (i : Z) (st : Z * BlockInfo)
  : option (Z * BlockInfo) :=
  let '(score, best) := st in
  let n := Z.of_nat (length neighbors) in
  pre_val ← zget neighbors i;
  info ← zget infos i;
  let pre_bytes := u32 (val_bits info) in
  r ← (if i =? 0 then Some (1, LeftMost, pre_bytes, pre_val)
       else if negb (i =? n - 1) then
         r ← grow neighbors infos 2 i pre_val;
         let '(bytes, pre_val) := r in
         Some (2, Middle, u32 (pre_bytes + bytes), pre_val)
       else Some (1, RightMost, pre_bytes, pre_val));
  let '(size, type, pre_bytes, pre_val) := r in
  DynamicChoose_while (length neighbors) neighbors infos i size type pre_bytes pre_val score best.

Definition DeltaSIMDEncode_DynamicChoose (encode neighbors : list Z) (infos : list DeltaInfo) : option (list Z) :=
  let best := {| bi_begin := 0; bi_size := 0; bi_type := FullHash |} in
  r ← DeltaSIMDEncode_FullHashScoreCount neighbors (u32 (max_bytes_len_ * 8)) 0;
  st ← for_loop (length neighbors) 0 (DynamicChoose_begin neighbors infos) (r.2, best);
  DeltaSIMDEncode_ConstructEncode st.2 neighbors encode.

(** [EncodeVertex] of V0, V1 and V2. *)
Definition DeltaSIMDEncode_EncodeVertex (E : list (list Z)) (vertex_id : Z) (neighbors : list Z)
  : option (list (list Z)) :=
  encode ← zget E vertex_id;
  encode ← (if Z.of_nat (length neighbors) =? 0 then BitSetSIMD_SetOne encode 0
            else
              let infos := DeltaSIMDCodec_ParseEncode neighbors in
              encode_byte_len ← whole_bytes neighbors infos;
              if encode_byte_len <=? max_bytes_len_ then
                encode ← BitSetSIMD_SetOne encode 0;
                encode ← DeltaSIMDEncode_SetEncodeSize encode (Z.of_nat (length neighbors));
                r ← codec_EncodeArray neighbors encode 1;
                Some r.1
              else DeltaSIMDEncode_DynamicChoose encode neighbors infos);
  zset E vertex_id encode.

(** [InsertPair] of V0, V1 and V2 has an empty body. *)
Definition DeltaSIMDEncode_InsertPair (E : list (list Z)) (vertex1 vertex2 : Z) : list (list Z) := E.
End versions.

(** * DeltaSIMDEncodeV3 *)

Section V3.
Context (db : Z -> list Z).

(** The [while] loop of V3's [DynamicChoose]; [slot_array] keeps one
    [HashCount] per number of free bits. *)
Fixpoint V3_DynamicChoose_while (fuel : nat) (neighbors : list Z) (i size : Z) (type : BlockType)
    (slot_array : list (option HashCount)) (score : Z) (best : BlockInfo)
  : option (list (option HashCount) * Z * BlockInfo) :=
  match fuel with
  | O => None
  | S fuel =>
      bytes ← codec_GetRequiredBytes_block neighbors i size;
      let byte_len := u32 (bytes + (size + 3) / 4) in
      if max_bytes_len_ <? byte_len then Some (slot_array, score, best)
      else
        let type := if size + i =? Z.of_nat (length neighbors) then RightMost else type in
        let slot_size := s32 ((max_bytes_len_ - byte_len) * 8) in
        slot ← zget slot_array slot_size;
        h ← (match slot with
             | Some h => Some h
             | None => HashCount_Construct (HashCount_sized 0 slot_size) neighbors
             end);
        slot_array ← zset slot_array slot_size (Some h);
        current_score ← HashCount_GetVal C h neighbors i size type;
        let '(score, best) := if score <? current_score then (current_score, grow_block i size type)
                              else (score, best) in
        if bool_decide (type = RightMost) then Some (slot_array, score, best)
        else V3_DynamicChoose_while fuel neighbors i (size + 1) type slot_array score best
  end.

Definition V3_DynamicChoose_begin (neighbors : list Z) (i : Z) (st : list (option HashCount) * Z * BlockInfo)
  : option (list (option HashCount) * Z * BlockInfo) :=
  let '(slot_array, score, best) := st in
  let n := Z.of_nat (length neighbors) in
  let '(size, type) := if i =? 0 then (1, LeftMost) else if negb (i =? n - 1) then (2, Middle) else (1, RightMost) in
  V3_DynamicChoose_while (S (length neighbors)) neighbors i size type slot_array score best.

(** [DynamicChoose] of V3, with THRESHOLD = 0. *)
Definition DeltaSIMDEncodeV3_DynamicChoose (encode neighbors : list Z) : option (list Z) :=
  let best := {| bi_begin := 0; bi_size := 0; bi_type := FullHash |} in
  r ← DeltaSIMDEncode_FullHashScoreCount neighbors (u32 (max_bytes_len_ * 8)) 0;
  st ← for_loop (length neighbors) 0 (V3_DynamicChoose_begin neighbors)
         (replicate (Z.to_nat (PER_ENCODE_BIT_SIZE C)) None, r.2, best);
  DeltaSIMDEncode_ConstructEncode st.2 neighbors encode.

(** [EncodeVertex] of V3: the empty list does not return early, and the announced
    size goes through [SetEncodeSize] before it is compared. *)
Definition DeltaSIMDEncodeV3_EncodeVertex (E : list (list Z)) (vertex_id : Z) (neighbors : list Z)
  : option (list (list Z)) :=
  encode ← zget E vertex_id;
  encode ← (if Z.of_nat (length neighbors) =? 0 then BitSetSIMD_SetOne encode 0 else Some encode);
  encode_byte_len ← codec_GetRequiredBytes neighbors;
  encode ← DeltaSIMDEncode_SetEncodeSize encode encode_byte_len;
  encode ← (if encode_byte_len <=? max_bytes_len_ then
              encode ← BitSetSIMD_SetOne encode 0;
              encode ← DeltaSIMDEncode_SetEncodeSize encode (Z.of_nat (length neighbors));
              r ← codec_EncodeArray neighbors encode 1;
              Some r.1
            else DeltaSIMDEncodeV3_DynamicChoose encode neighbors);
  zset E vertex_id encode.

(** [GetBlockInteger] and both branches of [GetAllNeighbors] query the
    database. *)
Definition DeltaSIMDEncodeV3_GetBlockInteger (vertex : Z) : list Z := Encode_DbQuery db vertex.

Definition DeltaSIMDEncodeV3_GetAllNeighbors (E : list (list Z)) (vertex : Z) : option (list Z) :=
  encode ← zget E vertex;
  one ← BitSetSIMD_IsOne encode 0;
  Some (if (one : bool) then DeltaSIMDEncodeV3_GetBlockInteger vertex else Encode_DbQuery db vertex).

Definition DeltaSIMDEncodeV3_InsertPair (E : list (list Z)) (vertex1 vertex2 : Z) : option (list (list Z)) :=
  t ← DeltaSIMDEncode_NEpairTest E vertex1 vertex2;
  if bool_decide (t = Uncertain) then Some E
  else
    type1 ← DeltaSIMDEncode_IsDecodable E vertex1;
    type2 ← DeltaSIMDEncode_IsDecodable E vertex2;
    let '(vertex1, vertex2, type1) :=
      if negb type1 && type2 then (vertex2, vertex1, type2) else (vertex1, vertex2, type1) in
    neighbor1 ← DeltaSIMDEncodeV3_GetAllNeighbors E vertex1;
    if type1 then DeltaSIMDEncodeV3_EncodeVertex E vertex1 (neighbor1 ++ [vertex2])
    else
      neighbor2 ← DeltaSIMDEncodeV3_GetAllNeighbors E vertex2;
      DeltaSIMDEncodeV3_EncodeVertex E vertex2 (neighbor2 ++ [vertex1]).

Definition DeltaSIMDEncodeV3_RemoveNeighbor (E : list (list Z)) (vertex1 vertex2 : Z) : option (list (list Z)) :=
  neighbors ← DeltaSIMDEncodeV3_GetAllNeighbors E vertex1;
  DeltaSIMDEncodeV3_EncodeVertex E vertex1 (filter (fun x => x <> vertex2) neighbors).

Definition DeltaSIMDEncodeV3_DeletePair (E : list (list Z)) (vertex1 vertex2 : Z) : option (list (list Z)) :=
  t ← DeltaSIMDEncode_NonNeighborTest E vertex1 vertex2;
  E ← (if bool_decide (t <> NonNeighbor) then DeltaSIMDEncodeV3_RemoveNeighbor E vertex1 vertex2 else Some E);
  t ← DeltaSIMDEncode_NonNeighborTest E vertex2 vertex1;
  if bool_decide (t = NonNeighbor) then DeltaSIMDEncodeV3_RemoveNeighbor E vertex2 vertex1 else Some E.
End V3.
End DeltaSIMDEncode.

(** * The header *)

Lemma zget_head {A} (h : A) t : zget (h :: t) 0 = Some h.
Proof. unfold zget. cbn [length]. rewrite (proj2 (Z.ltb_lt 0 _)) by lia. done. Qed.

Lemma zset_head {A} (h x : A) t : zset (h :: t) 0 x = Some (x :: t).
Proof. unfold zset. cbn [length]. rewrite (proj2 (Z.ltb_lt 0 _)) by lia. done. Qed.

Lemma SetOne_head h t : BitSetSIMD_SetOne (h :: t) 0 = Some (u8 (Z.lor h 128) :: t).
Proof. unfold BitSetSIMD_SetOne. change (DIVIDE8 0) with 0. rewrite zget_head. bind_step. apply zset_head. Qed.

Lemma SetEncodeSize_head h t v :
  DeltaSIMDEncode_SetEncodeSize (h :: t) v = Some (u8 (Z.lor (Z.land h 0xE0) (u32 (Z.shiftl v 0))) :: t).
Proof.
  unfold DeltaSIMDEncode_SetEncodeSize, BitSetSIMD_BlockSet.
  change (u8 (DIVIDE8 3)) with 0. change (u64 (3 + 5 - 1)) with 7. cbv zeta.
  change (0 =? 7 / 8) with true. change (tab2 ZERO_BLOCK_MASK (MOD8 3) 5) with (Some 0xE0). cbn [negb].
  bind_step. rewrite zget_head. bind_step. apply zset_head.
Qed.

Definition model_code (type : BlockType) : Z :=
  match type with LeftMost => 0 | FullHash | Middle => 1 | RightMost => 3 end.

Lemma SetBlockModel_head h t type :
  DeltaSIMDEncode_SetBlockModel (h :: t) type =
  Some (u8 (Z.lor (Z.land h 0x9F) (u32 (Z.shiftl (model_code type) 5))) :: t).
Proof.
  assert (forall m, BitSetSIMD_BlockSet (h :: t) 1 2 m = Some (u8 (Z.lor (Z.land h 0x9F) (u32 (Z.shiftl m 5))) :: t)) as H.
  { intros m. unfold BitSetSIMD_BlockSet. change (u8 (DIVIDE8 1)) with 0. change (u64 (1 + 2 - 1)) with 2.
    cbv zeta. change (0 =? 2 / 8) with true. change (tab2 ZERO_BLOCK_MASK (MOD8 1) 2) with (Some 0x9F).
    cbn [negb]. bind_step. rewrite zget_head. bind_step. apply zset_head. }
  destruct type; apply H.
Qed.

(** The header of a vector: flag, model and size. *)
Definition header (dec : bool) (m size : Z) : Z := (if dec then 128 else 0) + 32 * m + size.

Definition header_ok (h : Z) : bool :=
  let m := (h / 32) mod 4 in
  bool_decide (BitSetSIMD_GetFirstBit [h] = Some (128 <=? h)) &&
  bool_decide (BitSetSIMD_GetEncodeSize [h] = Some (h mod 32)) &&
  bool_decide (DeltaSIMDEncode_GetBlockModel [h] =
    Some (if 2 <=? m then RightMost else if m =? 1 then Middle else LeftMost)).

Lemma header_bits h t :
  BitSetSIMD_GetFirstBit (h :: t) = BitSetSIMD_GetFirstBit [h] /\
  BitSetSIMD_GetEncodeSize (h :: t) = BitSetSIMD_GetEncodeSize [h] /\
  DeltaSIMDEncode_GetBlockModel (h :: t) = DeltaSIMDEncode_GetBlockModel [h].
Proof.
  unfold DeltaSIMDEncode_GetBlockModel, BitSetSIMD_GetFirstBit, BitSetSIMD_GetSecondBit,
    BitSetSIMD_GetThridBit, BitSetSIMD_GetEncodeSize. by rewrite !zget_head.
Qed.

Lemma header_spec dec m size t :
  0 <= m < 4 -> 0 <= size < 32 ->
  BitSetSIMD_GetFirstBit (header dec m size :: t) = Some dec /\
  BitSetSIMD_GetEncodeSize (header dec m size :: t) = Some size /\
  DeltaSIMDEncode_GetBlockModel (header dec m size :: t) =
    Some (if 2 <=? m then RightMost else if m =? 1 then Middle else LeftMost).
Proof.
  intros Hm Hs. destruct (header_bits (header dec m size) t) as (-> & -> & ->).
  assert (0 <= header dec m size < 256) as Hh by (unfold header; destruct dec; lia).
  assert (header_ok (header dec m size) = true) as H by (apply (forall_below 256 header_ok); [by vm_compute|done]).
  unfold header_ok in H. rewrite !andb_true_iff, !bool_decide_eq_true in H. destruct H as [[-> ->] ->].
  assert (header dec m size mod 32 = size) as ->.
  { unfold header. replace (_ + size) with (size + ((if dec then 4 else 0) + m) * 32) by (destruct dec; lia).
    rewrite Z.mod_add by lia. apply Z.mod_small. lia. }
  assert ((header dec m size / 32) mod 4 = m) as ->.
  { unfold header. replace (_ + size) with (size + ((if dec then 4 else 0) + m) * 32) by (destruct dec; lia).
    rewrite Z.div_add, Z.div_small by lia. destruct dec.
    - replace (0 + (4 + m)) with (m + 1 * 4) by lia. rewrite Z.mod_add by lia. apply Z.mod_small. lia.
    - apply Z.mod_small. lia. }
  split; [|done]. f_equal. unfold header. destruct dec; [apply Z.leb_le|apply Z.leb_gt]; lia.
Qed.

(** Setting a field of the header. *)
Definition set_size_ok (h v : Z) : bool := u8 (Z.lor (Z.land h 0xE0) (u32 (Z.shiftl v 0))) =? 32 * (h / 32) + v.

Lemma set_size h v : 0 <= h < 256 -> 0 <= v < 32 -> u8 (Z.lor (Z.land h 0xE0) (u32 (Z.shiftl v 0))) = 32 * (h / 32) + v.
Proof.
  intros Hh Hv. apply Z.eqb_eq. change (set_size_ok h v = true).
  apply (forall_below 32 (set_size_ok h)); [|done]. clear v Hv.
  apply (forall_below 256 (fun h => forallb (set_size_ok h) (seqZ 0 32))); [by vm_compute|done].
Qed.

(** * Codes of neighbor lists *)

(** A fold over the indexed elements outside an interval of indices. *)
Lemma foldM_zip {S} (f : Z -> S -> option S) (skip : Z -> bool) l o s (b : bool) :
  (forall i, o <= i < o + Z.of_nat (length l) -> skip i = b) ->
  foldM (fun '(i, x) s => if skip i then Some s else f x s) (zip (seqZ o (Z.of_nat (length l))) l) s =
  if b then Some s else foldM f l s.
Proof.
  revert o s. induction l as [|x l IH]; intros o s H; [by destruct b|].
  cbn [length]. rewrite seqZ_cons by lia. cbn [zip zip_with foldM].
  replace (Z.pred (Z.of_nat (Datatypes.S (length l)))) with (Z.of_nat (length l)) by lia.
  rewrite (H o) by (cbn [length]; lia). destruct b; bind_step.
  - rewrite (IH (Z.succ o)); [done|]. intros i Hi. apply H. cbn [length]. lia.
  - destruct (f x s) as [s'|]; [|done]. bind_step. rewrite (IH (Z.succ o)); [done|]. intros i Hi. apply H. cbn [length]. lia.
Qed.

Lemma foldM_outside {S} (f : Z -> S -> option S) A blk B s :
  foldM (fun '(i, x) s =>
           if (Z.of_nat (length A) <=? i) && (i <=? Z.of_nat (length A) + Z.of_nat (length blk) - 1) then Some s else f x s)
    (zip (seqZ 0 (Z.of_nat (length (A ++ blk ++ B)))) (A ++ blk ++ B)) s = foldM f (A ++ B) s.
Proof.
  rewrite !length_app, !Nat2Z.inj_add, !seqZ_app by lia.
  rewrite zip_with_app by (rewrite length_seqZ; lia). rewrite zip_with_app by (rewrite length_seqZ; lia).
  rewrite foldM_app, (foldM_app f A B).
  rewrite (foldM_zip f _ A 0 s false) by (intros i Hi; apply andb_false_iff; left; apply Z.leb_gt; lia).
  destruct (foldM f A s) as [s'|]; [|done]. bind_step. rewrite foldM_app.
  rewrite (foldM_zip f _ blk _ s' true) by (intros i Hi; apply andb_true_iff; split; apply Z.leb_le; lia).
  bind_step. apply (foldM_zip f _ B _ s' false). intros i Hi. apply andb_false_iff. right. apply Z.leb_gt. lia.
Qed.

(** A block of a neighbor list and the elements around it. *)
Definition split_of (N : list Z) (b : BlockInfo) (A blk B : list Z) : Prop :=
  N = A ++ blk ++ B /\ Z.of_nat (length A) = bi_begin b /\ Z.of_nat (length blk) = bi_size b /\
  match bi_type b with FullHash => blk = [] /\ A = [] | LeftMost => A = [] | RightMost => B = [] | Middle => True end.

(** The outcome of the search against the block's type. *)
Lemma block_verdict N b A blk B v :
  StronglySorted Z.lt N -> split_of N b A blk B -> bi_type b <> FullHash -> blk <> [] ->
  let res := FindRes_val (find_sorted blk v) in
  let type := if 2 <=? model_code (bi_type b) then RightMost
              else if model_code (bi_type b) =? 1 then Middle else LeftMost in
  if res =? 0 then v ∈ N
  else if negb (Z.land res (BlockType_val type) =? 0) then v ∉ N
  else v ∈ N -> v ∈ A ++ B.
Proof.
  intros Hs (-> & _ & _ & Ht) Hf Hne. cbv zeta.
  pose proof (StronglySorted_app_1_l _ _ _ (StronglySorted_app_1_r _ _ _ Hs)) as Hsb.
  pose proof (find_sorted_spec blk v Hsb Hne) as H.
  assert (forall x y, x ∈ A -> y ∈ blk -> x < y) as HA.
  { intros x y Hx Hy. apply (StronglySorted_app_1_elem_of _ _ _ x y Hs); [done|]. apply elem_of_app. auto. }
  assert (forall x y, x ∈ blk -> y ∈ B -> x < y) as HB.
  { intros x y Hx Hy. apply StronglySorted_app_1_r in Hs. by apply (StronglySorted_app_1_elem_of _ _ _ x y Hs). }
  assert (exists y, y ∈ blk) as [y Hy] by (destruct blk as [|y ?]; [done|exists y; apply elem_of_cons; auto]).
  assert (v ∈ A ++ blk ++ B <-> v ∈ A \/ v ∈ blk \/ v ∈ B) as HN by (rewrite !elem_of_app; done).
  assert (v ∈ A ++ B <-> v ∈ A \/ v ∈ B) as HAB by apply elem_of_app.
  destruct (find_sorted blk v); cbn [FindRes_val]; rewrite ?Z.eqb_refl, ?HN, ?HAB.
  - simpl. auto.
  - assert (v ∉ blk) by (intros Hv%H; lia).
    assert (v ∉ B) by (intros Hv; pose proof (HB y v Hy Hv); specialize (H y Hy); lia).
    destruct (bi_type b); try done; simpl; [|tauto..]. subst A.
    pose proof (not_elem_of_nil v). tauto.
  - assert (v ∉ blk) by (intros Hv%H; lia).
    assert (v ∉ A) by (intros Hv; pose proof (HA v y Hv Hy); specialize (H y Hy); lia).
    destruct (bi_type b); try done; simpl; [tauto| |tauto]. subst B.
    pose proof (not_elem_of_nil v). tauto.
  - destruct H as (Hn & (x & Hx & Hxv) & (z & Hz & Hvz)).
    assert (v ∉ A) by (intros Hv; pose proof (HA v x Hv Hx); lia).
    assert (v ∉ B) by (intros Hv; pose proof (HB z v Hz Hv); lia).
    destruct (bi_type b); try done; simpl; tauto.
Qed.

Lemma find_sorted_exist l v :
  StronglySorted Z.lt l -> l <> [] -> (FindRes_val (find_sorted l v) =? 0) = bool_decide (v ∈ l).
Proof.
  intros Hs Hne. pose proof (find_sorted_spec l v Hs Hne) as H.
  destruct (find_sorted l v); symmetry; [by apply bool_decide_eq_true|apply bool_decide_eq_false..].
  - intros Hv%H. lia.
  - intros Hv%H. lia.
  - apply H.
Qed.

Section codes.
Context (heap : Z -> Z) (k : Z) (Hk : 1 <= k <= 10).
Context {codec_ : CodecOps}.
Notation per := (32 * k).
Notation max_bytes := (4 * k - 1).

Lemma max_bytes_eq : max_bytes_len_ per = max_bytes.
Proof.
  unfold max_bytes_len_. replace (per / 8) with (4 * k).
  - apply u32_small. lia.
  - apply (Z.div_unique_pos _ 8 (4 * k) 0); lia.
Qed.

Record shaped (d : list Z) (dec : bool) (m size : Z) (code : list Z) : Prop := {
  sh_bytes : bytes_ok d;
  sh_len : Z.of_nat (length d) = 4 * k;
  sh_head : exists t, d = header dec m size :: t;
  sh_m : 0 <= m < 4;
  sh_size : 0 <= size < 32;
  sh_code : forall j b, code !! j = Some b -> zget d (1 + Z.of_nat j) = Some b
}.

Lemma shaped_reads d dec m size code : shaped d dec m size code -> reads_mem (vec_mem heap d) 1 code.
Proof. intros Hd j b Hj. unfold vec_mem. by rewrite (sh_code _ _ _ _ _ Hd j b Hj). Qed.

Lemma shaped_header d dec m size code :
  shaped d dec m size code ->
  BitSetSIMD_GetFirstBit d = Some dec /\ BitSetSIMD_GetEncodeSize d = Some size /\
  DeltaSIMDEncode_GetBlockModel d = Some (if 2 <=? m then RightMost else if m =? 1 then Middle else LeftMost).
Proof. intros Hd. destruct (sh_head _ _ _ _ _ Hd) as [t ->]. apply header_spec; apply Hd. Qed.

(** A decodable code of [l]. *)
Definition full_code (d l : list Z) : Prop :=
  if decide (l = []) then exists m, shaped d true m 0 []
  else codable l /\ exists m code, codes codec_ l code /\ shaped d true m (Z.of_nat (length l)) code.

Lemma FindDecodable_spec d l v :
  full_code d l -> 0 <= v < 2 ^ 31 ->
  DeltaSIMDEncode_FindDecodable heap d v = Some (if bool_decide (v ∈ l) then Neighbor else NonNeighbor).
Proof.
  unfold full_code, DeltaSIMDEncode_FindDecodable. intros Hd Hv. destruct (decide (l = [])) as [->|Hne].
  - destruct Hd as (m & Hd). destruct (shaped_header _ _ _ _ _ Hd) as (_ & -> & _). bind_step.
    by rewrite (bool_decide_eq_false_2 (v ∈ [])) by apply not_elem_of_nil.
  - destruct Hd as ([Hs Hids _] & m & code & Hc & Hd). destruct (shaped_header _ _ _ _ _ Hd) as (_ & -> & _).
    bind_step. rewrite (proj2 (Z.eqb_neq _ 0)) by (destruct l; [done|cbn [length]; lia]).
    rewrite (codes_find _ _ _ Hc) by (done || by eapply shaped_reads). bind_step.
    by rewrite find_sorted_exist.
Qed.

Definition hash_of (v hb : Z) : Z := v mod (per - hb) + hb.
Definition hash_start (code : list Z) : Z := 8 * (Z.of_nat (length code) + 1).

(** A partial code of [N]. *)
Definition partial_code (d N : list Z) : Prop :=
  exists b A blk B code, split_of N b A blk B /\ shaped d false (model_code (bi_type b)) (bi_size b) code /\
    (bi_type b = FullHash /\ code = [] \/ bi_type b <> FullHash /\ codable blk /\ codes codec_ blk code) /\
    Z.of_nat (length code) <= max_bytes /\
    (hash_start code < per -> forall v, v ∈ A ++ B -> bit_at d (hash_of v (hash_start code)) = true).

Lemma hash_defined v hb :
  0 <= v < 2 ^ 31 -> 8 <= hb < per ->
  DeltaSIMDEncode_Hash per v hb = Some (hash_of v hb) /\ hb <= hash_of v hb < per.
Proof.
  intros Hv Hh. unfold DeltaSIMDEncode_Hash, hash_of, umod. rewrite (u32_small (per - hb)) by lia.
  rewrite (proj2 (Z.eqb_neq (per - hb) 0)) by lia. bind_step.
  pose proof (Z.mod_pos_bound v (per - hb) ltac:(lia)). rewrite u32_small by lia. split; [done|lia].
Qed.

(** The test against a partial code. *)
Lemma FindNonDecodable_spec d N v :
  StronglySorted Z.lt N -> partial_code d N -> 0 <= v < 2 ^ 31 ->
  exists t, DeltaSIMDEncode_FindNonDecodable heap per d v = Some t /\ answers t (v ∈ N).
Proof.
  intros Hs (b & A & blk & B & code & Hsplit & Hd & Hcase & Hfit & Hbits) Hv.
  destruct (shaped_header _ _ _ _ _ Hd) as (_ & Hsize & Hmodel). unfold DeltaSIMDEncode_FindNonDecodable.
  rewrite Hsize. bind_step. pose proof (sh_bytes _ _ _ _ _ Hd) as Hb. pose proof (sh_len _ _ _ _ _ Hd) as HL.
  assert (forall hb, 8 <= hb < per -> hb = hash_start code -> (v ∈ N -> v ∈ A ++ B) ->
    exists t, (h ← DeltaSIMDEncode_Hash per v hb; one ← BitSetSIMD_IsOne d h;
               Some (if (one : bool) then Uncertain else NonNeighbor)) = Some t /\ answers t (v ∈ N)) as Hhash.
  { intros hb Hhb -> HN. destruct (hash_defined v _ Hv Hhb) as [-> Hr]. bind_step.
    rewrite BitSetSIMD_IsOne_spec by (done || (unfold nbits; lia)). bind_step.
    destruct (bit_at d _) eqn:E; eexists; (split; [done|]); [done|]. intros Hin%HN.
    rewrite (Hbits (proj2 Hhb) v Hin) in E. done. }
  pose proof Hsplit as (HNs & HA & Hsz & Ht). destruct Hcase as [[Hf ->]|(Hf & Hcod & Hc)].
  { rewrite Hf in Ht. destruct Ht as [-> ->]. rewrite <- Hsz. cbn [length Z.of_nat Z.eqb].
    apply Hhash; [lia|done|]. by rewrite HNs. }
  rewrite (proj2 (Z.eqb_neq (bi_size b) 0))
    by (rewrite <- Hsz; destruct blk; [by destruct (codable_ne _ Hcod)|cbn [length]; lia]).
  rewrite Hmodel. bind_step. rewrite <- Hsz.
  rewrite (codes_find _ _ _ Hc) by (done || by eapply shaped_reads). bind_step.
  pose proof (block_verdict N b A blk B v Hs Hsplit Hf (codable_ne _ Hcod)) as Hver. cbv zeta in Hver.
  destruct (FindRes_val (find_sorted blk v) =? 0); [by eexists|].
  destruct (negb (Z.land (FindRes_val (find_sorted blk v)) _ =? 0)); [by eexists|].
  rewrite (codes_length _ _ _ Hc) by (by eapply shaped_reads). bind_step.
  rewrite u32_small by lia. unfold hash_start in Hhash.
  destruct (Z.eqb_spec ((1 + Z.of_nat (length code)) * 8) per) as [E|E]; [by eexists|].
  apply Hhash; [lia|lia|done].
Qed.

(** ** Construction, from a cleared vector *)

Notation fresh := (BitSetSIMD_new per).

Lemma fresh_eq : fresh = 0 :: replicate (Z.to_nat max_bytes) 0.
Proof.
  unfold BitSetSIMD_new. replace (per / 8) with (4 * k) by (apply (Z.div_unique_pos _ 8 (4 * k) 0); lia).
  replace (Z.to_nat (4 * k)) with (S (Z.to_nat max_bytes)) by lia. done.
Qed.

Lemma zeros_split (n : nat) (m : Z) :
  0 <= m <= Z.of_nat n -> replicate n 0 = replicate (Z.to_nat m) 0 ++ replicate (n - Z.to_nat m) 0.
Proof. intros Hm. rewrite <- replicate_add. f_equal. lia. Qed.

(** Header, code and zeros are a shaped vector. *)
Lemma shaped_code dec m size code :
  0 <= m < 4 -> 0 <= size < 32 -> Forall (fun x => 0 <= x < 2 ^ 8) code -> Z.of_nat (length code) <= max_bytes ->
  shaped (header dec m size :: code ++ replicate (Z.to_nat max_bytes - length code) 0) dec m size code.
Proof.
  intros Hm Hs Hc Hl. assert (0 <= header dec m size < 2 ^ 8) as Hh by (unfold header; destruct dec; lia).
  split; [split| | | | |].
  - constructor; [done|]. apply Forall_app. split; [done|]. apply Forall_replicate. lia.
  - cbn [length]. rewrite length_app, length_replicate. lia.
  - cbn [length]. rewrite length_app, length_replicate. lia.
  - eauto.
  - done.
  - done.
  - intros j b Hj. apply (zget_middle [header dec m size]). done.
Qed.

Lemma hash_others d m size code A B :
  shaped d false m size code -> Forall (fun x => 0 <= x < 2 ^ 31) (A ++ B) -> hash_start code < per ->
  exists d', foldM (fun x d => h ← DeltaSIMDEncode_Hash per x (hash_start code); BitSetSIMD_SetOne d h) (A ++ B) d = Some d' /\
    shaped d' false m size code /\ forall v, v ∈ A ++ B -> bit_at d' (hash_of v (hash_start code)) = true.
Proof.
  intros Hd Hids Hh. assert (8 <= hash_start code) as H8 by (unfold hash_start; lia).
  rewrite Forall_forall in Hids. pose proof (sh_bytes _ _ _ _ _ Hd) as Hb. pose proof (sh_len _ _ _ _ _ Hd) as HL.
  destruct (set_bits_spec (fun x => DeltaSIMDEncode_Hash per x (hash_start code)) (fun x => hash_of x (hash_start code))
              (A ++ B) d Hb) as (d' & E & Hb' & HL' & Hbit).
  { intros x Hx%list_elem_of_In%Hids. destruct (hash_defined x (hash_start code) Hx ltac:(lia)) as [-> Hr].
    split; [done|]. unfold nbits. lia. }
  exists d'. split; [done|].
  assert (forall j, 8 * j + 8 <= hash_start code -> 0 <= j -> zget d' j = zget d j) as Hsame.
  { intros j Hj Hj0. apply byte_ext; [done..|]. intros q Hq. rewrite Hbit by lia.
    rewrite bool_decide_eq_false_2; [by rewrite orb_false_r|]. intros (x & Ex & Hx)%list_elem_of_fmap.
    destruct (hash_defined x (hash_start code) (Hids _ Hx) ltac:(lia)) as [_ Hr]. lia. }
  split.
  - split; [done|lia| |apply Hd|apply Hd|].
    + destruct (sh_head _ _ _ _ _ Hd) as [t Et]. pose proof (Hsame 0 ltac:(lia) ltac:(lia)) as H0.
      rewrite Et, zget_head in H0. destruct d' as [|h' t']; [done|]. rewrite zget_head in H0.
      injection H0 as ->. by exists t'.
    + intros j b Hj. pose proof (lookup_lt_Some _ _ _ Hj). rewrite Hsame by (unfold hash_start; lia).
      by apply (sh_code _ _ _ _ _ Hd).
  - intros v Hv. destruct (hash_defined v (hash_start code) (Hids _ Hv) ltac:(lia)) as [_ Hr].
    rewrite Hbit by lia. apply orb_true_iff. right. apply bool_decide_eq_true. by apply (list_elem_of_fmap_2 (fun x => hash_of x (hash_start code))).
Qed.

Record coded_block (N : list Z) (b : BlockInfo) (A blk B code : list Z) : Prop := {
  cbk_split : split_of N b A blk B;
  cbk_type : bi_type b <> FullHash;
  cbk_ok : codable blk;
  cbk_codes : codes codec_ blk code;
  cbk_fit : Z.of_nat (length code) <= max_bytes
}.

Lemma coded_small N b A blk B code : coded_block N b A blk B code -> Z.of_nat (length blk) < 32.
Proof.
  intros H. pose proof (codes_min _ _ _ (cbk_codes _ _ _ _ _ _ H)). pose proof (cbk_fit _ _ _ _ _ _ H).
  pose proof (Z.div_mod (Z.of_nat (length blk) + 3) 4 ltac:(lia)).
  pose proof (Z.mod_pos_bound (Z.of_nat (length blk) + 3) 4 ltac:(lia)). lia.
Qed.

(** Header and code of the chosen block. *)
Lemma write_block N b A blk B code :
  coded_block N b A blk B code ->
  (encode ← DeltaSIMDEncode_SetBlockModel fresh (bi_type b);
   encode ← DeltaSIMDEncode_SetEncodeSize encode (bi_size b);
   codec_EncodeArray blk encode 1) =
  Some (header false (model_code (bi_type b)) (bi_size b) :: code ++ replicate (Z.to_nat max_bytes - length code) 0,
        Z.of_nat (length code)).
Proof.
  intros Hb. pose proof (coded_small _ _ _ _ _ _ Hb) as Hs. pose proof (cbk_fit _ _ _ _ _ _ Hb) as Hfit.
  destruct (cbk_split _ _ _ _ _ _ Hb) as (_ & _ & Hsz & _).
  rewrite fresh_eq, SetBlockModel_head. bind_step. rewrite SetEncodeSize_head. bind_step.
  rewrite set_size by first [exact (u8_bound _)|lia].
  rewrite (zeros_split _ (Z.of_nat (length code))) by lia. rewrite Nat2Z.id.
  pose proof (codes_written _ _ _ (cbk_codes _ _ _ _ _ _ Hb)
    [32 * (u8 (Z.lor (Z.land 0 0x9F) (u32 (Z.shiftl (model_code (bi_type b)) 5))) / 32) + bi_size b]
    (replicate (length code) 0) (replicate (Z.to_nat max_bytes - length code) 0)) as H.
  cbn [app length] in H. change (Z.of_nat 1) with 1 in H. rewrite H by apply length_replicate.
  f_equal. f_equal. f_equal. unfold header. f_equal. by destruct (bi_type b).
Qed.

Lemma ConstructEncode_spec N b :
  small_ids N ->
  (bi_type b = FullHash /\ bi_begin b = 0 /\ bi_size b = 0) \/ (exists A blk B code, coded_block N b A blk B code) ->
  exists d, DeltaSIMDEncode_ConstructEncode per b N fresh = Some d /\ partial_code d N /\
    exists m size code, shaped d false m size code.
Proof.
  intros Hids Hcase. unfold DeltaSIMDEncode_ConstructEncode.
  destruct Hcase as [(Hf & Hbeg & Hsz)|(A & blk & B & code & Hb)].
  - rewrite Hf. cbn [bool_decide decide_rel BlockType_eq_dec]. rewrite (bool_decide_eq_true_2 (FullHash = FullHash)) by done.
    rewrite fresh_eq, SetBlockModel_head. bind_step. change (u32 ((0 + 1) * 8)) with 8.
    rewrite (proj2 (Z.eqb_neq 8 per)) by lia.
    pose proof (shaped_code false 1 0 [] ltac:(lia) ltac:(lia) ltac:(constructor) ltac:(simpl; lia)) as Hd.
    cbn [app length] in Hd. rewrite Nat.sub_0_r in Hd.
    pose proof (foldM_outside (fun x e => h ← DeltaSIMDEncode_Hash per x 8; BitSetSIMD_SetOne e h) [] [] N
      (u8 (Z.lor (Z.land 0 0x9F) (u32 (Z.shiftl (model_code FullHash) 5))) :: replicate (Z.to_nat max_bytes) 0)) as Hfold.
    cbn [app length] in Hfold. rewrite Hbeg, Hsz. change (Z.of_nat 0) with 0 in Hfold. rewrite Hfold.
    destruct (hash_others _ 1 0 [] [] N Hd) as (d' & E & Hd' & Hbits); [done|unfold hash_start; simpl; lia|].
    exists d'. split; [exact E|]. split; [|by eauto]. exists b, [], [], N, []. rewrite Hf, Hsz.
    split; [by split; rewrite ?Hbeg, ?Hsz, ?Hf|]. split; [done|]. split; [by left|]. split; [simpl; lia|].
    intros _. exact Hbits.
  - rewrite (bool_decide_eq_false_2 (bi_type b = FullHash)) by apply Hb.
    pose proof (write_block _ _ _ _ _ _ Hb) as HW. destruct (cbk_split _ _ _ _ _ _ Hb) as (HN & HA & Hsz & Ht).
    destruct (DeltaSIMDEncode_SetBlockModel fresh (bi_type b)) as [e1|]; [|done]. cbn [mbind option_bind] in HW |- *.
    destruct (DeltaSIMDEncode_SetEncodeSize e1 (bi_size b)) as [e2|]; [|done]. cbn [mbind option_bind] in HW |- *.
    rewrite (proj2 (Z.ltb_ge _ _)) by (rewrite HN, !length_app; lia). bind_step.
    assert (take (Z.to_nat (bi_size b)) (drop (Z.to_nat (bi_begin b)) N) = blk) as ->.
    { rewrite HN, drop_app_length' by lia. rewrite take_app_length' by lia. done. }
    rewrite HW. bind_step. pose proof (cbk_fit _ _ _ _ _ _ Hb) as Hfit. rewrite u32_small by lia.
    replace ((Z.of_nat (length code) + 1) * 8) with (hash_start code) by (unfold hash_start; lia).
    assert (0 <= model_code (bi_type b) < 4) as Hm by (destruct (bi_type b); simpl; lia).
    pose proof (coded_small _ _ _ _ _ _ Hb) as H32.
    pose proof (shaped_code false (model_code (bi_type b)) (bi_size b) code Hm ltac:(lia) (codes_bytes _ _ _ (cbk_codes _ _ _ _ _ _ Hb)) Hfit) as Hd.
    destruct (Z.eqb_spec (hash_start code) per) as [E|E].
    + eexists. split; [done|]. split; [|by eauto]. exists b, A, blk, B, code.
      split; [done|]. split; [done|]. split; [right; split; [apply Hb|split; apply Hb]|]. split; [done|]. lia.
    + assert (hash_start code < per) as Hlt by (unfold hash_start in *; lia).
      destruct (hash_others _ _ _ code A B Hd) as (d' & E' & Hd' & Hbits).
      { unfold small_ids in Hids. rewrite HN, !Forall_app in Hids. destruct Hids as (? & ? & ?). by apply Forall_app. }
      { done. }
      pose proof (foldM_outside (fun x e => h ← DeltaSIMDEncode_Hash per x (hash_start code); BitSetSIMD_SetOne e h) A blk B
        (header false (model_code (bi_type b)) (bi_size b) :: code ++ replicate (Z.to_nat max_bytes - length code) 0)) as Hfold.
      cbv beta in Hfold. rewrite <- HN, HA, Hsz in Hfold. rewrite Hfold. exists d'. split; [exact E'|]. split; [|by eauto].
      exists b, A, blk, B, code. split; [done|]. split; [done|]. split; [right; split; [apply Hb|split; apply Hb]|].
      split; [done|]. intros _. exact Hbits.
Qed.
End codes.

(** * Choosing a block *)

(** What [ParseEncode] says of each element. *)
Lemma ParseEncode_lookup l first pre size j x :
  l !! j = Some x ->
  exists info, DeltaSIMD_ParseEncode_loop first pre size l !! j = Some info /\
    val_bits info = DeltaSIMDCodec_GetOneEncodeLength x /\
    (forall j' y, j = S j' -> l !! j' = Some y -> delta_bits info = DeltaSIMDCodec_GetOneEncodeLength (u32 (x - y))).
Proof.
  revert first pre size j. induction l as [|a l IH]; intros first pre size j Hj; [done|].
  cbn [DeltaSIMD_ParseEncode_loop]. destruct j as [|j]; cbn [lookup list_lookup] in *.
  { simplify_eq. eexists. split; [done|]. split; [done|]. done. }
  destruct (IH false a (size + DeltaSIMDCodec_GetOneEncodeLength (u32 (a - pre))) j Hj) as (info & E & Hv & Hd).
  exists info. split; [exact E|]. split; [done|]. intros j' y [= <-] Hy. destruct j as [|j].
  - simpl in Hy. injection Hy as <-. destruct l as [|b l]; [done|]. cbn in E, Hj. injection E as <-. by injection Hj as <-.
  - apply (Hd j); [done|]. by destruct l.
Qed.

Lemma ParseEncode_length l first pre size : length (DeltaSIMD_ParseEncode_loop first pre size l) = length l.
Proof. revert first pre size. induction l as [|a l IH]; intros; [done|]. cbn. by rewrite IH. Qed.

Lemma ParseEncode_total l first pre size last :
  u32s l -> zget (DeltaSIMD_ParseEncode_loop first pre size l) (Z.of_nat (length l) - 1) = Some last ->
  total_bits last = size + data_len (gen_vals (ops := DeltaSIMDCodec) 0 pre l).1.
Proof.
  enough (forall c, u32s l -> zget (DeltaSIMD_ParseEncode_loop first pre size l) (Z.of_nat (length l) - 1) = Some last ->
    total_bits last = size + data_len (gen_vals (ops := DeltaSIMDCodec) c pre l).1) as H by apply H.
  revert first pre size. induction l as [|a l IH]; intros first pre size c Hu Hl; [done|].
  apply Forall_cons in Hu as [Ha Hu]. pose proof (u32_bound (a - pre)) as Hb.
  destruct (vcode_spec _ Hb) as (_ & _ & Hlen).
  rewrite (gen_cons (ops := DeltaSIMDCodec) c pre a l (u32 (a - pre)) a) by done. cbn [fst data_len foldr].
  change (foldr _ 0 ?l) with (data_len l). rewrite <- Hlen. cbn [DeltaSIMD_ParseEncode_loop] in Hl.
  destruct l as [|b l].
  { change (Z.of_nat (length [a]) - 1) with 0 in Hl. rewrite zget_head in Hl. injection Hl as <-. simpl. lia. }
  rewrite (IH false a (size + DeltaSIMDCodec_GetOneEncodeLength (u32 (a - pre))) (c + 1)); [lia|done|].
  rewrite <- Hl, !zget_lookup by (cbn [length]; lia).
  replace (Z.to_nat (Z.of_nat (length (a :: b :: l)) - 1)) with (S (Z.to_nat (Z.of_nat (length (b :: l)) - 1)))
    by (cbn [length]; lia). done.
Qed.

(** What a version must satisfy: the bytes it counts are those of the codec.
    [carried pre_val p] relates [pre_val] to the scalar the encoder carries. *)
Class VariantLaws (ops : DeltaOps) (variant : DeltaVariant) := {
  carried : Z -> Z -> Prop;
  whole_ok : forall l, u32s l -> l <> [] -> Z.of_nat (length l) < 2 ^ 28 ->
    whole_bytes l (DeltaSIMDCodec_ParseEncode l) =
    Some (Z.of_nat (length (keys_of (gen_vals 0 0 l).1 ++ data_of (gen_vals 0 0 l).1)));
  first_ok : forall x, 0 <= x < 2 ^ 32 -> exists p, GenValue 0 x 0 = (x, p) /\ carried x p;
  grow_ok : forall l i size x pv, 0 <= i -> 1 <= size -> zget l (i + size) = Some x ->
    let p := (gen_vals 0 0 (take (Z.to_nat size) (drop (Z.to_nat i) l))).2 in
    carried pv p ->
    exists pv', grow l (DeltaSIMDCodec_ParseEncode l) (size + 1) i pv =
      Some (DeltaSIMDCodec_GetOneEncodeLength (GenValue p x size).1, pv') /\ carried pv' (GenValue p x size).2
}.

Lemma block_snoc (l : list Z) i size y :
  0 <= i -> 1 <= size -> zget l (i + size - 1) = Some y ->
  take (Z.to_nat size) (drop (Z.to_nat i) l) = take (Z.to_nat (size - 1)) (drop (Z.to_nat i) l) ++ [y].
Proof.
  intros Hi Hs [_ Hy]%zget_Some_inv. replace (Z.to_nat size) with (S (Z.to_nat (size - 1))) by lia.
  rewrite (take_S_r _ _ y); [done|]. rewrite lookup_drop. rewrite <- Hy. f_equal. lia.
Qed.

(** The scalar a delta of neighbors carries is the last element. *)
Lemma carried_last (ops : DeltaOps) l i size y :
  (forall p x c, (GenValue p x c).2 = x) -> 0 <= i -> 1 <= size -> zget l (i + size - 1) = Some y ->
  (gen_vals 0 0 (take (Z.to_nat size) (drop (Z.to_nat i) l))).2 = y.
Proof.
  intros H Hi Hs Hy. rewrite (block_snoc l i size y Hi Hs Hy), gen_app.
  destruct (gen_vals 0 0 _) as [vs q]. cbn [gen_vals].
  specialize (H q y (0 + Z.of_nat (length (take (Z.to_nat (size - 1)) (drop (Z.to_nat i) l))))).
  destruct (GenValue q y _) as [v r]. by cbn in *.
Qed.

Lemma info_at l i size x :
  0 <= i -> 1 <= size -> zget l (i + size) = Some x ->
  exists info y, zget (DeltaSIMDCodec_ParseEncode l) (size + 1 + i - 1) = Some info /\
    zget l (i + size - 1) = Some y /\ val_bits info = DeltaSIMDCodec_GetOneEncodeLength x /\
    delta_bits info = DeltaSIMDCodec_GetOneEncodeLength (u32 (x - y)).
Proof.
  intros Hi Hs Hx. apply zget_Some_inv in Hx as [Hb Hx].
  destruct (zget_is_Some l (i + size - 1)) as [y Hy]; [lia|]. pose proof (zget_Some_inv _ _ _ Hy) as [_ Hy'].
  destruct (ParseEncode_lookup l true 0 0 _ x Hx) as (info & E & Hv & Hd). exists info, y.
  split; [|split; [done|split; [done|]]].
  - rewrite zget_lookup by lia. unfold DeltaSIMDCodec_ParseEncode. rewrite <- E. f_equal. lia.
  - apply (Hd (Z.to_nat (i + size - 1))); [lia|done].
Qed.

#[export] Instance V0_variant_laws : VariantLaws DeltaSIMDCodec variant_V0.
Proof.
  refine {| carried _ _ := True |}.
  - intros l Hu Hne Hn. cbn [whole_bytes variant_V0]. unfold DeltaSIMDCodec_ParseEncode. rewrite ParseEncode_length.
    destruct (zget_is_Some (DeltaSIMD_ParseEncode_loop true 0 0 l) (Z.of_nat (length l) - 1)) as [last El].
    { rewrite ParseEncode_length. destruct l; [done|cbn [length]; lia]. }
    rewrite El. bind_step. rewrite (ParseEncode_total l true 0 0 last Hu El), Z.add_0_l.
    pose proof (gen_u32 (ops := DeltaSIMDCodec) 0 0 l Hu) as Hv. pose proof (data_len_spec _ Hv) as [Hd Hdb].
    rewrite length_gen in Hdb. rewrite length_app, Nat2Z.inj_add, length_keys, length_gen, <- Hd.
    pose proof (Z.div_mod (Z.of_nat (length l) + 3) 4 ltac:(lia)).
    pose proof (Z.mod_pos_bound (Z.of_nat (length l) + 3) 4 ltac:(lia)). rewrite u32_small by lia. f_equal. lia.
  - intros x Hx. exists x. split; [|done]. cbn. by rewrite Z.sub_0_r, u32_small.
  - intros l i size x pv Hi Hs Hx. cbv zeta. intros _.
    destruct (info_at l i size x Hi Hs Hx) as (info & y & E & Hy & _ & Hdb).
    rewrite (carried_last _ l i size y) by done. cbn [grow variant_V0]. rewrite E. bind_step.
    eexists. split; [|done]. by rewrite Hdb.
Defined.

#[export] Instance V2_variant_laws : VariantLaws DeltaSIMDCodecV2 variant_V2.
Proof.
  refine {| carried _ _ := True |}.
  - intros l Hu Hne Hn. cbn [whole_bytes variant_V2]. f_equal. apply GetRequiredBytes_spec; [done|lia].
  - intros x Hx. exists x. done.
  - intros l i size x pv Hi Hs Hx. cbv zeta. intros _.
    destruct (info_at l i size x Hi Hs Hx) as (info & y & E & Hy & Hvb & Hdb).
    rewrite (carried_last _ l i size y) by (done || (intros p z c; cbn; by destruct (c mod 4 =? 0))).
    cbn [grow variant_V2]. rewrite E. bind_step. eexists. split; [|done]. f_equal. f_equal.
    cbn [GenValue DeltaSIMDCodecV2].
    assert (((size + 1) mod 4 =? 1) = (size mod 4 =? 0)) as ->.
    { pose proof (Z.div_mod size 4 ltac:(lia)). pose proof (Z.mod_pos_bound size 4 ltac:(lia)).
      pose proof (Z.div_mod (size + 1) 4 ltac:(lia)). pose proof (Z.mod_pos_bound (size + 1) 4 ltac:(lia)).
      apply eq_true_iff_eq. rewrite !Z.eqb_eq. lia. }
    destruct (size mod 4 =? 0); [exact Hvb|exact Hdb].
Defined.

Lemma mod4_succ size : ((size + 1) mod 4 =? 1) = (size mod 4 =? 0).
Proof.
  pose proof (Z.div_mod size 4 ltac:(lia)). pose proof (Z.mod_pos_bound size 4 ltac:(lia)).
  pose proof (Z.div_mod (size + 1) 4 ltac:(lia)). pose proof (Z.mod_pos_bound (size + 1) 4 ltac:(lia)).
  apply eq_true_iff_eq. rewrite !Z.eqb_eq. lia.
Qed.

#[export] Instance V1_variant_laws : VariantLaws DeltaSIMDCodecV1 variant_V1.
Proof.
  refine {| carried pv p := pv = p |}.
  - intros l Hu Hne Hn. cbn [whole_bytes variant_V1]. f_equal. apply GetRequiredBytes_spec; [done|lia].
  - intros x Hx. exists x. done.
  - intros l i size x pv Hi Hs Hx. cbv zeta. intros <-.
    destruct (info_at l i size x Hi Hs Hx) as (info & y & E & Hy & Hvb & Hdb).
    cbn [grow variant_V1]. rewrite E. replace (size + 1 + i - 1) with (i + size) by lia. rewrite Hx. bind_step.
    rewrite mod4_succ. cbn [GenValue DeltaSIMDCodecV1]. destruct (size mod 4 =? 0); bind_step; eexists;
      (split; [|done]); [by rewrite Hvb|done].
Defined.

Lemma count_hash_defined ns keep hash_bits max_hash_count :
  0 < hash_bits -> small_ids ns -> exists n, count_hash ns keep hash_bits max_hash_count = Some n.
Proof.
  intros Hh Hns. unfold count_hash.
  assert (forall hv i n, Z.of_nat (length hv) = hash_bits ->
    exists m, count_hash_loop keep hash_bits max_hash_count ns i hv n = Some m) as H.
  { induction Hns as [|x ns Hx _ IH]; intros hv i n HL; cbn [count_hash_loop].
    { destruct (n <=? max_hash_count); eauto. }
    destruct (n <=? max_hash_count); [|eauto]. destruct (keep i); [|by apply IH].
    unfold umod. rewrite (proj2 (Z.eqb_neq hash_bits 0)) by lia. bind_step.
    pose proof (Z.mod_pos_bound x hash_bits Hh). destruct (zget_is_Some hv (x mod hash_bits)) as [b ->]; [lia|].
    bind_step. destruct b; cbn [negb]; [by apply IH|]. rewrite zset_Some by lia. bind_step.
    apply IH. by rewrite length_insert. }
  apply H. rewrite length_replicate. lia.
Qed.

Section choose.
Context (C : Config) (k : Z) (Hk : 1 <= k <= 10) (HV : 1 <= VERTEX_SIZE C < 2 ^ 31).
Context (ops : DeltaOps) (laws : DeltaLaws ops) (variant : DeltaVariant) (vlaws : VariantLaws ops variant).
Local Existing Instance sequential.
Notation per := (32 * k).
Notation max_bytes := (4 * k - 1).

(** A sorted list of vertex ids. *)
Record neighbors_ok (N : list Z) : Prop := {
  nb_sorted : StronglySorted Z.lt N;
  nb_ids : Forall (fun x => 1 <= x <= VERTEX_SIZE C) N;
  nb_len : Z.of_nat (length N) < 2 ^ 28
}.

Lemma nb_small N : neighbors_ok N -> small_ids N.
Proof. intros [_ H _]. eapply Forall_impl; [exact H|]. simpl. lia. Qed.

Context (N : list Z) (HN : neighbors_ok N).
Notation n := (Z.of_nat (length N)).

Definition block (i size : Z) : list Z := take (Z.to_nat size) (drop (Z.to_nat i) N).
Definition block_bytes (i size : Z) : Z := data_len (gen_vals 0 0 (block i size)).1.
Definition block_need (i size : Z) : Z := (size + 3) / 4 + block_bytes i size.

Lemma length_block i size : 0 <= i -> 0 <= size -> i + size <= n -> Z.of_nat (length (block i size)) = size.
Proof using Type. intros. unfold block. rewrite length_take, length_drop. lia. Qed.

Lemma block_u32s i size : u32s (gen_vals 0 0 (block i size)).1.
Proof.
  apply gen_u32. unfold block, u32s. apply Forall_take, Forall_drop. apply small_u32s. by apply nb_small.
Qed.

Lemma block_size_le i size : 0 <= i -> 0 <= size -> i + size <= n -> size <= block_bytes i size.
Proof.
  intros Hi Hs Hn. pose proof (data_len_min _ (block_u32s i size)) as H.
  rewrite length_gen, length_block in H by done. exact H.
Qed.

(** Adding the next element. *)
Lemma block_grow i size x :
  0 <= i -> 0 <= size -> zget N (i + size) = Some x ->
  let p := (gen_vals 0 0 (block i size)).2 in
  block_bytes i (size + 1) = block_bytes i size + DeltaSIMDCodec_GetOneEncodeLength (GenValue p x size).1 /\
  (gen_vals 0 0 (block i (size + 1))).2 = (GenValue p x size).2 /\
  1 <= DeltaSIMDCodec_GetOneEncodeLength (GenValue p x size).1 <= 4.
Proof.
  intros Hi Hs Hx. cbv zeta. unfold block_bytes. pose proof (block_u32s i (size + 1)) as Hu.
  pose proof (zget_Some_inv _ _ _ Hx) as [Hb _].
  assert (block i (size + 1) = block i size ++ [x]) as E.
  { unfold block. rewrite (block_snoc N i (size + 1) x) by (lia || (rewrite <- Hx; f_equal; lia)).
    by rewrite Z.add_simpl_r. }
  rewrite E in *. rewrite gen_app in *. pose proof (length_block i size Hi Hs ltac:(lia)) as HL.
  destruct (gen_vals 0 0 (block i size)) as [vs q]. rewrite HL, Z.add_0_l in *. cbn [gen_vals] in *.
  destruct (GenValue q x size) as [v r] eqn:G. cbn [fst snd] in *.
  apply Forall_app in Hu as [_ Hu]. apply Forall_cons in Hu as [Hv _].
  rewrite G. cbn [fst snd]. destruct (vcode_spec v Hv) as (Hc & _ & ->). rewrite data_len_app. cbn [data_len foldr]. split; [lia|]. split; [done|lia].
Qed.

Lemma block_one i x :
  zget N i = Some x -> exists p, block_bytes i 1 = DeltaSIMDCodec_GetOneEncodeLength x /\
    (gen_vals 0 0 (block i 1)).2 = p /\ carried x p.
Proof.
  intros Hx. pose proof (zget_Some_inv _ _ _ Hx) as [Hb _].
  assert (0 <= x < 2 ^ 32) as Hxr.
  { apply zget_Some_inv in Hx as [_ Hx]. pose proof (Forall_lookup_1 _ _ _ _ (nb_small N HN) Hx). simpl in *. lia. }
  destruct (first_ok x Hxr) as (p & G & Hc). exists p.
  destruct (block_grow i 0 x) as (E & E2 & _); [lia|lia|by rewrite Z.add_0_r|].
  change ((gen_vals 0 0 (block i 0)).2) with 0 in E, E2. change (block_bytes i 0) with 0 in E.
  rewrite G in E, E2. cbn [fst snd] in E, E2. split; [exact E|]. by split.
Qed.

(** A block that fits has a code. *)
Definition valid_type (i size : Z) (type : BlockType) : Prop :=
  match type with FullHash => False | LeftMost => i = 0 | RightMost => i + size = n | Middle => True end.

Lemma block_coded i size type :
  0 <= i -> 1 <= size -> i + size <= n -> block_need i size <= max_bytes -> valid_type i size type ->
  exists A blk B code, coded_block k N (grow_block i size type) A blk B code.
Proof.
  intros Hi Hs Hn Hfit Ht. pose proof (block_size_le i size Hi ltac:(lia) Hn) as Hle.
  pose proof (length_block i size Hi ltac:(lia) Hn) as HL. unfold block_need in Hfit.
  pose proof (Z.div_mod (size + 3) 4 ltac:(lia)). pose proof (Z.mod_pos_bound (size + 3) 4 ltac:(lia)).
  assert (codable (block i size)) as Hc.
  { split.
    - pose proof (nb_sorted _ HN) as HS. unfold block.
      rewrite <- (take_drop (Z.to_nat i) N) in HS. apply StronglySorted_app_1_r in HS.
      rewrite <- (take_drop (Z.to_nat size) (drop _ N)) in HS. by apply StronglySorted_app_1_l in HS.
    - unfold block, small_ids. apply Forall_take, Forall_drop. by apply nb_small.
    - intros E. rewrite E in HL. simpl in HL. lia. }
  destruct (sequential_laws ops laws (block i size) Hc) as [code Hcode]; [lia|].
  exists (take (Z.to_nat i) N), (block i size), (drop (Z.to_nat size) (drop (Z.to_nat i) N)), code.
  assert (Z.of_nat (length code) = block_need i size) as Hlen.
  { pose proof (codes_required _ _ _ Hcode) as Hr. cbn [codec_GetRequiredBytes sequential] in Hr.
    rewrite GetRequiredBytes_spec in Hr by (first [lia | apply small_u32s, Hc]). injection Hr as Hr.
    rewrite <- Hr, length_app, Nat2Z.inj_add, length_keys, length_gen, HL. unfold block_need, block_bytes.
    by rewrite (proj1 (data_len_spec _ (block_u32s i size))). }
  split; [|by destruct type|done|done|unfold block_need in *; lia].
  split; [unfold block; by rewrite !take_drop|]. split; [simpl; rewrite length_take; lia|].
  split; [exact HL|]. cbn [bi_type grow_block]. destruct type; simpl in Ht; try done.
  - subst i. done.
  - apply drop_ge. rewrite length_drop. lia.
Qed.

Lemma sorted_lookup_lt a b x y : zget N a = Some x -> zget N b = Some y -> a < b -> x < y.
Proof.
  intros Ha Hb Hab. pose proof (nb_sorted _ HN) as HS.
  apply zget_Some_inv in Ha as [Ha1 Ha]. apply zget_Some_inv in Hb as [Hb1 Hb].
  rewrite <- (take_drop (Z.to_nat b) N) in HS. apply (StronglySorted_app_1_elem_of _ _ _ x y HS).
  - apply (list_elem_of_lookup_2 _ (Z.to_nat a)). rewrite lookup_take_lt by lia. done.
  - apply (list_elem_of_lookup_2 _ 0). rewrite lookup_drop, Nat.add_0_r. done.
Qed.

Lemma nb_range a x : zget N a = Some x -> 1 <= x <= VERTEX_SIZE C.
Proof. intros [_ Ha]%zget_Some_inv. exact (Forall_lookup_1 _ _ _ _ (nb_ids _ HN) Ha). Qed.

(** A proper block covers less than all ids, so no division by zero. *)
Lemma ScoreCount_defined i size type hash_bits score :
  0 <= i -> 1 <= size -> i + size <= n -> (type = LeftMost -> i = 0 /\ size < n) -> (i = 0 -> type = LeftMost) ->
  0 <= hash_bits ->
  exists r, DeltaSIMDEncode_ScoreCount C (grow_block i size type) N hash_bits score = Some r.
Proof.
  intros Hi Hs Hn Hleft Hzero Hhb. unfold DeltaSIMDEncode_ScoreCount. cbn [bi_begin bi_size bi_type grow_block].
  destruct (zget_is_Some N i) as [f Ef]; [lia|]. destruct (zget_is_Some N (i + size - 1)) as [l El]; [lia|].
  pose proof (nb_range _ _ Ef). pose proof (nb_range _ _ El).
  assert (f <= l) as Hfl.
  { destruct (decide (size = 1)) as [->|]; [|pose proof (sorted_lookup_lt _ _ _ _ Ef El); lia].
    replace (i + 1 - 1) with i in El by lia. assert (f = l) by congruence. lia. }
  assert (0 < i -> 2 <= f) as Hf2.
  { intros Hi0. destruct (zget_is_Some N 0) as [z Ez]; [lia|]. pose proof (nb_range _ _ Ez).
    pose proof (sorted_lookup_lt _ _ _ _ Ez Ef). lia. }
  assert (i + size < n -> l < VERTEX_SIZE C) as HlV.
  { intros Hlt. destruct (zget_is_Some N (i + size)) as [z Ez]; [lia|]. pose proof (nb_range _ _ Ez).
    pose proof (sorted_lookup_lt _ _ _ _ El Ez). lia. }
  rewrite El, Ef.
  assert (exists cur, (match type with
    | RightMost => first ← Some f; Some (u32 (VERTEX_SIZE C - first + 1))
    | LeftMost => Some l
    | _ => last ← Some l; first ← Some f; Some (u32 (last - first + 1)) end) = Some cur /\ 1 <= cur < VERTEX_SIZE C) as (cur & -> & Hcur).
  { destruct type; bind_step; eexists; (split; [done|]); rewrite ?u32_small; destruct (decide (i = 0)) as [Hi0|Hi0];
      try (pose proof (Hzero Hi0); done); try lia; destruct (Hleft eq_refl); lia. }
  bind_step. destruct (Z.eqb_spec hash_bits 0); [destruct (score <? cur); eauto|].
  unfold udiv. rewrite (u32_small (VERTEX_SIZE C - cur)) by lia.
  rewrite (proj2 (Z.eqb_neq (VERTEX_SIZE C - cur) 0)), (proj2 (Z.eqb_neq hash_bits 0)) by lia.
  destruct (score <=? cur); bind_step;
    (destruct (SFcompare _ _) as [[]|]; [| |eauto|]); 
    match goal with |- context [count_hash ?a ?b ?c ?d] =>
      destruct (count_hash_defined a b c d) as [m ->]; [lia|by apply nb_small|] end;
    bind_step; destruct (m <=? _); bind_step; eauto.
Qed.

(** [best_ok]: the whole list hashed, or a block with a code. *)
Definition best_ok (b : BlockInfo) : Prop :=
  (bi_type b = FullHash /\ bi_begin b = 0 /\ bi_size b = 0) \/ (exists A blk B code, coded_block k N b A blk B code).

Hypothesis Hwhole : max_bytes < block_need 0 n.

Lemma while_ok fuel i size type pre_bytes pv score best :
  0 <= i -> 1 <= size -> i + size <= n -> (type = LeftMost /\ i = 0 \/ type = Middle /\ 0 < i \/
    type = RightMost /\ 0 < i /\ i + size = n) ->
  pre_bytes = block_bytes i size -> pre_bytes <= max_bytes + 8 -> carried pv (gen_vals 0 0 (block i size)).2 ->
  best_ok best -> (Z.to_nat (n - i - size) < fuel)%nat ->
  exists score' best', DynamicChoose_while C per fuel N (DeltaSIMDCodec_ParseEncode N) i size type pre_bytes pv score best
    = Some (score', best') /\ best_ok best'.
Proof.
  revert size type pre_bytes pv score best.
  induction fuel as [|fuel IH]; intros size type pre_bytes pv score best Hi Hs Hn Ht Epre Hpre Hpv Hbest Hf; [lia|].
  cbn [DynamicChoose_while]. rewrite (max_bytes_eq k Hk).
  pose proof (block_size_le i size Hi ltac:(lia) Hn) as Hle. rewrite <- Epre in Hle.
  pose proof (Z.div_mod (size + 3) 4 ltac:(lia)). pose proof (Z.mod_pos_bound (size + 3) 4 ltac:(lia)).
  rewrite u32_small by lia. destruct (Z.leb_spec (pre_bytes + (size + 3) / 4) max_bytes) as [Hfit|]; [|eauto].
  assert (block_need i size <= max_bytes) as Hneed by (unfold block_need; lia).
  set (type' := if size + i =? n then RightMost else type).
  assert (i = 0 -> size < n) as Hproper.
  { intros ->. destruct (decide (size = n)) as [E|]; [|lia]. rewrite E in Hneed. lia. }
  assert (valid_type i size type') as Hvalid.
  { unfold type', valid_type. destruct (Z.eqb_spec (size + i) n); [lia|].
    destruct Ht as [[-> ->]|[[-> _]|(-> & _ & ?)]]; done || lia. }
  rewrite u32_small by lia.
  destruct (ScoreCount_defined i size type' ((max_bytes - pre_bytes - (size + 3) / 4) * 8) score) as [[better score'] ->];
    [done|done|done| | |lia|].
  { unfold type'. destruct (Z.eqb_spec (size + i) n); [done|]. destruct Ht as [[-> ->]|[[-> _]|(-> & _ & ?)]]; try done. lia. }
  { unfold type'. intros ->. specialize (Hproper eq_refl). rewrite (proj2 (Z.eqb_neq _ _)) by lia.
    destruct Ht as [[-> _]|[[_ ?]|(_ & ? & _)]]; done || lia. }
  bind_step. set (best' := if better then grow_block i size type' else best).
  assert (best_ok best') as Hbest'.
  { unfold best'. destruct better; [|done]. right. by apply block_coded. }
  case_bool_decide as Hright; [eauto|].
  assert (size + i <> n) as Hne by (intros E; apply Hright; unfold type'; rewrite E; by rewrite Z.eqb_refl).
  destruct (zget_is_Some N (i + size)) as [x Ex]; [lia|].
  destruct (grow_ok N i size x pv Hi Hs Ex Hpv) as (pv' & -> & Hpv'). bind_step.
  destruct (block_grow i size x Hi ltac:(lia) Ex) as (E1 & E2 & Hone). fold (block i size) in *.
  assert (type' = type) as Etype by (unfold type'; by rewrite (proj2 (Z.eqb_neq _ _) Hne)). rewrite Etype.
  rewrite u32_small by lia. apply IH; try done; try lia.
  - destruct Ht as [?|[?|(_ & _ & ?)]]; [by left|by right; left|lia].
  - by rewrite E2.
Qed.

Lemma begin_ok i st :
  0 <= i < n -> best_ok st.2 ->
  exists st', DynamicChoose_begin C per N (DeltaSIMDCodec_ParseEncode N) i st = Some st' /\ best_ok st'.2.
Proof.
  intros Hi Hst. destruct st as [score best]. unfold DynamicChoose_begin.
  destruct (zget_is_Some N i) as [x Ex]; [lia|]. rewrite Ex. bind_step.
  pose proof (zget_Some_inv _ _ _ Ex) as [_ Ex'].
  destruct (ParseEncode_lookup N true 0 0 _ x Ex') as (info & E & Hv & _).
  fold (DeltaSIMDCodec_ParseEncode N) in E. rewrite zget_lookup, E by lia. bind_step. rewrite Hv.
  destruct (block_one i x Ex) as (p & E1 & Ep & Hc).
  pose proof (nb_range _ _ Ex). destruct (vcode_spec x ltac:(lia)) as (Hvc & _ & Hone).
  rewrite u32_small by lia.
  assert (forall size type pb pv, 1 <= size -> i + size <= n ->
    (type = LeftMost /\ i = 0 \/ type = Middle /\ 0 < i \/ type = RightMost /\ 0 < i /\ i + size = n) ->
    pb = block_bytes i size -> pb <= 8 -> carried pv (gen_vals 0 0 (block i size)).2 ->
    exists st', DynamicChoose_while C per (length N) N (DeltaSIMDCodec_ParseEncode N) i size type pb pv score best = Some st' /\
      best_ok st'.2) as Hwh.
  { intros size type pb pv Hs Hn Ht Hpb Hpb8 Hpv.
    destruct (while_ok (length N) i size type pb pv score best) as (s' & b' & Ew & Hb); try done; try lia.
    rewrite Ew. by eexists. }
  destruct (Z.eqb_spec i 0) as [->|Hi0].
  { apply Hwh; [lia|lia|by left|done|lia|by rewrite Ep]. }
  destruct (Z.eqb_spec i (n - 1)) as [Hlast|Hlast]; cbn [negb].
  { apply Hwh; [lia|lia| |done|lia|by rewrite Ep]. right. right. split; [done|lia]. }
  destruct (zget_is_Some N (i + 1)) as [y Ey]; [lia|]. rewrite <- Ep in Hc.
  destruct (grow_ok N i 1 y x ltac:(lia) ltac:(lia) Ey Hc) as (pv' & Eg & Hpv'). change (1 + 1) with 2 in Eg.
  rewrite Eg. bind_step. fold (block i 1) in *.
  destruct (block_grow i 1 y ltac:(lia) ltac:(lia) Ey) as (E2 & E3 & H4). change (1 + 1) with 2 in E2, E3.
  rewrite u32_small by lia. apply Hwh; [lia|lia| |lia|lia|by rewrite E3]. right. left. split; [done|lia].
Qed.

Lemma delta_DynamicChoose_ok :
  exists d, DeltaSIMDEncode_DynamicChoose C per (BitSetSIMD_new per) N (DeltaSIMDCodec_ParseEncode N) = Some d /\
    partial_code k d N /\ exists m size code, shaped k d false m size code.
Proof.
  unfold DeltaSIMDEncode_DynamicChoose. rewrite (max_bytes_eq k Hk).
  assert (exists r, DeltaSIMDEncode_FullHashScoreCount C N (u32 (max_bytes * 8)) 0 = Some r) as [r ->].
  { unfold DeltaSIMDEncode_FullHashScoreCount, udiv. rewrite (proj2 (Z.eqb_neq (VERTEX_SIZE C) 0)) by lia. bind_step.
    rewrite (u32_small (max_bytes * 8)) by lia.
    destruct (count_hash_defined N (fun _ => true) (max_bytes * 8) (u32 (max_bytes * 8 - u32 (0 * (max_bytes * 8)) / VERTEX_SIZE C)))
      as [m ->]; [lia|by apply nb_small|]. bind_step. destruct (_ <=? _); [|eauto].
    rewrite (proj2 (Z.eqb_neq (max_bytes * 8) 0)) by lia. bind_step. eauto. }
  bind_step.
  destruct (for_loop_inv (fun _ st => best_ok st.2) (DynamicChoose_begin C per N (DeltaSIMDCodec_ParseEncode N))
    (length N) 0 (r.2, {| bi_begin := 0; bi_size := 0; bi_type := FullHash |})) as (st & -> & Hst).
  - by left.
  - intros i st Hi Hst. apply begin_ok; [lia|done].
  - bind_step. apply ConstructEncode_spec; [done|by apply nb_small|done].
Qed.
End choose.

(** * Encoding a vertex, testing a pair *)

(** [coded k E u N dec]: the vector of [u] is a code of [N]. *)
Definition coded `{CodecOps} (k : Z) (E : list (list Z)) (u : Z) (N : list Z) (dec : bool) : Prop :=
  exists d, zget E u = Some d /\ BitSetSIMD_GetFirstBit d = Some dec /\
    if dec then full_code k d N else partial_code k d N.

Section pairs.
Context (heap : Z -> Z) (k : Z) (Hk : 1 <= k <= 10) {codec_ : CodecOps}.

(** The test of one direction. *)
Definition Find (dec : bool) (d : list Z) (v : Z) : option PairType :=
  if dec then DeltaSIMDEncode_FindDecodable heap d v
  else DeltaSIMDEncode_FindNonDecodable heap (32 * k) d v.

Lemma coded_Find E u N dec v :
  StronglySorted Z.lt N -> coded k E u N dec -> 0 <= v < 2 ^ 31 ->
  exists d t, zget E u = Some d /\ BitSetSIMD_GetFirstBit d = Some dec /\ Find dec d v = Some t /\
    answers t (v ∈ N) /\ (dec = true -> t <> Uncertain).
Proof.
  intros Hs (d & Ed & Hdec & Hd) Hv. exists d. destruct dec; cbn [Find].
  - eexists. split; [done|]. split; [done|]. split; [by apply (FindDecodable_spec heap k Hk d N v)|].
    split; [apply answers_decide|]. intros _. by case_bool_decide.
  - destruct (FindNonDecodable_spec heap k Hk d N v Hs Hd Hv) as (t & Et & Ha).
    exists t. done.
Qed.

Lemma NonNeighborTest_Find E u d dec v :
  zget E u = Some d -> BitSetSIMD_GetFirstBit d = Some dec ->
  DeltaSIMDEncode_NonNeighborTest heap (32 * k) E u v = Find dec d v.
Proof.
  intros Ed Hdec. unfold DeltaSIMDEncode_NonNeighborTest, DeltaSIMDEncode_IsDecodable.
  rewrite Ed. bind_step. rewrite Hdec. bind_step. by destruct dec.
Qed.

Lemma coded_NEpairTest E u v Nu Nv du dv edge :
  StronglySorted Z.lt Nu -> StronglySorted Z.lt Nv -> coded k E u Nu du -> coded k E v Nv dv ->
  0 <= u < 2 ^ 31 -> 0 <= v < 2 ^ 31 -> covers_edge du dv Nu Nv u v edge ->
  exists t, DeltaSIMDEncode_NEpairTest heap (32 * k) E u v = Some t /\ answers t edge /\
    (du || dv = true -> t <> Uncertain).
Proof.
  intros Hsu Hsv Hcu Hcv Hu Hv (H1 & H2 & H3). unfold DeltaSIMDEncode_NEpairTest, DeltaSIMDEncode_IsDecodable.
  destruct (coded_Find E u Nu du v Hsu Hcu Hv) as (d1 & t1 & Eu & Bu & Fu & Au & Cu).
  destruct (coded_Find E v Nv dv u Hsv Hcv Hu) as (d2 & t2 & Ev & Bv & Fv & Av & Cv).
  rewrite Eu, Ev. bind_step. rewrite Bu, Bv. bind_step.
  destruct du, dv; cbn [Find] in Fu, Fv; rewrite ?Fu, ?Fv; bind_step; rewrite ?Fu, ?Fv; bind_step;
    eexists; (split; [done|]).
  - specialize (Cu eq_refl). specialize (Cv eq_refl). destruct t1, t2; simpl in *; split; try done; tauto.
  - specialize (Cu eq_refl). destruct t1; simpl in *; split; try done; tauto.
  - specialize (Cv eq_refl). destruct t2; simpl in *; split; try done; tauto.
  - destruct t1, t2; simpl in *; split; try done; tauto.
Qed.
End pairs.

Section encode.
Context (C : Config) (k : Z) (Hk : 1 <= k <= 10) (HV : 1 <= VERTEX_SIZE C < 2 ^ 31).
Context (ops : DeltaOps) (laws : DeltaLaws ops) (variant : DeltaVariant) (vlaws : VariantLaws ops variant).
Local Existing Instance sequential.

(** Whether the code of the whole list fits the vector. *)
Definition fits (N : list Z) : bool :=
  DeltaSIMDCodec_GetRequiredBytes N <=? 4 * k - 1.

(** The bytes the whole list needs. *)
Definition need (N : list Z) : Z := Z.of_nat (length (keys_of (gen_vals 0 0 N).1 ++ data_of (gen_vals 0 0 N).1)).

Lemma need_eq N : neighbors_ok C N -> need N = (Z.of_nat (length N) + 3) / 4 + data_len (gen_vals 0 0 N).1.
Proof using HV laws.
  intros HN. unfold need. rewrite length_app, Nat2Z.inj_add, length_keys, length_gen.
  by rewrite (proj1 (data_len_spec _ (gen_u32 0 0 N (small_u32s N (nb_small C HV N HN))))).
Qed.

(** The vector of a list that fits. *)
Lemma decodable_vector N :
  neighbors_ok C N -> N <> [] -> need N <= 4 * k - 1 ->
  exists d, (encode ← BitSetSIMD_SetOne (BitSetSIMD_new (32 * k)) 0;
             encode ← DeltaSIMDEncode_SetEncodeSize encode (Z.of_nat (length N));
             r ← codec_EncodeArray N encode 1; Some r.1) = Some d /\
    BitSetSIMD_GetFirstBit d = Some true /\ full_code k d N.
Proof using HV Hk laws.
  intros HN Hne Hfit. pose proof (nb_small C HV N HN) as Hids. pose proof (small_u32s N Hids) as Hu32.
  assert (codable N) as Hc by (split; [apply HN|done|done]).
  assert (Z.of_nat (length N) <= 31) as H31.
  { pose proof (data_len_min _ (gen_u32 0 0 N Hu32)) as Hm. rewrite length_gen in Hm.
    rewrite (need_eq N HN) in Hfit. pose proof (Z.div_mod (Z.of_nat (length N) + 3) 4 ltac:(lia)).
    pose proof (Z.mod_pos_bound (Z.of_nat (length N) + 3) 4 ltac:(lia)). lia. }
  destruct (sequential_laws ops laws N Hc) as [code Hcode]; [lia|].
  assert (Z.of_nat (length code) = need N) as Hcl.
  { pose proof (codes_required _ _ _ Hcode) as Hr. cbn [codec_GetRequiredBytes sequential] in Hr.
    rewrite GetRequiredBytes_spec in Hr by (done || lia). injection Hr as Hr. by rewrite <- Hr. }
  rewrite (fresh_eq k Hk), SetOne_head. bind_step. rewrite SetEncodeSize_head. bind_step.
  change (u8 (Z.lor 0 128)) with 128. rewrite set_size by lia. change (32 * (128 / 32)) with 128.
  rewrite (zeros_split _ (Z.of_nat (length code))) by lia. rewrite Nat2Z.id.
  pose proof (codes_written _ _ _ Hcode [128 + Z.of_nat (length N)] (replicate (length code) 0)
    (replicate (Z.to_nat (4 * k - 1) - length code) 0)) as HW. cbn [app length] in HW.
  change (Z.of_nat 1) with 1 in HW. rewrite HW by apply length_replicate. bind_step. cbn [fst].
  pose proof (shaped_code k Hk true 0 (Z.of_nat (length N)) code ltac:(lia) ltac:(lia) (codes_bytes _ _ _ Hcode) ltac:(lia)) as Hd.
  eexists. split; [done|]. split; [by destruct (shaped_header k Hk _ _ _ _ _ Hd)|].
  unfold full_code. rewrite decide_False by done. split; [done|]. by exists 0, code.
Qed.

Lemma empty_vector :
  exists d, BitSetSIMD_SetOne (BitSetSIMD_new (32 * k)) 0 = Some d /\
    BitSetSIMD_GetFirstBit d = Some true /\ full_code k d [].
Proof using Hk.
  rewrite (fresh_eq k Hk), SetOne_head. eexists. split; [done|].
  pose proof (shaped_code k Hk true 0 0 [] ltac:(lia) ltac:(lia) ltac:(constructor) ltac:(simpl; lia)) as Hd.
  cbn [app length] in Hd. rewrite Nat.sub_0_r in Hd. split.
  - by destruct (shaped_header k Hk _ _ _ _ _ Hd).
  - unfold full_code. rewrite decide_True by done. by exists 0.
Qed.

Lemma EncodeVertex_coded E u N :
  neighbors_ok C N -> zget E u = Some (BitSetSIMD_new (32 * k)) ->
  exists E' d, DeltaSIMDEncode_EncodeVertex C (32 * k) E u N = Some E' /\ zset E u d = Some E' /\
    coded k E' u N (fits N).
Proof.
  intros HN Eu. pose proof (small_u32s N (nb_small C HV N HN)) as Hu32.
  pose proof (zget_Some_inv _ _ _ Eu) as [Hb _]. pose proof (nb_len _ _ HN) as Hlen.
  enough (exists d, DeltaSIMDEncode_EncodeVertex C (32 * k) E u N = zset E u d /\
    BitSetSIMD_GetFirstBit d = Some (fits N) /\ if fits N then full_code k d N else partial_code k d N)
    as (d & E1 & Hd).
  { rewrite E1, zset_Some by done. eexists _, d. split; [done|]. split; [by apply zset_Some|]. exists d.
    split; [|done]. rewrite (zget_zset E u u d) by (by apply zset_Some). by rewrite Z.eqb_refl. }
  unfold DeltaSIMDEncode_EncodeVertex. rewrite Eu. bind_step. unfold fits.
  rewrite (GetRequiredBytes_spec N Hu32 ltac:(lia)), (max_bytes_eq k Hk). fold (need N).
  destruct (decide (N = [])) as [->|Hne].
  - change (need [] <=? 4 * k - 1) with (0 <=? 4 * k - 1). rewrite (proj2 (Z.leb_le 0 _)) by lia.
    destruct empty_vector as (d & -> & Hd). by exists d.
  - rewrite (proj2 (Z.eqb_neq (Z.of_nat (length N)) 0)) by (destruct N; [done|cbn [length]; lia]).
    rewrite (whole_ok N Hu32 Hne Hlen). bind_step. fold (need N).
    destruct (Z.leb_spec (need N) (4 * k - 1)) as [Hfit|Hbig].
    + destruct (decodable_vector N HN Hne Hfit) as (d & -> & Hd). by exists d.
    + destruct (delta_DynamicChoose_ok C k Hk HV ops laws variant vlaws N HN) as (d & -> & Hp & m & size & code & Hd).
      { rewrite (need_eq N HN) in Hbig. unfold block_need, block_bytes, block. rewrite Nat2Z.id.
        change (Z.to_nat 0) with 0%nat. by rewrite drop_0, take_ge. }
      exists d. split; [done|]. split; [by destruct (shaped_header k Hk _ _ _ _ _ Hd)|done].
Qed.
End encode.

(** * Properties *)

(** With V0, V1 or V2, encoding a sorted list of ids into a cleared vector
    of at most 320 bits is defined and changes no other vertex; every later test
    against the code is defined and never wrong, whatever lies after the vector
    in memory, and it is certain when the code of the whole list fits. *)
Theorem DeltaEncodeVertex_sound (C : Config) (k : Z) (ops : DeltaOps) (laws : DeltaLaws ops)
    (variant : DeltaVariant) (vlaws : VariantLaws ops variant) (E : list (list Z)) (u : Z) (N : list Z)
    (Hk : 1 <= k <= 10) (HV : 1 <= VERTEX_SIZE C < 2 ^ 31) (HN : neighbors_ok C N)
    (Hu : zget E u = Some (BitSetSIMD_new (32 * k))) :
  exists E' d, DeltaSIMDEncode_EncodeVertex C (32 * k) (codec_ := sequential ops) E u N = Some E' /\
    zset E u d = Some E' /\
    forall heap v, 1 <= v <= VERTEX_SIZE C ->
      exists t, DeltaSIMDEncode_NonNeighborTest heap (32 * k) (codec_ := sequential ops) E' u v = Some t /\
        answers t (v ∈ N) /\ (DeltaSIMDCodec_GetRequiredBytes N <= 4 * k - 1 -> t <> Uncertain).
Proof.
  destruct (EncodeVertex_coded C k Hk HV ops laws variant vlaws E u N HN Hu) as (E' & d & E1 & E2 & Hc).
  exists E', d. split; [done|]. split; [done|]. intros heap v Hv.
  destruct (coded_Find heap k Hk (codec_ := sequential ops) E' u N (fits k ops N) v) as (d' & t & Ed & Hb & Ef & Ha & Hcert);
    [apply HN|done|lia|]. exists t. rewrite (NonNeighborTest_Find heap k Hk (codec_ := sequential ops) E' u d' _ v Ed Hb).
  split; [done|]. split; [done|]. intros Hfit. apply Hcert. by apply Z.leb_le.
Qed.

(** C29: the test of a pair of SIMD delta codes is defined, never wrong, and
    certain when one of the codes is decodable, provided the two encoded lists
    cover the edges. *)
Theorem DeltaNEpairTest_sound (codec : CodecOps) (heap : Z -> Z) (k : Z) (E : list (list Z)) (u v : Z)
    (Nu Nv : list Z) (du dv : bool) (edge : Prop)
    (Hk : 1 <= k <= 10) (Hsu : StronglySorted Z.lt Nu) (Hsv : StronglySorted Z.lt Nv)
    (Hcu : coded (H := codec) k E u Nu du) (Hcv : coded (H := codec) k E v Nv dv)
    (Hu : 0 <= u < 2 ^ 31) (Hv : 0 <= v < 2 ^ 31) (Hcover : covers_edge du dv Nu Nv u v edge) :
  exists t, DeltaSIMDEncode_NEpairTest heap (32 * k) (codec_ := codec) E u v = Some t /\ answers t edge /\
    (du || dv = true -> t <> Uncertain).
Proof. by apply (coded_NEpairTest heap k Hk E u v Nu Nv du dv edge). Qed.

(** * Witnesses *)

Definition delta_long : list Z := [1; 3; 4; 5; 9; 70; 90; 100; 120; 200; 300; 400; 1000].

Lemma delta_long_ok : neighbors_ok demo_config delta_long.
Proof. split; [repeat constructor|repeat constructor; discriminate|reflexivity]. Qed.

Lemma delta_short_ok : neighbors_ok demo_config [7; 300].
Proof. split; [repeat constructor|repeat constructor; discriminate|reflexivity]. Qed.

Lemma DeltaEncodeVertex_sound_witness :
  exists E' d, DeltaSIMDEncode_EncodeVertex demo_config (32 * 3) (codec_ := sequential DeltaSIMDCodecV2)
      (H := variant_V2) (replicate 3 (BitSetSIMD_new 96)) 1 delta_long = Some E' /\
    zset (replicate 3 (BitSetSIMD_new 96)) 1 d = Some E' /\
    forall heap v, 1 <= v <= VERTEX_SIZE demo_config ->
      exists t, DeltaSIMDEncode_NonNeighborTest heap (32 * 3) (codec_ := sequential DeltaSIMDCodecV2) E' 1 v = Some t /\
        answers t (v ∈ delta_long) /\
        (DeltaSIMDCodec_GetRequiredBytes (H := DeltaSIMDCodecV2) delta_long <= 4 * 3 - 1 -> t <> Uncertain).
Proof.
  apply (DeltaEncodeVertex_sound demo_config 3 DeltaSIMDCodecV2 _ variant_V2 _ (replicate 3 (BitSetSIMD_new 96)) 1 delta_long).
  - lia.
  - simpl. lia.
  - exact delta_long_ok.
  - reflexivity.
Defined.

Lemma delta_demo_coded :
  exists E, coded (H := sequential DeltaSIMDCodec) 3 E 7 delta_long false /\
    coded (H := sequential DeltaSIMDCodec) 3 E 3 [7; 300] true.
Proof.
  destruct (EncodeVertex_coded demo_config 3 ltac:(lia) ltac:(simpl; lia) DeltaSIMDCodec _ variant_V0 _
    (replicate 11 (BitSetSIMD_new 96)) 3 [7; 300] delta_short_ok eq_refl) as (E1 & d1 & _ & H1 & C1).
  destruct (EncodeVertex_coded demo_config 3 ltac:(lia) ltac:(simpl; lia) DeltaSIMDCodec _ variant_V0 _
    E1 7 delta_long delta_long_ok) as (E2 & d2 & _ & H2 & C2).
  { rewrite (zget_zset _ _ 7 _ _ H1). reflexivity. }
  exists E2. split; [exact C2|]. destruct C1 as (d & Ed & Hd). exists d. split; [|exact Hd].
  rewrite (zget_zset _ _ 3 _ _ H2). exact Ed.
Qed.

Lemma DeltaNEpairTest_sound_witness :
  exists E t, DeltaSIMDEncode_NEpairTest (fun _ => 0) (32 * 3) (codec_ := sequential DeltaSIMDCodec) E 3 7 = Some t /\
    answers t True /\ (true || false = true -> t <> Uncertain).
Proof.
  destruct delta_demo_coded as (E & C7 & C3). exists E.
  apply (DeltaNEpairTest_sound (sequential DeltaSIMDCodec) (fun _ => 0) 3 E 3 7 [7; 300] delta_long true false True).
  - lia.
  - repeat constructor.
  - repeat constructor.
  - exact C3.
  - exact C7.
  - lia.
  - lia.
  - split; [auto|]. split; [auto|]. intros _. apply elem_of_cons. auto.
Defined.

(** * What the code gets wrong *)

(** The destructor of the sized constructor deletes one vector too many. *)
Example SIMDEncode_delete_past_end :
  SIMDEncode_delete (SIMDEncode_sized 96 5) = None /\ is_Some (SIMDEncode_delete (SIMDEncode_default demo_config)).
Proof. split; [vm_compute; reflexivity|]. vm_compute. eauto. Qed.

(** V3 counts hash slots of a block that leaves no free bit: the counter array
    of [HashCount(0)] is empty and is written at index 0. *)
Example HashCount_empty_array :
  HashCount_Construct (HashCount_sized 0 0) [7] = None /\
  DeltaSIMDEncodeV3_EncodeVertex demo_config 96 (codec_ := tree_searched false)
    (replicate 3 (BitSetSIMD_new 96)) 1 (seqZ 1 13) = None.
Proof. split; vm_compute; reflexivity. Qed.

(** V3 writes the announced size of a list that does not fit into the five bits
    of the block size: from 128 bytes on the decodable flag is set, and a
    neighbor that is only hashed is then reported missing. *)
Example SetEncodeSize_sets_flag :
  let N := map (fun x => 300 * x) (seqZ 1 103) in
  let C := default demo_config (InitConfig false 3 40000 76) in
  300 ∈ N /\
  (E ← DeltaSIMDEncodeV3_EncodeVertex C 96 (codec_ := tree_searched false) (replicate 3 (BitSetSIMD_new 96)) 1 N;
   DeltaSIMDEncode_NonNeighborTest (fun _ => 0) 96 (codec_ := tree_searched false) E 1 300) = Some NonNeighbor.
Proof. split; [apply (bool_decide_unpack _); vm_compute; exact I|vm_compute; reflexivity]. Qed.
