(* ===== verification/KCore.v ===== *)
(** The peeling that the builders of the SIMD and compressed encodings share
    ([BuildEncoding] in [src/vend/delta_simd_vend.cpp],
    [src/vend/dir_simd_vend.cpp], [src/vend/range_com_vend.cpp]): vertices whose
    list fits a vector are encoded and filtered out first; their neighbors are
    visited until nothing fits any more; what is left is encoded partially.

    The loops are over the lists of one vertex ([L]: a list, or a pair of lists
    in a directed graph) and the state of the encoding ([S]); a [vector<bool>]
    is a list, an [unordered_set] a finite set with the order in which it is
    iterated as a parameter. The counters that are only printed are left out. *)
From S2P Require Import Prelude Config BitSet Encode.
From stdpp Require Import options.
Local Open Scope Z_scope.
Set Default Proof Using "Type*".

(** * The loops *)

(** [for (neighbor : list) if (!filtered[neighbor]) neighbors.push_back(neighbor)] *)
Fixpoint unfiltered_neighbors (filtered : list bool) (list : list Z) : option (Datatypes.list Z) :=
  match list with
  | [] => Some []
  | neighbor :: list =>
      f ← zget filtered neighbor;
      neighbors ← unfiltered_neighbors filtered list;
      Some (if (f : bool) then neighbors else neighbor :: neighbors)
  end.

Section build.
Context {L S : Type}.
Context (adjacency_list_ : Z -> option L).        (* the lists of a vertex *)
Context (unfiltered : list bool -> L -> option L). (* without the filtered vertices *)
Context (members : L -> list Z).
Context (GetRequired : L -> option Z).
Context (EncodeVertex : S -> Z -> L -> option S).
Context (max_len : Z) (VERTEX_SIZE : Z) (list_size : Z). (* [adjacency_list_->size()] *)
Context (unordered : gset Z -> list Z).            (* the iteration order of a set *)

Record Peel := {
  encodes_ : S;
  filtered : list bool;
  vertices_related : gset Z
}.

(** The vertices whose whole list fits. *)
Definition encode_list : option (list Z) :=
  for_loop (Z.to_nat (list_size - 1)) 1
    (fun id encode_list =>
       list ← adjacency_list_ id;
       len ← GetRequired list;
       Some (if len <=? max_len then encode_list ++ [id] else encode_list)) [].

(** The first round: they are encoded whole. *)
Definition first_round (vertex : Z) (st : Peel) : option Peel :=
  list ← adjacency_list_ vertex;
  E ← EncodeVertex (encodes_ st) vertex list;
  f ← zset (filtered st) vertex true;
  Some {| encodes_ := E; filtered := f; vertices_related := vertices_related st ∪ list_to_set (members list) |}.

(** One vertex of a later round; [vertices_related] is the next list. *)
Definition visit (vertex : Z) (st : Peel) : option Peel :=
  f ← zget (filtered st) vertex;
  if (f : bool) then Some st
  else
    list ← adjacency_list_ vertex;
    neighbors ← unfiltered (filtered st) list;
    len ← GetRequired neighbors;
    if len <=? max_len then
      E ← EncodeVertex (encodes_ st) vertex neighbors;
      f ← zset (filtered st) vertex true;
      Some {| encodes_ := E; filtered := f;
              vertices_related := vertices_related st ∪ list_to_set (members neighbors) |}
    else Some st.

(** [while (!vertices_related.empty())]. A round that leaves a next list has
    filtered a vertex, so the number of vertices is fuel enough. *)
Fixpoint rounds (fuel : nat) (st : Peel) : option Peel :=
  if bool_decide (vertices_related st = ∅) then Some st
  else match fuel with
       | O => None
       | Datatypes.S fuel =>
           st' ← foldM visit (unordered (vertices_related st))
                   {| encodes_ := encodes_ st; filtered := filtered st; vertices_related := ∅ |};
           rounds fuel st'
       end.

(** The vertices left over. *)
Definition encode_rest (filtered : list bool) (vertex : Z) (E : S) : option S :=
  f ← zget filtered vertex;
  if (f : bool) then Some E
  else
    list ← adjacency_list_ vertex;
    neighbors ← unfiltered filtered list;
    EncodeVertex E vertex neighbors.

(** [BuildEncoding]: the encoding and the filtered vertices. *)
Definition BuildEncoding (E : S) : option (S * list bool) :=
  ids ← encode_list;
  st ← foldM first_round ids
         {| encodes_ := E; filtered := replicate (Z.to_nat (VERTEX_SIZE + 1)) false; vertices_related := ∅ |};
  st ← rounds (Z.to_nat (VERTEX_SIZE + 2)) st;
  E ← for_loop (Z.to_nat VERTEX_SIZE) 1 (encode_rest (filtered st)) (encodes_ st);
  Some (E, filtered st).
End build.
Arguments Peel : clear implicits.

(** * What the peeling relies on

    [nb v] are the lists of a vertex, [drop F l] the lists without the vertices
    in [F]; [fresh] and [coded] are what [EncodeVertex] needs and gives. *)

Class PeelLaws {L S : Type} (adjacency_list_ : Z -> option L) (unfiltered : list bool -> L -> option L)
    (members : L -> list Z) (GetRequired : L -> option Z) (EncodeVertex : S -> Z -> L -> option S) (V : Z)
    (nb : Z -> L) (drop : (Z -> bool) -> L -> L) (need : L -> Z) (good : L -> Prop)
    (fresh : S -> Z -> Prop) (coded : S -> Z -> L -> Prop) : Prop := {
  peel_adjacency v : 1 <= v <= V -> adjacency_list_ v = Some (nb v);
  peel_good v : 1 <= v <= V -> good (nb v);
  peel_members l x : good l -> x ∈ members l -> 1 <= x <= V;
  peel_symmetric u v : 1 <= u <= V -> v ∈ members (nb u) -> u ∈ members (nb v);
  peel_unfiltered f l : good l -> Z.of_nat (length f) = V + 1 ->
    unfiltered f l = Some (drop (fun x => default false (zget f x)) l);
  peel_drop_good F l : good l -> good (drop F l);
  peel_drop_none l : drop (fun _ => false) l = l;
  peel_drop_ext F G l : (forall x, x ∈ members l -> F x = G x) -> drop F l = drop G l;
  peel_drop_members F l x : x ∈ members (drop F l) <-> F x = false /\ x ∈ members l;
  peel_required l : good l -> GetRequired l = Some (need l);
  peel_encode E v l : 1 <= v <= V -> good l -> fresh E v ->
    exists E', EncodeVertex E v l = Some E' /\ coded E' v l /\
      (forall w, w <> v -> fresh E w -> fresh E' w) /\
      (forall w l', w <> v -> coded E w l' -> coded E' w l')
}.

Section proofs.
Context {L S : Type} (adjacency_list_ : Z -> option L) (unfiltered : list bool -> L -> option L)
  (members : L -> list Z) (GetRequired : L -> option Z) (EncodeVertex : S -> Z -> L -> option S) (V : Z)
  (nb : Z -> L) (drop : (Z -> bool) -> L -> L) (need : L -> Z) (good : L -> Prop)
  (fresh : S -> Z -> Prop) (coded : S -> Z -> L -> Prop).
Context (laws : PeelLaws adjacency_list_ unfiltered members GetRequired EncodeVertex V nb drop need good fresh coded).
Context (max_len : Z) (HV : 1 <= V).

Definition fits (l : L) : bool := need l <=? max_len.
Definition vertex (v : Z) : Prop := 1 <= v <= V.
Definition gone (f : list bool) (x : Z) : bool := default false (zget f x).

(** The list that [v] encodes when the vertices in [F v] are filtered. *)
Definition left_of (F : Z -> Z -> bool) (v : Z) : L := drop (F v) (nb v).

(** No two vertices leave each other out, and only a filtered one is left out. *)
Definition peeled (f : list bool) (F : Z -> Z -> bool) : Prop :=
  forall u v, vertex u -> vertex v -> F u v = true -> gone f v = true /\ F v u = false.

(** The invariant: [F] says which vertices the code of a filtered vertex leaves
    out. *)
Record peel_inv (st : Peel S) (F : Z -> Z -> bool) : Prop := {
  inv_length : Z.of_nat (length (filtered st)) = V + 1;
  inv_coded v : vertex v -> gone (filtered st) v = true ->
    coded (encodes_ st) v (left_of F v) /\ fits (left_of F v) = true;
  inv_fresh v : vertex v -> gone (filtered st) v = false -> fresh (encodes_ st) v;
  inv_order u v : vertex u -> vertex v -> gone (filtered st) u = true -> F u v = true ->
    gone (filtered st) v = true /\ F v u = false;
  inv_related v : v ∈ vertices_related st -> vertex v
}.

(** A vertex that is neither filtered nor waiting does not fit. *)
Definition pending (st : Peel S) (P : Z -> Prop) : Prop :=
  forall v, vertex v -> gone (filtered st) v = false -> P v \/ fits (drop (gone (filtered st)) (nb v)) = false.

(** The number of vertices not yet filtered. *)
Definition remaining (f : list bool) : nat := length (filter (fun b => b = false) f).

Lemma gone_zset f w f' x : zset f w true = Some f' -> gone f' x = (x =? w) || gone f x.
Proof using Type. intros H. unfold gone. rewrite (zget_zset _ _ x _ _ H). by destruct (x =? w). Qed.

Lemma remaining_zset f w f' :
  zset f w true = Some f' -> gone f w = false -> (remaining f' < remaining f)%nat.
Proof using Type.
  intros [Hw ->]%zset_Some_inv Hg. unfold gone in Hg. rewrite zget_lookup in Hg by lia.
  destruct (lookup_lt_is_Some_2 f (Z.to_nat w)) as [b Hb]; [lia|]. rewrite Hb in Hg. simpl in Hg. subst b.
  unfold remaining. rewrite insert_take_drop by lia. rewrite <- (take_drop_middle f _ _ Hb) at 3.
  rewrite !filter_app, !length_app, (filter_cons_False _ true), (filter_cons_True _ false) by done. simpl. lia.
Qed.

(** Filtering the vertex [w] with the vertices in [Fw] left out. *)
Lemma filter_vertex st F P w Fw (rel := vertices_related st) :
  peel_inv st F -> pending st P -> vertex w -> gone (filtered st) w = false ->
  (forall x, Fw x = true -> gone (filtered st) x = true) -> fits (drop Fw (nb w)) = true ->
  exists E f F', EncodeVertex (encodes_ st) w (drop Fw (nb w)) = Some E /\ zset (filtered st) w true = Some f /\
    let st' := {| encodes_ := E; filtered := f; vertices_related := rel ∪ list_to_set (members (drop Fw (nb w))) |} in
    peel_inv st' F' /\ pending st' (fun x => (P x /\ x <> w) \/ x ∈ members (drop Fw (nb w))) /\
    (remaining f < remaining (filtered st))%nat.
Proof.
  intros [Hl Hc Hf Ho Hr] HP Hw Hgw HFw Hfit.
  assert (good (drop Fw (nb w))) as Hg by (apply peel_drop_good, peel_good; done).
  destruct (peel_encode (encodes_ st) w _ Hw Hg (Hf w Hw Hgw)) as (E & -> & Ecoded & Efresh & Eframe).
  destruct (zset (filtered st) w true) as [f|] eqn:Ef; [|by rewrite zset_Some in Ef by (unfold vertex in Hw; lia)].
  exists E, f, (fun u => if u =? w then Fw else F u). split; [done|]. split; [done|]. cbv zeta.
  assert (forall x, gone f x = (x =? w) || gone (filtered st) x) as Hgone by (intros; by apply gone_zset).
  assert (Fw w = false) as HFww by (destruct (Fw w) eqn:E'; [apply HFw in E'; congruence|done]).
  split; [|split].
  - split; cbn [encodes_ filtered vertices_related].
    + by rewrite (zset_length _ _ _ _ Ef).
    + intros v Hv. rewrite Hgone. unfold left_of. destruct (Z.eqb_spec v w) as [->|Hne]; [done|]. intros Hgv.
      destruct (Hc v Hv Hgv). split; [|done]. by apply Eframe.
    + intros v Hv. rewrite Hgone. destruct (Z.eqb_spec v w); [done|]. intros Hgv. apply Efresh; auto.
    + intros u v Hu Hv. rewrite !Hgone. destruct (Z.eqb_spec u w) as [->|Hu'], (Z.eqb_spec v w) as [->|Hv']; cbn [orb].
      * intros _ H. congruence.
      * intros _ H. split; [by apply HFw|]. destruct (F v w) eqn:E'; [|done].
        destruct (Ho v w Hv Hw (HFw v H) E'). congruence.
      * intros Hgu H. destruct (Ho u w Hu Hw Hgu H). congruence.
      * by apply Ho.
    + intros v. rewrite elem_of_union, elem_of_list_to_set. intros [Hv|Hv]; [by apply Hr|].
      by apply (peel_members (drop Fw (nb w))).
  - intros x Hx. cbn [filtered]. rewrite Hgone. destruct (Z.eqb_spec x w) as [->|Hne]; [done|]. cbn [orb]. intros Hgx.
    destruct (HP x Hx Hgx) as [HPx|Hnofit]; [left; left; done|].
    destruct (decide (w ∈ members (nb x))) as [Hwx|Hwx].
    + left. right. apply peel_drop_members. split; [|by apply (peel_symmetric x w)].
      destruct (Fw x) eqn:E'; [apply HFw in E'; congruence|done].
    + right. rewrite (peel_drop_ext (gone f) (gone (filtered st))); [done|].
      intros y Hy. rewrite Hgone. destruct (Z.eqb_spec y w) as [->|]; done.
  - by apply (remaining_zset _ w).
Qed.

(** One vertex of a round. *)
Lemma visit_ok st F P w :
  peel_inv st F -> pending st P -> vertex w ->
  exists st' F', visit adjacency_list_ unfiltered members GetRequired EncodeVertex max_len w st = Some st' /\
    peel_inv st' F' /\ pending st' (fun x => (P x /\ x <> w) \/ x ∈ vertices_related st') /\
    vertices_related st ⊆ vertices_related st' /\
    (st' = st \/ (remaining (filtered st') < remaining (filtered st))%nat).
Proof.
  intros HI HP Hw. pose proof (inv_length _ _ HI) as Hl. unfold visit.
  destruct (zget_is_Some (filtered st) w) as [b Hb]; [unfold vertex in Hw; lia|]. rewrite Hb. bind_step.
  assert (gone (filtered st) w = b) as Hg by (unfold gone; by rewrite Hb). destruct b.
  { exists st, F. split; [done|]. split; [done|]. split; [|split; [done|by left]].
    intros x Hx Hgx. destruct (HP x Hx Hgx); [|by right]. left. left. split; [done|]. congruence. }
  rewrite (peel_adjacency (PeelLaws := laws) w Hw). bind_step. pose proof (peel_good w Hw) as Hgood.
  rewrite (peel_unfiltered (PeelLaws := laws) _ _ Hgood Hl). bind_step. fold (gone (filtered st)).
  rewrite (peel_required (PeelLaws := laws) _ (peel_drop_good _ _ Hgood)). bind_step.
  fold (fits (drop (gone (filtered st)) (nb w))).
  destruct (fits (drop (gone (filtered st)) (nb w))) eqn:Hfit.
  - destruct (filter_vertex st F P w (gone (filtered st)) HI HP Hw Hg (fun _ H => H) Hfit)
      as (E & f & F' & -> & -> & HI' & HP' & Hrem).
    bind_step. eexists _, F'. split; [done|]. split; [exact HI'|]. split; [|split; [set_solver|by right]].
    intros x Hx Hgx. destruct (HP' x Hx Hgx) as [[?|Hin]|?]; [left; by left| |by right].
    left. right. cbn [vertices_related]. set_solver.
  - exists st, F. split; [done|]. split; [done|]. split; [|split; [done|by left]].
    intros x Hx Hgx. destruct (decide (x = w)) as [->|Hne]; [by right|].
    destruct (HP x Hx Hgx); [left; by left|by right].
Qed.

(** The vertices of the first round are those whose list fits, in order. *)
Lemma encode_list_ok :
  exists ids, encode_list adjacency_list_ GetRequired max_len (V + 1) = Some ids /\ NoDup ids /\
    forall v, v ∈ ids <-> vertex v /\ fits (nb v) = true.
Proof.
  unfold encode_list.
  destruct (for_loop_inv
    (fun i ids => NoDup ids /\ forall v, v ∈ ids <-> 1 <= v < i /\ fits (nb v) = true)
    (fun id ids => list ← adjacency_list_ id; len ← GetRequired list; Some (if len <=? max_len then ids ++ [id] else ids))
    (Z.to_nat (V + 1 - 1)) 1 []) as (ids & -> & Hnd & Hids).
  - split; [constructor|]. intros v. split; [intros Hv; by apply elem_of_nil in Hv|lia].
  - intros i ids Hi [Hnd Hids]. assert (vertex i) as Hv by (unfold vertex; lia).
    rewrite (peel_adjacency (PeelLaws := laws) i Hv). bind_step.
    rewrite (peel_required (PeelLaws := laws) _ (peel_good i Hv)). bind_step. fold (fits (nb i)).
    eexists. split; [done|]. destruct (fits (nb i)) eqn:Hf; split.
    + apply NoDup_app. split; [done|]. split; [|apply NoDup_singleton].
      intros x Hx. rewrite list_elem_of_singleton. apply Hids in Hx. lia.
    + intros v. rewrite elem_of_app, list_elem_of_singleton, Hids. destruct (decide (v = i)) as [->|]; [intuition lia|].
      intuition lia.
    + done.
    + intros v. rewrite Hids. destruct (decide (v = i)) as [->|]; [intuition (congruence || lia)|intuition lia].
  - exists ids. split; [done|]. split; [done|]. intros v. rewrite Hids. unfold vertex. rewrite Z2Nat.id by lia.
    intuition lia.
Qed.

Lemma gone_replicate n x : gone (replicate n false) x = false.
Proof using Type.
  unfold gone. destruct (zget (replicate n false) x) as [b|] eqn:E; [|done].
  apply zget_Some_inv in E as [_ E]. by apply lookup_replicate in E as [-> _].
Qed.

Lemma first_round_ok E ids :
  (forall v, vertex v -> fresh E v) -> NoDup ids -> (forall v, v ∈ ids <-> vertex v /\ fits (nb v) = true) ->
  exists st F, foldM (first_round adjacency_list_ members EncodeVertex) ids
      {| encodes_ := E; filtered := replicate (Z.to_nat (V + 1)) false; vertices_related := ∅ |} = Some st /\
    peel_inv st F /\ pending st (fun x => x ∈ vertices_related st).
Proof.
  intros HE Hnd Hids.
  destruct (foldM_inv
    (fun pre st => exists F, peel_inv st F /\
       (forall x, gone (filtered st) x = true <-> x ∈ pre) /\
       pending st (fun x => (x ∈ ids /\ x ∉ pre) \/ x ∈ vertices_related st))
    (first_round adjacency_list_ members EncodeVertex) ids
    {| encodes_ := E; filtered := replicate (Z.to_nat (V + 1)) false; vertices_related := ∅ |})
    as (st & -> & F & HI & Hpre & HP).
  - exists (fun _ _ => false). split; [|split].
    + split; cbn [encodes_ filtered vertices_related]; try (intros; rewrite gone_replicate in *; done).
      * rewrite length_replicate. lia.
      * intros v. rewrite gone_replicate. auto.
      * intros v Hv. set_solver.
    + intros x. cbn [filtered]. rewrite gone_replicate. split; [done|intros Hx; by apply elem_of_nil in Hx].
    + intros x Hx _. cbn [filtered]. rewrite (peel_drop_ext _ (fun _ => false)) by (intros; apply gone_replicate).
      rewrite peel_drop_none. destruct (fits (nb x)) eqn:Hf; [|by right]. left. left.
      split; [by apply Hids|apply not_elem_of_nil].
  - intros pre w post st Heq (F & HI & Hpre & HP).
    assert (vertex w /\ fits (nb w) = true) as [Hw Hfit].
    { apply Hids. rewrite Heq. apply elem_of_app. right. by left. }
    assert (gone (filtered st) w = false) as Hgw.
    { destruct (gone (filtered st) w) eqn:Eg; [|done]. apply Hpre in Eg. exfalso.
      rewrite Heq in Hnd. apply NoDup_app in Hnd as (_ & Hd & _). apply (Hd w Eg). by left. }
    rewrite <- (peel_drop_none (PeelLaws := laws) (nb w)) in Hfit.
    destruct (filter_vertex st F _ w (fun _ => false) HI HP Hw Hgw ltac:(done) Hfit)
      as (E' & f & F' & HE' & Ef & HI' & HP' & _).
    rewrite (peel_drop_none (PeelLaws := laws)) in HE', HI', HP'.
    unfold first_round. rewrite (peel_adjacency (PeelLaws := laws) w Hw). bind_step. rewrite HE'. bind_step.
    rewrite Ef. bind_step. eexists. split; [done|]. exists F'. split; [exact HI'|]. split.
    + intros x. cbn [filtered]. rewrite (gone_zset _ _ _ x Ef), orb_true_iff, Z.eqb_eq, Hpre, elem_of_app, list_elem_of_singleton.
      tauto.
    + intros x Hx Hgx. destruct (HP' x Hx Hgx) as [[[[[? ?]|?] ?]|?]|?]; [left; left|left; right|left; right|by right];
        cbn [vertices_related]; [|set_solver..].
      split; [done|]. rewrite elem_of_app, list_elem_of_singleton. tauto.
  - exists st, F. split; [done|]. split; [done|]. intros x Hx Hgx.
    destruct (HP x Hx Hgx) as [[[? ?]|?]|?]; [done|by left|by right].
Qed.

(** The last loop. *)
Lemma encode_rest_ok st F :
  peel_inv st F ->
  exists E, for_loop (Z.to_nat V) 1 (encode_rest adjacency_list_ unfiltered EncodeVertex (filtered st)) (encodes_ st) = Some E /\
    forall v, vertex v -> coded E v (left_of (fun u => if gone (filtered st) u then F u else gone (filtered st)) v).
Proof.
  intros [Hl Hc Hf Ho Hr].
  destruct (for_loop_inv
    (fun i E => (forall v, vertex v -> v < i -> coded E v (left_of (fun u => if gone (filtered st) u then F u else gone (filtered st)) v)) /\
       forall v, vertex v -> i <= v -> if gone (filtered st) v then coded E v (left_of F v) else fresh E v)
    (encode_rest adjacency_list_ unfiltered EncodeVertex (filtered st)) (Z.to_nat V) 1 (encodes_ st))
    as (E & HE & Hdone & _).
  - split; [unfold vertex; lia|]. intros v Hv _. destruct (gone (filtered st) v) eqn:Eg; [by apply Hc|by apply Hf].
  - intros i E Hi [Hdone Hrest]. assert (vertex i) as Hv by (unfold vertex; lia). unfold encode_rest.
    destruct (zget_is_Some (filtered st) i) as [b Hb]; [unfold vertex in Hv; lia|]. rewrite Hb. bind_step.
    assert (gone (filtered st) i = b) as Hg by (unfold gone; by rewrite Hb). pose proof (Hrest i Hv ltac:(lia)) as Hi'.
    rewrite Hg in Hi'. destruct b.
    + exists E. split; [done|]. split; [|intros v Hv' ?; apply Hrest; [done|lia]].
      intros v Hv' ?. destruct (decide (v = i)) as [->|]; [|apply Hdone; [done|lia]]. unfold left_of. by rewrite Hg.
    + rewrite (peel_adjacency (PeelLaws := laws) i Hv). bind_step. pose proof (peel_good i Hv) as Hgood.
      rewrite (peel_unfiltered (PeelLaws := laws) _ _ Hgood Hl). bind_step. fold (gone (filtered st)).
      destruct (peel_encode E i (drop (gone (filtered st)) (nb i)) Hv (peel_drop_good _ _ Hgood) Hi')
        as (E' & -> & Hcoded & Hfresh & Hframe).
      exists E'. split; [done|]. split; intros v Hv' ?.
      * destruct (decide (v = i)) as [->|]; [unfold left_of; by rewrite Hg|]. apply Hframe; [done|]. apply Hdone; [done|lia].
      * specialize (Hrest v Hv' ltac:(lia)). destruct (gone (filtered st) v); [apply Hframe|apply Hfresh]; (done || lia).
  - exists E. split; [done|]. intros v Hv. apply Hdone; [done|]. unfold vertex in Hv. lia.
Qed.

Context (unordered : gset Z -> list Z) (Hunordered : forall s x, x ∈ unordered s <-> x ∈ s).

(** A round. *)
Lemma round_ok st F :
  peel_inv st F -> pending st (fun x => x ∈ vertices_related st) ->
  exists st' F', foldM (visit adjacency_list_ unfiltered members GetRequired EncodeVertex max_len)
      (unordered (vertices_related st))
      {| encodes_ := encodes_ st; filtered := filtered st; vertices_related := ∅ |} = Some st' /\
    peel_inv st' F' /\ pending st' (fun x => x ∈ vertices_related st') /\
    (vertices_related st' = ∅ \/ (remaining (filtered st') < remaining (filtered st))%nat).
Proof.
  intros HI HP.
  destruct (foldM_inv
    (fun pre st' => exists F', peel_inv st' F' /\
       pending st' (fun x => (x ∈ vertices_related st /\ x ∉ pre) \/ x ∈ vertices_related st') /\
       (st' = {| encodes_ := encodes_ st; filtered := filtered st; vertices_related := ∅ |} \/
        (remaining (filtered st') < remaining (filtered st))%nat))
    (visit adjacency_list_ unfiltered members GetRequired EncodeVertex max_len)
    (unordered (vertices_related st))
    {| encodes_ := encodes_ st; filtered := filtered st; vertices_related := ∅ |})
    as (st' & E' & F' & HI' & HP' & Hrem).
  - exists F. split; [|split; [|by left]].
    + destruct HI. split; try done.
    + intros x Hx Hgx. destruct (HP x Hx Hgx); [|by right]. left. left. split; [done|]. set_solver.
  - intros pre w post s' Heq (F' & HI' & HP' & Hrem).
    assert (vertex w) as Hw.
    { apply (inv_related _ _ HI), Hunordered. rewrite Heq. apply elem_of_app. right. by left. }
    destruct (visit_ok s' F' _ w HI' HP' Hw) as (s'' & F'' & -> & HI'' & HP'' & Hsub & Hrem').
    exists s''. split; [done|]. exists F''. split; [done|]. split.
    + intros x Hx Hgx. destruct (HP'' x Hx Hgx) as [[[[[? ?]|?] ?]|?]|?]; [|left; right..|by right]; [left; left|set_solver..].
      split; [done|]. rewrite elem_of_app, list_elem_of_singleton. tauto.
    + destruct Hrem' as [->|?]; [done|]. right. destruct Hrem as [->|?]; [done|lia].
  - exists st', F'. split; [done|]. split; [done|]. split.
    + intros x Hx Hgx. destruct (HP' x Hx Hgx) as [[[Hin Hout]|?]|?]; [|by left|by right].
      exfalso. by apply Hout, Hunordered.
    + destruct Hrem as [->|?]; [by left|by right].
Qed.

Lemma rounds_ok fuel st F :
  peel_inv st F -> pending st (fun x => x ∈ vertices_related st) -> (remaining (filtered st) < fuel)%nat ->
  exists st' F', rounds adjacency_list_ unfiltered members GetRequired EncodeVertex max_len unordered fuel st = Some st' /\
    peel_inv st' F' /\ pending st' (fun _ => False).
Proof.
  revert st F. induction fuel as [|fuel IH]; intros st F HI HP Hrem; [lia|]. cbn [rounds].
  destruct (bool_decide_reflect (vertices_related st = ∅)) as [He|He].
  { exists st, F. split; [done|]. split; [done|]. intros x Hx Hgx. rewrite He in HP.
    destruct (HP x Hx Hgx); [set_solver|by right]. }
  destruct (round_ok st F HI HP) as (st1 & F1 & -> & HI1 & HP1 & Hdec). bind_step.
  destruct Hdec as [Hempty|Hdec].
  - exists st1, F1. split; [destruct fuel; cbn [rounds]; by rewrite bool_decide_true|]. split; [done|].
    intros x Hx Hgx. rewrite Hempty in HP1. destruct (HP1 x Hx Hgx); [set_solver|by right].
  - apply (IH st1 F1); [done..|lia].
Qed.

(** The builder terminates, encodes every vertex once, without the vertices
    [F v], and filters exactly the vertices whose remaining list fits. *)
Lemma BuildEncoding_ok E :
  (forall v, vertex v -> fresh E v) ->
  exists E' f F, BuildEncoding adjacency_list_ unfiltered members GetRequired EncodeVertex max_len V (V + 1) unordered E = Some (E', f) /\
    (forall v, vertex v -> coded E' v (left_of F v) /\ fits (left_of F v) = gone f v) /\
    peeled f F /\ (forall v, vertex v -> gone f v = false -> F v = gone f).
Proof.
  intros HE. unfold BuildEncoding. destruct encode_list_ok as (ids & -> & Hnd & Hids). bind_step.
  destruct (first_round_ok E ids HE Hnd Hids) as (st & F & -> & HI & HP). bind_step.
  destruct (rounds_ok (Z.to_nat (V + 2)) st F HI HP) as (st' & F' & -> & HI' & HP').
  { pose proof (inv_length _ _ HI). unfold remaining. pose proof (length_filter (fun b => b = false) (filtered st)). lia. }
  bind_step. destruct (encode_rest_ok st' F' HI') as (E' & -> & Hcoded). bind_step.
  exists E', (filtered st'), (fun u => if gone (filtered st') u then F' u else gone (filtered st')).
  split; [done|]. split; [|split].
  - intros v Hv. split; [by apply Hcoded|]. unfold left_of. destruct (gone (filtered st') v) eqn:Eg.
    + by destruct (inv_coded _ _ HI' v Hv Eg).
    + by destruct (HP' v Hv Eg).
  - intros u v Hu Hv. destruct (gone (filtered st') u) eqn:Egu.
    + intros HF. destruct (inv_order _ _ HI' u v Hu Hv Egu HF) as [Egv HF']. by rewrite Egv.
    + intros Egv. split; [done|]. rewrite Egv. destruct (F' v u) eqn:HF; [|done].
      destruct (inv_order _ _ HI' v u Hv Hu Egv HF). congruence.
  - intros v _ Eg. by rewrite Eg.
Qed.
End proofs.

(** * Undirected graphs: one list per vertex *)

Lemma unfiltered_neighbors_spec f l :
  Forall (fun x => 0 <= x < Z.of_nat (length f)) l ->
  unfiltered_neighbors f l = Some (filter (fun x => default false (zget f x) = false) l).
Proof.
  induction 1 as [|x l Hx Hl IH]; [done|]. cbn [unfiltered_neighbors].
  destruct (zget_is_Some f x Hx) as [b Hb]. rewrite Hb. bind_step. rewrite IH. bind_step.
  destruct b; [rewrite filter_cons_False|rewrite filter_cons_True]; rewrite ?Hb; done.
Qed.

Definition without (F : Z -> bool) (l : list Z) : list Z := filter (fun x => F x = false) l.

Lemma elem_without F l x : x ∈ without F l <-> F x = false /\ x ∈ l.
Proof. unfold without. by rewrite list_elem_of_filter. Qed.

Lemma sorted_without (R : Z -> Z -> Prop) F l : StronglySorted R l -> StronglySorted R (without F l).
Proof.
  unfold without. induction 1 as [|x l Hs IH Hx]; [constructor|]. rewrite filter_cons. case_decide; [|done].
  constructor; [done|]. apply Forall_forall. intros y [_ Hy]%list_elem_of_filter. by apply (proj1 (Forall_forall _ _) Hx).
Qed.

Lemma Forall_without (P : Z -> Prop) F l : Forall P l -> Forall P (without F l).
Proof. intros Hl. apply Forall_forall. intros x [_ Hx]%elem_without. by apply (proj1 (Forall_forall _ _) Hl). Qed.

Lemma length_without F l : (length (without F l) <= length l)%nat.
Proof. apply length_filter. Qed.

Lemma without_none l : without (fun _ => false) l = l.
Proof. unfold without. induction l as [|x l IH]; [done|]. rewrite filter_cons_True by done. by f_equal. Qed.

Lemma without_ext F G l : (forall x, x ∈ l -> F x = G x) -> without F l = without G l.
Proof.
  unfold without. intros HFG. induction l as [|x l IH]; [done|].
  assert (filter (fun x => F x = false) l = filter (fun x => G x = false) l) as IH' by (apply IH; intros; apply HFG; by right).
  pose proof (HFG x ltac:(by left)) as Hx. destruct (F x) eqn:E.
  - by rewrite !filter_cons_False by congruence.
  - rewrite !filter_cons_True by congruence. by f_equal.
Qed.

(** An edge of a peeled graph is covered by the lists that are encoded: [N] and
    [M] are the lists that have its ends. *)
Lemma peeled_covers V f (F : Z -> Z -> bool) (du dv : bool) N M u v :
  1 <= u <= V -> 1 <= v <= V -> peeled V f F ->
  (gone f u = true -> du = true) -> (gone f v = true -> dv = true) -> (v ∈ N <-> u ∈ M) ->
  covers_edge du dv (without (F u) N) (without (F v) M) u v (v ∈ N).
Proof.
  intros Hu Hv Hpeel Hdu Hdv Hedge. unfold covers_edge.
  split; [by intros [_ ?]%elem_without|]. split; [intros [_ ?]%elem_without; by apply Hedge|]. intros Hin.
  pose proof (proj1 Hedge Hin) as Hin'. destruct (F u v) eqn:E1.
  - destruct (Hpeel u v Hu Hv E1) as [Hg E2]. rewrite (Hdv Hg).
    destruct du; rewrite !elem_without; auto.
  - destruct (F v u) eqn:E2; [|destruct du, dv; rewrite ?elem_without; auto].
    destruct (Hpeel v u Hv Hu E2) as [Hg _]. rewrite (Hdu Hg). destruct dv; rewrite !elem_without; auto.
Qed.

Section undirected.
Context {S : Type} (adj : list (list Z)) (GetRequired : list Z -> option Z)
  (EncodeVertex : S -> Z -> list Z -> option S) (V : Z) (need : list Z -> Z) (good : list Z -> Prop)
  (fresh : S -> Z -> Prop) (coded : S -> Z -> list Z -> Prop).

(** A graph: sorted lists of ids, every edge in the lists of both ends. *)
Record graph_ok : Prop := {
  graph_size : Z.of_nat (length adj) = V + 1;
  graph_lists v N : 1 <= v <= V -> zget adj v = Some N -> good N;
  graph_symmetric u v N M : zget adj u = Some N -> zget adj v = Some M -> v ∈ N -> u ∈ M
}.

Definition neighbors (v : Z) : list Z := default [] (zget adj v).

Lemma graph_edge u v :
  graph_ok -> 1 <= u <= V -> 1 <= v <= V -> v ∈ neighbors u <-> u ∈ neighbors v.
Proof using Type.
  intros [Hsize _ Hsym] Hu Hv. unfold neighbors.
  destruct (zget_is_Some adj u) as [N EN]; [lia|]. destruct (zget_is_Some adj v) as [M EM]; [lia|].
  rewrite EN, EM. change (v ∈ N <-> u ∈ M). split; [by apply (Hsym u v N M)|by apply (Hsym v u M N)].
Qed.

Lemma undirected_laws :
  graph_ok -> (forall l, good l -> Forall (fun x => 1 <= x <= V) l) ->
  (forall F l, good l -> good (without F l)) ->
  (forall l, good l -> GetRequired l = Some (need l)) ->
  (forall E v l, 1 <= v <= V -> good l -> fresh E v ->
    exists E', EncodeVertex E v l = Some E' /\ coded E' v l /\
      (forall w, w <> v -> fresh E w -> fresh E' w) /\
      (forall w l', w <> v -> coded E w l' -> coded E' w l')) ->
  PeelLaws (zget adj) unfiltered_neighbors (fun l => l) GetRequired EncodeVertex V neighbors without
    need good fresh coded.
Proof using Type.
  intros [Hsize Hlists Hsym] Hids Hdrop Hreq Henc. split.
  - intros v Hv. unfold neighbors. by destruct (zget_is_Some adj v) as [N ->]; [lia|].
  - intros v Hv. unfold neighbors. destruct (zget_is_Some adj v) as [N EN]; [lia|]. rewrite EN. by apply (Hlists v).
  - intros l x Hl Hx. apply Hids in Hl. by apply (proj1 (Forall_forall _ _) Hl).
  - intros u v Hu Hv. unfold neighbors in *. destruct (zget_is_Some adj u) as [N EN]; [lia|]. rewrite EN in *. change (default [] (Some N)) with N in *.
    pose proof (Hids N (Hlists u N Hu EN)) as HN. rewrite Forall_forall in HN. specialize (HN v Hv).
    destruct (zget_is_Some adj v) as [M EM]; [lia|]. rewrite EM. change (default [] (Some M)) with M. by apply (Hsym u v N M).
  - intros f l Hl Hf. rewrite unfiltered_neighbors_spec; [done|]. eapply Forall_impl; [by apply Hids|]. simpl. lia.
  - done.
  - apply without_none.
  - apply without_ext.
  - apply elem_without.
  - done.
  - done.
Qed.
End undirected.

(** A test is right about the graph, and certain of the filtered vertices. *)
Definition right_tests (adj : list (list Z)) (filt : list bool) (u v : Z) (t : PairType) : Prop :=
  answers t (v ∈ neighbors adj u) /\ (gone filt u || gone filt v = true -> t <> Uncertain).

(** A check of a concrete graph. *)
Definition lists_check (V : Z) (list_check : list Z -> bool) (adj : list (list Z)) : bool :=
  bool_decide (Z.of_nat (length adj) = V + 1) && forallb list_check adj &&
  forallb (fun u => forallb (fun v => match zget adj v with Some M => bool_decide (u ∈ M) | None => true end)
                      (neighbors adj u)) (seqZ 0 (Z.of_nat (length adj))).

Lemma lists_check_ok V list_check (good : list Z -> Prop) adj :
  (forall N, list_check N = true -> good N) -> lists_check V list_check adj = true -> graph_ok adj V good.
Proof.
  intros Hgood. unfold lists_check. rewrite !andb_true_iff, !bool_decide_eq_true, !forallb_forall. intros [[Hs Hl] Hsym]. split; [done| |].
  - intros v N _ [_ HN]%zget_Some_inv. by eapply Hgood, Hl, list_elem_of_In, list_elem_of_lookup_2.
  - intros u v N M EN EM Hv. pose proof (zget_Some_inv _ _ _ EN) as [Hu _].
    specialize (Hsym u ltac:(apply list_elem_of_In, elem_of_seqZ; lia)).
    unfold neighbors in Hsym. rewrite EN in Hsym. rewrite forallb_forall in Hsym.
    specialize (Hsym v ltac:(by apply list_elem_of_In)). rewrite EM in Hsym. by apply bool_decide_eq_true in Hsym.
Qed.

(** * Directed graphs *)

(** The in-lists are the reverse of the out-lists. *)
Record digraph_ok (V : Z) (good : list Z -> Prop) (adj in_adj : list (list Z)) : Prop := {
  digraph_size : Z.of_nat (length adj) = V + 1;
  digraph_in_size : Z.of_nat (length in_adj) = V + 1;
  digraph_lists v N : 1 <= v <= V -> zget adj v = Some N \/ zget in_adj v = Some N -> good N;
  digraph_reverse u v : 1 <= u <= V -> 1 <= v <= V -> v ∈ neighbors adj u <-> u ∈ neighbors in_adj v
}.

(** A check of a concrete digraph. *)
Definition digraph_check (V : Z) (list_check : list Z -> bool) (adj in_adj : list (list Z)) : bool :=
  bool_decide (Z.of_nat (length adj) = V + 1) && bool_decide (Z.of_nat (length in_adj) = V + 1) &&
  forallb list_check adj && forallb list_check in_adj &&
  forallb (fun u => forallb (fun v => Bool.eqb (bool_decide (v ∈ neighbors adj u)) (bool_decide (u ∈ neighbors in_adj v)))
                      (seqZ 1 V)) (seqZ 1 V).

Lemma digraph_check_ok V list_check (good : list Z -> Prop) adj in_adj :
  (forall N, list_check N = true -> good N) -> digraph_check V list_check adj in_adj = true -> digraph_ok V good adj in_adj.
Proof.
  intros Hcheck. unfold digraph_check. rewrite !andb_true_iff, !bool_decide_eq_true, !forallb_forall. intros [[[[H1 H2] Ho] Hi] Hr].
  split; [done|done| |].
  - intros v N _ [[_ HN]%zget_Some_inv|[_ HN]%zget_Some_inv]; apply Hcheck;
      [apply Ho|apply Hi]; by eapply list_elem_of_In, list_elem_of_lookup_2.
  - intros u v Hu Hv. specialize (Hr u ltac:(apply list_elem_of_In, elem_of_seqZ; lia)).
    rewrite forallb_forall in Hr. specialize (Hr v ltac:(apply list_elem_of_In, elem_of_seqZ; lia)).
    apply Bool.eqb_prop in Hr. rewrite <- (bool_decide_eq_true (v ∈ _)), <- (bool_decide_eq_true (u ∈ _)). by rewrite Hr.
Qed.
