(* ===== verification/DegreeOrder.v ===== *)
(** The vertices in the order of their degrees: the arrays and loops that the
    builders of [RangeVend] ([src/vend/range_vend.cpp]) and
    [Directed_Hyb_Vend] ([src/vend/dir_hyb_vend.cpp]) share. The vertices are
    kept in an array ordered by degree, with the first place of every degree in
    [bin]; those of small degree are encoded in turn, the degrees of their
    neighbors going down; then the others are.

    What a builder does with one vertex is a parameter, since one reads a list
    and the other two; what the proofs need of it is the class [BuildLaws].
    [std::sort] with a comparison of keys is a parameter too: it is free to
    order equal keys as it likes. *)
From S2P Require Import Prelude Config BitSet Encode KCore.
From stdpp Require Import options.
Local Open Scope Z_scope.
Set Default Proof Using "Type*".

Section DegreeOrder.
Context (C : Config).
Context (std_sort : (Z -> Z) -> list Z -> list Z).

(** The arrays of the builder. *)
Record Bins := {
  degrees : list Z;
  pos : list Z;
  vert : list Z;
  bin : list Z
}.

Definition zeros : list Z := replicate (Z.to_nat (VERTEX_SIZE C + 1)) 0.

Definition sort_vertices (degrees vert : list Z) : list Z :=
  take 1 vert ++ std_sort (fun v => default 0 (zget degrees v)) (drop 1 vert).

(** The places, and the first place of every degree that occurs. *)
Definition place_step (i : Z) (st : Bins * Z) : option (Bins * Z) :=
  let '(b, j) := st in
  v ← zget (vert b) i; degree ← zget (degrees b) v; pos' ← zset (pos b) v i;
  if j <? degree then
    bin' ← zset (bin b) degree i;
    Some ({| degrees := degrees b; pos := pos'; vert := vert b; bin := bin' |}, degree)
  else Some ({| degrees := degrees b; pos := pos'; vert := vert b; bin := bin b |}, j).

Definition place_vertices (b : Bins) : option Bins :=
  '(b, _) ← for_loop (Z.to_nat (VERTEX_SIZE C)) 1 place_step (b, 0);
  Some b.

(** The degrees that do not occur: the first of a gap gets the place behind the
    first of the degree before, the others the same. *)
Fixpoint fill_gap (fuel : nat) (bin : list Z) (j : Z) : option (list Z * Z) :=
  match fuel with
  | O => None
  | Datatypes.S fuel =>
      let j := j + 1 in
      x ← zget bin j;
      if x =? 0 then before ← zget bin (j - 1); bin ← zset bin j before; fill_gap fuel bin j
      else Some (bin, j)
  end.

Fixpoint fill_bins (fuel : nat) (bin : list Z) (j max_degree : Z) : option (list Z) :=
  if j <=? max_degree then
    match fuel with
    | O => None
    | Datatypes.S fuel' =>
        x ← zget bin j;
        if x =? 0 then
          before ← zget bin (j - 1);
          bin ← zset bin j (u32 (before + 1));
          '(bin, j) ← fill_gap fuel bin j;
          fill_bins fuel' bin (j + 1) max_degree
        else fill_bins fuel' bin (j + 1) max_degree
    end
  else Some bin.

(** One neighbor of the vertex in turn. *)
Definition lower_neighbor (vertex_degree neighbor : Z) (b : Bins) : option Bins :=
  neighbor_degree ← zget (degrees b) neighbor;
  neighbor_pos ← zget (pos b) neighbor;
  first_bin_pos ← zget (bin b) neighbor_degree;
  first_bin ← zget (vert b) first_bin_pos;
  if neighbor_degree <=? vertex_degree then Some b
  else
    '(pos', vert') ←
      (if negb (first_bin_pos =? neighbor_pos) then
         pos' ← zset (pos b) neighbor first_bin_pos;
         pos' ← zset pos' first_bin neighbor_pos;
         vert' ← zset (vert b) neighbor_pos first_bin;
         vert' ← zset vert' first_bin_pos neighbor;
         Some (pos', vert')
       else Some (pos b, vert b));
    bin' ← zset (bin b) neighbor_degree (u32 (first_bin_pos + 1));
    degrees' ← zset (degrees b) neighbor (u32 (neighbor_degree - 1));
    Some {| degrees := degrees'; pos := pos'; vert := vert'; bin := bin' |}.

Definition neighbor_step (filtered : list bool) (vertex_degree neighbor : Z) (st : Bins * list Z)
  : option (Bins * list Z) :=
  let '(b, neighbors) := st in
  f ← zget filtered neighbor;
  if (f : bool) then Some st
  else b ← lower_neighbor vertex_degree neighbor b; Some (b, neighbors ++ [neighbor]).

(** The vertices of small degree; a turn goes one place up, so the number of
    places is fuel enough. [step] is a turn: the vertex at the place [idx]. *)
Fixpoint core_loop {S} (step : Z -> Bins -> list bool -> S -> option (Bins * list bool * S)) (fuel : nat) (max_kcore idx : Z)
    (b : Bins) (filtered : list bool) (E : S) : option (Z * Bins * list bool * S) :=
  bound ← zget (bin b) (max_kcore + 1);
  if idx <? bound then
    match fuel with
    | O => None
    | Datatypes.S fuel =>
        '(b, filtered, E) ← step idx b filtered E;
        core_loop step fuel max_kcore (idx + 1) b filtered E
    end
  else Some (idx, b, filtered, E).

(** The builder behind the degrees: the vertices are sorted, those of small
    degree are encoded and filtered, and then the others are encoded, with
    [rest]. The result is the filtered vertices and the encoding. *)
Definition degree_build {S} (step : Z -> Bins -> list bool -> S -> option (Bins * list bool * S))
    (rest : list bool -> list Z -> Z -> S -> option S) (GetIntSize : Z) (degs ids : list Z) (max_degree : Z) (E : S)
  : option (list bool * S) :=
  b ← place_vertices {| degrees := degs; pos := zeros; vert := sort_vertices degs ids;
                        bin := replicate (Z.to_nat (max_degree + 1)) 0 |};
  filled ← fill_bins (length (bin b)) (bin b) 1 max_degree;
  '(idx, b, filtered, E) ← core_loop step (Datatypes.S (length (pos b))) GetIntSize 0
     {| degrees := degs; pos := pos b; vert := vert b; bin := filled |}
     (replicate (Z.to_nat (VERTEX_SIZE C + 1)) false) E;
  E ← for_loop (Z.to_nat (VERTEX_SIZE C + 1 - idx)) idx (rest filtered (vert b)) E;
  Some (filtered, E).
End DegreeOrder.

(** * Proofs: the arrays *)

Definition at_ (l : list Z) (i : Z) : Z := default 0 (zget l i).

Lemma zget_at l i : 0 <= i < Z.of_nat (length l) -> zget l i = Some (at_ l i).
Proof. intros Hi. unfold at_. by destruct (zget_is_Some l i Hi) as [x ->]. Qed.

Lemma zset_at l i x :
  0 <= i < Z.of_nat (length l) ->
  exists l', zset l i x = Some l' /\ length l' = length l /\ forall j, at_ l' j = if j =? i then x else at_ l j.
Proof.
  intros Hi. eexists. rewrite zset_Some by done. split; [done|]. split; [apply length_insert|].
  intros j. unfold at_. rewrite (zget_zset l i j x _ (zset_Some l i x Hi)). by destruct (j =? i).
Qed.

Section bins.
Context (V D : Z) (HV : 1 <= V < 2 ^ 31) (HD : 0 <= D < 2 ^ 32).

(** The degree at a place. *)
Definition dp (b : Bins) (p : Z) : Z := at_ (degrees b) (at_ (vert b) p).

(** The arrays hold the vertices in the order of their degrees. *)
Record bins_ok (b : Bins) : Prop := {
  bo_degrees : Z.of_nat (length (degrees b)) = V + 1;
  bo_pos : Z.of_nat (length (pos b)) = V + 1;
  bo_vert : Z.of_nat (length (vert b)) = V + 1;
  bo_bin : Z.of_nat (length (bin b)) = D + 1;
  bo_place p : 0 <= p <= V -> 0 <= at_ (vert b) p <= V /\ at_ (pos b) (at_ (vert b) p) = p;
  bo_vertex v : 0 <= v <= V -> 0 <= at_ (pos b) v <= V /\ at_ (vert b) (at_ (pos b) v) = v;
  bo_range v : 0 <= v <= V -> 0 <= at_ (degrees b) v <= D;
  bo_sorted p q : 0 <= p <= q -> q <= V -> dp b p <= dp b q
}.

(** [bin] holds the first place of every degree above [du]; what it holds of
    the others is not beyond [idx]. *)
Definition thresholds (b : Bins) (idx du : Z) : Prop :=
  forall d, 0 <= d <= D -> 0 <= at_ (bin b) d <= V + 1 /\
    (d <= du -> at_ (bin b) d <= idx) /\
    (du < d -> forall p, 0 <= p <= V -> p < at_ (bin b) d <-> dp b p < d).

Lemma dp_pos b v : bins_ok b -> 0 <= v <= V -> dp b (at_ (pos b) v) = at_ (degrees b) v.
Proof using Type. intros Hb Hv. unfold dp. by rewrite (proj2 (bo_vertex b Hb v Hv)). Qed.

(** The places up to the current one do not change. *)
Definition same_places (b b' : Bins) (idx : Z) : Prop :=
  forall p, 0 <= p <= idx -> p <= V -> at_ (vert b') p = at_ (vert b) p.

Lemma same_places_pos b b' idx v :
  bins_ok b -> bins_ok b' -> same_places b b' idx -> 0 <= v <= V ->
  (at_ (pos b) v <= idx -> at_ (pos b') v = at_ (pos b) v) /\ (idx < at_ (pos b) v -> idx < at_ (pos b') v).
Proof using Type.
  intros Hb Hb' Hs Hv. destruct (bo_vertex b Hb v Hv) as [Hp Hpv]. destruct (bo_vertex b' Hb' v Hv) as [Hp' Hpv'].
  split; intros H.
  - pose proof (Hs (at_ (pos b) v) ltac:(lia) ltac:(lia)) as E. rewrite Hpv in E.
    pose proof (proj2 (bo_place b' Hb' (at_ (pos b) v) ltac:(lia))) as E'. by rewrite E in E'.
  - destruct (Z.ltb_spec idx (at_ (pos b') v)); [done|]. pose proof (Hs (at_ (pos b') v) ltac:(lia) ltac:(lia)) as E.
    rewrite Hpv' in E. pose proof (proj2 (bo_place b Hb (at_ (pos b') v) ltac:(lia))) as E'. rewrite <- E in E'. lia.
Qed.

(** The exchange of two vertices. *)
Lemma swap_places b b' x y :
  bins_ok b -> 0 <= x <= V -> 0 <= y <= V ->
  Z.of_nat (length (pos b')) = V + 1 -> Z.of_nat (length (vert b')) = V + 1 ->
  (forall v, at_ (pos b') v = if v =? y then at_ (pos b) x else if v =? x then at_ (pos b) y else at_ (pos b) v) ->
  (forall p, at_ (vert b') p = if p =? at_ (pos b) y then x else if p =? at_ (pos b) x then y else at_ (vert b) p) ->
  (forall p, 0 <= p <= V -> 0 <= at_ (vert b') p <= V /\ at_ (pos b') (at_ (vert b') p) = p) /\
  (forall v, 0 <= v <= V -> 0 <= at_ (pos b') v <= V /\ at_ (vert b') (at_ (pos b') v) = v).
Proof using Type.
  intros Hb Hx Hy _ _ Hpos Hvert.
  pose proof (bo_vertex b Hb x Hx) as [Hpx Hvx]. pose proof (bo_vertex b Hb y Hy) as [Hpy Hvy].
  split.
  - intros p Hp. pose proof (bo_place b Hb p Hp) as [Hv Hpv]. rewrite Hvert, Hpos.
    destruct (Z.eqb_spec p (at_ (pos b) y)) as [->|Hne1]; [|destruct (Z.eqb_spec p (at_ (pos b) x)) as [->|Hne2]].
    + destruct (Z.eqb_spec x y) as [->|]; [done|]. by rewrite Z.eqb_refl.
    + by rewrite Z.eqb_refl.
    + destruct (Z.eqb_spec (at_ (vert b) p) y) as [E|_]; [congruence|].
      destruct (Z.eqb_spec (at_ (vert b) p) x) as [E|_]; [congruence|]. done.
  - intros v Hv. pose proof (bo_vertex b Hb v Hv) as [Hp Hpv]. rewrite Hpos, Hvert.
    destruct (Z.eqb_spec v y) as [->|Hne1]; [|destruct (Z.eqb_spec v x) as [->|Hne2]].
    + destruct (Z.eqb_spec (at_ (pos b) x) (at_ (pos b) y)) as [E|_].
      * split; [done|]. congruence.
      * by rewrite Z.eqb_refl.
    + by rewrite Z.eqb_refl.
    + destruct (Z.eqb_spec (at_ (pos b) v) (at_ (pos b) y)) as [E|_]; [congruence|].
      destruct (Z.eqb_spec (at_ (pos b) v) (at_ (pos b) x)) as [E|_]; [congruence|]. done.
Qed.

(** A vertex whose degree goes down moves to the first place of its degree. *)
Lemma move_vertex b x fp :
  bins_ok b -> 0 <= x <= V -> 0 <= fp <= V ->
  exists pos' vert',
    (if negb (fp =? at_ (pos b) x) then
       pos' ← zset (pos b) x fp;
       pos' ← zset pos' (at_ (vert b) fp) (at_ (pos b) x);
       vert' ← zset (vert b) (at_ (pos b) x) (at_ (vert b) fp);
       vert' ← zset vert' fp x;
       Some (pos', vert')
     else Some (pos b, vert b)) = Some (pos', vert') /\
    Z.of_nat (length pos') = V + 1 /\ Z.of_nat (length vert') = V + 1 /\
    (forall v, at_ pos' v = if v =? at_ (vert b) fp then at_ (pos b) x else if v =? x then fp else at_ (pos b) v) /\
    (forall p, at_ vert' p = if p =? fp then x else if p =? at_ (pos b) x then at_ (vert b) fp else at_ (vert b) p).
Proof.
  intros Hb Hx Hfp. destruct (bo_vertex b Hb x Hx) as [Hnp Hvx]. destruct (bo_place b Hb fp Hfp) as [Hfb Hpf].
  pose proof (bo_pos b Hb) as Hlp. pose proof (bo_vert b Hb) as Hlv.
  destruct (Z.eqb_spec fp (at_ (pos b) x)) as [E|Hne]; cbn [negb].
  - exists (pos b), (vert b). split; [done|]. split; [done|]. split; [done|]. split.
    + intros v. rewrite E, Hvx. destruct (Z.eqb_spec v x) as [->|]; done.
    + intros p. destruct (Z.eqb_spec p fp) as [->|]; [by rewrite E|]. by rewrite <- E, (proj2 (Z.eqb_neq p fp)) by done.
  - destruct (zset_at (pos b) x fp) as (pos1 & -> & Hl1 & H1); [lia|]. bind_step.
    destruct (zset_at pos1 (at_ (vert b) fp) (at_ (pos b) x)) as (pos2 & -> & Hl2 & H2); [lia|]. bind_step.
    destruct (zset_at (vert b) (at_ (pos b) x) (at_ (vert b) fp)) as (vert1 & -> & Hl3 & H3); [lia|]. bind_step.
    destruct (zset_at vert1 fp x) as (vert2 & -> & Hl4 & H4); [lia|]. bind_step.
    exists pos2, vert2. split; [done|]. split; [lia|]. split; [lia|]. split.
    + intros v. by rewrite H2, H1.
    + intros p. by rewrite H4, H3.
Qed.

Lemma lower_neighbor_ok b idx x du :
  bins_ok b -> thresholds b idx du -> 0 <= idx <= V -> dp b idx = du -> 0 <= x <= V -> idx <= at_ (pos b) x ->
  exists b', lower_neighbor du x b = Some b' /\ bins_ok b' /\ thresholds b' idx du /\ same_places b b' idx /\
    forall v, at_ (degrees b') v =
      if (v =? x) && (du <? at_ (degrees b) x) then at_ (degrees b) x - 1 else at_ (degrees b) v.
Proof.
  intros Hb Ht Hidx Hdu Hx Hpx. destruct (bo_vertex b Hb x Hx) as [Hnp Hvx]. pose proof (bo_range b Hb x Hx) as Hnd.
  pose proof (dp_pos b x Hb Hx) as Hdx. pose proof (bo_sorted b Hb idx (at_ (pos b) x) ltac:(lia) ltac:(lia)) as Hle.
  pose proof (bo_degrees b Hb). pose proof (bo_pos b Hb). pose proof (bo_vert b Hb). pose proof (bo_bin b Hb).
  set (nd := at_ (degrees b) x) in *. set (fp := at_ (bin b) nd). destruct (Ht nd Hnd) as (Hfp & Hlow & Hthr). fold fp in Hfp, Hlow, Hthr.
  unfold lower_neighbor. rewrite (zget_at (degrees b)) by lia. fold nd. bind_step. rewrite (zget_at (pos b)) by lia. bind_step.
  rewrite (zget_at (bin b)) by lia. fold fp. bind_step. assert (0 <= fp <= V) as Hfp'.
  { destruct (Z.leb_spec nd du) as [Hsmall|Hbig]; [lia|]. pose proof (proj1 (Hthr Hbig (at_ (pos b) x) Hnp)) as Hx'. lia. }
  rewrite (zget_at (vert b)) by lia. bind_step. destruct (Z.leb_spec nd du) as [Hsmall|Hbig].
  { exists b. split; [done|]. split; [done|]. split; [done|]. split; [done|]. intros v.
    rewrite (proj2 (Z.ltb_ge du nd)) by lia. by rewrite andb_false_r. }
  specialize (Hthr Hbig).
  assert (fp <= at_ (pos b) x) as Hfx by (destruct (Z.ltb_spec (at_ (pos b) x) fp) as [Hl|]; [apply Hthr in Hl; lia|done]).
  assert (idx < fp) as Hif by (apply Hthr; lia).
  assert (dp b fp = nd) as Hdfp.
  { pose proof (bo_sorted b Hb fp (at_ (pos b) x) ltac:(lia) ltac:(lia)). pose proof (proj2 (Hthr fp ltac:(lia))). lia. }
  destruct (move_vertex b x fp Hb Hx Hfp') as (pos' & vert' & -> & Hlp & Hlv & Hpos & Hvert). bind_step.
  destruct (zset_at (bin b) nd (u32 (fp + 1))) as (bin' & -> & Hlb & Hbin); [lia|]. bind_step.
  destruct (zset_at (degrees b) x (u32 (nd - 1))) as (deg' & -> & Hld & Hdeg); [lia|]. bind_step.
  assert (0 <= du) as Hdu0 by (subst du; apply (bo_range b Hb), (bo_place b Hb); done).
  rewrite u32_small in Hbin, Hdeg by lia. eexists. split; [done|].
  set (b' := {| degrees := deg'; pos := pos'; vert := vert'; bin := bin' |}).
  pose proof (bo_place b Hb fp Hfp') as [Hfb Hpfb].
  assert (forall p, 0 <= p <= V -> dp b' p = if p =? fp then nd - 1 else dp b p) as Hdp.
  { intros p Hp. unfold dp at 1. cbn [degrees vert b']. rewrite Hdeg, Hvert.
    destruct (Z.eqb_spec p fp) as [->|Hne]; [by rewrite Z.eqb_refl|].
    destruct (Z.eqb_spec p (at_ (pos b) x)) as [->|Hne'].
    - destruct (Z.eqb_spec (at_ (vert b) fp) x) as [E|_]; [rewrite E in Hpfb; congruence|]. fold (dp b fp). lia.
    - destruct (Z.eqb_spec (at_ (vert b) p) x) as [E|_]; [|done]. pose proof (proj2 (bo_place b Hb p Hp)). congruence. }
  destruct (swap_places b b' x (at_ (vert b) fp) Hb Hx Hfb Hlp Hlv) as [Hplace Hvertex].
  { intros v. cbn [pos b']. by rewrite Hpos, Hpfb. }
  { intros p. cbn [vert b']. by rewrite Hvert, Hpfb. }
  split; [|split; [|split]].
  - split; cbn [degrees pos vert bin b']; try lia; [done..| |].
    + intros v Hv. rewrite Hdeg. destruct (v =? x); [lia|by apply (bo_range b Hb)].
    + intros p q Hp Hq. rewrite !Hdp by lia. pose proof (bo_sorted b Hb p q Hp Hq).
      destruct (Z.eqb_spec p fp) as [->|], (Z.eqb_spec q fp) as [->|]; try lia.
      pose proof (proj1 (Hthr p ltac:(lia)) ltac:(lia)). lia.
  - intros d Hd. destruct (Ht d Hd) as (Hd1 & Hd2 & Hd3). cbn [bin b']. rewrite Hbin.
    destruct (Z.eqb_spec d nd) as [->|Hne].
    + split; [lia|]. split; [lia|]. intros _ p Hp. rewrite Hdp by done. pose proof (Hthr p Hp).
      destruct (Z.eqb_spec p fp) as [->|]; lia.
    + split; [done|]. split; [done|]. intros Hd' p Hp. rewrite Hdp by done. rewrite (Hd3 Hd' p Hp).
      destruct (Z.eqb_spec p fp) as [->|]; lia.
  - intros p Hp HpV. cbn [vert b']. rewrite Hvert. rewrite !(proj2 (Z.eqb_neq p _)) by lia. done.
  - intros v. cbn [degrees b']. rewrite Hdeg. rewrite (proj2 (Z.ltb_lt du nd)) by lia. rewrite andb_true_r.
    by destruct (Z.eqb_spec v x) as [->|].
Qed.

Lemma same_places_trans b1 b2 b3 idx : same_places b1 b2 idx -> same_places b2 b3 idx -> same_places b1 b3 idx.
Proof using Type. intros H12 H23 p Hp HpV. by rewrite H23, H12. Qed.

(** How often a vertex is in a list, and what a degree becomes when the vertex
    is met so often. *)
Definition occ (x : Z) (l : list Z) : Z := Z.of_nat (count_occ Z.eq_dec l x).
Definition lowered (du d n : Z) : Z := if du <? d then Z.max du (d - n) else d.

Lemma occ_app x l1 l2 : occ x (l1 ++ l2) = occ x l1 + occ x l2.
Proof using Type. unfold occ. rewrite count_occ_app. lia. Qed.
Lemma occ_cons x y l : occ x (y :: l) = (if x =? y then 1 else 0) + occ x l.
Proof using Type. unfold occ. cbn [count_occ]. destruct (Z.eq_dec y x), (Z.eqb_spec x y); subst; try done; lia. Qed.
Lemma occ_nonneg x l : 0 <= occ x l.
Proof using Type. unfold occ. lia. Qed.
Lemma occ_notin x l : x ∉ l -> occ x l = 0.
Proof using Type. intros Hx. unfold occ. rewrite (proj1 (count_occ_not_In Z.eq_dec l x)); [done|]. by rewrite <- list_elem_of_In. Qed.
Lemma lowered_0 du d : lowered du d 0 = d.
Proof using Type. unfold lowered. destruct (Z.ltb_spec du d); lia. Qed.
Lemma lowered_add du d n m : 0 <= n -> 0 <= m -> lowered du (lowered du d n) m = lowered du d (n + m).
Proof using Type.
  intros Hn Hm. unfold lowered. destruct (Z.ltb_spec du d); [|by rewrite (proj2 (Z.ltb_ge du d)) by lia].
  destruct (Z.ltb_spec du (Z.max du (d - n))); lia.
Qed.

Lemma without_snoc F l x : without F (l ++ [x]) = without F l ++ (if F x then [] else [x]).
Proof using Type.
  unfold without. rewrite filter_app. f_equal. destruct (F x) eqn:E; [by rewrite filter_cons_False by congruence|].
  by rewrite filter_cons_True.
Qed.

(** The neighbors of the vertex in turn: the ones that are left go down. *)
Lemma neighbors_step_ok b (filt : list bool) idx du l acc :
  bins_ok b -> thresholds b idx du -> 0 <= idx <= V -> dp b idx = du ->
  Z.of_nat (length filt) = V + 1 -> (forall x, 0 <= x <= V -> gone filt x = (at_ (pos b) x <? idx)) ->
  Forall (fun x => 1 <= x <= V) l ->
  exists b', foldM (neighbor_step filt du) l (b, acc) = Some (b', acc ++ without (gone filt) l) /\
    bins_ok b' /\ thresholds b' idx du /\ same_places b b' idx /\
    forall v, at_ (degrees b') v = lowered du (at_ (degrees b) v) (occ v (without (gone filt) l)).
Proof.
  intros Hb Ht Hidx Hdu Hlf Hgone Hids.
  destruct (foldM_inv (fun pre st => st.2 = acc ++ without (gone filt) pre /\ bins_ok st.1 /\ thresholds st.1 idx du /\
      same_places b st.1 idx /\ forall v, at_ (degrees st.1) v = lowered du (at_ (degrees b) v) (occ v (without (gone filt) pre)))
    (neighbor_step filt du) l (b, acc)) as ([b' ns] & -> & Hns & Hrest).
  - cbn [fst snd]. split; [symmetry; apply app_nil_r|]. split; [done|]. split; [done|]. split; [done|].
    intros v. by rewrite lowered_0.
  - intros pre x post [b1 ns] Heq (Hns & Hb1 & Ht1 & Hs1 & Hd1). cbn [fst snd] in *. subst ns.
    assert (1 <= x <= V) as Hx by (apply (proj1 (Forall_forall _ _) Hids x); rewrite Heq; apply elem_of_app; right; by left).
    unfold neighbor_step. destruct (zget_is_Some filt x) as [f Ef]; [lia|]. rewrite Ef. bind_step.
    assert (gone filt x = f) as Hf by (unfold gone; by rewrite Ef). rewrite without_snoc, Hf. destruct f.
    { eexists. split; [done|]. cbn [fst snd]. rewrite app_nil_r. auto. }
    rewrite (Hgone x) in Hf by lia. apply Z.ltb_ge in Hf.
    assert (idx <= at_ (pos b1) x) as Hpx.
    { destruct (same_places_pos b b1 idx x Hb Hb1 Hs1 ltac:(lia)) as [H1 H2]. destruct (decide (at_ (pos b) x = idx)); [rewrite H1; lia|].
      specialize (H2 ltac:(lia)). lia. }
    assert (dp b1 idx = du) as Hdu1.
    { unfold dp. rewrite (Hs1 idx) by lia. rewrite Hd1. unfold dp in Hdu. rewrite Hdu. unfold lowered. by rewrite Z.ltb_irrefl. }
    destruct (lower_neighbor_ok b1 idx x du Hb1 Ht1 Hidx Hdu1 ltac:(lia) Hpx) as (b2 & -> & Hb2 & Ht2 & Hs2 & Hd2). bind_step.
    eexists. split; [done|]. cbn [fst snd]. split; [by rewrite app_assoc|]. split; [done|]. split; [done|]. split; [by eapply same_places_trans|].
    intros v. rewrite Hd2, occ_app, <- (lowered_add _ _ _ (occ v [x])), <- Hd1 by apply occ_nonneg. rewrite occ_cons. change (occ v []) with 0.
    destruct (Z.eqb_spec v x) as [->|]; cbn [andb]; [|by rewrite lowered_0].
    unfold lowered. destruct (Z.ltb_spec du (at_ (degrees b1) x)); lia.
  - cbn [fst snd] in *. subst ns. exists b'. split; [done|]. exact Hrest.
Qed.
End bins.

(** * Proofs: the loops *)

(** What the loops need of a builder. [nb v] are the lists of a vertex,
    [members] the vertices in them, one behind the other, [omit F] the lists
    without the vertices in [F]. A turn lowers the degrees of the members that
    are left, marks its vertex and encodes it; a vertex that has not been encoded
    ([fresh]) can be, and the others are left as they were. *)
Class BuildLaws {L S : Type} (V D : Z) (nb : Z -> L) (members : L -> list Z) (omit : (Z -> bool) -> L -> L)
    (fresh : S -> Z -> Prop) (coded : S -> Z -> L -> Prop)
    (step : Z -> Bins -> list bool -> S -> option (Bins * list bool * S))
    (rest : list bool -> list Z -> Z -> S -> option S) : Prop := {
  build_ids v x : 0 <= v <= V -> x ∈ members (nb v) -> 1 <= x <= V;
  build_zero : members (nb 0) = [];
  build_symmetric u v : 1 <= u <= V -> 1 <= v <= V -> occ v (members (nb u)) = occ u (members (nb v));
  build_omit F l : members (omit F l) = without F (members l);
  build_omit_ext F G l : (forall x, x ∈ members l -> F x = G x) -> omit F l = omit G l;
  build_step idx b filt E (u := at_ (vert b) idx) (du := dp b idx) :
    bins_ok V D b -> thresholds V D b idx du -> 0 <= idx <= V -> 0 <= u <= V -> Z.of_nat (length filt) = V + 1 ->
    (forall x, 0 <= x <= V -> gone filt x = (at_ (pos b) x <? idx)) -> fresh E u ->
    exists b' filt' E', step idx b filt E = Some (b', filt', E') /\ zset filt u true = Some filt' /\
      (bins_ok V D b' /\ thresholds V D b' idx du /\ same_places V b b' idx /\
       forall v, at_ (degrees b') v = lowered du (at_ (degrees b) v) (occ v (without (gone filt) (members (nb u))))) /\
      coded E' u (omit (gone filt) (nb u)) /\
      (forall w, w <> u -> fresh E w -> fresh E' w) /\ (forall w l', w <> u -> coded E w l' -> coded E' w l');
  build_rest filt vert idx E u :
    zget vert idx = Some u -> 0 <= u <= V -> Z.of_nat (length filt) = V + 1 -> fresh E u ->
    exists E', rest filt vert idx E = Some E' /\ coded E' u (omit (gone filt) (nb u)) /\
      (forall w, w <> u -> fresh E w -> fresh E' w) /\ (forall w l', w <> u -> coded E w l' -> coded E' w l')
}.

(** Every degree from 1 to the largest occurs. *)
Definition all_degrees (V D : Z) (size_of : Z -> Z) : Prop :=
  (forall v, 1 <= v <= V -> size_of v <= D) /\ forall d, 1 <= d <= D -> exists v, 1 <= v <= V /\ size_of v = d.

Lemma at_zeros C v : at_ (zeros C) v = 0.
Proof.
  unfold at_, zeros. destruct (zget _ v) as [x|] eqn:E; [|done]. apply zget_Some_inv in E as [_ E].
  by apply lookup_replicate in E as [-> _].
Qed.

(** The loop that reads the degrees, for a graph in which every degree occurs. *)
Section degrees.
Context (C : Config) (HV : 1 <= VERTEX_SIZE C < 2 ^ 31) (D : Z) (HD : 0 <= D < 2 ^ 31) (size_of : Z -> Z) (degree_of : Z -> option Z).
Notation V := (VERTEX_SIZE C).

Lemma degrees_loop_ok :
  1 <= D -> all_degrees V D size_of -> (forall v, 1 <= v <= V -> 0 <= size_of v /\ degree_of v = Some (size_of v)) ->
  exists degs, for_loop (Z.to_nat V) 1
      (fun id '(degs, ids, max_degree) =>
         degree ← degree_of id; ids ← zset ids id id; degs ← zset degs id degree; Some (degs, ids, Z.max degree max_degree))
      (zeros C, zeros C, 0) = Some (degs, seqZ 0 (V + 1), D) /\
    Z.of_nat (length degs) = V + 1 /\ at_ degs 0 = 0 /\ forall v, 1 <= v <= V -> at_ degs v = size_of v.
Proof.
  intros HD1 [Hmax Hall] Hdegree.
  destruct (for_loop_inv (fun i '(degs, ids, max_degree) =>
      Z.of_nat (length degs) = V + 1 /\ Z.of_nat (length ids) = V + 1 /\
      (forall v, at_ degs v = if (1 <=? v) && (v <? i) then size_of v else 0) /\
      (forall v, at_ ids v = if (1 <=? v) && (v <? i) then v else 0) /\
      0 <= max_degree <= D /\ forall v, 1 <= v < i -> size_of v <= max_degree)
    (fun id '(degs, ids, max_degree) =>
       degree ← degree_of id; ids ← zset ids id id; degs ← zset degs id degree; Some (degs, ids, Z.max degree max_degree))
    (Z.to_nat V) 1 (zeros C, zeros C, 0)) as ([[degs ids] m] & -> & Hl1 & Hl2 & Hd & Hi & Hm & Hle).
  - unfold zeros at 1 2. rewrite length_replicate. split; [lia|]. split; [lia|]. split; [|split; [|split; [lia|intros; lia]]].
    + intros v. rewrite at_zeros. destruct (Z.leb_spec 1 v), (Z.ltb_spec v 1); (done || lia).
    + intros v. rewrite at_zeros. destruct (Z.leb_spec 1 v), (Z.ltb_spec v 1); (done || lia).
  - intros i [[degs ids] m] Hir (Hl1 & Hl2 & Hd & Hi & Hm & Hle). destruct (Hdegree i ltac:(lia)) as [Hpos ->]. bind_step.
    pose proof (Hmax i ltac:(lia)) as Hb. destruct (zset_at ids i i) as (ids' & -> & Hl2' & Hi'); [lia|]. bind_step.
    destruct (zset_at degs i (size_of i)) as (degs' & -> & Hl1' & Hd'); [lia|]. bind_step.
    eexists. split; [done|]. split; [lia|]. split; [lia|]. split; [|split; [|split; [lia|]]].
    + intros v. rewrite Hd', Hd. destruct (Z.eqb_spec v i) as [->|]; [rewrite (proj2 (Z.leb_le 1 i)), (proj2 (Z.ltb_lt i (i + 1))) by lia; done|].
      destruct (Z.leb_spec 1 v), (Z.ltb_spec v i), (Z.ltb_spec v (i + 1)); (done || lia).
    + intros v. rewrite Hi', Hi. destruct (Z.eqb_spec v i) as [->|]; [rewrite (proj2 (Z.leb_le 1 i)), (proj2 (Z.ltb_lt i (i + 1))) by lia; done|].
      destruct (Z.leb_spec 1 v), (Z.ltb_spec v i), (Z.ltb_spec v (i + 1)); (done || lia).
    + intros v Hv. destruct (decide (v = i)) as [->|]; [lia|]. specialize (Hle v ltac:(lia)). lia.
  - replace (1 + Z.of_nat (Z.to_nat V)) with (V + 1) in * by lia.
    assert (m = D) as ->. { destruct (Hall D ltac:(lia)) as (v & Hv & Ev). specialize (Hle v ltac:(lia)). lia. }
    assert (ids = seqZ 0 (V + 1)) as ->.
    { apply (list_eq_same_length _ _ (length ids)); [by rewrite length_seqZ; lia|done|]. intros k x y Hk Hx Hy.
      apply lookup_seqZ in Hy as [-> _]. assert (at_ ids (Z.of_nat k) = x) as <-.
      { unfold at_. rewrite zget_lookup, Nat2Z.id by lia. by rewrite Hx. }
      rewrite Hi. destruct (Z.leb_spec 1 (Z.of_nat k)), (Z.ltb_spec (Z.of_nat k) (V + 1)); cbn [andb]; lia. }
    exists degs. split; [done|]. split; [done|]. split; [by rewrite Hd|].
    intros v Hv. rewrite Hd. destruct (Z.leb_spec 1 v), (Z.ltb_spec v (V + 1)); (done || lia).
Qed.
End degrees.

Section loops.
Context (C : Config) (HV : 1 <= VERTEX_SIZE C < 2 ^ 31).
Notation V := (VERTEX_SIZE C).
Context (D : Z) (HD : 0 <= D < 2 ^ 31) (kc : Z) (Hkc : 0 <= kc < D).
Context {L S : Type} (nb : Z -> L) (members : L -> list Z) (omit : (Z -> bool) -> L -> L)
  (fresh : S -> Z -> Prop) (coded : S -> Z -> L -> Prop)
  (step : Z -> Bins -> list bool -> S -> option (Bins * list bool * S)) (rest : list bool -> list Z -> Z -> S -> option S).
Context (laws : BuildLaws V D nb members omit fresh coded step rest).
Notation size l := (Z.of_nat (length (members l))).

(** The vertices encoded before [v]. *)
Definition before (b : Bins) (v x : Z) : bool := at_ (pos b) x <? at_ (pos b) v.

Record core_inv (idx : Z) (b : Bins) (filt : list bool) (E : S) : Prop := {
  ci_idx : 0 <= idx <= V + 1;
  ci_bins : bins_ok V D b;
  ci_thresholds : idx <= V -> thresholds V D b idx (dp b idx);
  ci_bound : 0 <= at_ (bin b) (kc + 1) <= V + 1;
  ci_filtered : Z.of_nat (length filt) = V + 1;
  ci_gone x : 0 <= x <= V -> gone filt x = (at_ (pos b) x <? idx);
  ci_count x : 1 <= x <= V -> gone filt x = false -> size (omit (gone filt) (nb x)) <= at_ (degrees b) x;
  ci_zero : at_ (degrees b) 0 = 0;
  ci_fresh v : 0 <= v <= V -> idx <= at_ (pos b) v -> fresh E v;
  ci_coded v : 1 <= v <= V -> at_ (pos b) v < idx -> coded E v (omit (before b v) (nb v)) /\ size (omit (before b v) (nb v)) <= kc
}.

(** A list loses a vertex as often as it is in it. *)
Lemma length_without_one F G l y :
  (forall x, G x = (x =? y) || F x) -> F y = false -> Z.of_nat (length (without G l)) = Z.of_nat (length (without F l)) - occ y l.
Proof using Type.
  intros HG Hy. unfold without. induction l as [|x l IH]; [done|]. rewrite occ_cons, !filter_cons.
  pose proof (HG x) as Hx. rewrite Z.eqb_sym in Hx. destruct (Z.eqb_spec y x) as [<-|]; cbn [orb] in Hx.
  - rewrite decide_False by congruence. rewrite decide_True by done. cbn [length]. lia.
  - rewrite <- Hx. destruct (decide (G x = false)); cbn [length]; lia.
Qed.

(** ** One vertex of small degree *)

(** What a turn does to the arrays. *)
Record turned (idx : Z) (b : Bins) (filt : list bool) (b' : Bins) (filt' : list bool) : Prop := {
  tu_bins : bins_ok V D b';
  tu_thresholds : thresholds V D b' idx (dp b idx);
  tu_places : same_places V b b' idx;
  tu_degrees v : at_ (degrees b') v =
    lowered (dp b idx) (at_ (degrees b) v) (occ v (without (gone filt) (members (nb (at_ (vert b) idx)))));
  tu_filtered : Z.of_nat (length filt') = V + 1;
  tu_gone x : gone filt' x = (x =? at_ (vert b) idx) || gone filt x
}.

Lemma core_step_turned idx b filt E :
  core_inv idx b filt E -> idx <= V ->
  let u := at_ (vert b) idx in
  exists b' filt' E', step idx b filt E = Some (b', filt', E') /\ turned idx b filt b' filt' /\
    coded E' u (omit (gone filt) (nb u)) /\
    (forall w, w <> u -> fresh E w -> fresh E' w) /\ (forall w l', w <> u -> coded E w l' -> coded E' w l').
Proof.
  intros HI HidxV u. pose proof (ci_idx _ _ _ _ HI) as Hidx. pose proof (ci_bins _ _ _ _ HI) as Hb.
  destruct (bo_place _ _ b Hb idx ltac:(lia)) as [Hu Hpu]. fold u in Hu, Hpu.
  destruct (build_step idx b filt E Hb (ci_thresholds _ _ _ _ HI HidxV) ltac:(lia) Hu (ci_filtered _ _ _ _ HI) (ci_gone _ _ _ _ HI))
    as (b' & filt' & E' & -> & Ef & (Hb' & Ht' & Hs & Hdeg) & Hrest); [apply HI; [done|fold u; lia]|].
  exists b', filt', E'. split; [done|]. split; [|done]. split; try done.
  - rewrite (zset_length _ _ _ _ Ef). apply HI.
  - intros x. by apply gone_zset.
Qed.

Section turn.
Context (idx : Z) (b : Bins) (filt : list bool) (E : S) (b' : Bins) (filt' : list bool).
Context (HI : core_inv idx b filt E) (HidxV : idx <= V) (HT : turned idx b filt b' filt').
Notation u := (at_ (vert b) idx).

Lemma turn_u : 0 <= u <= V /\ at_ (pos b) u = idx /\ 0 <= idx.
Proof. pose proof (ci_idx _ _ _ _ HI). pose proof (bo_place _ _ b (ci_bins _ _ _ _ HI) idx ltac:(lia)). lia. Qed.

(** A vertex keeps its place up to the current one, and stays behind it else. *)
Lemma turn_pos v : 0 <= v <= V ->
  (at_ (pos b') v = at_ (pos b) v /\ at_ (pos b) v <= idx /\ (at_ (pos b) v = idx <-> v = u)) \/
  (idx < at_ (pos b') v /\ idx < at_ (pos b) v /\ v <> u).
Proof.
  intros Hv. destruct turn_u as (_ & Hu & _). pose proof (ci_bins _ _ _ _ HI) as Hb.
  destruct (same_places_pos V D b b' idx v Hb (tu_bins _ _ _ _ _ HT) (tu_places _ _ _ _ _ HT) Hv) as [H1 H2].
  destruct (Z.leb_spec (at_ (pos b) v) idx); [left|right].
  - split; [auto|]. split; [done|]. split; [|intros ->; done]. intros E'. pose proof (proj2 (bo_vertex _ _ b Hb v Hv)) as E''.
    by rewrite E' in E''.
  - split; [auto|]. split; [done|]. intros ->. lia.
Qed.

(** Whom a vertex that has had its turn leaves out does not change. *)
Lemma turn_before v : 0 <= v <= V -> at_ (pos b) v <= idx -> omit (before b' v) (nb v) = omit (before b v) (nb v).
Proof.
  intros Hv Hle. apply build_omit_ext. intros x Hx. pose proof (build_ids v x Hv Hx). unfold before.
  destruct (turn_pos v Hv) as [(-> & _)|]; [|lia]. destruct (turn_pos x ltac:(lia)) as [(-> & _)|]; [done|].
  rewrite !(proj2 (Z.ltb_ge _ _)) by lia. done.
Qed.

(** The vertex in turn leaves out the filtered ones. *)
Lemma turn_list : omit (before b u) (nb u) = omit (gone filt) (nb u).
Proof.
  destruct turn_u as (Hu & Hpu & _). apply build_omit_ext. intros x Hx. pose proof (build_ids u x Hu Hx). unfold before.
  rewrite Hpu. symmetry. apply (ci_gone _ _ _ _ HI). lia.
Qed.

Lemma turn_lowered : at_ (degrees b') u = dp b idx.
Proof. rewrite (tu_degrees _ _ _ _ _ HT). unfold lowered. change (at_ (degrees b) u) with (dp b idx). by rewrite Z.ltb_irrefl. Qed.

Lemma turn_thresholds : idx + 1 <= V -> thresholds V D b' (idx + 1) (dp b' (idx + 1)).
Proof.
  intros Hnext d Hd. destruct turn_u as (Hu & Hpu & Hidx). destruct (tu_thresholds _ _ _ _ _ HT d Hd) as (H1 & H2 & H3).
  assert (dp b' idx = dp b idx) as Hdu.
  { unfold dp at 1. rewrite (tu_places _ _ _ _ _ HT idx) by lia. apply turn_lowered. }
  pose proof (bo_sorted _ _ b' (tu_bins _ _ _ _ _ HT) idx (idx + 1) ltac:(lia) ltac:(lia)) as Hmono. rewrite Hdu in Hmono.
  split; [done|]. split; [|intros Hd'; apply H3; lia]. intros Hd'. destruct (Z.leb_spec d (dp b idx)); [specialize (H2 ltac:(lia)); lia|].
  destruct (Z.ltb_spec (idx + 1) (at_ (bin b') d)) as [Hlt|]; [|lia]. apply (H3 ltac:(lia) (idx + 1) ltac:(lia)) in Hlt. lia.
Qed.

Lemma turn_gone x : 0 <= x <= V -> gone filt' x = (at_ (pos b') x <? idx + 1).
Proof.
  intros Hx. rewrite (tu_gone _ _ _ _ _ HT), (ci_gone _ _ _ _ HI) by done.
  destruct (turn_pos x Hx) as [(-> & Hle & Hiff)|(Hlt & Hlt' & Hne)].
  - rewrite (proj2 (Z.ltb_lt _ (idx + 1))) by lia. destruct (Z.eqb_spec x u) as [|Hne]; [done|]. apply Z.ltb_lt.
    destruct (decide (at_ (pos b) x = idx)) as [E'|]; [by apply Hiff in E'|lia].
  - rewrite (proj2 (Z.eqb_neq x u)) by done. rewrite !(proj2 (Z.ltb_ge _ _)) by lia. done.
Qed.

(** A vertex that is left has at most as many neighbors left as its degree
    says: the one that loses a neighbor may go down. *)
Lemma turn_count x : 1 <= x <= V -> gone filt' x = false -> size (omit (gone filt') (nb x)) <= at_ (degrees b') x.
Proof.
  intros Hx Hgx. destruct turn_u as (Hu & Hpu & _). rewrite (tu_gone _ _ _ _ _ HT) in Hgx. apply orb_false_iff in Hgx as [_ Hgx].
  pose proof (ci_count _ _ _ _ HI x Hx Hgx) as Hc. rewrite build_omit in Hc |- *. rewrite (tu_degrees _ _ _ _ _ HT).
  assert (gone filt u = false) as Hgu by (rewrite (ci_gone _ _ _ _ HI) by lia; apply Z.ltb_ge; lia).
  rewrite (length_without_one (gone filt) (gone filt') _ u (tu_gone _ _ _ _ _ HT) Hgu).
  assert (occ x (without (gone filt) (members (nb u))) = occ u (members (nb x))) as ->.
  { transitivity (occ x (members (nb u))).
    - unfold occ, without. f_equal. induction (members (nb u)) as [|y l IH]; [done|]. rewrite filter_cons.
      destruct (decide (gone filt y = false)); cbn [count_occ]; destruct (Z.eq_dec y x); congruence.
    - destruct (decide (u = 0)) as [E0|]; [|apply build_symmetric; lia]. rewrite E0, build_zero. symmetry. apply occ_notin.
      intros H0. apply build_ids in H0; lia. }
  pose proof (occ_nonneg u (members (nb x))). unfold lowered. destruct (Z.ltb_spec (dp b idx) (at_ (degrees b) x)); lia.
Qed.
End turn.

Lemma core_step_ok idx b filt E :
  core_inv idx b filt E -> idx <= V -> dp b idx <= kc ->
  exists b' filt' E', step idx b filt E = Some (b', filt', E') /\ core_inv (idx + 1) b' filt' E'.
Proof.
  intros HI HidxV Hdkc. destruct (core_step_turned idx b filt E HI HidxV) as (b' & filt' & E' & Hstep & HT & Hcoded & Hff & Hfc).
  exists b', filt', E'. split; [done|]. destruct (turn_u idx b filt E b' filt' HI HidxV HT) as (Hu & Hpu & Hidx).
  pose proof (turn_pos idx b filt E b' filt' HI HidxV HT) as Hpos. split.
  - lia.
  - apply HT.
  - by eapply turn_thresholds.
  - apply (tu_thresholds _ _ _ _ _ HT). lia.
  - apply HT.
  - by eapply turn_gone.
  - by eapply turn_count.
  - rewrite (tu_degrees _ _ _ _ _ HT), occ_notin, lowered_0; [apply HI|]. intros [_ Hin]%elem_without.
    apply build_ids in Hin; lia.
  - intros v Hv Hpv. destruct (Hpos v Hv) as [|(_ & ? & ?)]; [lia|]. apply Hff; [done|]. apply HI; [done|lia].
  - intros v Hv Hpv. destruct (Hpos v ltac:(lia)) as [(_ & Hle & Hiff)|]; [|lia].
    rewrite (turn_before idx b filt E b' filt' HI HidxV HT v) by lia. destruct (decide (v = at_ (vert b) idx)) as [->|Hne].
    + rewrite (turn_list idx b filt E b' filt' HI HidxV HT). split; [done|]. transitivity (dp b idx); [|done].
      apply (ci_count _ _ _ _ HI); [done|]. rewrite (ci_gone _ _ _ _ HI) by lia. apply Z.ltb_ge. lia.
    + destruct (ci_coded _ _ _ _ HI v Hv ltac:(lia)) as [Hc Hlen]. split; [by apply Hfc|done].
Qed.

Lemma core_loop_ok fuel idx b filt E :
  core_inv idx b filt E -> V + 1 - idx < Z.of_nat fuel ->
  exists idx' b' filt' E', core_loop step fuel kc idx b filt E = Some (idx', b', filt', E') /\
    core_inv idx' b' filt' E'.
Proof.
  revert idx b filt E. induction fuel as [|fuel IH]; intros idx b filt E HI Hfuel; [pose proof (ci_idx _ _ _ _ HI); lia|].
  pose proof (ci_idx _ _ _ _ HI) as Hidx. pose proof (ci_bins _ _ _ _ HI) as Hb. pose proof (bo_bin _ _ b Hb).
  pose proof (ci_bound _ _ _ _ HI) as Hbound. cbn [core_loop]. rewrite (zget_at (bin b)) by lia. bind_step.
  destruct (Z.ltb_spec idx (at_ (bin b) (kc + 1))) as [Hlt|]; [|by exists idx, b, filt, E].
  destruct (core_step_ok idx b filt E HI ltac:(lia)) as (b' & filt' & E' & -> & HI').
  { destruct (ci_thresholds _ _ _ _ HI ltac:(lia) (kc + 1) ltac:(lia)) as (_ & Hlow & _).
    destruct (Z.leb_spec (kc + 1) (dp b idx)); [specialize (Hlow ltac:(lia)); lia|lia]. }
  bind_step. apply IH; [done|lia].
Qed.

(** The vertices whose edges [v] leaves out. *)
Definition left_out (b : Bins) (filt : list bool) (v x : Z) : bool := gone filt x && before b v x.

Lemma left_out_core idx b filt E v :
  core_inv idx b filt E -> 1 <= v <= V -> at_ (pos b) v < idx -> omit (left_out b filt v) (nb v) = omit (before b v) (nb v).
Proof.
  intros HI Hv Hlt. apply build_omit_ext. intros x Hx. assert (1 <= x <= V) by (apply (build_ids v x); [lia|done]). unfold left_out, before.
  rewrite (ci_gone _ _ _ _ HI) by lia. destruct (Z.ltb_spec (at_ (pos b) x) (at_ (pos b) v)); [|by rewrite andb_false_r].
  by rewrite (proj2 (Z.ltb_lt _ idx)) by lia.
Qed.

Lemma left_out_rest idx b filt E v :
  core_inv idx b filt E -> 1 <= v <= V -> idx <= at_ (pos b) v -> omit (left_out b filt v) (nb v) = omit (gone filt) (nb v).
Proof.
  intros HI Hv Hle. apply build_omit_ext. intros x Hx. assert (1 <= x <= V) by (apply (build_ids v x); [lia|done]). unfold left_out, before.
  rewrite (ci_gone _ _ _ _ HI) by lia. destruct (Z.ltb_spec (at_ (pos b) x) idx); [|done].
  by rewrite (proj2 (Z.ltb_lt _ (at_ (pos b) v))) by lia.
Qed.

Lemma rest_ok idx b filt E :
  core_inv idx b filt E ->
  exists E', for_loop (Z.to_nat (V + 1 - idx)) idx (rest filt (vert b)) E = Some E' /\
    forall v, 1 <= v <= V -> coded E' v (omit (left_out b filt v) (nb v)).
Proof.
  intros HI. pose proof (ci_idx _ _ _ _ HI) as Hidx. pose proof (ci_bins _ _ _ _ HI) as Hb. pose proof (bo_vert _ _ b Hb).
  destruct (for_loop_inv (fun i E' => (forall v, 0 <= v <= V -> i <= at_ (pos b) v -> fresh E' v) /\
      forall v, 1 <= v <= V -> at_ (pos b) v < i -> coded E' v (omit (left_out b filt v) (nb v)))
    (rest filt (vert b)) (Z.to_nat (V + 1 - idx)) idx E) as (E' & -> & _ & Hc).
  - split; [intros v Hv Hle; by apply HI|]. intros v Hv Hlt. rewrite (left_out_core idx b filt E v HI Hv Hlt). by apply HI.
  - intros i E1 Hi [Hf Hc]. destruct (bo_place _ _ b Hb i ltac:(lia)) as [Hu Hpu]. set (u := at_ (vert b) i) in *.
    destruct (build_rest filt (vert b) i E1 u (zget_at (vert b) i ltac:(lia)) Hu (ci_filtered _ _ _ _ HI) (Hf u Hu ltac:(lia)))
      as (E2 & -> & Hcoded & Hff & Hfc).
    assert (forall v, 0 <= v <= V -> at_ (pos b) v = i -> v = u) as Hat
      by (intros v Hv E'; pose proof (proj2 (bo_vertex _ _ b Hb v Hv)) as E''; rewrite E' in E''; done).
    exists E2. split; [done|]. split.
    + intros v Hv Hle. apply Hff; [intros ->; lia|]. apply Hf; [done|lia].
    + intros v Hv Hlt. destruct (decide (v = u)) as [->|Hne].
      * by rewrite (left_out_rest idx b filt E u HI Hv ltac:(lia)).
      * apply Hfc; [done|]. apply Hc; [done|]. destruct (decide (at_ (pos b) v = i)) as [E'|]; [by apply Hat in E'; [|lia]|lia].
  - exists E'. split; [done|]. intros v Hv. apply Hc; [done|]. pose proof (bo_vertex _ _ b Hb v ltac:(lia)). lia.
Qed.

(** No two vertices leave each other out. *)
Lemma left_out_peeled idx b filt E : core_inv idx b filt E -> peeled V filt (left_out b filt).
Proof.
  intros HI u v Hu Hv [Hg Hlt]%andb_true_iff. split; [done|]. unfold left_out. apply andb_false_iff. right.
  unfold before in *. apply Z.ltb_ge. apply Z.ltb_lt in Hlt. lia.
Qed.

(** The list of a filtered vertex is small. *)
Lemma left_out_small idx b filt E v :
  core_inv idx b filt E -> 1 <= v <= V -> gone filt v = true -> size (omit (left_out b filt v) (nb v)) <= kc.
Proof.
  intros HI Hv Hg. rewrite (ci_gone _ _ _ _ HI) in Hg by lia. apply Z.ltb_lt in Hg.
  rewrite (left_out_core idx b filt E v HI Hv Hg). by apply HI.
Qed.

(** ** The arrays at the start *)

Notation size_of v := (size (nb v)).

(** What [std::sort] does. *)
Definition sorts (std_sort : (Z -> Z) -> list Z -> list Z) : Prop :=
  forall key l, std_sort key l ≡ₚ l /\ StronglySorted (fun x y => key x <= key y) (std_sort key l).

(** The vertices in the order of their degrees, vertex 0 first. *)
Record order_ok (degs ids : list Z) : Prop := {
  or_length : Z.of_nat (length ids) = V + 1;
  or_zero : at_ ids 0 = 0;
  or_range p : 0 <= p <= V -> 0 <= at_ ids p <= V;
  or_inj p q : 0 <= p <= V -> 0 <= q <= V -> at_ ids p = at_ ids q -> p = q;
  or_surj v : 0 <= v <= V -> exists p, 0 <= p <= V /\ at_ ids p = v;
  or_sorted p q : 0 <= p <= q -> q <= V -> at_ degs (at_ ids p) <= at_ degs (at_ ids q)
}.

Lemma sort_vertices_ok std_sort degs :
  sorts std_sort -> Z.of_nat (length degs) = V + 1 -> at_ degs 0 = 0 -> (forall v, 1 <= v <= V -> 0 <= at_ degs v) ->
  order_ok degs (sort_vertices std_sort degs (seqZ 0 (V + 1))).
Proof using HV.
  intros Hsort Hl H0 Hpos. unfold sort_vertices. rewrite (seqZ_cons 0 (V + 1)) by lia. cbn [take drop app].
  replace (Z.pred (V + 1)) with V by lia. replace (Z.succ 0) with 1 by done.
  change (fun v => default 0 (zget degs v)) with (at_ degs). rewrite take_0, drop_0. cbn [app].
  destruct (Hsort (at_ degs) (seqZ 1 V)) as [Hperm Hsorted]. set (l := std_sort (at_ degs) (seqZ 1 V)) in *.
  assert (length l = Z.to_nat V) as Hll by (by rewrite Hperm, length_seqZ).
  assert (forall x, x ∈ l <-> 1 <= x <= V) as Hel by (intros x; rewrite Hperm, elem_of_seqZ; lia).
  assert (forall p, 1 <= p <= V -> exists x, l !! Z.to_nat (p - 1) = Some x /\ at_ (0 :: l) p = x) as Hat.
  { intros p Hp. destruct (lookup_lt_is_Some_2 l (Z.to_nat (p - 1))) as [x Hx]; [lia|]. exists x. split; [done|].
    unfold at_. rewrite zget_lookup by lia. replace (Z.to_nat p) with (Datatypes.S (Z.to_nat (p - 1))) by lia. change (default 0 (l !! Z.to_nat (p - 1)) = x). by rewrite Hx. }
  split.
  - cbn [length]. lia.
  - done.
  - intros p Hp. destruct (decide (p = 0)) as [->|]; [change (at_ (0 :: l) 0) with 0; lia|]. destruct (Hat p ltac:(lia)) as (x & Hx & ->).
    apply list_elem_of_lookup_2, Hel in Hx. lia.
  - intros p q Hp Hq E. destruct (decide (p = 0)) as [->|], (decide (q = 0)) as [->|]; [done|..].
    + destruct (Hat q ltac:(lia)) as (x & Hx & Ex). rewrite Ex in E. apply list_elem_of_lookup_2, Hel in Hx. change (at_ (0 :: l) 0) with 0 in E. lia.
    + destruct (Hat p ltac:(lia)) as (x & Hx & Ex). rewrite Ex in E. apply list_elem_of_lookup_2, Hel in Hx. change (at_ (0 :: l) 0) with 0 in E. lia.
    + destruct (Hat p ltac:(lia)) as (x & Hx & Ex), (Hat q ltac:(lia)) as (y & Hy & Ey).
      assert (NoDup l) as Hnd by (rewrite Hperm; apply NoDup_seqZ).
      assert (Z.to_nat (p - 1) = Z.to_nat (q - 1)) by (apply (NoDup_lookup l _ _ x Hnd); congruence). lia.
  - intros v Hv. destruct (decide (v = 0)) as [->|]; [by exists 0|].
    assert (v ∈ l) as [i Hi]%list_elem_of_lookup_1 by (apply Hel; lia). pose proof (lookup_lt_Some _ _ _ Hi).
    exists (Z.of_nat i + 1). split; [lia|]. destruct (Hat (Z.of_nat i + 1) ltac:(lia)) as (x & Hx & ->).
    replace (Z.to_nat (Z.of_nat i + 1 - 1)) with i in Hx by lia. congruence.
  - intros p q Hp Hq. destruct (decide (p = q)) as [->|]; [done|]. destruct (Hat q ltac:(lia)) as (y & Hy & ->).
    destruct (decide (p = 0)) as [->|].
    + change (at_ (0 :: l) 0) with 0. rewrite H0. apply Hpos, Hel. by eapply list_elem_of_lookup_2.
    + destruct (Hat p ltac:(lia)) as (x & Hx & ->).
      apply (StronglySorted_app_1_elem_of (fun x y => at_ degs x <= at_ degs y) (take (Z.to_nat (q - 1)) l) (drop (Z.to_nat (q - 1)) l)).
      * by rewrite take_drop.
      * apply list_elem_of_lookup. exists (Z.to_nat (p - 1)). apply lookup_take_Some. split; [done|lia].
      * apply list_elem_of_lookup. exists 0%nat. by rewrite lookup_drop, Nat.add_0_r.
Qed.

(** While the vertices are placed. *)
Record placed (degs ids : list Z) (i : Z) (st : Bins * Z) : Prop := {
  pl_degrees : degrees st.1 = degs;
  pl_vert : vert st.1 = ids;
  pl_pos : Z.of_nat (length (pos st.1)) = V + 1;
  pl_bin : Z.of_nat (length (bin st.1)) = D + 1;
  pl_place p : 0 <= p < i -> at_ (pos st.1) (at_ ids p) = p;
  pl_last : st.2 = at_ degs (at_ ids (i - 1));
  pl_zero : at_ (bin st.1) 0 = 0;
  pl_first d : 1 <= d <= D -> d <= st.2 -> 1 <= at_ (bin st.1) d <= V /\
    forall p, 0 <= p <= V -> p < at_ (bin st.1) d <-> at_ degs (at_ ids p) < d
}.

Lemma place_step_ok degs ids i b j :
  order_ok degs ids -> Z.of_nat (length degs) = V + 1 -> (forall p, 0 <= p <= V -> 0 <= at_ degs (at_ ids p) <= D) ->
  (forall d, 1 <= d <= D -> exists p, 0 <= p <= V /\ at_ degs (at_ ids p) = d) ->
  1 <= i < 1 + Z.of_nat (Z.to_nat V) -> placed degs ids i (b, j) ->
  exists st, place_step i (b, j) = Some st /\ placed degs ids (i + 1) st.
Proof.
  intros Hor Hl Hdr Hocc Hi [Ed Ev Hlp Hlb Hpl Hj Hz Hf]. cbn [fst snd] in *. subst j. unfold place_step. pose proof (or_range _ _ Hor i ltac:(lia)) as Hu.
  pose proof (or_length _ _ Hor). rewrite Ev, Ed. rewrite (zget_at ids) by lia. bind_step. rewrite (zget_at degs) by lia. bind_step.
  destruct (zset_at (pos b) (at_ ids i) i) as (pos' & -> & Hlp' & Hpos'); [lia|]. bind_step.
  pose proof (or_sorted _ _ Hor (i - 1) i ltac:(lia) ltac:(lia)) as Hmono. pose proof (Hdr i ltac:(lia)) as Hdi.
  assert (forall p, 0 <= p < i + 1 -> at_ pos' (at_ ids p) = p) as Hplace.
  { intros p Hp. rewrite Hpos'. destruct (Z.eqb_spec (at_ ids p) (at_ ids i)) as [E|E].
    - apply (or_inj _ _ Hor) in E; lia.
    - apply Hpl. destruct (decide (p = i)) as [->|]; [done|lia]. }
  assert (i + 1 - 1 = i) as Ei by lia.
  destruct (Z.ltb_spec (at_ degs (at_ ids (i - 1))) (at_ degs (at_ ids i))) as [Hlt|Hge].
  - destruct (zset_at (bin b) (at_ degs (at_ ids i)) i) as (bin' & -> & Hlb' & Hbin'); [lia|]. bind_step.
    pose proof (Hdr (i - 1) ltac:(lia)). eexists. split; [done|].
    split; cbn [fst snd degrees pos vert bin]; try done; [lia|lia|by rewrite Ei| |].
    + rewrite Hbin', (proj2 (Z.eqb_neq 0 _)) by lia. done.
    + intros d Hd Hdle. rewrite Hbin'. destruct (Z.eqb_spec d (at_ degs (at_ ids i))) as [->|Hne].
      * split; [lia|]. intros p Hp. split; intros Hpd.
        -- pose proof (or_sorted _ _ Hor p (i - 1) ltac:(lia) ltac:(lia)). lia.
        -- destruct (Z.ltb_spec p i); [done|]. pose proof (or_sorted _ _ Hor i p ltac:(lia) ltac:(lia)). lia.
      * apply Hf; [done|]. destruct (Hocc d Hd) as (p & Hp & Ep). destruct (Z.leb_spec p (i - 1)).
        -- pose proof (or_sorted _ _ Hor p (i - 1) ltac:(lia) ltac:(lia)). lia.
        -- pose proof (or_sorted _ _ Hor i p ltac:(lia) ltac:(lia)). lia.
  - eexists. split; [done|]. split; cbn [fst snd degrees pos vert bin]; try done; [lia|rewrite Ei; lia].
Qed.

Lemma place_vertices_ok degs ids b :
  order_ok degs ids -> Z.of_nat (length degs) = V + 1 -> at_ degs 0 = 0 -> (forall v, 1 <= v <= V -> at_ degs v = size_of v) ->
  all_degrees V D (fun v => size_of v) -> b = {| degrees := degs; pos := zeros C; vert := ids; bin := replicate (Z.to_nat (D + 1)) 0 |} ->
  exists b', place_vertices C b = Some b' /\ placed degs ids (V + 1) (b', D).
Proof.
  intros Hor Hl H0 Hdeg [Hmax Hall] ->. unfold place_vertices.
  assert (forall d, 1 <= d <= D -> exists p, 0 <= p <= V /\ at_ degs (at_ ids p) = d) as Hocc.
  { intros d Hd. destruct (Hall d Hd) as (v & Hv & Ev). destruct (or_surj _ _ Hor v ltac:(lia)) as (p & Hp & Ep).
    exists p. split; [done|]. rewrite Ep, Hdeg by done. done. }
  assert (forall p, 0 <= p <= V -> 0 <= at_ degs (at_ ids p) <= D) as Hdr.
  { intros p Hp. pose proof (or_range _ _ Hor p Hp). destruct (decide (at_ ids p = 0)) as [E|]; [rewrite E, H0; lia|].
    rewrite Hdeg by lia. specialize (Hmax (at_ ids p) ltac:(lia)). lia. }
  destruct (for_loop_inv (placed degs ids) place_step (Z.to_nat V) 1
    ({| degrees := degs; pos := zeros C; vert := ids; bin := replicate (Z.to_nat (D + 1)) 0 |}, 0))
    as ([b j] & -> & HP).
  - split; cbn [fst snd degrees pos vert bin]; try done.
    + unfold zeros. rewrite length_replicate. lia.
    + rewrite length_replicate. lia.
    + intros p Hp. replace p with 0 by lia. by rewrite at_zeros.
    + change (1 - 1) with 0. by rewrite (or_zero _ _ Hor).
    + unfold at_. rewrite zget_lookup by lia. by rewrite lookup_replicate_2 by lia.
    + intros d Hd Hd0. lia.
  - intros i [b j] Hi HP. by apply place_step_ok.
  - replace (1 + Z.of_nat (Z.to_nat V)) with (V + 1) in HP by lia. bind_step. exists b. split; [done|].
    assert (j = D) as ->; [|done]. pose proof (pl_last _ _ _ _ HP) as Hj. cbn [snd] in Hj. replace (V + 1 - 1) with V in Hj by lia.
    pose proof (Hdr V ltac:(lia)). destruct (Hocc D ltac:(lia)) as (p & Hp & Ep).
    pose proof (or_sorted _ _ Hor p V ltac:(lia) ltac:(lia)). lia.
Qed.

(** Nothing is filled when every degree occurs. *)
Lemma fill_bins_ok fuel l j :
  Z.of_nat (length l) = D + 1 -> 1 <= j -> D + 1 - j <= Z.of_nat fuel -> (forall d, j <= d <= D -> at_ l d <> 0) ->
  fill_bins fuel l j D = Some l.
Proof using Type.
  revert j. induction fuel as [|fuel IH]; intros j Hl Hj Hf Hne; cbn [fill_bins].
  - by rewrite (proj2 (Z.leb_gt j D)) by lia.
  - destruct (Z.leb_spec j D); [|done]. rewrite (zget_at l j) by lia. bind_step. cbn beta.
    rewrite (proj2 (Z.eqb_neq (at_ l j) 0)) by (apply Hne; lia). apply IH; [done|lia|lia|]. intros d Hd. apply Hne. lia.
Qed.

(** The builder: it returns; a vertex leaves out only vertices that were
    filtered before it, and a filtered one has a small list. *)
Lemma degree_build_ok std_sort degs E :
  sorts std_sort -> all_degrees V D (fun v => size_of v) -> (forall v, 0 <= v <= V -> fresh E v) ->
  Z.of_nat (length degs) = V + 1 -> at_ degs 0 = 0 -> (forall v, 1 <= v <= V -> at_ degs v = size_of v) ->
  exists filt E' F, degree_build C std_sort step rest kc degs (seqZ 0 (V + 1)) D E = Some (filt, E') /\
    (forall v, 1 <= v <= V -> coded E' v (omit (F v) (nb v))) /\ peeled V filt F /\
    (forall v, 1 <= v <= V -> gone filt v = true -> size (omit (F v) (nb v)) <= kc).
Proof.
  intros Hsort Hgap Hfresh Hl H0 Hdeg. unfold degree_build.
  pose proof (sort_vertices_ok std_sort degs Hsort Hl H0 ltac:(intros v Hv; rewrite Hdeg by done; lia)) as Hor.
  destruct (place_vertices_ok degs _ _ Hor Hl H0 Hdeg Hgap eq_refl) as (b & -> & HP). bind_step.
  destruct HP as [Ed Ev Hlp Hlb Hpl _ Hz Hf]. cbn [fst snd] in *.
  rewrite (fill_bins_ok (length (bin b)) (bin b) 1) by (done || lia || (intros d Hd; specialize (Hf d ltac:(lia) ltac:(lia)); lia)).
  bind_step. set (b0 := {| degrees := degs; pos := pos b; vert := vert b; bin := bin b |}).
  assert (core_inv 0 b0 (replicate (Z.to_nat (V + 1)) false) E) as HI.
  { assert (forall x, gone (replicate (Z.to_nat (V + 1)) false) x = false) as Hg.
    { intros x. unfold gone. destruct (zget _ x) as [f|] eqn:E0; [|done]. apply zget_Some_inv in E0 as [_ E0].
      by apply lookup_replicate in E0 as [-> _]. }
    assert (forall v, 0 <= v <= V -> 0 <= at_ (pos b) v <= V /\ at_ (vert b) (at_ (pos b) v) = v) as Hvertex.
    { intros v Hv. destruct (or_surj _ _ Hor v Hv) as (p & Hp & Ep). rewrite <- Ep, Hpl, Ev by lia. done. }
    assert (forall v, 0 <= v <= V -> 0 <= at_ degs v <= D) as Hrange.
    { intros v Hv. destruct (decide (v = 0)) as [->|]; [lia|]. rewrite Hdeg by lia. destruct Hgap as [Hmax _].
      specialize (Hmax v ltac:(lia)). lia. }
    split; cbn [degrees pos vert bin b0]; try done.
    - lia.
    - split; cbn [degrees pos vert bin b0]; try done.
      + rewrite Ev. apply Hor.
      + intros p Hp. rewrite Ev. split; [by apply (or_range _ _ Hor)|apply Hpl; lia].
      + intros p q Hp Hq. unfold dp. cbn [degrees vert b0]. rewrite Ev. by apply (or_sorted _ _ Hor).
    - intros _ d Hd. unfold dp. cbn [degrees vert bin b0]. rewrite Ev, (or_zero _ _ Hor), H0.
      destruct (decide (d = 0)) as [->|]; [rewrite Hz; lia|]. destruct (Hf d ltac:(lia) ltac:(lia)) as [H1 H2]. split; [lia|]. split; [lia|done].
    - specialize (Hf (kc + 1) ltac:(lia) ltac:(lia)). lia.
    - rewrite length_replicate. lia.
    - intros x Hx. rewrite Hg. symmetry. apply Z.ltb_ge. by apply Hvertex.
    - intros x Hx _. rewrite Hdeg, build_omit by done. pose proof (length_without (gone (replicate (Z.to_nat (V + 1)) false)) (members (nb x))). lia.
    - intros v Hv _. by apply Hfresh.
    - intros v Hv Hlt. pose proof (Hvertex v ltac:(lia)). lia. }
  destruct (core_loop_ok (Datatypes.S (length (pos b))) 0 b0 _ E HI ltac:(lia)) as (idx & b1 & filt & E1 & HE1 & HI1).
  replace (pos b) with (pos b0) in HE1 by done. cbn [pos b0] in HE1. rewrite HE1. bind_step.
  destruct (rest_ok idx b1 filt E1 HI1) as (E2 & -> & Hc). bind_step.
  exists filt, E2, (left_out b1 filt). split; [done|]. split; [done|]. split; [by eapply left_out_peeled|].
  intros v Hv Hg. by apply (left_out_small idx b1 filt E1).
Qed.
End loops.

(** A check that every degree occurs. *)
Definition all_degrees_check (V D : Z) (size_of : Z -> Z) : bool :=
  let sizes := map size_of (seqZ 1 V) in
  forallb (fun s => s <=? D) sizes && forallb (fun d => bool_decide (d ∈ sizes)) (seqZ 1 D).

Lemma all_degrees_check_ok V D size_of : all_degrees_check V D size_of = true -> all_degrees V D size_of.
Proof.
  unfold all_degrees_check. rewrite andb_true_iff, !forallb_forall. intros [Hle Hall]. split.
  - intros v Hv. apply Z.leb_le, Hle, list_elem_of_In, list_elem_of_fmap. exists v. split; [done|]. apply elem_of_seqZ. lia.
  - intros d Hd. specialize (Hall d). rewrite bool_decide_eq_true in Hall.
    destruct (proj1 (list_elem_of_fmap _ _ _) (Hall ltac:(apply list_elem_of_In, elem_of_seqZ; lia))) as (v & -> & Hv%elem_of_seqZ).
    exists v. split; [lia|done].
Qed.

(** * The length of [bin] *)

Lemma place_vertices_bin C b b' : place_vertices C b = Some b' -> length (bin b') = length (bin b).
Proof.
  unfold place_vertices. destruct (for_loop _ _ _ _) as [[b1 j]|] eqn:E; [|done]. bind_step. intros [= <-].
  apply (for_loop_keeps (fun st => length (bin st.1) = length (bin b))) in E; [done|done|]. clear E b1 j.
  intros i [b1 j] st' Hb1 E. cbn [fst] in Hb1. revert E. unfold place_step. destruct (zget (vert b1) i) as [v|]; [|done]. bind_step.
  destruct (zget (degrees b1) v) as [d|]; [|done]. bind_step. destruct (zset (pos b1) v i); [|done]. bind_step.
  destruct (j <? d); [|by intros [= <-]]. destruct (zset (bin b1) d i) as [bin'|] eqn:E; [|done]. bind_step. intros [= <-].
  cbn. apply zset_length in E. congruence.
Qed.

Lemma fill_gap_length fuel l j l' j' : fill_gap fuel l j = Some (l', j') -> length l' = length l.
Proof.
  revert l j. induction fuel as [|fuel IH]; intros l j; [done|]. cbn [fill_gap]. destruct (zget l (j + 1)) as [x|]; [|done]. bind_step.
  destruct (x =? 0); [|by intros [= <- _]]. destruct (zget l (j + 1 - 1)) as [y|]; [|done]. bind_step.
  destruct (zset l (j + 1) y) as [l1|] eqn:E; [|done]. bind_step. intros H%IH. apply zset_length in E. congruence.
Qed.

Lemma fill_bins_length fuel l j m l' : fill_bins fuel l j m = Some l' -> length l' = length l.
Proof.
  revert l j. induction fuel as [|fuel IH]; intros l j; cbn [fill_bins]; (destruct (j <=? m); [|by intros [= <-]]); [done|].
  destruct (zget l j) as [x|]; [|done]. bind_step. destruct (x =? 0); [|by intros H%IH].
  destruct (zget l (j - 1)) as [y|]; [|done]. bind_step. destruct (zset l j _) as [l1|] eqn:E1; [|done]. bind_step.
  destruct (fill_gap _ l1 j) as [[l2 j2]|] eqn:E2; [|done]. bind_step. intros H%IH.
  apply zset_length in E1. apply fill_gap_length in E2. congruence.
Qed.
(** [std::sort] on keys. *)
Definition key_le (key : Z -> Z) (x y : Z) : Prop := key x <= key y.

#[export] Instance key_le_dec key x y : Decision (key_le key x y).
Proof. unfold key_le. apply _. Defined.
#[export] Instance key_le_total key : Total (key_le key).
Proof. intros x y. unfold key_le. lia. Qed.
#[export] Instance key_le_trans key : Transitive (key_le key).
Proof. intros x y z. unfold key_le. lia. Qed.

Definition sort_by (key : Z -> Z) (l : list Z) : list Z := merge_sort (key_le key) l.

Lemma sort_by_sorts : sorts sort_by.
Proof. intros key l. split; [apply merge_sort_Permutation|apply (StronglySorted_merge_sort (key_le key) l)]. Qed.

