(* ===== verification/RangeVend.v ===== *)
(** The builder of the range, hybrid, bloom and count encodings,
    [RangeVend::BuildEncoding] ([src/vend/range_vend.cpp],
    [src/include/vend/range_vend.h]): the degrees are read from the lists or the
    database, and the vertices are encoded in the order of [DegreeOrder].

    The encoding is a parameter: its state and [EncodeVertex]. The sums that are
    only printed are left out. *)
From S2P Require Import Prelude Config BitSet Encode KCore DegreeOrder.
From stdpp Require Import options.
Local Open Scope Z_scope.
Set Default Proof Using "Type*".

Section RangeVend.
Context (C : Config).
Context {S : Type} (EncodeVertex : S -> Z -> list Z -> option S).
Context (std_sort : (Z -> Z) -> list Z -> list Z).

(** The degrees, from the lists or from the database; [id] stays 1 in the
    latter case. The result is the degrees, the vertices and the largest
    degree. *)
Definition get_degrees (adjacency_list_ : option (list (list Z))) (data_db_ : list (Z * list Z))
  : option (list Z * list Z * Z) :=
  match adjacency_list_ with
  | Some adj =>
      for_loop (length adj - 1) 1
        (fun id '(degrees, vert, max_degree) =>
           list ← zget adj id;
           let degree := u32 (Z.of_nat (length list)) in
           vert ← zset vert id id;
           degrees ← zset degrees id degree;
           Some (degrees, vert, Z.max degree max_degree)) (zeros C, zeros C, 0)
  | None =>
      foldM (fun row '(degrees, vert, max_degree) =>
           let degree := u32 (Z.of_nat (length row.2)) in
           vert ← zset vert 1 1;
           degrees ← zset degrees 1 degree;
           Some (degrees, vert, Z.max degree max_degree)) data_db_ (zeros C, zeros C, 0)
  end.

Definition vertex_list (adjacency_list_ : option (list (list Z))) (vertex : Z) : option (list Z) :=
  match adjacency_list_ with Some adj => zget adj vertex | None => Some [] end.

(** One vertex of small degree. *)
Definition core_step (adjacency_list_ : option (list (list Z))) (idx : Z) (b : Bins) (filtered : list bool) (E : S)
  : option (Bins * list bool * S) :=
  vertex ← zget (vert b) idx;
  vertex_degree ← zget (degrees b) vertex;
  adj ← vertex_list adjacency_list_ vertex;
  '(b, neighbors) ← foldM (neighbor_step filtered vertex_degree) adj (b, []);
  filtered ← zset filtered vertex true;
  E ← EncodeVertex E vertex neighbors;
  Some (b, filtered, E).

Definition rest_step (adjacency_list_ : option (list (list Z))) (filtered : list bool) (vert : list Z) (idx : Z) (E : S)
  : option S :=
  vertex ← zget vert idx;
  list ← vertex_list adjacency_list_ vertex;
  neighbors ← foldM (fun neighbor neighbors => f ← zget filtered neighbor;
                       Some (if (f : bool) then neighbors else neighbors ++ [neighbor])) list [];
  EncodeVertex E vertex neighbors.

(** [BuildEncoding], with UNDIRECTED = 1: the filtered vertices and the
    encoding. *)
Definition RangeVend_BuildEncoding (GetIntSize : Z) (adjacency_list_ : option (list (list Z)))
    (data_db_ : list (Z * list Z)) (E : S) : option (list bool * S) :=
  '(degs, ids, max_degree) ← get_degrees adjacency_list_ data_db_;
  degree_build C std_sort (core_step adjacency_list_) (rest_step adjacency_list_) GetIntSize degs ids max_degree E.
End RangeVend.

(** * Proofs *)

(** What the builder needs of an encoding: a vertex that has not been encoded
    can be, and the others are left as they were. *)
Class EncodeLaws {S : Type} (EncodeVertex : S -> Z -> list Z -> option S) (V : Z) (good : list Z -> Prop)
    (fresh : S -> Z -> Prop) (coded : S -> Z -> list Z -> Prop) : Prop := {
  encode_nodup l : good l -> NoDup l;
  encode_ids l : good l -> Forall (fun x => 1 <= x <= V) l;
  encode_without F l : good l -> good (without F l);
  encode_nil : good [];
  encode_fresh E v l : 0 <= v <= V -> good l -> fresh E v ->
    exists E', EncodeVertex E v l = Some E' /\ coded E' v l /\
      (forall w, w <> v -> fresh E w -> fresh E' w) /\ (forall w l', w <> v -> coded E w l' -> coded E' w l')
}.

Section lists.
Context (C : Config) (HV : 1 <= VERTEX_SIZE C < 2 ^ 31).
Notation V := (VERTEX_SIZE C).
Context {S : Type} (EncodeVertex : S -> Z -> list Z -> option S) (good : list Z -> Prop)
  (fresh : S -> Z -> Prop) (coded : S -> Z -> list Z -> Prop).
Context (laws : EncodeLaws EncodeVertex V good fresh coded).
Context (adj : list (list Z)) (Hgraph : graph_ok adj V good) (Hadj0 : zget adj 0 = Some []).
Context (D : Z) (HD : 0 <= D < 2 ^ 31) (kc : Z) (Hkc : 0 <= kc < D).

Lemma vertex_list_ok v : 0 <= v <= V -> vertex_list (Some adj) v = Some (neighbors adj v) /\ good (neighbors adj v).
Proof.
  intros Hv. pose proof (graph_size _ _ _ Hgraph) as Hs. unfold vertex_list, neighbors.
  destruct (zget_is_Some adj v) as [N EN]; [lia|]. rewrite EN. split; [done|].
  destruct (decide (v = 0)) as [->|]; [|apply (graph_lists _ _ _ Hgraph v); (done || lia)].
  rewrite Hadj0 in EN. injection EN as <-. apply encode_nil.
Qed.

Lemma rest_list filt l :
  Z.of_nat (length filt) = V + 1 -> Forall (fun x => 1 <= x <= V) l ->
  foldM (fun neighbor neighbors => f ← zget filt neighbor; Some (if (f : bool) then neighbors else neighbors ++ [neighbor])) l []
    = Some (without (gone filt) l).
Proof using Type.
  intros Hl Hids. destruct (foldM_inv (fun pre ns => ns = without (gone filt) pre)
    (fun neighbor neighbors => f ← zget filt neighbor; Some (if (f : bool) then neighbors else neighbors ++ [neighbor])) l [])
    as (ns & -> & ->); [done| |done].
  intros pre x post ns -> ->. apply Forall_app in Hids as [_ Hids]. apply Forall_cons in Hids as [Hx _].
  destruct (zget_is_Some filt x) as [f Ef]; [lia|]. rewrite Ef. bind_step. eexists. split; [done|].
  rewrite without_snoc. assert (gone filt x = f) as -> by (unfold gone; by rewrite Ef). by destruct f; rewrite ?app_nil_r.
Qed.

Lemma neighbors_symmetric u v : 1 <= u <= V -> 1 <= v <= V -> occ v (neighbors adj u) = occ u (neighbors adj v).
Proof.
  assert (forall x y, 0 <= x <= V -> occ y (neighbors adj x) = if bool_decide (y ∈ neighbors adj x) then 1 else 0) as Hocc.
  { intros x y Hx. destruct (vertex_list_ok x Hx) as [_ Hgood]. pose proof (encode_nodup _ Hgood) as Hnd.
    case_bool_decide as Hin; [|by apply occ_notin]. rewrite base.NoDup_ListNoDup in Hnd. rewrite list_elem_of_In in Hin.
    unfold occ. by rewrite (proj1 (NoDup_count_occ' Z.eq_dec _) Hnd y Hin). }
  intros Hu Hv. rewrite !Hocc by lia. assert (bool_decide (v ∈ neighbors adj u) = bool_decide (u ∈ neighbors adj v)) as ->; [|done].
  apply bool_decide_ext. by apply (graph_edge adj V good).
Qed.

#[local] Instance list_build_laws :
  BuildLaws V D (neighbors adj) (fun l => l) without fresh coded (core_step EncodeVertex (Some adj)) (rest_step EncodeVertex (Some adj)).
Proof.
  split.
  - intros v x Hv Hx. destruct (vertex_list_ok v Hv) as [_ Hgood]. exact (proj1 (Forall_forall _ _) (encode_ids _ Hgood) x Hx).
  - unfold neighbors. by rewrite Hadj0.
  - apply neighbors_symmetric.
  - done.
  - apply without_ext.
  - intros idx b filt E u du Hb Ht Hidx Hu Hlf Hgone Hfresh. pose proof (bo_degrees _ _ b Hb). pose proof (bo_vert _ _ b Hb).
    unfold core_step. rewrite (zget_at (vert b)) by lia. bind_step. fold u. rewrite (zget_at (degrees b)) by lia. bind_step.
    change (at_ (degrees b) u) with du. destruct (vertex_list_ok u Hu) as [-> Hgood]. bind_step.
    destruct (neighbors_step_ok V D HV ltac:(lia) b filt idx du (neighbors adj u) [] Hb Ht Hidx eq_refl Hlf Hgone (encode_ids _ Hgood))
      as (b' & -> & Hb'). bind_step.
    destruct (zset filt u true) as [filt'|] eqn:Ef; [|by rewrite zset_Some in Ef by lia]. bind_step.
    destruct (encode_fresh E u _ Hu (encode_without (gone filt) _ Hgood) Hfresh) as (E' & HE & Hrest).
    cbn [app]. rewrite HE. bind_step. by exists b', filt', E'.
  - intros filt vert idx E u Hget Hu Hlf Hfresh. unfold rest_step. rewrite Hget. bind_step. destruct (vertex_list_ok u Hu) as [-> Hgood]. bind_step.
    rewrite (rest_list filt _ Hlf (encode_ids _ Hgood)). bind_step. exact (encode_fresh E u _ Hu (encode_without (gone filt) _ Hgood) Hfresh).
Qed.

Notation size_of v := (Z.of_nat (length (neighbors adj v))).

(** Every degree from 1 to the largest occurs. *)
Definition no_gap : Prop := all_degrees V D (fun v => size_of v).

Lemma get_degrees_ok db :
  no_gap ->
  exists degs ids, get_degrees C (Some adj) db = Some (degs, ids, D) /\
    Z.of_nat (length degs) = V + 1 /\ at_ degs 0 = 0 /\ (forall v, 1 <= v <= V -> at_ degs v = size_of v) /\
    ids = seqZ 0 (V + 1).
Proof.
  intros Hgap. pose proof (graph_size _ _ _ Hgraph) as Hs. pose proof (proj1 Hgap) as Hmax. unfold get_degrees.
  destruct (degrees_loop_ok C HV D HD (fun v => size_of v) (fun id => list ← zget adj id; Some (u32 (Z.of_nat (length list)))) ltac:(lia) Hgap)
    as (degs & HL & Hl & H0 & Hdeg).
  { intros v Hv. specialize (Hmax v Hv). split; [lia|]. unfold neighbors in *. destruct (zget_is_Some adj v) as [N EN]; [lia|].
    rewrite EN in *. bind_step. change (default [] (Some N)) with N in *. cbn beta in Hmax. by rewrite u32_small by lia. }
  exists degs, (seqZ 0 (V + 1)). split; [|done]. rewrite <- HL. replace (length adj - 1)%nat with (Z.to_nat V) by lia.
  apply for_loop_ext. intros id [[d w] m]. by destruct (zget adj id).
Qed.

(** The builder. *)
Lemma RangeVend_build_ok std_sort db E :
  sorts std_sort -> no_gap -> (forall v, 0 <= v <= V -> fresh E v) ->
  exists filt E' F, RangeVend_BuildEncoding C EncodeVertex std_sort kc (Some adj) db E = Some (filt, E') /\
    (forall v, 1 <= v <= V -> coded E' v (without (F v) (neighbors adj v))) /\ peeled V filt F /\
    (forall v, 1 <= v <= V -> gone filt v = true -> Z.of_nat (length (without (F v) (neighbors adj v))) <= kc).
Proof.
  intros Hsort Hgap Hfresh. unfold RangeVend_BuildEncoding.
  destruct (get_degrees_ok db Hgap) as (degs & ids & -> & Hl & H0 & Hdeg & ->). bind_step.
  exact (degree_build_ok C HV D HD kc Hkc _ _ _ _ _ _ _ list_build_laws std_sort degs E Hsort Hgap Hfresh Hl H0 Hdeg).
Qed.
End lists.

(** * Too few degrees *)

(** When no vertex has more neighbors than a code holds, the first place of the
    degree above is not in [bin]. *)
Lemma get_degrees_max (C : Config) adj db kc degs ids max_degree :
  0 <= kc -> Forall (fun l => Z.of_nat (length l) <= kc) adj ->
  get_degrees C (Some adj) db = Some (degs, ids, max_degree) -> 0 <= max_degree <= kc.
Proof.
  intros Hkc Hadj. unfold get_degrees. intros E.
  apply (for_loop_keeps (fun st => 0 <= st.2 <= kc)) in E; [done|cbn; lia|]. clear E. intros i [[d v] m] st' Hm E. cbn [snd] in Hm.
  destruct (zget adj i) as [l|] eqn:El; [|done]. revert E. bind_step. apply zget_Some_inv in El as [_ El].
  apply list_elem_of_lookup_2 in El. pose proof (proj1 (Forall_forall _ _) Hadj l El) as Hl. cbn in Hl.
  destruct (zset v i i); [|done]. bind_step. destruct (zset d i _); [|done]. bind_step. intros [= <-]. cbn [snd].
  pose proof (u32_bound (Z.of_nat (length l))). pose proof (Z.mod_le (Z.of_nat (length l)) (2 ^ 32)). unfold u32 in *. lia.
Qed.

(** * Properties *)

(** On a graph in which no vertex has more neighbors than a code of the
    encoding holds, the builder reads behind the end of [bin], whatever the
    encoding. *)
Theorem RangeVend_small_degrees (C : Config) (S : Type) (EncodeVertex : S -> Z -> list Z -> option S)
    (std_sort : (Z -> Z) -> list Z -> list Z) (GetIntSize : Z) (adj : list (list Z)) (db : list (Z * list Z)) (E : S)
    (HI : 0 <= GetIntSize) (Hadj : Forall (fun l => Z.of_nat (length l) <= GetIntSize) adj) :
  RangeVend_BuildEncoding C EncodeVertex std_sort GetIntSize (Some adj) db E = None.
Proof.
  unfold RangeVend_BuildEncoding, degree_build. destruct (get_degrees C (Some adj) db) as [[[degs ids] max_degree]|] eqn:Ed; [|done]. bind_step.
  apply (get_degrees_max C adj db GetIntSize) in Ed; [|done..].
  destruct (place_vertices _ _) as [b|] eqn:Eb; [|done]. bind_step. apply place_vertices_bin in Eb. cbn [bin] in Eb.
  rewrite length_replicate in Eb. destruct (fill_bins _ _ _ _) as [filled|] eqn:Ef; [|done]. bind_step. apply fill_bins_length in Ef.
  assert (zget filled (GetIntSize + 1) = None) as Hnone.
  { destruct (zget filled (GetIntSize + 1)) as [x|] eqn:E0; [|done]. apply zget_Some_inv in E0 as [E0 _]. lia. }
  cbn [core_loop bin]. by rewrite Hnone.
Qed.

(** * Witnesses *)

(** With the encoding that lists what is encoded, on a path of three vertices. *)
Lemma RangeVend_small_degrees_witness :
  RangeVend_BuildEncoding small_config (fun E v l => Some (E ++ [(v, l)])) sort_by 2
    (Some ([[]; [2]; [1; 3]; [2]] ++ replicate 17 [])) [] [] = None.
Proof.
  apply (RangeVend_small_degrees small_config _ (fun E v l => Some (E ++ [(v, l)]))).
  - lia.
  - apply (bool_decide_unpack _). vm_compute. exact I.
Defined.
