(* ===== verification/RangeBuild.v ===== *)
(** The builder of [RangeVend] with the two encodings it is used for that are
    modelled, [RangeEncode] ([src/include/vend/range_vend.h]) and [HybridEncode]
    ([src/include/vend/hybrid_vend.h]): what it makes is tested soundly, as long
    as no degree is left out. *)
From S2P Require Import Prelude Config BitSet Encode Hybrid RangeEncode KCore DegreeOrder RangeVend.
From stdpp Require Import options.
Local Open Scope Z_scope.
Set Default Proof Using "Type*".

(** * The two versions *)

(** [Init] makes the encoding with the constructor [EncodeBitSet()]. *)

Section versions.
Context (C : Config) (std_sort : (Z -> Z) -> list Z -> list Z).

Definition RangeVend_Build (adjacency_list_ : option (list (list Z))) (data_db_ : list (Z * list Z))
  : option (list bool * list (list Z)) :=
  RangeVend_BuildEncoding C (RangeEncode_EncodeVertex C) std_sort (RangeEncode_GetIntSize C) adjacency_list_ data_db_
    (EncodeBitSet_default C).

Definition HybridVend_Build (adjacency_list_ : option (list (list Z))) (data_db_ : list (Z * list Z))
  : option (list bool * list (list Z)) :=
  RangeVend_BuildEncoding C (HybridEncode_EncodeVertex C) std_sort (HybridEncode_GetIntSize C) adjacency_list_ data_db_
    (EncodeBitSet_default C).
End versions.

(** * What a test needs of the codes *)

(** A list of at most [full] neighbors is decodable; a code is in the vertex's
    vector, of [n] bytes. *)
Class TestLaws (V full : Z) (n : nat) (good : list Z -> Prop) (coded : list (list Z) -> Z -> list Z -> Prop)
    (NEpairTest : list (list Z) -> Z -> Z -> option PairType) : Prop := {
  coded_stored E u N : coded E u N -> stored_at n E u;
  coded_local E E' u N : zget E' u = zget E u -> coded E u N -> coded E' u N;
  test_coded E u v Nu Nv edge :
    1 <= u <= V -> 1 <= v <= V -> good Nu -> good Nv -> coded E u Nu -> coded E v Nv ->
    covers_edge (Z.of_nat (length Nu) <=? full) (Z.of_nat (length Nv) <=? full) Nu Nv u v edge ->
    exists t, NEpairTest E u v = Some t /\ answers t edge /\
      ((Z.of_nat (length Nu) <=? full) || (Z.of_nat (length Nv) <=? full) = true -> t <> Uncertain)
}.

Section build.
Context (C : Config) (HV : 1 <= VERTEX_SIZE C < 2 ^ 31) (full kc D : Z) (n : nat) (Hfull : kc <= full).
Context (EncodeVertex : list (list Z) -> Z -> list Z -> option (list (list Z)))
  (NEpairTest : list (list Z) -> Z -> Z -> option PairType).
Context (good : list Z -> Prop) (fresh : list (list Z) -> Z -> Prop) (coded : list (list Z) -> Z -> list Z -> Prop).
Context {EL : EncodeLaws EncodeVertex (VERTEX_SIZE C) good fresh coded} {TL : TestLaws (VERTEX_SIZE C) full n good coded NEpairTest}.
Context (adj : list (list Z)) (Hgraph : graph_ok adj (VERTEX_SIZE C) good) (Hadj0 : zget adj 0 = Some []).
Context (HD : 0 <= D < 2 ^ 31) (Hkc : 0 <= kc < D) (Hgap : no_gap C adj D).

(** The tests are those of the codes, so they are the same of every state that
    has the codes, like one that was read from a file. *)
Lemma build_sound std_sort db E :
  sorts std_sort -> (forall v, 0 <= v <= VERTEX_SIZE C -> fresh E v) ->
  exists filt E', RangeVend_BuildEncoding C EncodeVertex std_sort kc (Some adj) db E = Some (filt, E') /\
    saved_tests C n E' NEpairTest (right_tests adj filt).
Proof.
  intros Hsort Hfresh.
  destruct (RangeVend_build_ok C HV EncodeVertex good fresh coded EL adj Hgraph Hadj0 D HD kc Hkc std_sort db E Hsort Hgap Hfresh)
    as (filt & E' & F & HB & Hcoded & Hpeel & Hsmall).
  exists filt, E'. split; [done|]. split; [intros v Hv; by eapply coded_stored, Hcoded|]. intros E'' Hsame u v Hu Hv.
  assert (forall w, 1 <= w <= VERTEX_SIZE C -> good (without (F w) (neighbors adj w))) as Hgood.
  { intros w Hw. apply encode_without. unfold neighbors. pose proof (graph_size _ _ _ Hgraph).
    destruct (zget_is_Some adj w) as [N EN]; [lia|]. rewrite EN. by apply (graph_lists _ _ _ Hgraph w). }
  assert (forall w, 1 <= w <= VERTEX_SIZE C -> gone filt w = true ->
    (Z.of_nat (length (without (F w) (neighbors adj w))) <=? full) = true) as Hfits.
  { intros w Hw Hg. apply Z.leb_le. specialize (Hsmall w Hw Hg). lia. }
  destruct (test_coded E'' u v _ _ (v ∈ neighbors adj u) Hu Hv (Hgood u Hu) (Hgood v Hv)
    (coded_local _ _ _ _ (Hsame u Hu) (Hcoded u Hu)) (coded_local _ _ _ _ (Hsame v Hv) (Hcoded v Hv))) as (t & Et & Ht & Hc).
  - apply (peeled_covers (VERTEX_SIZE C) filt F); [done..|by apply Hfits|by apply Hfits|by apply (graph_edge adj (VERTEX_SIZE C) good)].
  - exists t. split; [done|]. split; [done|]. intros [Hg|Hg]%orb_true_iff; apply Hc;
      [rewrite (Hfits u Hu Hg)|rewrite (Hfits v Hv Hg); apply orb_true_r]; done.
Qed.
End build.

(** A vector of the constructor. *)
Definition new_vector (C : Config) (E : list (list Z)) (v : Z) : Prop :=
  zget E v = Some (BitSetSIMD_new (PER_ENCODE_BIT_SIZE C)).

Lemma default_new_vector C v : 0 <= v <= VERTEX_SIZE C -> new_vector C (EncodeBitSet_default C) v.
Proof. intros Hv. unfold new_vector, EncodeBitSet_default, EncodeBitSet_sized. by rewrite zget_lookup, lookup_replicate_2 by lia. Qed.

Lemma new_vector_zero C K :
  PER_ENCODE_BIT_SIZE C = 32 * K -> 0 <= K <= 64 ->
  let d := BitSetSIMD_new (PER_ENCODE_BIT_SIZE C) in
  bytes_ok d /\ nbits d = 32 * K /\ forall q, 0 <= q -> bit_at d q = false.
Proof.
  intros Hper HK. unfold BitSetSIMD_new. rewrite Hper. cbv zeta. replace (32 * K / 8) with (4 * K) by (apply (Z.div_unique_exact _ 8); lia).
  split; [apply bytes_ok_zero; lia|]. split; [unfold nbits; rewrite length_replicate; lia|]. intros q Hq. by apply bit_at_zero.
Qed.

(** ** The range encoding *)

(** Lists of distinct vertices, in any order. *)
Definition ids_ok (V : Z) (N : list Z) : Prop := NoDup N /\ Forall (fun x => 1 <= x <= V) N.

Lemma ids_ok_without V F N : ids_ok V N -> ids_ok V (without F N).
Proof.
  intros [Hn Hi]. split; [by apply NoDup_filter|by apply Forall_without].
Qed.

Section range.
Context (C : Config) (HK : 3 <= K_SIZE C <= 64) (Hper : PER_ENCODE_BIT_SIZE C = 32 * K_SIZE C).
Context (HV : 1 <= VERTEX_SIZE C < 2 ^ 31).

Definition range_coded_list (E : list (list Z)) (u : Z) (N : list Z) : Prop :=
  range_coded C E u N (Z.of_nat (length N) <=? K_SIZE C - 1).

#[export] Instance range_laws :
  EncodeLaws (RangeEncode_EncodeVertex C) (VERTEX_SIZE C) (ids_ok (VERTEX_SIZE C)) (new_vector C) range_coded_list.
Proof.
  destruct (new_vector_zero C (K_SIZE C) Hper ltac:(lia)) as (Hb & Hn & _). split.
  - by intros l [].
  - by intros l [].
  - intros F l. apply ids_ok_without.
  - split; constructor.
  - intros E v l Hv [Hnd Hids] Hnew.
    destruct (range_EncodeVertex_coded C HK Hper ltac:(lia) E v _ l Hnew) as (E' & HE & Hc & Hframe); [done|done|done| |].
    { by apply (nodup_ids_length (VERTEX_SIZE C)). }
    rewrite (max_int_eq C HK Hper ltac:(lia)) in Hc. exists E'. split; [done|]. split; [done|]. split.
    + intros w Hw. unfold new_vector. by rewrite Hframe.
    + intros w l' Hw. unfold range_coded_list. apply (coded_frame C HK Hper ltac:(lia) E). by apply Hframe.
Qed.

#[export] Instance range_tests :
  TestLaws (VERTEX_SIZE C) (K_SIZE C - 1) (Z.to_nat (4 * K_SIZE C)) (ids_ok (VERTEX_SIZE C)) range_coded_list (RangeEncode_NEpairTest C).
Proof.
  split.
  - intros E u N (d & Ed & Hc). exists d. split; [done|]. destruct Hc as [[Hb Hn] _]. split; [done|]. unfold nbits in Hn. lia.
  - intros E E' u N HE (d & Ed & Hc). exists d. by rewrite HE.
  - intros E u v Nu Nv edge Hu Hv _ _ Hcu Hcv Hcover. by apply (range_coded_NEpairTest C HK Hper ltac:(lia) E u v Nu Nv).
Qed.
End range.

(** ** The hybrid encoding *)

Section hybrid.
Context (C : Config) `{HL : Layout C}.

Lemma hybrid_list_without F N : neighbors_ok C N -> neighbors_ok C (without F N).
Proof.
  intros [Hs Hids Hlen]. split; [by apply sorted_without|by apply Forall_without|].
  pose proof (length_without F N). lia.
Qed.

#[export] Instance hybrid_laws :
  EncodeLaws (HybridEncode_EncodeVertex C) (VERTEX_SIZE C) (neighbors_ok C) (new_vector C) (code_of C).
Proof.
  destruct (new_vector_zero C (K_SIZE C) layout_per ltac:(pose proof layout_K; lia)) as (Hb & Hn & Hz). split.
  - intros l [Hs _ _]. by apply sorted_lt_nodup.
  - intros l [_ Hi _]. eapply Forall_impl; [exact Hi|]. by intros x [].
  - intros F l. apply hybrid_list_without.
  - split; [constructor|constructor|done].
  - intros E v l Hv Hl Hnew. destruct (EncodeVertex_code C E v l _ Hl Hnew) as (d' & E' & HE & Hset & Hc & _).
    { split; [done|]. by rewrite Hn, layout_per. }
    { intros _. exact Hz. }
    assert (forall w, w <> v -> zget E' w = zget E w) as Hframe
      by (intros w Hw; rewrite (zget_zset _ _ _ _ _ Hset); by rewrite (proj2 (Z.eqb_neq _ _) Hw)).
    exists E'. split; [done|]. split; [done|]. unfold new_vector, code_of. split; intros w; intros; by rewrite Hframe.
Qed.

#[export] Instance hybrid_tests :
  TestLaws (VERTEX_SIZE C) (MAX_K_CORE_SIZE C) (Z.to_nat (4 * K_SIZE C)) (neighbors_ok C) (code_of C) (HybridEncode_NEpairTest C).
Proof.
  split.
  - intros E u N (d & Ed & Hc). exists d. split; [done|].
    assert (vec_ok C d) as [Hb Hn] by (destruct (Z.of_nat (length N) <=? MAX_K_CORE_SIZE C); [apply Hc|destruct Hc as (t & blk & rest & _ & Hc); apply Hc]).
    split; [done|]. rewrite layout_per in Hn. unfold nbits in Hn. lia.
  - intros E E' u N HE (d & Ed & Hc). exists d. by rewrite HE.
  - intros E u v Nu Nv edge Hu Hv HNu HNv Hcu Hcv Hcover.
  destruct (NEpairTest_answers C E u v Nu Nv edge HNu HNv Hcu Hcv Hu Hv Hcover) as (t & Et & Ht & Hc).
  exists t. split; [done|]. split; [done|]. intros H%orb_true_iff. apply Hc. by rewrite <- !Z.leb_le.
Qed.
End hybrid.

(** ** The builders *)

Lemma RangeVend_saved (C : Config) (D : Z) (adj : list (list Z)) (std_sort : (Z -> Z) -> list Z -> list Z) db :
  3 <= K_SIZE C <= 64 -> PER_ENCODE_BIT_SIZE C = 32 * K_SIZE C -> 1 <= VERTEX_SIZE C < 2 ^ 31 ->
  graph_ok adj (VERTEX_SIZE C) (ids_ok (VERTEX_SIZE C)) -> zget adj 0 = Some [] ->
  K_SIZE C - 1 < D < 2 ^ 31 -> no_gap C adj D -> sorts std_sort ->
  exists filt E, RangeVend_Build C std_sort (Some adj) db = Some (filt, E) /\
    saved_tests C (Z.to_nat (4 * K_SIZE C)) E (RangeEncode_NEpairTest C) (right_tests adj filt).
Proof.
  intros HK Hper HV Hgraph Hadj0 HD Hgap Hsort.
  unfold RangeVend_Build, RangeEncode_GetIntSize. rewrite (max_int_eq C HK Hper) by lia.
  pose proof (range_laws C HK Hper HV). pose proof (range_tests C HK Hper HV).
  apply (build_sound C HV (K_SIZE C - 1) (K_SIZE C - 1) D (Z.to_nat (4 * K_SIZE C)) ltac:(lia) (RangeEncode_EncodeVertex C)
    (RangeEncode_NEpairTest C) (ids_ok (VERTEX_SIZE C)) (new_vector C) (range_coded_list C)); try done; [lia|lia|apply default_new_vector].
Qed.

Lemma HybridVend_saved (C : Config) (D : Z) (adj : list (list Z)) (std_sort : (Z -> Z) -> list Z -> list Z) db :
  Layout C -> 1 <= VERTEX_SIZE C < 2 ^ 31 -> graph_ok adj (VERTEX_SIZE C) (neighbors_ok C) -> zget adj 0 = Some [] ->
  MAX_INTEGER_SIZE C < D < 2 ^ 31 -> no_gap C adj D -> sorts std_sort ->
  exists filt E, HybridVend_Build C std_sort (Some adj) db = Some (filt, E) /\
    saved_tests C (Z.to_nat (4 * K_SIZE C)) E (HybridEncode_NEpairTest C) (right_tests adj filt).
Proof.
  intros HL HV Hgraph Hadj0 HD Hgap Hsort. unfold HybridVend_Build, HybridEncode_GetIntSize. pose proof (layout_int (C := C)) as Hint.
  apply (build_sound C HV (MAX_K_CORE_SIZE C) (MAX_INTEGER_SIZE C) D (Z.to_nat (4 * K_SIZE C)) ltac:(lia) (HybridEncode_EncodeVertex C)
    (HybridEncode_NEpairTest C) (neighbors_ok C) (new_vector C) (code_of C)); try done; [lia|lia|apply default_new_vector].
Qed.

(** * Checks of concrete graphs *)

Definition ids_check (V : Z) (N : list Z) : bool := bool_decide (NoDup N) && bool_decide (Forall (fun x => 1 <= x <= V) N).

Lemma ids_check_ok V N : ids_check V N = true -> ids_ok V N.
Proof. unfold ids_check. by rewrite andb_true_iff, !bool_decide_eq_true. Qed.

Definition hybrid_list_check (C : Config) (N : list Z) : bool :=
  bool_decide (Sorted Z.lt N) && bool_decide (Forall (fun x => 1 <= x <= VERTEX_SIZE C /\ x < 2 ^ VERTEX_BIT_SIZE C) N) &&
  (Z.of_nat (length N) <? 2 ^ 31).

Lemma hybrid_list_check_ok C N : hybrid_list_check C N = true -> neighbors_ok C N.
Proof.
  unfold hybrid_list_check. rewrite !andb_true_iff, !bool_decide_eq_true, Z.ltb_lt. intros [[Hs Hi] Hl]. split; [|done|done].
  apply Sorted_StronglySorted; [intros ?; lia|done].
Qed.

Definition no_gap_check (V D : Z) (adj : list (list Z)) : bool :=
  all_degrees_check V D (fun v => Z.of_nat (length (neighbors adj v))).

Lemma no_gap_check_ok C D adj : no_gap_check (VERTEX_SIZE C) D adj = true -> no_gap C adj D.
Proof. apply all_degrees_check_ok. Qed.

(** The vertices 1, ..., n with the edges [u + v > n]: every degree occurs. *)
Definition half_graph (V n : Z) : list (list Z) :=
  map (fun u => if (u <? 1) || (n <? u) then [] else filter (fun v => v <> u) (seqZ (n + 1 - u) u)) (seqZ 0 (V + 1)).

(** * Properties *)

(** C22: the builder with the range encoding, on a graph whose lists are of
    distinct vertices in any order, in which every degree from 1 to the largest
    occurs ([no_gap]), the largest being above [K_SIZE - 1], what a code holds: it
    returns, whatever order [std::sort] gives vertices of the same degree, and every
    later test is defined and never wrong about the edges; it is certain when one of
    the vertices was filtered. *)
Theorem RangeBuildEncoding_sound (C : Config) (D : Z) (adj : list (list Z)) (std_sort : (Z -> Z) -> list Z -> list Z)
    (db : list (Z * list Z))
    (HK : 3 <= K_SIZE C <= 64) (Hper : PER_ENCODE_BIT_SIZE C = 32 * K_SIZE C) (HV : 1 <= VERTEX_SIZE C < 2 ^ 31)
    (Hgraph : graph_ok adj (VERTEX_SIZE C) (ids_ok (VERTEX_SIZE C))) (Hadj0 : zget adj 0 = Some [])
    (HD : K_SIZE C - 1 < D < 2 ^ 31) (Hgap : no_gap C adj D) (Hsort : sorts std_sort) :
  exists filt E, RangeVend_Build C std_sort (Some adj) db = Some (filt, E) /\
    forall u v, 1 <= u <= VERTEX_SIZE C -> 1 <= v <= VERTEX_SIZE C ->
      exists t, RangeEncode_NEpairTest C E u v = Some t /\ answers t (v ∈ neighbors adj u) /\
        (gone filt u || gone filt v = true -> t <> Uncertain).
Proof.
  destruct (RangeVend_saved C D adj std_sort db HK Hper HV Hgraph Hadj0 HD Hgap Hsort) as (filt & E & HB & HE).
  exists filt, E. split; [done|]. exact (saved_tests_now _ _ _ _ _ HE).
Qed.

(** C9: the builder with the hybrid encoding, on a graph of sorted lists in which
    every degree from 1 to the largest occurs ([no_gap]), the largest being above
    [MAX_INTEGER_SIZE], what a code holds, and for a configuration whose fields fit
    the vector ([Layout]): it returns, whatever order [std::sort] gives vertices of
    the same degree, and every later test is defined and never wrong about the
    edges; it is certain when one of the vertices was filtered. *)
Theorem HybridBuildEncoding_sound (C : Config) (D : Z) (adj : list (list Z)) (std_sort : (Z -> Z) -> list Z -> list Z)
    (db : list (Z * list Z))
    (HL : Layout C) (HV : 1 <= VERTEX_SIZE C < 2 ^ 31)
    (Hgraph : graph_ok adj (VERTEX_SIZE C) (neighbors_ok C)) (Hadj0 : zget adj 0 = Some [])
    (HD : MAX_INTEGER_SIZE C < D < 2 ^ 31) (Hgap : no_gap C adj D) (Hsort : sorts std_sort) :
  exists filt E, HybridVend_Build C std_sort (Some adj) db = Some (filt, E) /\
    forall u v, 1 <= u <= VERTEX_SIZE C -> 1 <= v <= VERTEX_SIZE C ->
      exists t, HybridEncode_NEpairTest C E u v = Some t /\ answers t (v ∈ neighbors adj u) /\
        (gone filt u || gone filt v = true -> t <> Uncertain).
Proof.
  destruct (HybridVend_saved C D adj std_sort db HL HV Hgraph Hadj0 HD Hgap Hsort) as (filt & E & HB & HE).
  exists filt, E. split; [done|]. exact (saved_tests_now _ _ _ _ _ HE).
Qed.

(** * Witnesses *)

Lemma RangeBuildEncoding_sound_witness :
  exists filt E, RangeVend_Build small_config sort_by (Some (half_graph 20 7)) [] = Some (filt, E) /\
    forall u v, 1 <= u <= VERTEX_SIZE small_config -> 1 <= v <= VERTEX_SIZE small_config ->
      exists t, RangeEncode_NEpairTest small_config E u v = Some t /\ answers t (v ∈ neighbors (half_graph 20 7) u) /\
        (gone filt u || gone filt v = true -> t <> Uncertain).
Proof.
  apply (RangeBuildEncoding_sound small_config 6 (half_graph 20 7) sort_by []).
  - vm_compute. split; discriminate.
  - reflexivity.
  - vm_compute. split; [discriminate|reflexivity].
  - apply (lists_check_ok _ (ids_check 20)); [apply ids_check_ok|vm_compute; reflexivity].
  - vm_compute. reflexivity.
  - vm_compute. split; reflexivity.
  - apply no_gap_check_ok. vm_compute. reflexivity.
  - exact sort_by_sorts.
Defined.

Lemma HybridBuildEncoding_sound_witness :
  exists filt E, HybridVend_Build demo_config sort_by (Some (half_graph 1000 12)) [] = Some (filt, E) /\
    forall u v, 1 <= u <= VERTEX_SIZE demo_config -> 1 <= v <= VERTEX_SIZE demo_config ->
      exists t, HybridEncode_NEpairTest demo_config E u v = Some t /\ answers t (v ∈ neighbors (half_graph 1000 12) u) /\
        (gone filt u || gone filt v = true -> t <> Uncertain).
Proof.
  apply (HybridBuildEncoding_sound demo_config 11 (half_graph 1000 12) sort_by []).
  - exact demo_layout.
  - vm_compute. split; [discriminate|reflexivity].
  - apply (lists_check_ok _ (hybrid_list_check demo_config)); [apply hybrid_list_check_ok|vm_compute; reflexivity].
  - vm_compute. reflexivity.
  - vm_compute. split; reflexivity.
  - apply no_gap_check_ok. vm_compute. reflexivity.
  - exact sort_by_sorts.
Defined.

(** * Behaviours worth knowing *)

(** A path on three vertices cannot be encoded with K = 3. *)
Example small_path : RangeVend_Build small_config sort_by (Some ([[]; [2]; [1; 3]; [2]] ++ replicate 17 [])) [] = None.
Proof. vm_compute. reflexivity. Qed.

(** A degree that is left out: the edges 1-11, 5-6, 8-11 and 9-11 have no vertex
    of degree 2. Vertex 11 is never encoded, and the edge 5-6 is denied. *)
Definition gap_graph : list (list Z) :=
  map (fun v => if v =? 1 then [11] else if v =? 5 then [6] else if v =? 6 then [5] else if v =? 8 then [11]
                else if v =? 9 then [11] else if v =? 11 then [1; 8; 9] else []) (seqZ 0 21).

Example gap_denied :
  (r ← RangeVend_Build small_config sort_by (Some gap_graph) [];
   t ← RangeEncode_NEpairTest small_config r.2 5 6;
   Some (t, zget r.2 11)) = Some (NonNeighbor, Some (replicate 12 0)).
Proof. vm_compute. reflexivity. Qed.

(** Built from the database, every list counts as that of vertex 1, and a vertex
    is encoded without neighbors or not at all: in a clique the edge 1-2 is
    denied. *)
Example database_denied :
  (r ← RangeVend_Build small_config sort_by None [(1, [2; 3; 4]); (2, [1; 3; 4]); (3, [1; 2; 4]); (4, [1; 2; 3])];
   RangeEncode_NEpairTest small_config r.2 1 2) = Some NonNeighbor.
Proof. vm_compute. reflexivity. Qed.
