(* ===== verification/DirectedHybrid.v ===== *)
(** The directed hybrid encoding and its builder, [DirectedHybrid] and
    [Directed_Hyb_Vend] ([src/include/encode/single/directed_hybrid.h],
    [src/vend/dir_hyb_vend.cpp], [src/include/vend/dir_hyb_vend.h]): an array of
    vectors for the lists of out-neighbors and one for those of in-neighbors,
    each a code of [Hybrid]; a pair is tested on the out-code of its first vertex
    and the in-code of its second. The builder is that of [DegreeOrder], with
    the two lists of a vertex one behind the other. *)
From S2P Require Import Prelude Config BitSet HashCount Encode Hybrid KCore DegreeOrder RangeVend RangeBuild.
From stdpp Require Import options.
Local Open Scope Z_scope.
Set Default Proof Using "Type*".

Section DirectedHybrid.
Context (C : Config).

(** [encode_bitset_] and [in_bitset_]. *)
Definition DirectedHybrid := (list (list Z) * list (list Z))%type.

(** [DirectedHybrid()]. *)
Definition DirectedHybrid_default : DirectedHybrid := (EncodeBitSet_default C, EncodeBitSet_default C).

Definition direction (E : DirectedHybrid) (out : bool) : list (list Z) := if out then E.1 else E.2.
Definition set_direction (E : DirectedHybrid) (out : bool) (A : list (list Z)) : DirectedHybrid :=
  if out then (A, E.2) else (E.1, A).

(** [DynamicChoose(vertex, neighbors, count, out)]: the choice of [HybridEncode],
    for the vector of one direction; also [count]. *)
Definition DirectedHybrid_DynamicChoose (E : DirectedHybrid) (vertex : Z) (neighbors : list Z) (out : bool)
  : option (DirectedHybrid * Z) :=
  bitset ← zget (direction E out) vertex;
  '(bitset, max_score) ← HybridEncode_DynamicChoose C bitset neighbors;
  A ← zset (direction E out) vertex bitset;
  Some (set_direction E out A, max_score).

(** [EncodeVertex(vertex_id, neighbors, out)]. *)
Definition DirectedHybrid_EncodeVertex_dir (E : DirectedHybrid) (vertex_id : Z) (neighbors : list Z) (out : bool)
  : option DirectedHybrid :=
  if Z.of_nat (length neighbors) <=? MAX_K_CORE_SIZE C then
    encode ← zget (direction E out) vertex_id;
    encode ← BitSetSIMD_SetOne encode 0;
    r ← foldM (store_step (VERTEX_BIT_SIZE C)) neighbors (encode, 1);
    A ← zset (direction E out) vertex_id r.1;
    Some (set_direction E out A)
  else r ← DirectedHybrid_DynamicChoose E vertex_id neighbors out; Some r.1.

(** [EncodeVertex(vertex_id, out_neigh, in_neigh)]. *)
Definition DirectedHybrid_EncodeVertex (E : DirectedHybrid) (vertex_id : Z) (lists : list Z * list Z) : option DirectedHybrid :=
  E ← DirectedHybrid_EncodeVertex_dir E vertex_id lists.1 true;
  DirectedHybrid_EncodeVertex_dir E vertex_id lists.2 false.

Definition DirectedHybrid_IsDecodable (E : DirectedHybrid) (vertex : Z) (out : bool) : option bool :=
  encode ← zget (direction E out) vertex; BitSetSIMD_IsOne encode 0.

(** [NonNeighborTest(vertex1, vertex2, reverse)]. *)
Definition DirectedHybrid_NonNeighborTest (E : DirectedHybrid) (vertex1 vertex2 : Z) (reverse : bool) : option PairType :=
  encode ← zget (if reverse then E.2 else E.1) vertex1;
  one ← BitSetSIMD_IsOne encode 0;
  let find := if HSIMD C then BitSetSIMD_BlockFindSIMD else BitSetSIMD_BlockFind in
  if (one : bool) then find encode 1 (VERTEX_BIT_SIZE C) (MAX_K_CORE_SIZE C) vertex2
  else
    block_num ← BitSetSIMD_GetBlockNum (LOG_K C) encode;
    type ← HybridEncode_GetBlockModel encode;
    let hash_begin := u32 (block_num * VERTEX_BIT_SIZE C + 3 + LOG_K C) in
    min ← (if negb (bool_decide (type = LeftMost))
           then if block_num =? 0 then Some 0
                else BitSetSIMD_BlockGet encode (3 + LOG_K C) (VERTEX_BIT_SIZE C)
           else Some 0);
    max ← (if negb (bool_decide (type = RightMost))
           then if block_num =? 0 then Some 0
                else BitSetSIMD_BlockGet encode
                       (u32 (3 + LOG_K C + (block_num - 1) * VERTEX_BIT_SIZE C)) (VERTEX_BIT_SIZE C)
           else Some (Encode_vertex_id_upper C));
    if (vertex2 <? min) || (max <? vertex2) then
      if hash_begin =? PER_ENCODE_BIT_SIZE C then Some Uncertain else
      h ← HybridEncode_Hash C vertex2 hash_begin;
      one ← BitSetSIMD_IsOne encode h;
      Some (if (one : bool) then Uncertain else NonNeighbor)
    else find encode (BLOCK_BEGIN_INDEX C) (VERTEX_BIT_SIZE C) block_num vertex2.

Definition DirectedHybrid_NEpairTest (E : DirectedHybrid) (vertex1 vertex2 : Z) : option PairType :=
  encode_type1 ← DirectedHybrid_IsDecodable E vertex1 true;
  encode_type2 ← DirectedHybrid_IsDecodable E vertex2 false;
  if (encode_type1 : bool) then
    if (encode_type2 : bool) then
      type1 ← DirectedHybrid_NonNeighborTest E vertex1 vertex2 false;
      if bool_decide (type1 = Neighbor) then Some type1
      else type2 ← DirectedHybrid_NonNeighborTest E vertex2 vertex1 true; Some (PairType_min type1 type2)
    else DirectedHybrid_NonNeighborTest E vertex1 vertex2 false
  else if (encode_type2 : bool) then DirectedHybrid_NonNeighborTest E vertex2 vertex1 true
  else
    type1 ← DirectedHybrid_NonNeighborTest E vertex1 vertex2 false;
    type2 ← DirectedHybrid_NonNeighborTest E vertex2 vertex1 true;
    Some (PairType_min type1 type2).

(** [HybridEncode::InsertPair]: it is inherited, so that it tests the directed
    pair and then encodes lists of [encode_bitset_] only. *)
Definition DirectedHybrid_InsertPair (db : Z -> list Z) (E : DirectedHybrid) (vertex1 vertex2 : Z) : option DirectedHybrid :=
  t ← DirectedHybrid_NEpairTest E vertex1 vertex2;
  if bool_decide (t = Uncertain) then Some E else
  encode_type1 ← HybridEncode_GetEncodeType C E.1 vertex1;
  encode_type2 ← HybridEncode_GetEncodeType C E.1 vertex2;
  let '(vertex1, vertex2) :=
    if EncodeType_val encode_type2 <? EncodeType_val encode_type1
    then (vertex2, vertex1) else (vertex1, vertex2) in
  let neighbor2 := HybridEncode_GetAllNeighbors db vertex2 in
  let neighbor1 := HybridEncode_GetAllNeighbors db vertex1 ++ [vertex2] in
  A ← HybridEncode_EncodeVertex C E.1 vertex1 neighbor1;
  A ← HybridEncode_EncodeVertex C A vertex2 neighbor2;
  Some (A, E.2).

(** [HybridEncode::DeletePair] does not read [in_bitset_]. *)
Definition DirectedHybrid_DeletePair (db : Z -> list Z) (E : DirectedHybrid) (vertex1 vertex2 : Z) : option DirectedHybrid :=
  A ← HybridEncode_DeletePair C db E.1 vertex1 vertex2; Some (A, E.2).

(** * Directed_Hyb_Vend *)

Section builder.
Context (std_sort : (Z -> Z) -> list Z -> list Z) (adjacency_list_ in_adj_list_ : list (list Z)).

(** The degrees: those of both directions. *)
Definition get_degrees_dir : option (list Z * list Z * Z) :=
  for_loop (length adjacency_list_ - 1) 1
    (fun id '(degrees, vert, max_degree) =>
       list ← zget adjacency_list_ id;
       in_list ← zget in_adj_list_ id;
       let degree := u32 (Z.of_nat (length list) + Z.of_nat (length in_list)) in
       vert ← zset vert id id;
       degrees ← zset degrees id degree;
       Some (degrees, vert, Z.max degree max_degree)) (zeros C, zeros C, 0).

(** One vertex of small degree. *)
Definition core_step_dir (idx : Z) (b : Bins) (filtered : list bool) (E : DirectedHybrid)
  : option (Bins * list bool * DirectedHybrid) :=
  vertex ← zget (vert b) idx;
  vertex_degree ← zget (degrees b) vertex;
  adj ← zget adjacency_list_ vertex;
  '(b, neighbors) ← foldM (neighbor_step filtered vertex_degree) adj (b, []);
  in_adj ← zget in_adj_list_ vertex;
  '(b, in_neighbors) ← foldM (neighbor_step filtered vertex_degree) in_adj (b, []);
  filtered ← zset filtered vertex true;
  E ← DirectedHybrid_EncodeVertex E vertex (neighbors, in_neighbors);
  Some (b, filtered, E).

Definition rest_step_dir (filtered : list bool) (vert : list Z) (idx : Z) (E : DirectedHybrid) : option DirectedHybrid :=
  vertex ← zget vert idx;
  list ← zget adjacency_list_ vertex;
  neighbors ← unfiltered_neighbors filtered list;
  in_list ← zget in_adj_list_ vertex;
  in_neigh ← unfiltered_neighbors filtered in_list;
  DirectedHybrid_EncodeVertex E vertex (neighbors, in_neigh).

(** [BuildEncoding]: the filtered vertices and the encoding. *)
Definition Directed_Hyb_Vend_BuildEncoding (E : DirectedHybrid) : option (list bool * DirectedHybrid) :=
  '(degs, ids, max_degree) ← get_degrees_dir;
  degree_build C std_sort core_step_dir rest_step_dir (HybridEncode_GetIntSize C) degs ids max_degree E.
End builder.

(** [LoadEncode] and [EncodePersistent]: one file per direction. *)
Definition Directed_Hyb_Vend_LoadEncode (E : DirectedHybrid) (file in_file : list (list Z)) : option DirectedHybrid :=
  E ← EncodeBitSet_LoadFromDb_dir E.1 E.2 file true;
  EncodeBitSet_LoadFromDb_dir E.1 E.2 in_file false.

Definition Directed_Hyb_Vend_EncodePersistent (E : DirectedHybrid) : option (list (list Z) * list (list Z)) :=
  file ← EncodeBitSet_EncodePersistent_dir C E.1 E.2 true;
  in_file ← EncodeBitSet_EncodePersistent_dir C E.1 E.2 false;
  Some (file, in_file).
End DirectedHybrid.

(** * Proofs: the encoding *)

Section encoding.
Context (C : Config) `{HL : Layout C}.
Notation V := (VERTEX_SIZE C).

(** One direction is encoded and tested as [HybridEncode] does. *)
Lemma EncodeVertex_direction E v N out :
  DirectedHybrid_EncodeVertex_dir C E v N out =
    A ← HybridEncode_EncodeVertex C (direction E out) v N; Some (set_direction E out A).
Proof using Type.
  unfold DirectedHybrid_EncodeVertex_dir, DirectedHybrid_DynamicChoose, HybridEncode_EncodeVertex.
  destruct (_ <=? _).
  - destruct (zget _ v) as [d|]; [|done]. bind_step. destruct (BitSetSIMD_SetOne d 0) as [d1|]; [|done]. bind_step.
    destruct (foldM _ N (d1, 1)) as [r|]; [by bind_step|done].
  - destruct (zget _ v) as [d|]; [|done]. bind_step. destruct (HybridEncode_DynamicChoose C d N) as [[d' s]|]; [|done]. bind_step.
    destruct (zset _ v d') as [A|] eqn:EA; cbn [fst]; rewrite EA; [by repeat bind_step|done].
Qed.

Lemma GetBlockModel_direction A v d :
  zget A v = Some d -> HybridEncode_GetBlockModel_v A v = HybridEncode_GetBlockModel d.
Proof using Type. intros E. unfold HybridEncode_GetBlockModel_v. by rewrite E. Qed.

Lemma NonNeighborTest_direction E v1 v2 reverse :
  DirectedHybrid_NonNeighborTest C E v1 v2 reverse = HybridEncode_NonNeighborTest C (direction E (negb reverse)) v1 v2.
Proof using Type.
  unfold DirectedHybrid_NonNeighborTest, HybridEncode_NonNeighborTest, HybridEncode_IsDecodable.
  assert ((if reverse then E.2 else E.1) = direction E (negb reverse)) as -> by by destruct reverse.
  destruct (zget _ v1) as [d|] eqn:Ed; [|done]. bind_step. by rewrite (GetBlockModel_direction _ _ _ Ed).
Qed.

Lemma IsDecodable_direction E v out : DirectedHybrid_IsDecodable E v out = HybridEncode_IsDecodable (direction E out) v.
Proof using Type. done. Qed.

(** The codes of a vertex: one per direction. *)
Definition dir_coded (E : DirectedHybrid) (v : Z) (lists : list Z * list Z) : Prop := code_of C E.1 v lists.1 /\ code_of C E.2 v lists.2.
Definition dir_fresh (E : DirectedHybrid) (v : Z) : Prop := new_vector C E.1 v /\ new_vector C E.2 v.
Definition dir_good (lists : list Z * list Z) : Prop := neighbors_ok C lists.1 /\ neighbors_ok C lists.2.

Lemma dir_encode E v lists :
  0 <= v <= V -> dir_good lists -> dir_fresh E v ->
  exists E', DirectedHybrid_EncodeVertex C E v lists = Some E' /\ dir_coded E' v lists /\
    (forall w, w <> v -> dir_fresh E w -> dir_fresh E' w) /\ (forall w l', w <> v -> dir_coded E w l' -> dir_coded E' w l').
Proof.
  destruct lists as [N M], E as [out inn]. intros Hv [HN HM] [Fo Fi]. cbn [fst snd] in *. pose proof (hybrid_laws C) as laws.
  unfold DirectedHybrid_EncodeVertex. rewrite !EncodeVertex_direction. cbn [direction fst snd].
  destruct (encode_fresh out v N Hv HN Fo) as (out' & -> & Ho & Ffo & Cfo). bind_step. cbn [set_direction fst snd].
  rewrite EncodeVertex_direction. cbn [direction fst snd].
  destruct (encode_fresh inn v M Hv HM Fi) as (inn' & -> & Hi & Ffi & Cfi). bind_step. cbn [set_direction fst snd].
  eexists. split; [done|]. split; [done|]. unfold dir_fresh, dir_coded. cbn [fst snd]. split.
  - intros w Hne [H1 H2]. auto.
  - intros w l' Hne [H1 H2]. auto.
Qed.

(** A list of at most [MAX_K_CORE_SIZE] neighbors is decodable. *)
Definition dir_fits (N : list Z) : bool := Z.of_nat (length N) <=? MAX_K_CORE_SIZE C.

Lemma dir_NEpairTest E u v lu lv edge :
  dir_good lu -> dir_good lv -> dir_coded E u lu -> dir_coded E v lv -> 1 <= u <= V -> 1 <= v <= V ->
  covers_edge (dir_fits lu.1) (dir_fits lv.2) lu.1 lv.2 u v edge ->
  exists t, DirectedHybrid_NEpairTest C E u v = Some t /\ answers t edge /\ (dir_fits lu.1 || dir_fits lv.2 = true -> t <> Uncertain).
Proof.
  intros [Gu _] [_ Gv] [Cu _] [_ Cv] Hu Hv (H1 & H2 & H3). unfold DirectedHybrid_NEpairTest.
  rewrite !IsDecodable_direction, !NonNeighborTest_direction. cbn [direction negb].
  rewrite (code_IsDecodable C E.1 u lu.1 Cu), (code_IsDecodable C E.2 v lv.2 Cv). bind_step. fold (dir_fits lu.1) (dir_fits lv.2).
  destruct (code_NonNeighborTest C E.1 u lu.1 v Gu Cu Hv) as (t1 & E1 & A1 & N1).
  destruct (code_NonNeighborTest C E.2 v lv.2 u Gv Cv Hu) as (t2 & E2 & A2 & N2).
  rewrite <- Z.leb_le in N1, N2. fold (dir_fits lu.1) in N1. fold (dir_fits lv.2) in N2.
  destruct (dir_fits lu.1), (dir_fits lv.2); rewrite ?E1, ?E2; bind_step.
  - specialize (N1 eq_refl). specialize (N2 eq_refl). destruct t1, t2; try done; simpl in *;
      eexists; (split; [done|]); simpl; split; try done; tauto.
  - specialize (N1 eq_refl). exists t1. split; [done|]. destruct t1; simpl in *; split; try done; tauto.
  - specialize (N2 eq_refl). exists t2. split; [done|]. destruct t2; simpl in *; split; try done; tauto.
  - eexists. split; [done|]. destruct t1, t2; simpl in *; split; try done; tauto.
Qed.
End encoding.

(** * Proofs: the builder *)

Section build.
Context (C : Config) `{HL : Layout C} (HV : 1 <= VERTEX_SIZE C < 2 ^ 31).
Notation V := (VERTEX_SIZE C).
Context (adj in_adj : list (list Z)) (Hgraph : digraph_ok V (neighbors_ok C) adj in_adj).
Context (Hadj0 : zget adj 0 = Some []) (Hin0 : zget in_adj 0 = Some []).
Context (D : Z) (HD : 0 <= D < 2 ^ 31) (Hkc : MAX_INTEGER_SIZE C < D).

Definition lists_of (v : Z) : list Z * list Z := (neighbors adj v, neighbors in_adj v).
Definition both (lists : list Z * list Z) : list Z := lists.1 ++ lists.2.
Definition without_both (F : Z -> bool) (lists : list Z * list Z) : list Z * list Z := (without F lists.1, without F lists.2).

Lemma lists_of_ok v : 0 <= v <= V ->
  zget adj v = Some (neighbors adj v) /\ zget in_adj v = Some (neighbors in_adj v) /\ dir_good C (lists_of v).
Proof.
  intros Hv. pose proof (digraph_size _ _ _ _ Hgraph). pose proof (digraph_in_size _ _ _ _ Hgraph). unfold dir_good, lists_of, neighbors.
  destruct (zget_is_Some adj v) as [N EN]; [lia|]. destruct (zget_is_Some in_adj v) as [M EM]; [lia|]. rewrite EN, EM. split; [done|]. split; [done|].
  cbn [default fst snd]. destruct (decide (v = 0)) as [->|].
  - rewrite Hadj0 in EN. rewrite Hin0 in EM. injection EN as <-. injection EM as <-. split; apply (encode_nil (EncodeLaws := hybrid_laws C)).
  - split; apply (digraph_lists _ _ _ _ Hgraph v); (lia || auto).
Qed.

Lemma dir_ids N : neighbors_ok C N -> Forall (fun x => 1 <= x <= V) N.
Proof using HL. apply (encode_ids (EncodeLaws := hybrid_laws C)). Qed.

Lemma unfiltered_ok filt N : Z.of_nat (length filt) = V + 1 -> neighbors_ok C N -> unfiltered_neighbors filt N = Some (without (gone filt) N).
Proof using HL.
  intros Hl HN. rewrite unfiltered_neighbors_spec; [done|]. eapply Forall_impl; [by apply dir_ids|]. simpl. lia.
Qed.

Lemma occ_member N x : neighbors_ok C N -> occ x N = if bool_decide (x ∈ N) then 1 else 0.
Proof using HL.
  intros HN. pose proof (encode_nodup (EncodeLaws := hybrid_laws C) N HN) as Hnd. case_bool_decide as Hin; [|by apply occ_notin].
  rewrite base.NoDup_ListNoDup in Hnd. rewrite list_elem_of_In in Hin. unfold occ. by rewrite (proj1 (NoDup_count_occ' Z.eq_dec _) Hnd x Hin).
Qed.

Lemma both_symmetric u v : 1 <= u <= V -> 1 <= v <= V -> occ v (both (lists_of u)) = occ u (both (lists_of v)).
Proof.
  intros Hu Hv. destruct (lists_of_ok u ltac:(lia)) as (_ & _ & Gu1 & Gu2). destruct (lists_of_ok v ltac:(lia)) as (_ & _ & Gv1 & Gv2).
  unfold both. rewrite !occ_app, !occ_member by done. cbn [lists_of fst snd].
  rewrite (bool_decide_ext _ _ (digraph_reverse _ _ _ _ Hgraph u v Hu Hv)), (bool_decide_ext _ _ (digraph_reverse _ _ _ _ Hgraph v u Hv Hu)). lia.
Qed.

#[local] Instance dir_build_laws :
  BuildLaws V D lists_of both without_both (dir_fresh C) (dir_coded C) (core_step_dir C adj in_adj) (rest_step_dir C adj in_adj).
Proof.
  split.
  - intros v x Hv Hx. destruct (lists_of_ok v Hv) as (_ & _ & G1 & G2). apply elem_of_app in Hx as [Hx|Hx].
    + exact (proj1 (Forall_forall _ _) (dir_ids _ G1) x Hx).
    + exact (proj1 (Forall_forall _ _) (dir_ids _ G2) x Hx).
  - unfold both, lists_of, neighbors. by rewrite Hadj0, Hin0.
  - apply both_symmetric.
  - intros F l. unfold both, without_both, without. by rewrite filter_app.
  - intros F G l H. unfold without_both. f_equal; apply without_ext; intros x Hx; apply H, elem_of_app; auto.
  - intros idx b filt E u du Hb Ht Hidx Hu Hlf Hgone Hfresh. pose proof (bo_degrees _ _ b Hb). pose proof (bo_vert _ _ b Hb).
    destruct (lists_of_ok u Hu) as (Eo & Ei & Go & Gi). cbn [lists_of fst snd] in Go, Gi.
    unfold core_step_dir. rewrite (zget_at (vert b)) by lia. bind_step. fold u. rewrite (zget_at (degrees b)) by lia. bind_step.
    change (at_ (degrees b) u) with du. rewrite Eo, Ei. bind_step.
    destruct (neighbors_step_ok V D HV ltac:(lia) b filt idx du (neighbors adj u) [] Hb Ht Hidx eq_refl Hlf Hgone (dir_ids _ Go))
      as (b1 & -> & Hb1 & Ht1 & Hs1 & Hd1). bind_step.
    assert (dp b1 idx = du) as Hdu1.
    { unfold dp. rewrite (Hs1 idx) by lia. fold u. rewrite Hd1. change (at_ (degrees b) u) with du. unfold lowered. by rewrite Z.ltb_irrefl. }
    destruct (neighbors_step_ok V D HV ltac:(lia) b1 filt idx du (neighbors in_adj u) [] Hb1 Ht1 Hidx Hdu1 Hlf) as (b2 & -> & Hb2 & Ht2 & Hs2 & Hd2);
      [|by apply dir_ids|].
    { intros x Hx. rewrite Hgone by done. destruct (same_places_pos V D b b1 idx x Hb Hb1 Hs1 Hx) as [H1 H2].
      destruct (Z.leb_spec (at_ (pos b) x) idx); [by rewrite H1|]. specialize (H2 ltac:(lia)). rewrite !(proj2 (Z.ltb_ge _ idx)) by lia. done. }
    bind_step. destruct (zset filt u true) as [filt'|] eqn:Ef; [|by rewrite zset_Some in Ef by lia]. bind_step.
    destruct (dir_encode C E u (without_both (gone filt) (lists_of u)) Hu) as (E' & HE & Hc & Hff & Hfc);
      [by split; apply hybrid_list_without|done|].
    cbn [app]. unfold without_both, lists_of in HE. cbn [fst snd] in HE. rewrite HE. bind_step. exists b2, filt', E'.
    split; [done|]. split; [done|]. split; [|done]. split; [done|]. split; [done|]. split; [by eapply same_places_trans|].
    intros v. rewrite Hd2, Hd1, lowered_add by apply occ_nonneg. unfold both, without. by rewrite filter_app, occ_app.
  - intros filt vert idx E u Hget Hu Hlf Hfresh. unfold rest_step_dir. rewrite Hget. bind_step.
    destruct (lists_of_ok u Hu) as (Eo & Ei & Go & Gi). cbn [lists_of fst snd] in Go, Gi. rewrite Eo, Ei. bind_step.
    rewrite (unfiltered_ok filt _ Hlf Go). bind_step. rewrite (unfiltered_ok filt _ Hlf Gi). bind_step.
    apply (dir_encode C E u (without_both (gone filt) (lists_of u)) Hu); [by split; apply hybrid_list_without|done].
Qed.

Definition degree_sum (v : Z) : Z := Z.of_nat (length (neighbors adj v)) + Z.of_nat (length (neighbors in_adj v)).

Lemma size_both v : Z.of_nat (length (both (lists_of v))) = degree_sum v.
Proof using Type. unfold both, lists_of, degree_sum. cbn [fst snd]. rewrite length_app. lia. Qed.

Lemma get_degrees_dir_ok :
  all_degrees V D degree_sum ->
  exists degs, get_degrees_dir C adj in_adj = Some (degs, seqZ 0 (V + 1), D) /\
    Z.of_nat (length degs) = V + 1 /\ at_ degs 0 = 0 /\ forall v, 1 <= v <= V -> at_ degs v = degree_sum v.
Proof.
  intros Hgap. pose proof (digraph_size _ _ _ _ Hgraph) as Hs. pose proof (proj1 Hgap) as Hmax. layout_facts C. unfold get_degrees_dir.
  destruct (degrees_loop_ok C HV D HD degree_sum
    (fun id => list ← zget adj id; in_list ← zget in_adj id; Some (u32 (Z.of_nat (length list) + Z.of_nat (length in_list)))) ltac:(lia) Hgap)
    as (degs & Hloop & Hl & H0 & Hdeg).
  { intros v Hv. specialize (Hmax v Hv). destruct (lists_of_ok v ltac:(lia)) as (-> & -> & _). unfold degree_sum in *. bind_step. bind_step.
    rewrite u32_small by lia. split; [lia|done]. }
  exists degs. split; [|done]. rewrite <- Hloop. replace (length adj - 1)%nat with (Z.to_nat V) by lia.
  apply for_loop_ext. intros id [[d w] m]. destruct (zget adj id); [|done]. bind_step. by destruct (zget in_adj id).
Qed.

Lemma dir_build std_sort E :
  sorts std_sort -> all_degrees V D degree_sum -> (forall v, 0 <= v <= V -> dir_fresh C E v) ->
  exists filt E', Directed_Hyb_Vend_BuildEncoding C std_sort adj in_adj E = Some (filt, E') /\
    forall u v, 1 <= u <= V -> 1 <= v <= V ->
      exists t, DirectedHybrid_NEpairTest C E' u v = Some t /\ answers t (v ∈ neighbors adj u) /\
        (gone filt u || gone filt v = true -> t <> Uncertain).
Proof.
  intros Hsort Hgap Hfresh. pose proof (layout_int (C := C)) as Hint. unfold Directed_Hyb_Vend_BuildEncoding, HybridEncode_GetIntSize.
  destruct (get_degrees_dir_ok Hgap) as (degs & -> & Hl & H0 & Hdeg). bind_step.
  destruct (degree_build_ok C HV D HD (MAX_INTEGER_SIZE C) ltac:(lia) lists_of both without_both _ _ _ _ dir_build_laws std_sort degs E Hsort)
    as (filt & E' & F & -> & Hcoded & Hpeel & Hsmall); [|done|done|done| |].
  { destruct Hgap as [Hle Hocc]. split; [intros v; rewrite size_both; apply Hle|]. intros d Hd. destruct (Hocc d Hd) as (v & Hv & Ev).
    exists v. by rewrite size_both. }
  { intros v Hv. rewrite size_both. by apply Hdeg. }
  exists filt, E'. split; [done|]. intros u v Hu Hv.
  assert (forall w, 1 <= w <= V -> dir_good C (without_both (F w) (lists_of w))) as Hgood.
  { intros w Hw. destruct (lists_of_ok w ltac:(lia)) as (_ & _ & G1 & G2). split; by apply hybrid_list_without. }
  assert (forall w, 1 <= w <= V -> gone filt w = true ->
    dir_fits C (without (F w) (neighbors adj w)) = true /\ dir_fits C (without (F w) (neighbors in_adj w)) = true) as Hfits.
  { intros w Hw Hg. specialize (Hsmall w Hw Hg). unfold both, without_both, lists_of in Hsmall. cbn [fst snd] in Hsmall.
    rewrite length_app in Hsmall. unfold dir_fits. split; apply Z.leb_le; lia. }
  destruct (dir_NEpairTest C E' u v _ _ (v ∈ neighbors adj u) (Hgood u Hu) (Hgood v Hv) (Hcoded u Hu) (Hcoded v Hv) Hu Hv) as (t & Et & Ht & Hc).
  - apply (peeled_covers V filt F); [done..|by apply Hfits|by apply Hfits|by apply (digraph_reverse _ _ _ _ Hgraph)].
  - exists t. split; [done|]. split; [done|]. cbn [without_both lists_of fst snd] in Hc.
    intros [Hg|Hg]%orb_true_iff; apply Hc; [rewrite (proj1 (Hfits u Hu Hg))|rewrite (proj2 (Hfits v Hv Hg)), orb_true_r]; done.
Qed.
End build.

(** * Properties *)

(** C11: the builder of the directed hybrid encoding, on a directed graph of
    sorted lists in which every sum of an out-degree and an in-degree from 1 to the
    largest occurs, the largest sum being above [MAX_INTEGER_SIZE], what a code
    holds: it returns, whatever order [std::sort] gives vertices of the same sum, and
    the test of every ordered pair is defined and never wrong about the edges; it is
    certain when one of the vertices was filtered. *)
Theorem DirHybridBuildEncoding_sound (C : Config) (D : Z) (adj in_adj : list (list Z)) (std_sort : (Z -> Z) -> list Z -> list Z)
    (HL : Layout C) (HV : 1 <= VERTEX_SIZE C < 2 ^ 31)
    (Hgraph : digraph_ok (VERTEX_SIZE C) (neighbors_ok C) adj in_adj)
    (Hadj0 : zget adj 0 = Some []) (Hin0 : zget in_adj 0 = Some [])
    (HD : MAX_INTEGER_SIZE C < D < 2 ^ 31) (Hgap : all_degrees (VERTEX_SIZE C) D (degree_sum adj in_adj)) (Hsort : sorts std_sort) :
  exists filt E, Directed_Hyb_Vend_BuildEncoding C std_sort adj in_adj (DirectedHybrid_default C) = Some (filt, E) /\
    forall u v, 1 <= u <= VERTEX_SIZE C -> 1 <= v <= VERTEX_SIZE C ->
      exists t, DirectedHybrid_NEpairTest C E u v = Some t /\ answers t (v ∈ neighbors adj u) /\
        (gone filt u || gone filt v = true -> t <> Uncertain).
Proof.
  pose proof (layout_int (C := C)). apply (dir_build C HV adj in_adj Hgraph Hadj0 Hin0 D ltac:(lia) ltac:(lia) std_sort); [done|done|].
  intros v Hv. split; by apply default_new_vector.
Qed.

(** * Witness *)

(** Edges from 1, ..., n to n + 1, ..., 2n, from [u] to [n + 1], ..., [n + u]:
    every degree occurs. *)
Definition half_digraph (V n : Z) : list (list Z) :=
  map (fun u => if (u <? 1) || (n <? u) then [] else seqZ (n + 1) u) (seqZ 0 (V + 1)).
Definition half_digraph_in (V n : Z) : list (list Z) :=
  map (fun v => if (v <? n + 1) || (2 * n <? v) then [] else seqZ (v - n) (2 * n + 1 - v)) (seqZ 0 (V + 1)).

Lemma half_digraph_ok : digraph_check 200 (hybrid_list_check bytes_config) (half_digraph 200 14) (half_digraph_in 200 14) = true.
Proof. vm_compute. reflexivity. Qed.

Lemma DirHybridBuildEncoding_sound_witness :
  let adj := half_digraph 200 14 in let in_adj := half_digraph_in 200 14 in
  exists filt E, Directed_Hyb_Vend_BuildEncoding bytes_config sort_by adj in_adj (DirectedHybrid_default bytes_config) = Some (filt, E) /\
    forall u v, 1 <= u <= VERTEX_SIZE bytes_config -> 1 <= v <= VERTEX_SIZE bytes_config ->
      exists t, DirectedHybrid_NEpairTest bytes_config E u v = Some t /\ answers t (v ∈ neighbors adj u) /\
        (gone filt u || gone filt v = true -> t <> Uncertain).
Proof.
  cbv zeta. apply (DirHybridBuildEncoding_sound bytes_config 14 (half_digraph 200 14) (half_digraph_in 200 14) sort_by).
  - exact bytes_layout.
  - vm_compute. split; [discriminate|reflexivity].
  - exact (digraph_check_ok 200 _ _ _ _ (hybrid_list_check_ok bytes_config) half_digraph_ok).
  - vm_compute. reflexivity.
  - vm_compute. reflexivity.
  - vm_compute. split; reflexivity.
  - apply all_degrees_check_ok. vm_compute. reflexivity.
  - exact sort_by_sorts.
Defined.

(** * Behaviours worth knowing *)

(** [InsertPair] takes the edge for an undirected one: when the out-list of its
    first vertex is full it is written to the out-list of the second, so that
    the edge is denied and its reverse is answered. *)
Example insert_reversed :
  (E ← DirectedHybrid_EncodeVertex bytes_config (DirectedHybrid_default bytes_config) 1 (seqZ 11 11, []);
   E ← DirectedHybrid_EncodeVertex bytes_config E 3 ([], []);
   E ← DirectedHybrid_InsertPair bytes_config (fun v => if v =? 1 then seqZ 11 11 else []) E 1 3;
   t ← DirectedHybrid_NEpairTest bytes_config E 1 3;
   t' ← DirectedHybrid_NEpairTest bytes_config E 3 1; Some (t, t')) = Some (NonNeighbor, Neighbor).
Proof. vm_compute. reflexivity. Qed.

(** [DeletePair] does not reach the in-lists: the edge is still answered. *)
Example delete_keeps_in :
  (E ← DirectedHybrid_EncodeVertex bytes_config (DirectedHybrid_default bytes_config) 1 ([3], []);
   E ← DirectedHybrid_EncodeVertex bytes_config E 3 ([], [1]);
   E ← DirectedHybrid_DeletePair bytes_config (fun v => if v =? 1 then [3] else []) E 1 3;
   DirectedHybrid_NEpairTest bytes_config E 1 3) = Some Neighbor.
Proof. vm_compute. reflexivity. Qed.
