(* ===== verification/HashEncodes.v ===== *)
(** The encodings by hashing: [BitHashEncode], [BloomEncode] and [CountEncode]
    ([src/include/encode/single/bithash_encode.h], [bloom_encode.h],
    [count_encode.h]) with their builders [BitHashVend], [BloomVend] and
    [CountVend] ([src/include/vend/bit_hash_vend.h], [bloom_vend.h],
    [count_vend.h]). *)
From S2P Require Import Prelude Config BitSet Encode BFilter RangeEncode KCore DegreeOrder RangeVend RangeBuild.
From stdpp Require Import options.
Local Open Scope Z_scope.
Set Default Proof Using "Type*".

(** * BitHashEncode: the bits of a vertex's larger neighbors *)

Section BitHash.
Context (C : Config).

Definition BitHashEncode_Hash (vertex : Z) : option Z := umod vertex (u32 (PER_ENCODE_BIT_SIZE C)).

Definition BitHashEncode_NonNeighborTest (E : list (list Z)) (vertex1 vertex2 : Z) : option PairType :=
  encode ← zget E vertex1;
  h ← BitHashEncode_Hash vertex2;
  b ← BitSetSIMD_IsOne encode h;
  Some (if (b : bool) then Uncertain else NonNeighbor).

Definition BitHashEncode_NEpairTest (E : list (list Z)) (vertex1 vertex2 : Z) : option PairType :=
  if vertex1 <? vertex2 then BitHashEncode_NonNeighborTest E vertex1 vertex2
  else BitHashEncode_NonNeighborTest E vertex2 vertex1.

Definition BitHashEncode_EncodeVertex (E : list (list Z)) (vertex_id : Z) (neighbors : list Z) : option (list (list Z)) :=
  encode ← zget E vertex_id;
  encode ← foldM (fun v encode => if vertex_id <? v then h ← BitHashEncode_Hash v; BitSetSIMD_SetOne encode h else Some encode)
             neighbors (BitSetSIMD_Clear encode);
  zset E vertex_id encode.

Definition BitHashEncode_InsertPair (E : list (list Z)) (vertex1 vertex2 : Z) : option (list (list Z)) :=
  let '(vertex1, vertex2) := if vertex1 <? vertex2 then (vertex1, vertex2) else (vertex2, vertex1) in
  encode ← zget E vertex1;
  h ← BitHashEncode_Hash vertex2;
  encode ← BitSetSIMD_SetOne encode h;
  zset E vertex1 encode.

Definition BitHashEncode_DeletePair (db : Z -> list Z) (E : list (list Z)) (vertex1 vertex2 : Z) : option (list (list Z)) :=
  let '(vertex1, vertex2) := ordered_pair vertex1 vertex2 in
  let neighbors := Encode_DbQuery db vertex1 in
  let neighbors := default neighbors (erase_first vertex2 neighbors) in
  encode ← zget E vertex1;
  E ← zset E vertex1 (BitSetSIMD_Clear encode);
  BitHashEncode_EncodeVertex E vertex1 neighbors.

(** [BitHashVend::BuildEncoding]. *)
Definition BitHashVend_BuildEncoding (adjacency_list_ : option (list (list Z))) (data_db_ : list (Z * list Z))
    (E : list (list Z)) : option (list (list Z)) :=
  match adjacency_list_ with
  | Some adj => for_loop (length adj - 1) 1 (fun vertex1 E => neighbors ← zget adj vertex1; BitHashEncode_EncodeVertex E vertex1 neighbors) E
  | None => foldM (fun row E => BitHashEncode_EncodeVertex E row.1 row.2) data_db_ E
  end.
End BitHash.

(** * BloomEncode: a full list of words, or a Bloom filter *)

Section Bloom.
Context (C : Config).

Definition Bloom_block_size_ : Z := u32 (K_SIZE C - 1).
Definition Bloom_bit_size_ : Z := u32 ((K_SIZE C - 1) * 32).

(** The parameters of the two hashes are the first of [HASH_PARAM1] and the
    second of [HASH_PARAM2]. *)
Definition pair_hash (vertex1 vertex2 size : Z) : option Z :=
  umod (u64 (u64 (9191891 * vertex1) + u64 (6659501 * vertex2))) size.

Definition BloomEncode_Hash (vertex1 vertex2 : Z) : option Z :=
  h ← pair_hash vertex1 vertex2 Bloom_bit_size_; Some (u32 (h + 32)).

Definition BloomEncode_SetFlag (encode : list Z) (flag : bool) : option (list Z) :=
  BitSetSIMD_BlockSet encode 0 32 (if flag then 1 else 0).

Definition BloomEncode_GetFlag (encode : list Z) : option bool :=
  flag ← BitSetSIMD_BlockGet encode 0 32; Some (negb (flag =? 0)).

Definition BloomEncode_SetFullEncode (encode neighbors : list Z) : option (list Z) :=
  encode ← BloomEncode_SetFlag encode true;
  st ← foldM (fun v '(encode, offset) => encode ← BitSetSIMD_BlockSet encode offset 32 v; Some (encode, u32 (offset + 32)))
         neighbors (encode, 32);
  Some st.1.

Definition BloomEncode_SetBloomEncode (vertex_id : Z) (encode neighbors : list Z) : option (list Z) :=
  encode ← BloomEncode_SetFlag encode false;
  foldM (fun v encode => h ← BloomEncode_Hash vertex_id v; BitSetSIMD_SetOne encode h) neighbors encode.

Definition BloomEncode_EncodeVertex (E : list (list Z)) (vertex_id : Z) (neighbors : list Z) : option (list (list Z)) :=
  encode ← zget E vertex_id;
  encode ← (if Z.of_nat (length neighbors) <=? Bloom_block_size_ then BloomEncode_SetFullEncode encode neighbors
            else BloomEncode_SetBloomEncode vertex_id encode neighbors);
  zset E vertex_id encode.

(** The search of a full list. *)
Fixpoint Bloom_find (n : nat) (encode : list Z) (offset vertex2 : Z) : option PairType :=
  match n with
  | O => Some NonNeighbor
  | S n => v ← BitSetSIMD_BlockGet encode offset 32;
           if v =? vertex2 then Some Neighbor else Bloom_find n encode (u32 (offset + 32)) vertex2
  end.

Definition BloomEncode_NonNeighborTest (E : list (list Z)) (vertex1 vertex2 : Z) : option PairType :=
  encode ← zget E vertex1;
  flag ← BloomEncode_GetFlag encode;
  if (flag : bool) then Bloom_find (Z.to_nat Bloom_block_size_) encode 32 vertex2
  else
    h ← BloomEncode_Hash vertex1 vertex2;
    b ← BitSetSIMD_IsOne encode h;
    Some (if (b : bool) then Uncertain else NonNeighbor).

Definition BloomEncode_NEpairTest (E : list (list Z)) (vertex1 vertex2 : Z) : option PairType :=
  type1 ← BloomEncode_NonNeighborTest E vertex1 vertex2;
  type2 ← BloomEncode_NonNeighborTest E vertex2 vertex1;
  Some (PairType_min type1 type2).

Definition BloomEncode_InsertPair (E : list (list Z)) (vertex1 vertex2 : Z) : list (list Z) := E.

Definition BloomEncode_GetIntSize : Z := u32 (K_SIZE C - 1).

Definition BloomVend_Build (std_sort : (Z -> Z) -> list Z -> list Z) (adjacency_list_ : option (list (list Z)))
    (data_db_ : list (Z * list Z)) : option (list bool * list (list Z)) :=
  RangeVend_BuildEncoding C BloomEncode_EncodeVertex std_sort BloomEncode_GetIntSize adjacency_list_ data_db_ (EncodeBitSet_default C).
End Bloom.

(** * CountEncode: a full list of elements, or counters *)

Section Count.
Context (C : Config).
Notation element_size_ := (ELEMENT_SIZE C).

Definition Count_element_nums_ : option Z := udiv (u32 ((K_SIZE C - 1) * 32)) element_size_.

Definition CountEncode_Hash (vertex1 vertex2 : Z) : option Z :=
  nums ← Count_element_nums_; h ← pair_hash vertex1 vertex2 nums; Some (u32 (h + 1)).

Definition CountEncode_SetFlag (encode : list Z) (flag : bool) : option (list Z) :=
  BitSetSIMD_BlockSet encode 0 32 (if flag then 1 else 0).

Definition CountEncode_GetFlag (encode : list Z) : option bool :=
  flag ← BitSetSIMD_BlockGet encode 0 32; Some (negb (flag =? 0)).

Definition CountEncode_SetFullEncode (encode neighbors : list Z) : option (list Z) :=
  encode ← CountEncode_SetFlag encode true;
  st ← foldM (fun v '(encode, offset) =>
                encode ← BitSetSIMD_BlockSet encode offset element_size_ v; Some (encode, u32 (offset + element_size_)))
         neighbors (encode, 32);
  Some st.1.

Definition CountEncode_SetCountEncode (vertex_id : Z) (encode neighbors : list Z) : option (list Z) :=
  encode ← CountEncode_SetFlag encode false;
  foldM (fun v encode =>
           h ← CountEncode_Hash vertex_id v;
           let offset := u32 (h * element_size_) in
           val ← BitSetSIMD_BlockGet encode offset element_size_;
           BitSetSIMD_BlockSet encode offset element_size_ (u32 (val + 1))) neighbors encode.

Definition CountEncode_EncodeVertex (E : list (list Z)) (vertex_id : Z) (neighbors : list Z) : option (list (list Z)) :=
  encode ← zget E vertex_id;
  nums ← Count_element_nums_;
  encode ← (if Z.of_nat (length neighbors) <=? nums then CountEncode_SetFullEncode encode neighbors
            else CountEncode_SetCountEncode vertex_id encode neighbors);
  zset E vertex_id encode.

Fixpoint Count_find (n : nat) (encode : list Z) (offset vertex2 : Z) : option PairType :=
  match n with
  | O => Some NonNeighbor
  | S n => v ← BitSetSIMD_BlockGet encode offset element_size_;
           if v =? vertex2 then Some Neighbor else if v <? vertex2 then Some NonNeighbor
           else Count_find n encode (u32 (offset + element_size_)) vertex2
  end.

Definition CountEncode_NonNeighborTest (E : list (list Z)) (vertex1 vertex2 : Z) : option PairType :=
  encode ← zget E vertex1;
  flag ← CountEncode_GetFlag encode;
  nums ← Count_element_nums_;
  if (flag : bool) then Count_find (Z.to_nat nums) encode 32 vertex2
  else
    h ← CountEncode_Hash vertex1 vertex2;
    val ← BitSetSIMD_BlockGet encode (u32 (h * element_size_)) element_size_;
    Some (if val =? 0 then NonNeighbor else Uncertain).

Definition CountEncode_NEpairTest (E : list (list Z)) (vertex1 vertex2 : Z) : option PairType :=
  type1 ← CountEncode_NonNeighborTest E vertex1 vertex2;
  type2 ← CountEncode_NonNeighborTest E vertex2 vertex1;
  Some (PairType_min type1 type2).

Definition CountEncode_InsertPair (E : list (list Z)) (vertex1 vertex2 : Z) : list (list Z) := E.

Definition CountEncode_GetIntSize : Z := element_size_.

Definition CountVend_Build (std_sort : (Z -> Z) -> list Z -> list Z) (adjacency_list_ : option (list (list Z)))
    (data_db_ : list (Z * list Z)) : option (list bool * list (list Z)) :=
  RangeVend_BuildEncoding C CountEncode_EncodeVertex std_sort CountEncode_GetIntSize adjacency_list_ data_db_ (EncodeBitSet_default C).
End Count.

(** * Proofs: BitHashEncode *)

Section bithash.
Context (C : Config) (HP : 0 < PER_ENCODE_BIT_SIZE C < 2 ^ 31) (HV : 1 <= VERTEX_SIZE C < 2 ^ 31).
Notation V := (VERTEX_SIZE C).
Notation P := (PER_ENCODE_BIT_SIZE C).

(** Every vertex has a vector. *)
Definition vectors_ok (E : list (list Z)) : Prop :=
  forall v, 0 <= v <= V -> exists d, zget E v = Some d /\ bytes_ok d /\ nbits d = P.

(** What the vectors store: the bits of a vertex are those of the larger ends of
    its edges in [M], and no others. *)
Definition bithash_inv (M : list (Z * Z)) (E : list (list Z)) : Prop :=
  vectors_ok E /\
  forall a d q, 1 <= a <= V -> zget E a = Some d -> 0 <= q < P ->
    (bit_at d q = true <-> exists b, (a, b) ∈ M /\ b mod P = q).

Lemma bithash_same M M' E : (forall e, e ∈ M <-> e ∈ M') -> bithash_inv M E -> bithash_inv M' E.
Proof using Type. intros HM [HE Hbits]. split; [done|]. intros a d q Ha Ed Hq. rewrite (Hbits a d q Ha Ed Hq). by setoid_rewrite HM. Qed.

Lemma BitHash_hash v : BitHashEncode_Hash C v = Some (v mod P) /\ 0 <= v mod P < P.
Proof.
  unfold BitHashEncode_Hash, umod. rewrite u32_small by lia. rewrite (proj2 (Z.eqb_neq P 0)) by lia. split; [done|].
  apply Z.mod_pos_bound. lia.
Qed.

(** One vector is replaced. *)
Lemma vectors_set E v d d' :
  vectors_ok E -> zget E v = Some d -> bytes_ok d' -> nbits d' = P ->
  exists E', zset E v d' = Some E' /\ vectors_ok E' /\ zget E' v = Some d' /\ forall w, w <> v -> zget E' w = zget E w.
Proof.
  intros HE Ev Hd' Hn. pose proof (zget_Some_inv _ _ _ Ev) as [Hb _]. exists (<[Z.to_nat v := d']> E).
  pose proof (zset_Some E v d' Hb) as Es. split; [done|]. pose proof (fun j => zget_zset E v j d' _ Es) as Hz. split; [|split].
  - intros w Hw. rewrite Hz. destruct (w =? v); [by exists d'|by apply HE].
  - by rewrite Hz, Z.eqb_refl.
  - intros w Hw. rewrite Hz. by rewrite (proj2 (Z.eqb_neq w v)).
Qed.

(** Uncertain is answered for the larger ends with the hash of a stored one. *)
Definition hit (M : list (Z * Z)) (e : Z * Z) : Prop := exists b, (e.1, b) ∈ M /\ b mod P = e.2 mod P.

Lemma hit_stored M e : e ∈ M -> hit M e.
Proof using Type. intros He. exists e.2. split; [by destruct e|done]. Qed.

Lemma BitHash_test E M u v :
  bithash_inv M E -> 1 <= u <= V -> 1 <= v <= V ->
  exists t, BitHashEncode_NEpairTest C E u v = Some t /\ BitHashEncode_NEpairTest C E v u = Some t /\ t <> Neighbor /\
    (t = Uncertain <-> hit M (ordered_pair u v)).
Proof.
  intros (HE & HM) Hu Hv.
  assert (forall a b, 1 <= a <= V -> exists t, BitHashEncode_NonNeighborTest C E a b = Some t /\ t <> Neighbor /\
    (t = Uncertain <-> hit M (a, b))) as Hone.
  { intros a b Ha. destruct (HE a ltac:(lia)) as (d & Ed & Hd & Hn). unfold BitHashEncode_NonNeighborTest. rewrite Ed. bind_step.
    destruct (BitHash_hash b) as [-> Hb]. bind_step. rewrite BitSetSIMD_IsOne_spec by (done || lia). bind_step.
    eexists. split; [done|]. unfold hit. cbn [fst snd]. rewrite <- (HM a d _ Ha Ed Hb). by destruct (bit_at d _). }
  assert (BitHashEncode_NEpairTest C E u v = BitHashEncode_NonNeighborTest C E (ordered_pair u v).1 (ordered_pair u v).2 /\
    BitHashEncode_NEpairTest C E v u = BitHashEncode_NonNeighborTest C E (ordered_pair u v).1 (ordered_pair u v).2) as [-> ->].
  { unfold BitHashEncode_NEpairTest, ordered_pair. destruct (Z.ltb_spec u v), (Z.ltb_spec v u); try lia; cbn [fst snd]; [done..|].
    by assert (u = v) as -> by lia. }
  destruct (Hone (ordered_pair u v).1 (ordered_pair u v).2) as (t & Et & Ht); [unfold ordered_pair; destruct (v <? u); cbn; lia|].
  exists t. rewrite <- surjective_pairing in Ht. done.
Qed.

Lemma BitHash_insert E M u v :
  bithash_inv M E -> 1 <= u <= V -> 1 <= v <= V ->
  exists E', BitHashEncode_InsertPair C E u v = Some E' /\ bithash_inv (ordered_pair u v :: M) E'.
Proof.
  intros (HE & HM) Hu Hv. unfold BitHashEncode_InsertPair.
  assert (forall a b, 1 <= a <= V -> exists E', (encode ← zget E a; h ← BitHashEncode_Hash C b;
    encode ← BitSetSIMD_SetOne encode h; zset E a encode) = Some E' /\ bithash_inv ((a, b) :: M) E') as Hone.
  { intros a b Ha. destruct (HE a ltac:(lia)) as (d & Ed & Hd & Hn). rewrite Ed. bind_step.
    destruct (BitHash_hash b) as [-> Hh]. bind_step. destruct (BitSetSIMD_SetOne_spec d (b mod P) Hd ltac:(lia)) as (d' & -> & Hr). bind_step.
    pose proof (rewrites_nbits _ _ _ Hr) as Hn'. pose proof Hr as (Hd' & _ & Hbits).
    destruct (vectors_set E a d d' HE Ed Hd' ltac:(lia)) as (E' & -> & HE' & Ea & Hframe). exists E'. split; [done|]. split; [done|].
    intros x dx q Hx Ex Hq. setoid_rewrite elem_of_cons. destruct (decide (x = a)) as [->|Hne].
    - rewrite Ea in Ex. injection Ex as <-. rewrite Hbits, orb_true_iff, Z.eqb_eq, (HM a d q) by (done || lia). split.
      + intros [->|(y & Hy & <-)]; eauto.
      + intros (y & [[= ->]|Hy] & <-); [by left|eauto].
    - rewrite Hframe in Ex by done. rewrite (HM x dx q) by done. split; intros (y & Hy & <-); exists y; [by auto|].
      destruct Hy as [[= -> ->]|Hy]; done. }
  unfold ordered_pair. destruct (Z.ltb_spec u v), (Z.ltb_spec v u); try lia; [by apply Hone..|].
  assert (u = v) as -> by lia. by apply Hone.
Qed.

(** A vertex is encoded again: its edges are replaced. *)
Definition replaced (M : list (Z * Z)) (v : Z) (N : list Z) : list (Z * Z) := filter (fun e => e.1 <> v) M ++ forward v N.

Lemma BitHash_encode E M v N :
  bithash_inv M E -> 1 <= v <= V ->
  exists E', BitHashEncode_EncodeVertex C E v N = Some E' /\ bithash_inv (replaced M v N) E'.
Proof.
  intros (HE & HM) Hv. destruct (HE v ltac:(lia)) as (d & Ed & Hd & Hn).
  unfold BitHashEncode_EncodeVertex. rewrite Ed. bind_step. pose proof (BitSetSIMD_Clear_spec d Hd) as Hclear.
  destruct (foldM_inv (fun pre d' => bytes_ok d' /\ nbits d' = P /\
      forall q, 0 <= q -> bit_at d' q = true <-> exists x, x ∈ pre /\ v < x /\ x mod P = q)
    (fun x encode => if v <? x then h ← BitHashEncode_Hash C x; BitSetSIMD_SetOne encode h else Some encode) N (BitSetSIMD_Clear d))
    as (d' & -> & Hd' & Hn' & Hbits).
  - split; [apply Hclear|]. split; [by rewrite (rewrites_nbits _ _ _ Hclear)|]. intros q Hq. destruct Hclear as (_ & _ & ->); [|done].
    split; [done|]. by intros (x & []%not_elem_of_nil & _).
  - intros pre x post d1 _ (Hd1 & Hn1 & Hb1). setoid_rewrite elem_of_app. setoid_rewrite list_elem_of_singleton. destruct (Z.ltb_spec v x) as [Hlt|Hge].
    + destruct (BitHash_hash x) as [-> Hh]. bind_step. destruct (BitSetSIMD_SetOne_spec d1 (x mod P) Hd1 ltac:(lia)) as (d2 & -> & Hr).
      exists d2. split; [done|]. pose proof Hr as (Hd2 & _ & Hb2). split; [done|]. split; [by rewrite (rewrites_nbits _ _ _ Hr)|].
      intros q Hq. rewrite Hb2, orb_true_iff, Z.eqb_eq, Hb1 by done. split.
      * intros [->|(y & Hy & Hvy & <-)]; eauto 6.
      * intros (y & [Hy| ->] & Hvy & <-); [right; eauto|by left].
    + exists d1. split; [done|]. split; [done|]. split; [done|]. intros q Hq. rewrite Hb1 by done. split.
      * intros (y & Hy & Hvy & <-). eauto 6.
      * intros (y & [Hy| ->] & Hvy & <-); [eauto|lia].
  - bind_step. destruct (vectors_set E v d d' HE Ed Hd' Hn') as (E' & -> & HE' & Ev' & Hframe). exists E'. split; [done|]. split; [done|].
    intros a da q Ha Ea Hq. unfold replaced. setoid_rewrite elem_of_app. setoid_rewrite list_elem_of_filter. setoid_rewrite elem_forward. cbn [fst].
    destruct (decide (a = v)) as [->|Hne].
    + rewrite Ev' in Ea. injection Ea as <-. rewrite Hbits by lia. split.
      * intros (x & Hx & Hvx & <-). eauto 6.
      * intros (x & [[[] _]|(_ & Hvx & Hx)] & <-); [done|eauto].
    + rewrite Hframe in Ea by done. rewrite (HM a da q) by done. split.
      * intros (x & Hx & <-). eauto 6.
      * intros (x & [[_ Hx]|(-> & _)] & <-); [eauto|done].
Qed.

(** The vertex of the smaller id is encoded again from its list in the database,
    without the edge. *)
Definition redone (M : list (Z * Z)) (db : Z -> list Z) (e : Z * Z) : list (Z * Z) :=
  replaced M e.1 (default (db e.1) (erase_first e.2 (db e.1))).

Lemma BitHash_delete E M db u v :
  bithash_inv M E -> 1 <= u <= V -> 1 <= v <= V ->
  exists E', BitHashEncode_DeletePair C db E u v = Some E' /\ bithash_inv (redone M db (ordered_pair u v)) E'.
Proof.
  intros (HE & HM) Hu Hv. unfold BitHashEncode_DeletePair.
  assert (1 <= (ordered_pair u v).1 <= V) as Ha by (unfold ordered_pair; destruct (v <? u); cbn; lia).
  destruct (ordered_pair u v) as [a b]. cbn [fst snd] in *. unfold Encode_DbQuery. destruct (HE a ltac:(lia)) as (d & Ed & Hd & Hn).
  rewrite Ed. bind_step. pose proof (BitSetSIMD_Clear_spec d Hd) as Hclear.
  destruct (vectors_set E a d _ HE Ed (proj1 Hclear) ltac:(by rewrite (rewrites_nbits _ _ _ Hclear))) as (E1 & -> & HE1 & Ea1 & Hf1). bind_step.
  assert (bithash_inv (filter (fun e => e.1 <> a) M) E1) as H1.
  { split; [done|]. intros x dx q Hx Ex Hq. setoid_rewrite list_elem_of_filter. cbn [fst]. destruct (decide (x = a)) as [->|Hne].
    - rewrite Ea1 in Ex. injection Ex as <-. destruct Hclear as (_ & _ & ->); [|lia]. split; [done|]. by intros (y & [[] _] & _).
    - rewrite Hf1 in Ex by done. rewrite (HM x dx q) by done. split; intros (y & Hy & <-); exists y; tauto. }
  destruct (BitHash_encode E1 _ a (default (db a) (erase_first b (db a))) H1 Ha) as (E2 & -> & H2). exists E2. split; [done|].
  eapply bithash_same; [|exact H2]. intros e. unfold redone, replaced. cbn [fst snd]. rewrite !elem_of_app, !list_elem_of_filter. tauto.
Qed.

Lemma BitHash_build adj db E :
  Z.of_nat (length adj) = V + 1 -> bithash_inv [] E ->
  exists E', BitHashVend_BuildEncoding C (Some adj) db E = Some E' /\ bithash_inv (forward_edges adj V) E'.
Proof.
  intros Hl HE. unfold BitHashVend_BuildEncoding.
  destruct (for_loop_inv (fun i E' => bithash_inv (forward_edges adj (i - 1)) E')
    (fun vertex1 E => N ← zget adj vertex1; BitHashEncode_EncodeVertex C E vertex1 N) (length adj - 1) 1 E) as (E' & -> & HE').
  - exact HE.
  - intros i E1 Hi HE1. destruct (zget_is_Some adj i) as [N EN]; [lia|]. rewrite EN. bind_step.
    destruct (BitHash_encode E1 _ i N HE1 ltac:(lia)) as (E2 & -> & HE2). exists E2. split; [done|].
    eapply bithash_same; [|exact HE2]. intros [a b]. unfold replaced.
    rewrite elem_of_app, list_elem_of_filter, elem_forward, !elem_forward_edges. cbn [fst]. split.
    + intros [(Hne & Ha & Hb)|(-> & Hlt & Hb)]; [split; [lia|done]|]. rewrite EN. split; [lia|done].
    + intros (Ha & Hlt & Hb). destruct (decide (a = i)) as [->|Hne]; [|left; split; [done|]; split; [lia|done]].
      rewrite EN in Hb. by right.
  - exists E'. split; [done|]. by replace (1 + Z.of_nat (length adj - 1) - 1) with V in HE' by lia.
Qed.

(** Every vertex has one row. *)
Lemma BitHash_build_rows rows E :
  NoDup rows.*1 -> (forall a N, (a, N) ∈ rows -> 1 <= a <= V) -> bithash_inv [] E ->
  exists E', BitHashVend_BuildEncoding C None rows E = Some E' /\ bithash_inv (row_edges rows) E'.
Proof.
  intros Hnd Hids HE. unfold BitHashVend_BuildEncoding.
  apply (foldM_inv (fun pre E' => bithash_inv (row_edges pre) E')); [exact HE|].
  intros pre [i N] post E1 -> HE1. assert (1 <= i <= V) as Hi by (apply (Hids i N); set_solver).
  destruct (BitHash_encode E1 _ i N HE1 Hi) as (E2 & HEq & HE2). exists E2. split; [exact HEq|].
  eapply bithash_same; [|exact HE2]. intros e. unfold replaced, row_edges. rewrite flat_map_app. cbn [flat_map fst snd]. rewrite app_nil_r.
  rewrite !elem_of_app, list_elem_of_filter. split; [tauto|]. intros [He|He]; [left|by right]. split; [|done]. intros Ei.
  apply list_elem_of_In, in_flat_map in He as ([j N'] & Hj%list_elem_of_In & He%list_elem_of_In). destruct e as [x y].
  apply elem_forward in He as (-> & _). cbn [fst] in Ei. subst j.
  rewrite fmap_app in Hnd. apply NoDup_app in Hnd as (_ & Hno & _). apply (Hno i); [|by left].
  apply list_elem_of_fmap. by exists (i, N').
Qed.
End bithash.

Lemma default_vectors_ok C :
  0 < PER_ENCODE_BIT_SIZE C < 2 ^ 31 -> PER_ENCODE_BIT_SIZE C mod 8 = 0 -> vectors_ok C (EncodeBitSet_default C).
Proof.
  intros HP H8 v Hv. exists (BitSetSIMD_new (PER_ENCODE_BIT_SIZE C)). split.
  - unfold EncodeBitSet_default, EncodeBitSet_sized. by rewrite zget_lookup, lookup_replicate_2 by lia.
  - pose proof (Z.div_mod (PER_ENCODE_BIT_SIZE C) 8 ltac:(lia)). unfold BitSetSIMD_new.
    split; [apply bytes_ok_zero; lia|]. unfold nbits. rewrite length_replicate. lia.
Qed.

Lemma default_bithash C :
  0 < PER_ENCODE_BIT_SIZE C < 2 ^ 31 -> PER_ENCODE_BIT_SIZE C mod 8 = 0 -> bithash_inv C [] (EncodeBitSet_default C).
Proof.
  intros HP H8. split; [by apply default_vectors_ok|]. intros a d q Ha Ed Hq. unfold EncodeBitSet_default, EncodeBitSet_sized in Ed.
  rewrite zget_lookup, lookup_replicate_2 in Ed by lia. injection Ed as <-. unfold BitSetSIMD_new. rewrite bit_at_zero. split; [done|].
  by intros (b & []%not_elem_of_nil & _).
Qed.

Lemma graph_all_ids C adj :
  graph_ok adj (VERTEX_SIZE C) (ids_ok (VERTEX_SIZE C)) -> zget adj 0 = Some [] ->
  Forall (Forall (fun x => 1 <= x <= VERTEX_SIZE C)) adj.
Proof.
  intros Hg H0. pose proof (graph_size _ _ _ Hg) as Hsize.
  apply Forall_forall. intros N (i & HN)%list_elem_of_lookup_1. pose proof (lookup_lt_Some _ _ _ HN).
    assert (zget adj (Z.of_nat i) = Some N) as EN by (rewrite zget_lookup, Nat2Z.id by lia; done).
    destruct (decide (i = 0%nat)) as [->|]; [change (Z.of_nat 0) with 0 in EN; rewrite H0 in EN; injection EN as <-; constructor|].
    by apply (graph_lists _ _ _ Hg (Z.of_nat i) N ltac:(lia) EN).
Qed.

(** What was built from a graph without loops can be saved; its tests are never
    Neighbor and never wrong. *)
Lemma BitHash_saved C adj db :
  0 < PER_ENCODE_BIT_SIZE C < 2 ^ 31 -> PER_ENCODE_BIT_SIZE C mod 8 = 0 -> 1 <= VERTEX_SIZE C < 2 ^ 31 ->
  graph_ok adj (VERTEX_SIZE C) (ids_ok (VERTEX_SIZE C)) -> (forall v, 1 <= v <= VERTEX_SIZE C -> v ∉ neighbors adj v) ->
  exists E, BitHashVend_BuildEncoding C (Some adj) db (EncodeBitSet_default C) = Some E /\
    saved_tests C (Z.to_nat (PER_ENCODE_BIT_SIZE C / 8)) E (BitHashEncode_NEpairTest C)
      (fun u v t => t <> Neighbor /\ answers t (v ∈ neighbors adj u)).
Proof.
  intros HP H8 HV Hg Hloop. pose proof (graph_size _ _ _ Hg) as Hsize.
  destruct (BitHash_build C HP HV adj db _ Hsize (default_bithash C HP H8)) as (E & -> & Hinv).
  exists E. split; [done|]. split.
  - intros v Hv. destruct (proj1 Hinv v ltac:(lia)) as (d & Ed & Hd & Hn). exists d. split; [done|]. split; [done|].
    unfold nbits in Hn. rewrite <- Hn, (Z.mul_comm 8), Z.div_mul by lia. lia.
  - intros E' Hsame u v Hu Hv. destruct (BitHash_test C HP HV E _ u v Hinv Hu Hv) as (t & Et & _ & Hnn & Hin). exists t. split.
    + rewrite <- Et. unfold BitHashEncode_NEpairTest, BitHashEncode_NonNeighborTest. by destruct (u <? v); rewrite Hsame.
    + split; [done|]. destruct t; [done| |done]. cbn [answers]. intros Hedge. discriminate (proj2 Hin).
      assert (u <> v) as Hne by (intros ->; by apply (Hloop v)).
      apply hit_stored. unfold ordered_pair. destruct (Z.ltb_spec v u); apply elem_forward_edges; (split; [lia|]); (split; [lia|]); [|done].
      by apply (graph_edge adj _ _ u v Hg).
Qed.

(** The operations on the encoding, with the edges that are stored. A deletion
    stores for its smaller end what the database lists there, without the deleted
    edge, whatever was stored for it before. *)
Inductive bithash_step (C : Config) : list (Z * Z) * list (list Z) -> list (Z * Z) * list (list Z) -> Prop :=
| bithash_step_insert M E u v E' :
    1 <= u <= VERTEX_SIZE C -> 1 <= v <= VERTEX_SIZE C ->
    BitHashEncode_InsertPair C E u v = Some E' -> bithash_step C (M, E) (ordered_pair u v :: M, E')
| bithash_step_delete M E db u v E' :
    1 <= u <= VERTEX_SIZE C -> 1 <= v <= VERTEX_SIZE C ->
    BitHashEncode_DeletePair C db E u v = Some E' -> bithash_step C (M, E) (redone M db (ordered_pair u v), E').

Lemma bithash_reachable C M E M' E' :
  0 < PER_ENCODE_BIT_SIZE C < 2 ^ 31 -> 1 <= VERTEX_SIZE C < 2 ^ 31 ->
  bithash_inv C M E -> rtc (bithash_step C) (M, E) (M', E') -> bithash_inv C M' E'.
Proof.
  intros HP HV HI Hr. set (P := fun st : list (Z * Z) * list (list Z) => bithash_inv C st.1 st.2).
  change (P (M', E')). revert Hr. apply (rtc_ind_r P); [done|]. unfold P. intros st1 st2 _ Hstep HI1.
  destruct Hstep as [M0 E0 u v E1 Hu Hv HE|M0 E0 db u v E1 Hu Hv HE]; cbn [fst snd] in *.
  - destruct (BitHash_insert C HP HV E0 M0 u v HI1 Hu Hv) as (E2 & HE2 & HI2). rewrite HE in HE2. by injection HE2 as <-.
  - destruct (BitHash_delete C HP HV E0 M0 db u v HI1 Hu Hv) as (E2 & HE2 & HI2). rewrite HE in HE2. by injection HE2 as <-.
Qed.

(** * Proofs: BloomEncode *)

Section bloom.
Context (C : Config) (HK : 3 <= K_SIZE C <= 64) (Hper : PER_ENCODE_BIT_SIZE C = 32 * K_SIZE C).
Context (HV : 1 <= VERTEX_SIZE C < 2 ^ 31).
Notation K := (K_SIZE C).
Notation V := (VERTEX_SIZE C).

(** The bit of a neighbor. *)
Definition bloom_bit (u x : Z) : Z := u64 (u64 (9191891 * u) + u64 (6659501 * x)) mod ((K - 1) * 32) + 32.

Lemma Bloom_sizes : Bloom_block_size_ C = K - 1 /\ Bloom_bit_size_ C = (K - 1) * 32.
Proof. unfold Bloom_block_size_, Bloom_bit_size_. by rewrite !u32_small by lia. Qed.

Lemma Bloom_hash u x : BloomEncode_Hash C u x = Some (bloom_bit u x) /\ 32 <= bloom_bit u x < 32 * K.
Proof.
  unfold BloomEncode_Hash, pair_hash, umod, bloom_bit. rewrite (proj2 Bloom_sizes), (proj2 (Z.eqb_neq ((K - 1) * 32) 0)) by lia. bind_step.
  set (h := u64 _). pose proof (Z.mod_pos_bound h ((K - 1) * 32) ltac:(lia)). rewrite u32_small by lia. split; [done|lia].
Qed.

Definition bloom_code (u : Z) (d N : list Z) : Prop :=
  words_ok C d /\
  if Z.of_nat (length N) <=? K - 1 then field d 0 32 = 1 /\ fields d 32 32 (Z.to_nat (K - 1)) = N ++ replicate (Z.to_nat (K - 1) - length N) 0
  else field d 0 32 = 0 /\ forall x, x ∈ N -> bit_at d (bloom_bit u x) = true.

Lemma Bloom_flag d flag :
  words_ok C d ->
  exists d', BloomEncode_SetFlag d flag = Some d' /\ words_ok C d' /\ field d' 0 32 = (if flag then 1 else 0) /\
    forall q, 32 <= q -> bit_at d' q = bit_at d q.
Proof.
  intros [Hd Hn]. unfold BloomEncode_SetFlag.
  destruct (BitSetSIMD_BlockSet_spec d 0 32 (if flag then 1 else 0) Hd) as (d' & E & Hr); [unfold set_dom; destruct flag; lia|].
  pose proof Hr as (Hd' & _ & Hbits). exists d'. split; [done|]. split; [split; [done|by rewrite (rewrites_nbits _ _ _ Hr)]|]. split.
  - apply (field_put_same d d' 0 32 _ Hr); destruct flag; lia.
  - intros q Hq. rewrite Hbits by lia. unfold put_field. by rewrite (proj2 (Z.ltb_ge q (0 + 32))), andb_false_r by lia.
Qed.

Lemma Bloom_full d N :
  words_ok C d -> (forall q, 0 <= q -> bit_at d q = false) -> Forall (fun x => 1 <= x <= V) N -> Z.of_nat (length N) <= K - 1 ->
  exists d', BloomEncode_SetFullEncode d N = Some d' /\ words_ok C d' /\ field d' 0 32 = 1 /\
    fields d' 32 32 (Z.to_nat (K - 1)) = N ++ replicate (Z.to_nat (K - 1) - length N) 0.
Proof.
  intros Hd Hz HN Hlen. unfold BloomEncode_SetFullEncode.
  destruct (Bloom_flag d true Hd) as (d1 & -> & [Hd1 Hn1] & Hf1 & Hb1). bind_step.
  destruct (store_fields_spec 32 N d1 32) as (d2 & E2 & Hd2 & Hl2 & Hw & Hb2); [done|lia|lia|lia|lia| |].
  { eapply Forall_impl; [exact HN|]. simpl. lia. }
  unfold store_step in E2. rewrite E2. bind_step. cbn [fst].
  assert (nbits d2 = nbits d1) as Hn2 by (unfold nbits; by rewrite Hl2).
  exists d2. split; [done|]. split; [split; [done|lia]|]. split.
  - rewrite <- Hf1. apply field_ext; [lia|]. intros q Hq. apply Hb2; lia.
  - replace (Z.to_nat (K - 1)) with (length N + (Z.to_nat (K - 1) - length N))%nat at 1 by lia.
    rewrite fields_app, Hw by lia. f_equal. apply fields_zero; [lia..|]. intros q Hq. rewrite Hb2, Hb1 by lia. apply Hz. lia.
Qed.

Lemma Bloom_bits u d N :
  words_ok C d ->
  exists d', BloomEncode_SetBloomEncode C u d N = Some d' /\ words_ok C d' /\ field d' 0 32 = 0 /\
    forall x, x ∈ N -> bit_at d' (bloom_bit u x) = true.
Proof.
  intros Hd. unfold BloomEncode_SetBloomEncode. destruct (Bloom_flag d false Hd) as (d1 & -> & [Hd1 Hn1] & Hf1 & Hb1). bind_step.
  destruct (set_bits_spec (BloomEncode_Hash C u) (bloom_bit u) N d1 Hd1) as (d2 & -> & Hr).
  { intros x _. destruct (Bloom_hash u x) as [-> ?]. split; [done|lia]. }
  pose proof Hr as (Hd2 & _ & Hb2). exists d2. split; [done|]. split; [split; [done|by rewrite (rewrites_nbits _ _ _ Hr)]|]. split.
  - transitivity (field d1 0 32); [|done]. apply field_ext; [lia|]. intros q Hq. rewrite Hb2, bool_decide_eq_false_2 by
      (lia || (intros (x & -> & _)%list_elem_of_fmap; destruct (Bloom_hash u x); lia)). apply orb_false_r.
  - intros x Hx. destruct (Bloom_hash u x) as [_ ?]. rewrite Hb2, bool_decide_eq_true_2 by (lia || by apply list_elem_of_fmap_2).
    apply orb_true_r.
Qed.

Lemma Bloom_find_spec d n j v :
  words_ok C d -> 0 <= j -> j + Z.of_nat n <= K ->
  Bloom_find n d (32 * j) v = Some (if bool_decide (v ∈ fields d (32 * j) 32 n) then Neighbor else NonNeighbor).
Proof.
  intros Hd. revert j. induction n as [|n IH]; intros j Hj Hn.
  { cbn [Bloom_find]. by rewrite (bool_decide_eq_false_2 (v ∈ fields _ _ _ _)) by apply not_elem_of_nil. }
  cbn [Bloom_find]. rewrite (get_word C HK Hper ltac:(lia) d j Hd) by lia. bind_step. rewrite fields_S.
  destruct (Z.eqb_spec (field d (32 * j) 32) v) as [->|Hne]; [by rewrite bool_decide_eq_true_2 by by left|].
  rewrite u32_small by lia. replace (32 * j + 32) with (32 * (j + 1)) by lia. rewrite IH by lia.
  assert (bool_decide (v ∈ fields d (32 * (j + 1)) 32 n) = bool_decide (v ∈ field d (32 * j) 32 :: fields d (32 * (j + 1)) 32 n)) as ->; [|done].
  apply bool_decide_ext. rewrite elem_of_cons. split; [by right|intros [?|?]; [congruence|done]].
Qed.

Definition bloom_coded (E : list (list Z)) (u : Z) (N : list Z) : Prop := exists d, zget E u = Some d /\ bloom_code u d N.

Lemma Bloom_test E u N v :
  bloom_coded E u N -> 1 <= v <= V ->
  exists t, BloomEncode_NonNeighborTest C E u v = Some t /\ answers t (v ∈ N) /\ ((Z.of_nat (length N) <=? K - 1) = true -> t <> Uncertain).
Proof.
  intros (d & Ed & Hd & Hc) Hv. unfold BloomEncode_NonNeighborTest, BloomEncode_GetFlag. rewrite Ed. bind_step.
  pose proof (get_word C HK Hper ltac:(lia) d 0 Hd ltac:(lia)) as Hw. change (32 * 0) with 0 in Hw. rewrite Hw. bind_step. bind_step.
  destruct (Z.of_nat (length N) <=? K - 1); destruct Hc as [-> Hc]; cbn [Z.eqb negb].
  - rewrite (proj1 Bloom_sizes). change 32 with (32 * 1) at 1. rewrite Bloom_find_spec by (done || lia). change (32 * 1) with 32. rewrite Hc.
    assert (v ∈ N ++ replicate (Z.to_nat (K - 1) - length N) 0 <-> v ∈ N) as Hiff.
    { rewrite elem_of_app. split; [intros [?|[-> _]%elem_of_replicate]; [done|lia]|by left]. }
    eexists. split; [done|]. by case_bool_decide; cbn; rewrite <- Hiff.
  - destruct (Bloom_hash u v) as [-> Hb]. bind_step. destruct Hd as [Hd Hn]. rewrite BitSetSIMD_IsOne_spec by (done || lia). bind_step.
    eexists. split; [done|]. split; [|done]. destruct (bit_at d _) eqn:Eb; cbn; [done|]. intros Hin%Hc. congruence.
Qed.

#[export] Instance bloom_laws :
  EncodeLaws (BloomEncode_EncodeVertex C) V (ids_ok V) (new_vector C) bloom_coded.
Proof.
  destruct (new_vector_zero C K Hper ltac:(lia)) as (Hb & Hn & Hz). split.
  - by intros l [].
  - by intros l [].
  - intros F l. apply ids_ok_without.
  - split; constructor.
  - intros E v l Hv [Hnd Hids] Hnew. unfold BloomEncode_EncodeVertex. rewrite Hnew. bind_step. rewrite (proj1 Bloom_sizes).
    assert (exists d', (if Z.of_nat (length l) <=? K - 1 then BloomEncode_SetFullEncode (BitSetSIMD_new (PER_ENCODE_BIT_SIZE C)) l
      else BloomEncode_SetBloomEncode C v (BitSetSIMD_new (PER_ENCODE_BIT_SIZE C)) l) = Some d' /\ bloom_code v d' l) as (d' & -> & Hc).
    { unfold bloom_code. destruct (Z.leb_spec (Z.of_nat (length l)) (K - 1)).
      - destruct (Bloom_full (BitSetSIMD_new (PER_ENCODE_BIT_SIZE C)) l) as (d' & -> & Hd' & Hf & Hw); [done..|by exists d'].
      - destruct (Bloom_bits v (BitSetSIMD_new (PER_ENCODE_BIT_SIZE C)) l) as (d' & -> & Hd' & Hf & Hw); [done|by exists d']. }
    bind_step. pose proof (zget_Some_inv _ _ _ Hnew) as [Hi _]. pose proof (zset_Some E v d' Hi) as Es. rewrite Es.
    pose proof (fun w => zget_zset E v w d' _ Es) as Hg. eexists. split; [done|]. split; [exists d'; split; [by rewrite Hg, Z.eqb_refl|done]|].
    split; intros w; intros; unfold new_vector, bloom_coded; rewrite Hg; by rewrite (proj2 (Z.eqb_neq w v)).
Qed.

#[export] Instance bloom_tests :
  TestLaws V (K - 1) (Z.to_nat (4 * K)) (ids_ok V) bloom_coded (BloomEncode_NEpairTest C).
Proof.
  split.
  - intros E u N (d & Ed & [Hd Hn] & _). exists d. split; [done|]. split; [done|]. unfold nbits in Hn. lia.
  - intros E E' u N HE (d & Ed & Hc). exists d. by rewrite HE.
  - intros E u v Nu Nv edge Hu Hv _ _ Hcu Hcv Hcover. unfold BloomEncode_NEpairTest.
  destruct (Bloom_test E u Nu v Hcu Hv) as (t1 & -> & H1 & Hc1). destruct (Bloom_test E v Nv u Hcv Hu) as (t2 & -> & H2 & Hc2). bind_step. bind_step.
  eexists. split; [done|]. replace (PairType_min t1 t2) with (if PairType_val t1 <? PairType_val t2 then t1 else t2) by (by destruct t1, t2).
  by apply (min_answers t1 t2 _ _ Nu Nv u v edge).
Qed.
Lemma BloomVend_saved (D : Z) (adj : list (list Z)) (std_sort : (Z -> Z) -> list Z -> list Z) db :
  graph_ok adj V (ids_ok V) -> zget adj 0 = Some [] -> K - 1 < D < 2 ^ 31 -> no_gap C adj D -> sorts std_sort ->
  exists filt E, BloomVend_Build C std_sort (Some adj) db = Some (filt, E) /\
    saved_tests C (Z.to_nat (4 * K)) E (BloomEncode_NEpairTest C) (right_tests adj filt).
Proof.
  intros Hgraph Hadj0 HD Hgap Hsort.
  unfold BloomVend_Build. change (BloomEncode_GetIntSize C) with (Bloom_block_size_ C). rewrite (proj1 Bloom_sizes).
  apply (build_sound C HV (K - 1) (K - 1) D (Z.to_nat (4 * K)) ltac:(lia) (BloomEncode_EncodeVertex C) (BloomEncode_NEpairTest C)
    (ids_ok V) (new_vector C) bloom_coded); try done; [lia|lia|apply default_new_vector].
Qed.
End bloom.

(** * Properties *)

(** C23: the hash encoding is built from adjacency lists, and in every state that
    insertions and deletions reach from there the next one is defined, and the
    test of two vertices is defined, symmetric and exact: Uncertain when the
    larger has the hash of a vertex that is stored with the smaller, as every
    stored edge has, and NonNeighbor when it has not. What a deletion stores for
    the smaller end is its list in the database, which no insertion has reached,
    without the deleted edge. *)
Theorem BitHash_no_false_negative (C : Config) (adj : list (list Z)) (db : list (Z * list Z))
    (HP : 0 < PER_ENCODE_BIT_SIZE C < 2 ^ 31) (H8 : PER_ENCODE_BIT_SIZE C mod 8 = 0) (HV : 1 <= VERTEX_SIZE C < 2 ^ 31)
    (Hadj : Z.of_nat (length adj) = VERTEX_SIZE C + 1) :
  exists E0, BitHashVend_BuildEncoding C (Some adj) db (EncodeBitSet_default C) = Some E0 /\
    forall M E u v, rtc (bithash_step C) (forward_edges adj (VERTEX_SIZE C), E0) (M, E) ->
      1 <= u <= VERTEX_SIZE C -> 1 <= v <= VERTEX_SIZE C ->
      is_Some (BitHashEncode_InsertPair C E u v) /\ (forall db, is_Some (BitHashEncode_DeletePair C db E u v)) /\
      exists t, BitHashEncode_NEpairTest C E u v = Some t /\ BitHashEncode_NEpairTest C E v u = Some t /\ t <> Neighbor /\
        (t = Uncertain <-> hit C M (ordered_pair u v)) /\ (ordered_pair u v ∈ M -> t = Uncertain).
Proof.
  destruct (BitHash_build C HP HV adj db (EncodeBitSet_default C) Hadj (default_bithash C HP H8)) as (E0 & HE0 & HI0).
  exists E0. split; [done|]. intros M E u v Hr Hu Hv. pose proof (bithash_reachable C _ _ M E HP HV HI0 Hr) as HI. split; [|split].
  - destruct (BitHash_insert C HP HV E M u v HI Hu Hv) as (E' & -> & _). by eexists.
  - intros db'. destruct (BitHash_delete C HP HV E M db' u v HI Hu Hv) as (E' & -> & _). by eexists.
  - destruct (BitHash_test C HP HV E M u v HI Hu Hv) as (t & Et & Et' & Hn & Ht). exists t. split; [done|]. split; [done|].
    split; [done|]. split; [done|]. intros Hin. by apply Ht, hit_stored.
Qed.

(** C24: the builder by degrees with the Bloom encoding, on a graph in which
    every degree from 1 to the largest occurs ([no_gap]), the largest being above
    [K_SIZE - 1], what a code holds: it returns for every order of the vertices of
    one degree, and every later test is defined and never wrong about the edges; it
    is certain when one of the vertices was filtered. *)
Theorem BloomBuildEncoding_sound (C : Config) (D : Z) (adj : list (list Z)) (std_sort : (Z -> Z) -> list Z -> list Z)
    (db : list (Z * list Z))
    (HK : 3 <= K_SIZE C <= 64) (Hper : PER_ENCODE_BIT_SIZE C = 32 * K_SIZE C) (HV : 1 <= VERTEX_SIZE C < 2 ^ 31)
    (Hgraph : graph_ok adj (VERTEX_SIZE C) (ids_ok (VERTEX_SIZE C))) (Hadj0 : zget adj 0 = Some [])
    (HD : K_SIZE C - 1 < D < 2 ^ 31) (Hgap : no_gap C adj D) (Hsort : sorts std_sort) :
  exists filt E, BloomVend_Build C std_sort (Some adj) db = Some (filt, E) /\
    forall u v, 1 <= u <= VERTEX_SIZE C -> 1 <= v <= VERTEX_SIZE C ->
      exists t, BloomEncode_NEpairTest C E u v = Some t /\ answers t (v ∈ neighbors adj u) /\
        (gone filt u || gone filt v = true -> t <> Uncertain).
Proof.
  destruct (BloomVend_saved C HK Hper HV D adj std_sort db Hgraph Hadj0 HD Hgap Hsort) as (filt & E & HB & HE).
  exists filt, E. split; [done|]. exact (saved_tests_now _ _ _ _ _ HE).
Qed.

(** * Witnesses *)

Lemma BitHash_no_false_negative_witness :
  let adj := half_graph 20 7 in
  exists E0, BitHashVend_BuildEncoding small_config (Some adj) [] (EncodeBitSet_default small_config) = Some E0 /\
    forall M E u v, rtc (bithash_step small_config) (forward_edges adj 20, E0) (M, E) ->
      1 <= u <= 20 -> 1 <= v <= 20 ->
      is_Some (BitHashEncode_InsertPair small_config E u v) /\ (forall db, is_Some (BitHashEncode_DeletePair small_config db E u v)) /\
      exists t, BitHashEncode_NEpairTest small_config E u v = Some t /\ BitHashEncode_NEpairTest small_config E v u = Some t /\
        t <> Neighbor /\ (t = Uncertain <-> hit small_config M (ordered_pair u v)) /\ (ordered_pair u v ∈ M -> t = Uncertain).
Proof.
  apply (BitHash_no_false_negative small_config (half_graph 20 7) []).
  - vm_compute. split; reflexivity.
  - reflexivity.
  - vm_compute. split; [discriminate|reflexivity].
  - reflexivity.
Defined.

Lemma BloomBuildEncoding_sound_witness :
  exists filt E, BloomVend_Build small_config sort_by (Some (half_graph 20 7)) [] = Some (filt, E) /\
    forall u v, 1 <= u <= VERTEX_SIZE small_config -> 1 <= v <= VERTEX_SIZE small_config ->
      exists t, BloomEncode_NEpairTest small_config E u v = Some t /\ answers t (v ∈ neighbors (half_graph 20 7) u) /\
        (gone filt u || gone filt v = true -> t <> Uncertain).
Proof.
  apply (BloomBuildEncoding_sound small_config 6 (half_graph 20 7) sort_by []).
  - vm_compute. split; discriminate.
  - reflexivity.
  - vm_compute. split; [discriminate|reflexivity].
  - apply (lists_check_ok _ (ids_check 20)); [apply ids_check_ok|vm_compute; reflexivity].
  - vm_compute. reflexivity.
  - vm_compute. split; reflexivity.
  - apply no_gap_check_ok. vm_compute. reflexivity.
  - exact sort_by_sorts.
Defined.

(** * Behaviours worth knowing *)

(** The search of a full list of the count encoding stops at the first smaller
    element: in an ascending list it finds the first neighbor only. *)
Example Count_full_denied :
  (E ← CountEncode_EncodeVertex demo_config (replicate 11 (BitSetSIMD_new 96)) 5 [2; 7; 9];
   E ← CountEncode_EncodeVertex demo_config E 7 [];
   CountEncode_NEpairTest demo_config E 5 7) = Some NonNeighbor.
Proof. vm_compute. reflexivity. Qed.

(** With elements of 16 bits the first counter is the second half of the flag's
    word: a list that has a neighbor there reads as a full one. *)
Example Count_flag_counted :
  (E ← CountEncode_EncodeVertex demo_config (replicate 11 (BitSetSIMD_new 96)) 5 [1; 2; 3; 4; 6];
   d ← zget E 5;
   flag ← CountEncode_GetFlag d;
   t ← CountEncode_NonNeighborTest demo_config E 5 4;
   Some (flag, t)) = Some (true, NonNeighbor).
Proof. vm_compute. reflexivity. Qed.

(** A vertex with at most [GetIntSize] neighbors is filtered, the number of bits
    of an element: only [element_nums_] neighbors fit a list. Between vertices
    that are filtered without fitting an edge is denied. *)
Example Count_filtered_denied :
  CountEncode_GetIntSize demo_config = 16 /\ Count_element_nums_ demo_config = Some 4 /\
  (r ← CountVend_Build demo_config sort_by (Some (half_graph 1000 20)) [];
   CountEncode_NEpairTest demo_config r.2 8 16) = Some NonNeighbor.
Proof. split; [reflexivity|]. split; [reflexivity|]. vm_compute. reflexivity. Qed.

(** An insertion does nothing: the new edge is denied. *)
Example Bloom_inserted_denied :
  (E ← BloomEncode_EncodeVertex small_config (EncodeBitSet_default small_config) 1 [2];
   E ← BloomEncode_EncodeVertex small_config E 3 [];
   BloomEncode_NEpairTest small_config (BloomEncode_InsertPair E 1 3) 1 3) = Some NonNeighbor.
Proof. vm_compute. reflexivity. Qed.
