(* ===== verification/Compression.v ===== *)
(** The codecs of the compressed range encoding: [Compression], [BitsComp],
    [VbyteComp] and [VbyteDeltaComp]
    ([src/include/encode/single/compression.h]).

    A code starts at the bit [shift] of a vector of [total_bits_] bits. A partial
    code of a list holds a run of its elements: the first, the last, and then
    those between. *)
From S2P Require Import Prelude Config BitSet Encode RangeEncode.
From Stdlib Require Btauto.
From stdpp Require Import options.
Local Open Scope Z_scope.
Set Default Proof Using "Type*".

(** * The virtual methods *)

Class Compression := {
  comp_GetRequiredBits : list Z -> Z;
  comp_Encode : list Z -> list Z -> Z -> option (list Z);          (* list, encode, shift *)
  comp_DynamicEncode : list Z -> list Z -> Z -> option (list Z);
  comp_Find : Z -> list Z -> Z -> bool -> option PairType          (* value, encode, shift, not_partial *)
}.

(** * BitsComp: fields of one size *)

Section Bits.
Context (VERTEX_BIT_SIZE total_bits_ v_bit_size_ max_nums_ : Z).

Definition BitsComp_GetRequiredBits (list : list Z) : Z := u32 (Z.of_nat (length list) * VERTEX_BIT_SIZE).

Definition BitsComp_Encode (list encode : list Z) (shift : Z) : option (Datatypes.list Z) :=
  st ← foldM (fun v '(encode, shift) => encode ← BitSetSIMD_BlockSet encode shift v_bit_size_ v; Some (encode, u32 (shift + v_bit_size_)))
         list (encode, shift);
  Some st.1.

(** [DynamicEncode]: the index of the widest run of [max_nums_] elements; the
    position does not move with the first two fields. *)
Definition BitsComp_DynamicEncode (list encode : list Z) (shift : Z) : option (Datatypes.list Z) :=
  let size := Z.of_nat (length list) in
  '(max_score, idx) ← for_loop (Z.to_nat (u32 (size - max_nums_ + 1))) 0
    (fun i '(max_score, idx) =>
       hi ← zget list (i + max_nums_ - 1);
       lo ← zget list i;
       let score := u32 (hi - lo) in
       Some (if max_score <? score then (score, i) else (max_score, idx))) (0, -1);
  _ ← guardb (2 <? max_nums_);
  x ← zget list idx;
  encode ← BitSetSIMD_BlockSet encode shift v_bit_size_ x;
  y ← zget list (idx + max_nums_ - 1);
  encode ← BitSetSIMD_BlockSet encode shift v_bit_size_ y;
  st ← for_loop (Z.to_nat (max_nums_ - 2)) 1
    (fun i '(encode, shift) =>
       z ← zget list (i + idx);
       encode ← BitSetSIMD_BlockSet encode shift v_bit_size_ z;
       Some (encode, u32 (shift + v_bit_size_))) (encode, shift);
  Some st.1.

(** The search loop; a field has at least one bit, so [total_bits_] turns are
    enough. *)
Fixpoint BitsComp_loop (fuel : nat) (value : Z) (encode : list Z) (shift : Z) : option PairType :=
  if u32 (shift + v_bit_size_) <? total_bits_ then
    match fuel with
    | O => None
    | S fuel =>
        compare ← BitSetSIMD_BlockGet encode shift v_bit_size_;
        if value =? compare then Some Neighbor
        else if value <? compare then Some NonNeighbor
        else BitsComp_loop fuel value encode (u32 (shift + v_bit_size_))
    end
  else Some NonNeighbor.

Definition BitsComp_Find (value : Z) (encode : list Z) (shift : Z) (not_partial : bool) : option PairType :=
  let fuel := Z.to_nat total_bits_ in
  if not_partial then BitsComp_loop fuel value encode shift
  else
    min ← BitSetSIMD_BlockGet encode shift v_bit_size_;
    let shift := u32 (shift + v_bit_size_) in
    max ← BitSetSIMD_BlockGet encode shift v_bit_size_;
    let shift := u32 (shift + v_bit_size_) in
    if (value =? min) || (value =? max) then Some Neighbor
    else if (value <? min) || (max <? value) then Some Uncertain
    else BitsComp_loop fuel value encode shift.

Definition BitsComp : Compression :=
  {| comp_GetRequiredBits := BitsComp_GetRequiredBits; comp_Encode := BitsComp_Encode;
     comp_DynamicEncode := BitsComp_DynamicEncode; comp_Find := BitsComp_Find |}.
End Bits.

(** * VbyteComp: seven bits per byte, the most significant first *)

Definition range : list Z := [127; 16383; 2097151].

Fixpoint IntegerBytes_loop (range : list Z) (idx value : Z) : Z :=
  match range with
  | [] => idx
  | r :: range => if value <=? r then idx else IntegerBytes_loop range (idx + 1) value
  end.
Definition IntegerBytes (value : Z) : Z := IntegerBytes_loop range 1 value.

Definition GetAllBits (list : list Z) : Datatypes.list Z := map (fun v => u32 (IntegerBytes v * 8)) list.

Definition compress (value : Z) : Z :=
  let bytes := IntegerBytes value in
  if bytes =? 1 then value
  else if bytes =? 2 then
    Z.lor (Z.lor (u32 (Z.shiftl (Z.land value 0x3F80) 1)) 0x8000) (Z.land value 0x7F)
  else if bytes =? 3 then
    Z.lor (Z.lor (Z.lor (u32 (Z.shiftl (Z.land value 0x1FC000) 2)) 0x808000) (u32 (Z.shiftl (Z.land value 0x3F80) 1)))
      (Z.land value 0x7F)
  else
    Z.lor (Z.lor (Z.lor (Z.lor (u32 (Z.shiftl (Z.land value 0xFE00000) 3)) 0x80808000)
      (u32 (Z.shiftl (Z.land value 0x1FC000) 2))) (u32 (Z.shiftl (Z.land value 0x3F80) 1))) (Z.land value 0x7F).

(** [decode]: [ptr] is [len] bytes behind the start of the vector. *)
Fixpoint decode_loop (fuel : nat) (encode : list Z) (res len : Z) : option (Z * Z) :=
  match fuel with
  | O => None
  | S fuel =>
      byte ← zget encode len;
      let res := Z.lor (u32 (Z.shiftl res 7)) (Z.land byte 0x7F) in
      if Z.land byte 0x80 =? 0 then Some (res, u32 (len + 1)) else decode_loop fuel encode res (u32 (len + 1))
  end.
Definition decode (encode : list Z) (len : Z) : option (Z * Z) := decode_loop (S (length encode)) encode 0 len.

(** [BlockSet(shift, bits, compress(value)); shift += bits] *)
Definition put (value bits : Z) (st : list Z * Z) : option (list Z * Z) :=
  let '(encode, shift) := st in
  encode ← BitSetSIMD_BlockSet encode shift bits (compress value);
  Some (encode, u32 (shift + bits)).

Section Vbyte.
Context (total_bits_ : Z).

Definition VbyteComp_GetRequiredBits (list : list Z) : Z :=
  fold_left (fun bytes v => u32 (bytes + 8 * IntegerBytes v)) list 0.

Definition VbyteComp_Encode (list encode : list Z) (shift : Z) : option (Datatypes.list Z) :=
  let all_bits := GetAllBits list in
  st ← for_loop (length list) 0 (fun i st => bits ← zget all_bits i; v ← zget list i; put v bits st) (encode, shift);
  Some st.1.

(** How many elements from [i] on fit; [size - i] turns. *)
Fixpoint Vbyte_block (n : nat) (all_bits : list Z) (shift i block_size bits_num : Z) : option Z :=
  match n with
  | O => Some block_size
  | S n =>
      b ← zget all_bits (i + block_size);
      let bits_num := bits_num + b in
      if total_bits_ <? u32 (bits_num + shift) then Some block_size
      else Vbyte_block n all_bits shift i (block_size + 1) bits_num
  end.

Definition VbyteComp_DynamicEncode (list encode : list Z) (shift : Z) : option (Datatypes.list Z) :=
  let size := u32 (Z.of_nat (length list)) in
  let all_bits := GetAllBits list in
  '(idx, best_block, _) ← for_loop (Z.to_nat (u32 (size - 1))) 0
    (fun i '(idx, best_block, best_score) =>
       block_size ← Vbyte_block (Z.to_nat (size - i)) all_bits shift i 0 0;
       hi ← zget list (i + block_size);
       lo ← zget list i;
       let score := u32 (hi - lo) in
       Some (if best_score <=? score then (i, block_size, score) else (idx, best_block, best_score))) (2 ^ 32 - 1, 0, 0);
  _ ← guardb (2 <=? best_block);
  b ← zget all_bits idx;
  v ← zget list idx;
  st ← put v b (encode, shift);
  b ← zget all_bits (u32 (idx + best_block - 1));
  v ← zget list (u32 (idx + best_block - 1));
  st ← put v b st;
  st ← for_loop (Z.to_nat (best_block - 2)) 1
    (fun i st => b ← zget all_bits (u32 (i + idx)); v ← zget list (u32 (i + idx)); put v b st) st;
  Some st.1.

(** The search loop; every value is at least one byte. [pre] is what is added to
    the values: 0, or the value before. *)
Fixpoint Vbyte_loop (delta : bool) (fuel : nat) (value : Z) (encode : list Z) (pre len : Z) : option PairType :=
  if len <? total_bits_ / 8 then
    match fuel with
    | O => None
    | S fuel =>
        '(x, len) ← decode encode len;
        let next := if delta then u32 (x + pre) else x in
        if value =? next then Some Neighbor
        else if value <? next then Some NonNeighbor
        else Vbyte_loop delta fuel value encode next len
    end
  else Some NonNeighbor.

Definition Vbyte_Find (delta : bool) (value : Z) (encode : list Z) (shift : Z) (not_partial : bool) : option PairType :=
  let fuel := Z.to_nat total_bits_ in
  let len := shift / 8 in
  if not_partial then Vbyte_loop delta fuel value encode 0 len
  else
    '(min, len) ← decode encode len;
    '(max, len) ← decode encode len;
    if (value =? min) || (value =? max) then Some Neighbor
    else if (value <? min) || (max <? value) then Some Uncertain
    else Vbyte_loop delta fuel value encode min len.

Definition VbyteComp_Find := Vbyte_Find false.

Definition VbyteComp : Compression :=
  {| comp_GetRequiredBits := VbyteComp_GetRequiredBits; comp_Encode := VbyteComp_Encode;
     comp_DynamicEncode := VbyteComp_DynamicEncode; comp_Find := VbyteComp_Find |}.

(** * VbyteDeltaComp: the differences *)

Fixpoint deltas_from (x : Z) (list : list Z) : Datatypes.list Z :=
  match list with [] => [] | y :: list => u32 (y - x) :: deltas_from y list end.
Definition GetDeltas (list : list Z) : Datatypes.list Z :=
  match list with [] => [] | x :: list => x :: deltas_from x list end.

(** [GetDeltaBits] reads [list[1] - list[0]] first. *)
Definition GetDeltaBits (list : list Z) : option (Datatypes.list Z) :=
  match list with
  | x :: y :: _ => Some (map (fun d => u32 (IntegerBytes d * 8)) (deltas_from x (tail list)))
  | _ => None
  end.

Definition VbyteDeltaComp_GetRequiredBits (list : list Z) : Z := VbyteComp_GetRequiredBits (GetDeltas list).

Definition VbyteDeltaComp_Encode (list encode : list Z) (shift : Z) : option (Datatypes.list Z) :=
  VbyteComp_Encode (GetDeltas list) encode shift.

(** The best run so far: its score, its first index and its size. *)
Record Best := { best_score : Z; idx : Z; best_block : Z }.

Definition better (b : Best) (score i block : Z) : Best :=
  if best_score b <? score then {| best_score := score; idx := i; best_block := block |} else b.

(** The runs from [i] on, by their last element [j]. *)
Fixpoint delta_runs (n : nat) (list all_bits delta_bits : list Z) (shift i j bits_num : Z) (b : Best) : option Best :=
  match n with
  | O => Some b
  | S n =>
      lj ← zget list j;
      li ← zget list i;
      let score := u32 (lj - li) in
      aj ← zget all_bits j;
      aj' ← zget all_bits (j - 1);
      dj ← zget delta_bits (j - 2);
      let bits_num := u32 (bits_num + u32 (aj - aj' + dj)) in
      if total_bits_ <? u32 (bits_num + shift) then Some b
      else delta_runs n list all_bits delta_bits shift i (j + 1) bits_num (better b score i (j - i + 1))
  end.

Definition delta_start (list all_bits delta_bits : list Z) (shift : Z) (i : Z) (b : Best) : option Best :=
  let size := u32 (Z.of_nat (length list)) in
  a0 ← zget all_bits i;
  a1 ← zget all_bits (i + 1);
  let bits_num := u32 (a0 + a1) in
  if total_bits_ <? u32 (bits_num + shift) then Some b
  else
    l1 ← zget list (i + 1);
    l0 ← zget list i;
    let b := better b (u32 (l1 - l0)) i 2 in
    delta_runs (Z.to_nat (u32 (size - 1) - (i + 2))) list all_bits delta_bits shift i (i + 2) bits_num b.

Definition VbyteDeltaComp_DynamicEncode (list encode : list Z) (shift : Z) : option (Datatypes.list Z) :=
  let size := u32 (Z.of_nat (length list)) in
  delta_bits ← GetDeltaBits list;
  let all_bits := GetAllBits list in
  b ← for_loop (Z.to_nat (u32 (size - 3))) 0 (delta_start list all_bits delta_bits shift)
        {| best_score := 0; idx := 2 ^ 32 - 1; best_block := 0 |};
  _ ← guardb (2 <=? best_block b);
  bits ← zget all_bits (idx b);
  v ← zget list (idx b);
  st ← put v bits (encode, shift);
  bits ← zget all_bits (u32 (idx b + best_block b - 1));
  v ← zget list (u32 (idx b + best_block b - 1));
  st ← put v bits st;
  st ← for_loop (Z.to_nat (best_block b - 2)) 1
    (fun i st =>
       bits ← zget delta_bits (u32 (idx b + i - 1));
       v ← zget list (u32 (i + idx b));
       v' ← zget list (u32 (i + idx b - 1));
       put (u32 (v - v')) bits st) st;
  Some st.1.

(** [Find]: the same search, among the sums of the differences. *)
Definition VbyteDeltaComp_Find := Vbyte_Find true.

Definition VbyteDeltaComp : Compression :=
  {| comp_GetRequiredBits := VbyteDeltaComp_GetRequiredBits; comp_Encode := VbyteDeltaComp_Encode;
     comp_DynamicEncode := VbyteDeltaComp_DynamicEncode; comp_Find := VbyteDeltaComp_Find |}.
End Vbyte.

(** * Proofs: bytes of a vector *)

(** Byte [i] of an integer, counted from the least significant. *)
Definition byte_at_of (v i : Z) : Z := u8 (Z.shiftr v (8 * i)).

Lemma BlockSet_bytes d p n v :
  bytes_ok d -> 0 <= p -> 8 * p < 2048 -> 1 <= n <= 4 -> p + n <= Z.of_nat (length d) -> 0 <= v < 2 ^ (8 * n) ->
  exists d', BitSetSIMD_BlockSet d (8 * p) (8 * n) v = Some d' /\ bytes_ok d' /\ length d' = length d /\
    forall j, zget d' j = if (p <=? j) && (j <? p + n) then Some (byte_at_of v (p + n - 1 - j)) else zget d j.
Proof.
  intros Hd Hp Hp' Hn Hfit Hv.
  destruct (BitSetSIMD_BlockSet_spec d (8 * p) (8 * n) v Hd) as (d' & E & Hr); [unfold set_dom, nbits; lia|].
  exists d'. pose proof Hr as (Hd' & Hl & Hbits). split; [done|]. split; [done|]. split; [done|]. intros j.
  destruct (Z.leb_spec p j), (Z.ltb_spec j (p + n)); cbn [andb].
  - destruct (zget_is_Some d' j) as [x Ex]; [lia|]. rewrite Ex. f_equal. pose proof (bytes_ok_get _ _ _ Hd' Ex) as Hx.
    apply Z.bits_inj'. intros k Hk. unfold byte_at_of. rewrite testbit_u8, Z.shiftr_spec by lia. destruct (Z.ltb_spec k 8) as [H8|H8].
    + rewrite andb_true_l. assert ((8 * j + (7 - k)) / 8 = j) as Ej by (symmetry; apply (Z.div_unique_pos _ 8 j (7 - k)); lia).
      assert ((8 * j + (7 - k)) mod 8 = 7 - k) as Em by (symmetry; apply (Z.mod_unique_pos _ 8 j (7 - k)); lia).
      pose proof (bit_at_zget d' (8 * j + (7 - k)) x ltac:(lia) ltac:(by rewrite Ej)) as Hbit. rewrite Em in Hbit.
      replace (7 - (7 - k)) with k in Hbit by lia. rewrite <- Hbit, Hbits by lia. unfold put_field.
      rewrite (proj2 (Z.leb_le (8 * p) _)), (proj2 (Z.ltb_lt _ (8 * p + 8 * n))) by lia. cbn [andb]. f_equal. lia.
    + by apply (testbit_above x 8 k).
  - apply (byte_ext d d' j Hd Hd' Hl). intros q Hq. rewrite Hbits by lia. unfold put_field.
    by rewrite (proj2 (Z.ltb_ge q (8 * p + 8 * n))), andb_false_r by lia.
  - destruct (decide (0 <= j)) as [Hj|Hj].
    + apply (byte_ext d d' j Hd Hd' Hl). intros q Hq. rewrite Hbits by lia. unfold put_field. by rewrite (proj2 (Z.leb_gt (8 * p) q)) by lia.
    + unfold zget. by rewrite (proj2 (Z.leb_gt 0 j)) by lia.
  - lia.
Qed.

(** The bytes from [p] on. *)
Definition holds (d : list Z) (p : Z) (l : list Z) : Prop := forall i x, l !! i = Some x -> zget d (p + Z.of_nat i) = Some x.

Lemma holds_app d p l1 l2 : holds d p (l1 ++ l2) <-> holds d p l1 /\ holds d (p + Z.of_nat (length l1)) l2.
Proof.
  unfold holds. split.
  - intros H. split; intros i x Hx; [apply H, lookup_app_l_Some, Hx|].
    replace (p + Z.of_nat (length l1) + Z.of_nat i) with (p + Z.of_nat (length l1 + i)) by lia. apply H.
    rewrite lookup_app_r by lia. by replace (length l1 + i - length l1)%nat with i by lia.
  - intros [H1 H2] i x [Hx|[Hle Hx]]%lookup_app_Some; [by apply H1|]. specialize (H2 _ _ Hx).
    by replace (p + Z.of_nat i) with (p + Z.of_nat (length l1) + Z.of_nat (i - length l1)) by lia.
Qed.

Lemma holds_cons d p x l : holds d p (x :: l) <-> zget d p = Some x /\ holds d (p + 1) l.
Proof.
  change (x :: l) with ([x] ++ l). rewrite holds_app. cbn [length]. change (Z.of_nat 1) with 1.
  assert (holds d p [x] <-> zget d p = Some x) as ->; [|done]. unfold holds. split.
  - intros H. specialize (H 0%nat x eq_refl). by rewrite Z.add_0_r in H.
  - intros H i y Hy. destruct i as [|i]; [|by rewrite lookup_nil in Hy || destruct i]. injection Hy as <-. by rewrite Z.add_0_r.
Qed.

(** * Proofs: one value *)

(** The seven-bit digits, with the flag on all but the last. *)
Definition vb (v : Z) : list Z :=
  if v <=? 127 then [v]
  else if v <=? 16383 then [128 + v / 2 ^ 7; v mod 2 ^ 7]
  else if v <=? 2097151 then [128 + v / 2 ^ 14; 128 + v / 2 ^ 7 mod 2 ^ 7; v mod 2 ^ 7]
  else [128 + v / 2 ^ 21; 128 + v / 2 ^ 14 mod 2 ^ 7; 128 + v / 2 ^ 7 mod 2 ^ 7; v mod 2 ^ 7].

Lemma IntegerBytes_vb v : IntegerBytes v = Z.of_nat (length (vb v)) /\ 1 <= IntegerBytes v <= 4.
Proof.
  unfold IntegerBytes, range, IntegerBytes_loop, vb. destruct (v <=? 127); [done|]. destruct (v <=? 16383); [done|].
  destruct (v <=? 2097151); done.
Qed.

(** The value whose digits to the base [2 ^ 8] are given, the most significant
    first. *)
Definition be_value (l : list Z) : Z := fold_left (fun a b => a * 2 ^ 8 + b) l 0.

Lemma mask_part v a n :
  0 <= a -> 0 <= n -> Z.land v (Z.shiftl (Z.ones n) a) = Z.shiftl (v / 2 ^ a mod 2 ^ n) a.
Proof.
  intros Ha Hn. rewrite <- Z.shiftr_div_pow2, <- Z.land_ones by lia.
  apply Z.bits_inj'. intros k Hk. destruct (Z.ltb_spec k a).
  - rewrite Z.land_spec, !Z.shiftl_spec_low by lia. apply andb_false_r.
  - rewrite Z.land_spec, !Z.shiftl_spec, Z.land_spec, Z.shiftr_spec by lia. by replace (k - a + a) with k by lia.
Qed.

Lemma add_lor x y n : 0 <= y < 2 ^ n -> 0 <= n -> x * 2 ^ n + y = Z.lor (Z.shiftl x n) y.
Proof.
  intros Hy Hn. rewrite Z.lor_comm, lor_low by done. lia.
Qed.

Lemma shift_small x a b : 0 <= x < 128 -> 0 <= a -> 0 <= b -> a + b <= 24 -> u32 (Z.shiftl (Z.shiftl x a) b) = Z.shiftl x (a + b).
Proof.
  intros Hx Ha Hb Hab. rewrite Z.shiftl_shiftl by lia. apply u32_small. rewrite Z.shiftl_mul_pow2 by lia.
  pose proof (Z.pow_le_mono_r 2 (a + b) 24). pose proof (Z.pow_pos_nonneg 2 (a + b)). nia.
Qed.

Ltac norm_shifts :=
  repeat match goal with
         | |- context [Z.shiftl ?x ?n] => let m := eval compute in n in progress change (Z.shiftl x n) with (Z.shiftl x m)
         end.
Ltac lor_equal := apply Z.bits_inj'; intros k Hk; rewrite !Z.lor_spec; Btauto.btauto.

(** The words that [compress] makes, from their digits. *)
Lemma be_value_lor2 x y : 0 <= x < 128 -> 0 <= y < 128 ->
  be_value [128 + x; y] = Z.lor (Z.lor (Z.shiftl x 8) 0x8000) y.
Proof.
  intros Hx Hy. unfold be_value. cbn [fold_left]. rewrite Z.mul_0_l, Z.add_0_l, (add_lor _ y) by lia.
  replace (128 + x) with (1 * 2 ^ 7 + x) by lia. rewrite (add_lor 1 x), Z.shiftl_lor by lia.
  change (Z.shiftl (Z.shiftl 1 7) 8) with 0x8000. lor_equal.
Qed.
Lemma be_value_lor3 x y z : 0 <= x < 128 -> 0 <= y < 128 -> 0 <= z < 128 ->
  be_value [128 + x; 128 + y; z] = Z.lor (Z.lor (Z.lor (Z.shiftl x 16) 0x808000) (Z.shiftl y 8)) z.
Proof.
  intros Hx Hy Hz. unfold be_value. cbn [fold_left]. rewrite Z.mul_0_l, Z.add_0_l, (add_lor _ z), (add_lor _ (128 + y)) by lia.
  replace (128 + x) with (1 * 2 ^ 7 + x) by lia. replace (128 + y) with (1 * 2 ^ 7 + y) by lia.
  rewrite (add_lor 1 x), (add_lor 1 y), !Z.shiftl_lor, !Z.shiftl_shiftl by lia. norm_shifts.
  change 0x808000 with (Z.lor (Z.shiftl 1 23) (Z.shiftl 1 15)). lor_equal.
Qed.
Lemma be_value_lor4 x y z w : 0 <= x < 128 -> 0 <= y < 128 -> 0 <= z < 128 -> 0 <= w < 128 ->
  be_value [128 + x; 128 + y; 128 + z; w] =
    Z.lor (Z.lor (Z.lor (Z.lor (Z.shiftl x 24) 0x80808000) (Z.shiftl y 16)) (Z.shiftl z 8)) w.
Proof.
  intros Hx Hy Hz Hw. unfold be_value. cbn [fold_left].
  rewrite Z.mul_0_l, Z.add_0_l, (add_lor _ w), (add_lor _ (128 + z)), (add_lor _ (128 + y)) by lia.
  replace (128 + x) with (1 * 2 ^ 7 + x) by lia. replace (128 + y) with (1 * 2 ^ 7 + y) by lia. replace (128 + z) with (1 * 2 ^ 7 + z) by lia.
  rewrite (add_lor 1 x), (add_lor 1 y), (add_lor 1 z), !Z.shiftl_lor, !Z.shiftl_shiftl by lia. norm_shifts.
  change 0x80808000 with (Z.lor (Z.shiftl 1 31) (Z.lor (Z.shiftl 1 23) (Z.shiftl 1 15))). lor_equal.
Qed.

Lemma compress_value v : 0 <= v < 2 ^ 28 -> compress v = be_value (vb v).
Proof.
  intros Hv. unfold compress. rewrite (proj1 (IntegerBytes_vb v)).
  change 0x3F80 with (Z.shiftl (Z.ones 7) 7). change 0x1FC000 with (Z.shiftl (Z.ones 7) 14).
  change 0xFE00000 with (Z.shiftl (Z.ones 7) 21). change 0x7F with (Z.shiftl (Z.ones 7) 0). rewrite !mask_part by lia.
  rewrite Z.shiftl_0_r, Z.div_1_r. pose proof (fun x => Z.mod_pos_bound x (2 ^ 7) ltac:(lia)) as Hm.
  rewrite !shift_small by (apply Hm || lia). norm_shifts.
  assert (forall a b, 0 <= a -> a + 7 = b -> v < 2 ^ b -> v / 2 ^ a mod 2 ^ 7 = v / 2 ^ a /\ 0 <= v / 2 ^ a < 128) as Htop.
  { intros a b Ha Hb Hlt. assert (0 <= v / 2 ^ a < 2 ^ 7) as Hd.
    { split; [apply Z.div_pos; lia|]. apply Z.div_lt_upper_bound; [lia|]. rewrite <- Z.pow_add_r by lia. by rewrite Hb. }
    split; [by apply Z.mod_small|exact Hd]. }
  unfold vb. destruct (Z.leb_spec v 127); [symmetry; apply Z.add_0_l|]. destruct (Z.leb_spec v 16383); [|destruct (Z.leb_spec v 2097151)].
  - destruct (Htop 7 14 ltac:(lia) ltac:(lia) ltac:(lia)) as [-> Hd]. cbn [length Z.of_nat Pos.of_succ_nat Pos.succ Z.eqb Pos.eqb].
    by rewrite be_value_lor2 by (apply Hm || lia).
  - destruct (Htop 14 21 ltac:(lia) ltac:(lia) ltac:(lia)) as [-> Hd]. cbn [length Z.of_nat Pos.of_succ_nat Pos.succ Z.eqb Pos.eqb].
    by rewrite be_value_lor3 by (apply Hm || lia).
  - destruct (Htop 21 28 ltac:(lia) ltac:(lia) ltac:(lia)) as [-> Hd]. cbn [length Z.of_nat Pos.of_succ_nat Pos.succ Z.eqb Pos.eqb].
    by rewrite be_value_lor4 by (apply Hm || lia).
Qed.

Lemma be_value_snoc l x : be_value (l ++ [x]) = be_value l * 2 ^ 8 + x.
Proof. unfold be_value. by rewrite fold_left_app. Qed.

Lemma byte_of_sum y x i : 0 <= x < 2 ^ 8 -> 0 <= i ->
  byte_at_of (y * 2 ^ 8 + x) i = if i =? 0 then x else byte_at_of y (i - 1).
Proof.
  intros Hx Hi. unfold byte_at_of, u8. destruct (Z.eqb_spec i 0) as [->|].
  - rewrite Z.shiftr_0_r, Z.add_comm, Z_mod_plus_full. by apply Z.mod_small.
  - f_equal. replace (8 * i) with (8 + 8 * (i - 1)) by lia. rewrite <- Z.shiftr_shiftr by lia. f_equal.
    rewrite Z.shiftr_div_pow2, Z.div_add_l, Z.div_small by lia. lia.
Qed.

(** The bytes of a word are the digits it was made from. *)
Lemma be_value_bytes l :
  Forall (fun x => 0 <= x < 2 ^ 8) l ->
  0 <= be_value l < 2 ^ (8 * Z.of_nat (length l)) /\
  forall i x, l !! i = Some x -> byte_at_of (be_value l) (Z.of_nat (length l) - 1 - Z.of_nat i) = x.
Proof.
  induction l as [|y l IH] using rev_ind; intros Hl; [split; [cbn; lia|done]|].
  apply Forall_app in Hl as [Hl Hy]. apply Forall_cons in Hy as [Hy _]. destruct (IH Hl) as [Hb Hd]. rewrite be_value_snoc, length_app. cbn [length].
  split.
  - replace (8 * Z.of_nat (length l + 1)) with (8 * Z.of_nat (length l) + 8) by lia. rewrite Z.pow_add_r by lia. nia.
  - intros i x Hx. pose proof (lookup_lt_Some _ _ _ Hx) as Hi. rewrite length_app in Hi. cbn [length] in Hi.
    rewrite byte_of_sum by (done || lia).
    apply lookup_app_Some in Hx as [Hx|[Hle Hx]].
    + pose proof (lookup_lt_Some _ _ _ Hx). rewrite (proj2 (Z.eqb_neq _ 0)) by lia. rewrite <- (Hd i x Hx). f_equal. lia.
    + destruct (i - length l)%nat as [|m] eqn:Em; [|by destruct m]. injection Hx as <-. rewrite (proj2 (Z.eqb_eq _ 0)) by lia. done.
Qed.

Lemma vb_ok v : 0 <= v < 2 ^ 28 -> Forall (fun x => 0 <= x < 2 ^ 8) (vb v).
Proof.
  intros Hv. unfold vb. pose proof (fun x => Z.mod_pos_bound x (2 ^ 7) ltac:(lia)) as Hm.
  assert (forall a b, 0 <= a -> v < 2 ^ b -> b = a + 7 -> 0 <= v / 2 ^ a < 2 ^ 7) as Hd.
  { intros a b Ha Hb ->. split; [apply Z.div_pos; lia|]. apply Z.div_lt_upper_bound; [lia|]. by rewrite <- Z.pow_add_r by lia. }
  destruct (Z.leb_spec v 127); [repeat constructor; lia|]. destruct (Z.leb_spec v 16383); [|destruct (Z.leb_spec v 2097151)].
  - pose proof (Hd 7 14 ltac:(lia) ltac:(lia) eq_refl). pose proof (Hm v). repeat constructor; lia.
  - pose proof (Hd 14 21 ltac:(lia) ltac:(lia) eq_refl). pose proof (Hm v). pose proof (Hm (v / 2 ^ 7)). repeat constructor; lia.
  - pose proof (Hd 21 28 ltac:(lia) ltac:(lia) eq_refl). pose proof (Hm v). pose proof (Hm (v / 2 ^ 7)). pose proof (Hm (v / 2 ^ 14)).
    repeat constructor; lia.
Qed.

Lemma put_vb d p v :
  bytes_ok d -> 0 <= p -> p + IntegerBytes v <= Z.of_nat (length d) -> Z.of_nat (length d) <= 256 -> 0 <= v < 2 ^ 28 ->
  exists d', put v (u32 (IntegerBytes v * 8)) (d, 8 * p) = Some (d', 8 * (p + IntegerBytes v)) /\ bytes_ok d' /\ length d' = length d /\
    holds d' p (vb v) /\ forall j, j < p \/ p + IntegerBytes v <= j -> zget d' j = zget d j.
Proof.
  intros Hd Hp Hfit Hmax Hv. destruct (IntegerBytes_vb v) as [Hn Hn']. destruct (be_value_bytes _ (vb_ok v Hv)) as [Hb Hbytes].
  rewrite <- Hn in Hb, Hbytes. unfold put.
  rewrite (u32_small (IntegerBytes v * 8)), compress_value, (Z.mul_comm (IntegerBytes v) 8) by lia.
  destruct (BlockSet_bytes d p (IntegerBytes v) (be_value (vb v)) Hd Hp) as (d' & -> & Hd' & Hl & Hz); [lia..|]. bind_step.
  rewrite (u32_small (8 * p + _)) by lia. exists d'. split; [by rewrite Z.mul_add_distr_l|]. split; [done|]. split; [done|]. split.
  - intros i x Hx. pose proof (lookup_lt_Some _ _ _ Hx). rewrite Hz.
    rewrite (proj2 (Z.leb_le p _)), (proj2 (Z.ltb_lt _ (p + IntegerBytes v))) by lia. cbn [andb]. f_equal. rewrite <- (Hbytes i x Hx). f_equal. lia.
  - intros j Hj. rewrite Hz. destruct (Z.leb_spec p j), (Z.ltb_spec j (p + IntegerBytes v)); (done || lia).
Qed.

Lemma digit_bits x : 0 <= x < 128 ->
  Z.land (128 + x) 0x7F = x /\ Z.land (128 + x) 0x80 = 128 /\ Z.land x 0x7F = x /\ Z.land x 0x80 = 0.
Proof.
  intros Hx. pose proof (forall_below 128 (fun x => (Z.land (128 + x) 0x7F =? x) && (Z.land (128 + x) 0x80 =? 128) && (Z.land x 0x7F =? x) &&
    (Z.land x 0x80 =? 0)) ltac:(vm_compute; reflexivity) x Hx) as H. cbn beta in H. rewrite !andb_true_iff, !Z.eqb_eq in H. tauto.
Qed.

Lemma decode_more fuel d res len x :
  0 <= x < 128 -> 0 <= res < 2 ^ 25 -> 0 <= len < 2 ^ 31 -> zget d len = Some (128 + x) ->
  decode_loop (S fuel) d res len = decode_loop fuel d (res * 128 + x) (len + 1).
Proof.
  intros Hx Hr Hl E. cbn [decode_loop]. rewrite E. bind_step. destruct (digit_bits x Hx) as (-> & -> & _).
  rewrite (u32_small (Z.shiftl res 7)) by (rewrite Z.shiftl_mul_pow2 by lia; lia).
  rewrite Z.lor_comm, (lor_low x res 7), u32_small by lia. cbn [Z.eqb]. f_equal. lia.
Qed.

Lemma decode_last fuel d res len x :
  0 <= x < 128 -> 0 <= res < 2 ^ 25 -> 0 <= len < 2 ^ 31 -> zget d len = Some x ->
  decode_loop (S fuel) d res len = Some (res * 128 + x, len + 1).
Proof.
  intros Hx Hr Hl E. cbn [decode_loop]. rewrite E. bind_step. destruct (digit_bits x Hx) as (_ & _ & -> & ->).
  rewrite (u32_small (Z.shiftl res 7)) by (rewrite Z.shiftl_mul_pow2 by lia; lia).
  rewrite Z.lor_comm, (lor_low x res 7), u32_small by lia. cbn [Z.eqb]. do 2 f_equal. lia.
Qed.

(** Decoding reads back the value. *)
Lemma decode_vb d p v :
  0 <= p -> p + IntegerBytes v <= Z.of_nat (length d) -> Z.of_nat (length d) < 2 ^ 31 -> 0 <= v < 2 ^ 28 -> holds d p (vb v) ->
  decode d p = Some (v, p + IntegerBytes v).
Proof.
  intros Hp Hfit Hmax Hv Hh. destruct (IntegerBytes_vb v) as [Hn Hn']. unfold decode.
  pose proof (fun x => Z.mod_pos_bound x 128 ltac:(lia)) as Hm. pose proof (fun x => Z.div_mod x 128 ltac:(lia)) as Hdm.
  pose proof (Hdm v). pose proof (Hdm (v / 128)). pose proof (Hdm (v / 128 / 128)).
  assert (v / 2 ^ 14 = v / 128 / 128) as E14 by (rewrite Z.div_div by lia; done).
  assert (v / 2 ^ 21 = v / 128 / 128 / 128) as E21 by (rewrite !Z.div_div by lia; done).
  unfold vb in *. change (2 ^ 7) with 128 in *. rewrite E14, E21 in *.
  pose proof (Hm v). pose proof (Hm (v / 128)). pose proof (Hm (v / 128 / 128)).
  destruct (Z.leb_spec v 127); [|destruct (Z.leb_spec v 16383); [|destruct (Z.leb_spec v 2097151)]]; cbn [length] in Hn; rewrite Hn in *;
    rewrite ?holds_cons in Hh; destruct_and?.
  - rewrite (decode_last _ d 0 p v) by (done || lia). do 2 f_equal; lia.
  - destruct (length d) as [|m] eqn:El; [lia|].
    rewrite (decode_more _ d 0 p (v / 128)), (decode_last _ d _ (p + 1) (v mod 128)) by (done || lia). do 2 f_equal; lia.
  - destruct (length d) as [|[|m]] eqn:El; [lia..|].
    rewrite (decode_more _ d 0 p (v / 128 / 128)), (decode_more _ d _ (p + 1) (v / 128 mod 128)), (decode_last _ d _ (p + 1 + 1) (v mod 128)) by (done || lia).
    do 2 f_equal; lia.
  - destruct (length d) as [|[|[|m]]] eqn:El; [lia..|].
    rewrite (decode_more _ d 0 p (v / 128 / 128 / 128)), (decode_more _ d _ (p + 1) (v / 128 / 128 mod 128)),
      (decode_more _ d _ (p + 1 + 1) (v / 128 mod 128)), (decode_last _ d _ (p + 1 + 1 + 1) (v mod 128)) by (done || lia).
    do 2 f_equal; lia.
Qed.

(** * Proofs: lists of values *)

Definition vbs (l : list Z) : list Z := concat (map vb l).
Definition size (l : list Z) : Z := Z.of_nat (length (vbs l)).

Lemma size_cons v l : size (v :: l) = IntegerBytes v + size l.
Proof. unfold size, vbs. cbn [map concat]. rewrite length_app, (proj1 (IntegerBytes_vb v)). lia. Qed.

Lemma size_app l1 l2 : size (l1 ++ l2) = size l1 + size l2.
Proof. unfold size, vbs. rewrite map_app, concat_app, length_app. lia. Qed.

Lemma size_bounds l : Z.of_nat (length l) <= size l <= 4 * Z.of_nat (length l).
Proof.
  induction l as [|v l IH]; [by cbn|]. rewrite size_cons. cbn [length]. pose proof (proj2 (IntegerBytes_vb v)). lia.
Qed.

Definition small (v : Z) : Prop := 0 <= v < 2 ^ 28.

Lemma required_size l : Z.of_nat (length l) < 2 ^ 26 -> VbyteComp_GetRequiredBits l = 8 * size l.
Proof.
  unfold VbyteComp_GetRequiredBits. intros Hl.
  assert (forall acc, 0 <= acc -> acc + 32 * Z.of_nat (length l) < 2 ^ 32 ->
    fold_left (fun bytes v => u32 (bytes + 8 * IntegerBytes v)) l acc = acc + 8 * size l) as H; [|apply H; lia].
  clear Hl. induction l as [|v l IH]; intros acc Hacc Hl; cbn [fold_left]; [unfold size; cbn; lia|].
  cbn [length] in Hl. pose proof (proj2 (IntegerBytes_vb v)). rewrite u32_small, IH, size_cons by lia. lia.
Qed.

(** Storing values one behind the other. *)
Lemma store_vbs l f d p lo :
  bytes_ok d -> 0 <= p -> p + size l <= Z.of_nat (length d) -> Z.of_nat (length d) <= 256 -> Forall small l ->
  (forall j v st, l !! j = Some v -> f (lo + Z.of_nat j) st = put v (u32 (IntegerBytes v * 8)) st) ->
  exists d', for_loop (length l) lo f (d, 8 * p) = Some (d', 8 * (p + size l)) /\ bytes_ok d' /\ length d' = length d /\
    holds d' p (vbs l) /\ forall j, j < p \/ p + size l <= j -> zget d' j = zget d j.
Proof.
  intros Hd Hp Hfit Hmax Hl. revert d p lo Hd Hp Hfit Hmax. induction Hl as [|v l Hv Hl IH]; intros d p lo Hd Hp Hfit Hmax Hf.
  { exists d. split; [cbn; by rewrite Z.add_0_r|]. split; [done|]. split; [done|]. split; [intros i x Hx; by destruct i|done]. }
  rewrite size_cons in *. pose proof (proj2 (IntegerBytes_vb v)). pose proof (size_bounds l).
  destruct (put_vb d p v Hd Hp ltac:(lia) Hmax Hv) as (d1 & E1 & Hd1 & Hl1 & Hh1 & Hz1). cbn [length for_loop].
  pose proof (Hf 0%nat v (d, 8 * p) eq_refl) as Hfirst. rewrite Z.add_0_r in Hfirst. rewrite Hfirst, E1. cbn [mbind option_bind].
  destruct (IH d1 (p + IntegerBytes v) (lo + 1)) as (d2 & -> & Hd2 & Hl2 & Hh2 & Hz2); [done|lia|lia|lia| |].
  { intros j w st Hj. replace (lo + 1 + Z.of_nat j) with (lo + Z.of_nat (S j)) by lia. by apply Hf. }
  exists d2. split; [do 2 f_equal; lia|]. split; [done|]. split; [lia|]. split.
  - unfold vbs. cbn [map concat]. rewrite holds_app, <- (proj1 (IntegerBytes_vb v)). split; [|done].
    intros i x Hx. rewrite Hz2; [by apply Hh1|]. left. pose proof (lookup_lt_Some _ _ _ Hx). rewrite (proj1 (IntegerBytes_vb v)). lia.
  - intros j Hj. rewrite Hz2, Hz1 by lia. done.
Qed.

(** What is stored of the ascending elements behind [pre]. *)
Definition codes (delta : bool) (pre : Z) (S : list Z) : list Z := if delta then deltas_from pre S else S.

Lemma deltas_small pre S : StronglySorted Z.lt (pre :: S) -> 0 <= pre -> Forall small S -> Forall small (deltas_from pre S).
Proof.
  revert pre. induction S as [|x S IH]; intros pre Hs Hp HS; [constructor|]. apply Forall_cons in HS as [Hx HS].
  apply StronglySorted_inv in Hs as [Hs Hpre]. apply Forall_cons in Hpre as [Hpx _]. unfold small in *. cbn [deltas_from].
  constructor; [rewrite u32_small by lia; lia|]. apply IH; [done|lia|done].
Qed.

Lemma codes_small delta pre S : StronglySorted Z.lt (pre :: S) -> 0 <= pre -> Forall small S -> Forall small (codes delta pre S).
Proof. intros Hs Hp HS. destruct delta; [by apply deltas_small|done]. Qed.

Lemma zero_decode d p : 0 <= p < Z.of_nat (length d) -> Z.of_nat (length d) < 2 ^ 31 -> zget d p = Some 0 -> decode d p = Some (0, p + 1).
Proof.
  intros Hp Hmax E. apply (decode_vb d p 0); [lia|cbn; lia|done|lia|].
  change (vb 0) with [0]. apply holds_cons. split; [done|]. intros i x Hx. by destruct i.
Qed.

(** The search among ascending elements, with zeros behind them. *)
Lemma Vbyte_loop_ok total delta fuel value d pre S p :
  StronglySorted Z.lt (pre :: S) -> Forall small S -> 0 <= pre < value -> pre < 2 ^ 28 ->
  total / 8 = Z.of_nat (length d) -> Z.of_nat (length d) < 2 ^ 31 -> 0 <= p -> p + size (codes delta pre S) <= Z.of_nat (length d) ->
  holds d p (vbs (codes delta pre S)) ->
  (forall j, p + size (codes delta pre S) <= j < Z.of_nat (length d) -> zget d j = Some 0) ->
  Z.of_nat (length d) - p <= Z.of_nat fuel ->
  Vbyte_loop total delta fuel value d pre p = Some (if bool_decide (value ∈ S) then Neighbor else NonNeighbor).
Proof.
  intros Hs HS Hpre Hpre' Ht Hmax. revert pre S p Hs HS Hpre Hpre'. induction fuel as [|fuel IH]; intros pre S p Hs HS Hpre Hpre' Hp Hfit Hh Hz Hfuel.
  - cbn [Vbyte_loop]. rewrite (proj2 (Z.ltb_ge p _)) by lia. destruct S as [|x S]; [by rewrite bool_decide_eq_false_2 by apply not_elem_of_nil|].
    exfalso. pose proof (size_bounds (codes delta pre (x :: S))). assert (1 <= Z.of_nat (length (codes delta pre (x :: S)))) by (destruct delta; cbn; lia). lia.
  - cbn [Vbyte_loop]. rewrite Ht. destruct S as [|x S].
    + rewrite bool_decide_eq_false_2 by apply not_elem_of_nil. destruct (Z.ltb_spec p (Z.of_nat (length d))) as [Hlt|]; [|done].
      assert (size (codes delta pre []) = 0) as E0 by (by destruct delta). rewrite E0 in *.
      rewrite (zero_decode d p) by (done || lia || (apply Hz; lia)). bind_step.
      assert (exists pre', (if delta then u32 (0 + pre) else 0) = pre' /\ 0 <= pre' < value /\ pre' < 2 ^ 28) as (pre' & -> & Hpre1 & Hpre2).
      { destruct delta; [rewrite u32_small by lia; by exists pre|exists 0; lia]. }
      rewrite (proj2 (Z.eqb_neq value pre')), (proj2 (Z.ltb_ge value pre')) by lia.
      rewrite (IH pre' [] (p + 1)); [by rewrite bool_decide_eq_false_2 by apply not_elem_of_nil|repeat constructor|done|done|done|lia| | | |lia].
      * assert (size (codes delta pre' []) = 0) as -> by (by destruct delta). lia.
      * replace (vbs (codes delta pre' [])) with (@nil Z) by (by destruct delta). intros i y Hy. by destruct i.
      * assert (size (codes delta pre' []) = 0) as -> by (by destruct delta). intros j Hj. apply Hz. lia.
    + pose proof Hs as [Hs' Hlt]%StronglySorted_inv. apply Forall_cons in Hlt as [Hpx _]. apply Forall_cons in HS as [Hx HS]. unfold small in Hx.
      assert (exists c, codes delta pre (x :: S) = c :: codes delta x S /\ small c /\ (if delta then u32 (c + pre) else c) = x) as (c & Ec & Hc & Hnext).
      { unfold small. destruct delta; cbn [codes deltas_from]; [|by exists x]. exists (u32 (x - pre)). split; [done|].
        rewrite (u32_small (x - pre)) by lia. rewrite u32_small by lia. lia. }
      rewrite Ec in *. rewrite size_cons in *. pose proof (proj2 (IntegerBytes_vb c)). pose proof (size_bounds (codes delta x S)).
      unfold vbs in Hh. cbn [map concat] in Hh. apply holds_app in Hh as [Hh1 Hh2]. rewrite <- (proj1 (IntegerBytes_vb c)) in Hh2.
      rewrite (proj2 (Z.ltb_lt p _)) by lia. rewrite (decode_vb d p c Hp ltac:(lia) Hmax Hc Hh1). bind_step. rewrite Hnext.
      destruct (Z.eqb_spec value x) as [->|Hne]; [by rewrite bool_decide_eq_true_2 by by left|].
      destruct (Z.ltb_spec value x) as [Hlt|Hge].
      * rewrite bool_decide_eq_false_2; [done|]. intros Hin. apply elem_of_cons in Hin as [?|Hin]; [done|].
        apply StronglySorted_inv in Hs' as [_ Hall]. pose proof (proj1 (Forall_forall _ _) Hall _ Hin). simpl in *. lia.
      * rewrite (IH x S (p + IntegerBytes c)); [|done|done|lia|lia|lia|lia|done|intros j Hj; apply Hz; lia|lia].
        assert (bool_decide (value ∈ S) = bool_decide (value ∈ x :: S)) as ->; [|done].
        apply bool_decide_ext. rewrite elem_of_cons. split; [by right|by intros [?|?]].
Qed.

(** ** Lists that fit *)

Definition Vbyte_Encode (delta : bool) (S encode : list Z) (shift : Z) : option (list Z) :=
  if delta then VbyteDeltaComp_Encode S encode shift else VbyteComp_Encode S encode shift.

Lemma GetDeltas_codes S : Forall small S -> GetDeltas S = codes true 0 S.
Proof. intros HS. destruct HS as [|x S Hx HS]; [done|]. unfold small in Hx. cbn [GetDeltas codes deltas_from]. by rewrite Z.sub_0_r, u32_small by lia. Qed.

Lemma zget_AllBits l i : zget (GetAllBits l) i = v ← zget l i; Some (u32 (IntegerBytes v * 8)).
Proof.
  unfold GetAllBits, zget. rewrite length_map. destruct ((0 <=? i) && (i <? Z.of_nat (length l))); [|done].
  rewrite list_lookup_fmap. by destruct (l !! Z.to_nat i).
Qed.

Lemma Vbyte_Encode_ok delta S d p :
  bytes_ok d -> Z.of_nat (length d) <= 256 -> 0 <= p -> StronglySorted Z.lt (0 :: S) -> Forall small S ->
  p + size (codes delta 0 S) <= Z.of_nat (length d) -> (forall j, p <= j < Z.of_nat (length d) -> zget d j = Some 0) ->
  exists d', Vbyte_Encode delta S d (8 * p) = Some d' /\ bytes_ok d' /\ length d' = length d /\ (forall j, j < p -> zget d' j = zget d j) /\
    forall value, 1 <= value ->
      Vbyte_Find (8 * Z.of_nat (length d)) delta value d' (8 * p) true = Some (if bool_decide (value ∈ S) then Neighbor else NonNeighbor).
Proof.
  intros Hd Hmax Hp Hs HS Hfit Hz. pose proof (codes_small delta 0 S Hs ltac:(lia) HS) as Hcs.
  assert (Vbyte_Encode delta S d (8 * p) = VbyteComp_Encode (codes delta 0 S) d (8 * p)) as ->.
  { destruct delta; [|done]. cbn [Vbyte_Encode]. unfold VbyteDeltaComp_Encode. by rewrite GetDeltas_codes. }
  unfold VbyteComp_Encode.
  destruct (store_vbs (codes delta 0 S) (fun i st => bits ← zget (GetAllBits (codes delta 0 S)) i; v ← zget (codes delta 0 S) i; put v bits st)
    d p 0 Hd Hp Hfit Hmax Hcs) as (d' & -> & Hd' & Hl' & Hh & Hrest).
  { intros j v st Hj. rewrite zget_AllBits, zget_lookup by lia. replace (Z.to_nat (0 + Z.of_nat j)) with j by lia. rewrite Hj. by repeat bind_step. }
  bind_step. cbn [fst]. exists d'. split; [done|]. split; [done|]. split; [done|]. split; [intros j Hj; apply Hrest; lia|].
  intros value Hv. unfold Vbyte_Find. replace (8 * p / 8) with p by (rewrite Z.mul_comm, Z.div_mul; lia). rewrite <- Hl'.
  apply (Vbyte_loop_ok _ delta); try done; try lia.
  - replace (8 * Z.of_nat (length d')) with (Z.of_nat (length d') * 8) by lia. by rewrite Z.div_mul by lia.
  - pose proof (size_bounds (codes delta 0 S)). intros j Hj. rewrite Hrest by lia. apply Hz. lia.
Qed.

(** ** Runs of a list *)

(** The elements strictly between [i] and [j]. *)
Definition between (l : list Z) (i j : Z) : list Z := take (Z.to_nat (j - i - 1)) (drop (Z.to_nat (i + 1)) l).

(** The bytes of the run from [i] to [j]. *)
Definition run_size (l : list Z) (i j : Z) : Z :=
  IntegerBytes (nth (Z.to_nat i) l 0) + IntegerBytes (nth (Z.to_nat j) l 0) + size (deltas_from (nth (Z.to_nat i) l 0) (between l i j)).

Lemma list_last_cons (z : Z) l x : List.last (z :: l) x = List.last l z.
Proof. revert z x. induction l as [|y l IH]; intros z x; [done|]. change (List.last (z :: y :: l) x) with (List.last (y :: l) x). by rewrite !IH. Qed.

Lemma deltas_from_snoc x l y : deltas_from x (l ++ [y]) = deltas_from x l ++ [u32 (y - List.last l x)].
Proof.
  revert x. induction l as [|z l IH]; intros x; [done|]. cbn [app deltas_from]. rewrite IH. cbn [app].
  by assert (List.last (z :: l) x = List.last l z) as -> by (by rewrite list_last_cons).
Qed.

Lemma deltas_from_lookup x l k :
  deltas_from x l !! k = y ← l !! k; z ← (x :: l) !! k; Some (u32 (y - z)).
Proof.
  revert x k. induction l as [|y l IH]; intros x k; [by destruct k|]. destruct k as [|k]; [done|].
  change (deltas_from x (y :: l) !! S k) with (deltas_from y l !! k). by rewrite IH.
Qed.

Lemma between_snoc l i j :
  0 <= i < j -> j < Z.of_nat (length l) ->
  between l i (j + 1) = between l i j ++ [nth (Z.to_nat j) l 0].
Proof.
  intros Hij Hj. unfold between. replace (Z.to_nat (j + 1 - i - 1)) with (Datatypes.S (Z.to_nat (j - i - 1))) by lia.
  erewrite take_S_r; [done|]. rewrite lookup_drop. replace (Z.to_nat (i + 1) + Z.to_nat (j - i - 1))%nat with (Z.to_nat j) by lia.
  destruct (lookup_lt_is_Some_2 l (Z.to_nat j)) as [x Hx]; [lia|]. by rewrite Hx, (nth_lookup_Some _ _ _ _ Hx).
Qed.

Lemma between_last l i j d :
  0 <= i < j -> j <= Z.of_nat (length l) -> List.last (between l i j) (nth (Z.to_nat i) l d) = nth (Z.to_nat (j - 1)) l d.
Proof.
  intros Hij Hj. destruct (decide (j = i + 1)) as [->|Hne].
  - unfold between. replace (Z.to_nat (i + 1 - i - 1)) with 0%nat by lia. by replace (i + 1 - 1) with i by lia.
  - replace j with (j - 1 + 1) at 1 by lia. rewrite between_snoc by lia. rewrite List.last_last. apply nth_indep. lia.
Qed.

Lemma run_size_next l i j :
  0 <= i -> i + 2 <= j -> j < Z.of_nat (length l) ->
  run_size l i j = run_size l i (j - 1) + IntegerBytes (nth (Z.to_nat j) l 0) - IntegerBytes (nth (Z.to_nat (j - 1)) l 0) +
    IntegerBytes (u32 (nth (Z.to_nat (j - 1)) l 0 - nth (Z.to_nat (j - 2)) l 0)).
Proof.
  intros Hi Hij Hj. unfold run_size. replace j with (j - 1 + 1) at 2 by lia. rewrite between_snoc by lia.
  rewrite deltas_from_snoc, size_app, between_last by lia. replace (j - 1 - 1) with (j - 2) by lia.
  rewrite size_cons. change (size []) with 0. lia.
Qed.

Lemma holds_frame d d' p q L :
  holds d p L -> (forall k, k < q -> zget d' k = zget d k) -> p + Z.of_nat (length L) <= q -> holds d' p L.
Proof. intros H Hf Hq k x Hk. pose proof (lookup_lt_Some _ _ _ Hk). rewrite Hf by lia. by apply H. Qed.

Lemma length_deltas x L : length (deltas_from x L) = length L.
Proof. revert x. induction L as [|y L IH]; intros x; [done|]. cbn [deltas_from length]. by rewrite IH. Qed.

(** ** The best run *)

Section run.
Context (T : Z) (HT : 64 <= T <= 2 ^ 11) (l : list Z) (Hl : Forall small l) (Hsorted : StronglySorted Z.lt l).
Context (Hsize : 5 <= Z.of_nat (length l) < 2 ^ 26).
Notation n := (Z.of_nat (length l)).
Notation elem i := (nth (Z.to_nat i) l 0).

Lemma run_elem i : 0 <= i < n -> zget l i = Some (elem i).
Proof.
  intros Hi. rewrite zget_lookup by lia. destruct (lookup_lt_is_Some_2 l (Z.to_nat i)) as [x Hx]; [lia|].
  by rewrite Hx, (nth_lookup_Some _ _ _ _ Hx).
Qed.

Lemma elem_small i : 0 <= i < n -> small (elem i).
Proof. intros Hi. pose proof (run_elem i Hi) as E. rewrite zget_lookup in E by lia. exact (proj1 (Forall_lookup _ _) Hl _ _ E). Qed.

Lemma elem_lt i j : 0 <= i < j -> j < n -> elem i < elem j.
Proof.
  intros Hij Hj. pose proof (run_elem i ltac:(lia)) as Hi. pose proof (run_elem j ltac:(lia)) as Hj'. rewrite zget_lookup in Hi, Hj' by lia.
  apply (sorted_lookup l (Z.to_nat i) (Z.to_nat j)); [done|done|done|lia].
Qed.

Lemma all_bits_elem i : 0 <= i < n -> zget (GetAllBits l) i = Some (u32 (IntegerBytes (elem i) * 8)).
Proof. intros Hi. by rewrite zget_AllBits, run_elem. Qed.

Lemma delta_bits_eq : exists db, GetDeltaBits l = Some db /\
  forall i, 0 <= i -> i + 1 < n -> zget db i = Some (u32 (IntegerBytes (u32 (elem (i + 1) - elem i)) * 8)).
Proof.
  assert (exists x y l', l = x :: y :: l') as (x & y & l' & El).
  { generalize Hsize. clear. intros H. destruct l as [|x [|y l']]; [cbn in H; lia..|]. eauto. }
  assert (GetDeltaBits l = GetDeltaBits (x :: y :: l')) as -> by (by f_equal). cbn [GetDeltaBits]. eexists. split; [done|]. intros i Hi Hi'.
  rewrite zget_lookup, list_lookup_fmap, deltas_from_lookup by lia.
  pose proof (run_elem i ltac:(lia)) as E1. pose proof (run_elem (i + 1) ltac:(lia)) as E2. rewrite zget_lookup in E1, E2 by lia.
  assert (tail (x :: y :: l') !! Z.to_nat i = Some (elem (i + 1))) as ->.
  { rewrite <- E2, El. replace (Z.to_nat (i + 1)) with (S (Z.to_nat i)) by lia. done. }
  cbn [mbind option_bind]. assert ((x :: tail (x :: y :: l')) !! Z.to_nat i = Some (elem i)) as -> by (rewrite <- E1, El; done). done.
Qed.

(** Runs that fit behind [shift]. *)
Definition run_ok (shift : Z) (b : Best) : Prop :=
  2 <= best_block b /\ 0 <= idx b /\ idx b + best_block b <= n /\ 8 * run_size l (idx b) (idx b + best_block b - 1) + shift <= T.

Lemma better_ok (P : Best -> Prop) b score i block : P b -> P {| best_score := score; idx := i; best_block := block |} -> P (better b score i block).
Proof. intros H1 H2. unfold better. by destruct (_ <? _). Qed.

Lemma run_size_bounds i j : 0 <= i < j -> j < n -> j - i + 1 <= run_size l i j <= 4 * (j - i + 1).
Proof.
  intros Hij Hj. unfold run_size. pose proof (proj2 (IntegerBytes_vb (elem i))). pose proof (proj2 (IntegerBytes_vb (elem j))).
  pose proof (size_bounds (deltas_from (elem i) (between l i j))) as Hs.
  assert (length (deltas_from (elem i) (between l i j)) = Z.to_nat (j - i - 1)) as Hlen.
  { rewrite length_deltas. unfold between. rewrite length_take, length_drop. lia. }
  lia.
Qed.

Context (shift : Z) (Hshift : 0 <= shift) (Hroom : shift + 40 <= T).

Lemma delta_runs_ok db k i j b :
  (forall i, 0 <= i -> i + 1 < n -> zget db i = Some (u32 (IntegerBytes (u32 (elem (i + 1) - elem i)) * 8))) ->
  0 <= i -> i + 2 <= j -> j + Z.of_nat k <= n - 1 -> run_ok shift b -> 8 * run_size l i (j - 1) + shift <= T ->
  exists b', delta_runs T k l (GetAllBits l) db shift i j (8 * run_size l i (j - 1)) b = Some b' /\ run_ok shift b'.
Proof.
  intros Hdb Hi. revert j b. induction k as [|k IH]; intros j b Hij Hj Hb Hfit; [by exists b|]. cbn [delta_runs].
  rewrite (run_elem j), (run_elem i), (all_bits_elem j), (all_bits_elem (j - 1)), (Hdb (j - 2)) by lia. repeat bind_step.
  replace (j - 2 + 1) with (j - 1) by lia. pose proof (run_size_next l i j Hi ltac:(lia) ltac:(lia)) as Hnext.
  pose proof (run_size_bounds i (j - 1) ltac:(lia) ltac:(lia)). pose proof (run_size_bounds i j ltac:(lia) ltac:(lia)).
  pose proof (proj2 (IntegerBytes_vb (elem j))). pose proof (proj2 (IntegerBytes_vb (elem (j - 1)))).
  pose proof (proj2 (IntegerBytes_vb (u32 (elem (j - 1) - elem (j - 2))))).
  set (c := IntegerBytes (u32 (elem (j - 1) - elem (j - 2)))) in *.
  rewrite (u32_small (IntegerBytes (elem j) * 8)), (u32_small (IntegerBytes (elem (j - 1)) * 8)), (u32_small (c * 8)) by lia.
  assert (u32 (8 * run_size l i (j - 1) + u32 (IntegerBytes (elem j) * 8 - IntegerBytes (elem (j - 1)) * 8 + c * 8)) = 8 * run_size l i j) as ->.
  { unfold u32. rewrite Zplus_mod_idemp_r. rewrite Z.mod_small by lia. lia. }
  rewrite u32_small by lia. destruct (Z.ltb_spec T (8 * run_size l i j + shift)); [by exists b|].
  pose proof (IH (j + 1)) as IH'. replace (j + 1 - 1) with j in IH' by lia. apply IH'; [lia|lia| |lia].
  apply better_ok; [done|]. unfold run_ok. cbn [idx best_block]. replace (i + (j - i + 1) - 1) with j by lia. lia.
Qed.

Lemma run_size_pair i : 0 <= i -> i + 1 < n -> run_size l i (i + 1) = IntegerBytes (elem i) + IntegerBytes (elem (i + 1)).
Proof.
  intros Hi Hi'. unfold run_size, between. replace (Z.to_nat (i + 1 - i - 1)) with 0%nat by lia. rewrite take_0. cbn [deltas_from].
  change (size []) with 0. lia.
Qed.

Lemma delta_start_ok db i b :
  (forall i, 0 <= i -> i + 1 < n -> zget db i = Some (u32 (IntegerBytes (u32 (elem (i + 1) - elem i)) * 8))) ->
  0 <= i < n - 3 -> elem 0 = 0 -> (i = 0 -> best_score b = 0 /\ best_block b = 0) -> (0 < i -> run_ok shift b) ->
  exists b', delta_start T l (GetAllBits l) db shift i b = Some b' /\ run_ok shift b'.
Proof.
  intros Hdb Hi H0 Hfirst Hb. unfold delta_start. rewrite (all_bits_elem i), (all_bits_elem (i + 1)) by lia. repeat bind_step.
  pose proof (proj2 (IntegerBytes_vb (elem i))). pose proof (proj2 (IntegerBytes_vb (elem (i + 1)))). pose proof (run_size_pair i ltac:(lia) ltac:(lia)) as Hp.
  rewrite (u32_small (IntegerBytes (elem i) * 8)), (u32_small (IntegerBytes (elem (i + 1)) * 8)) by lia.
  rewrite (u32_small (_ * 8 + _)), (u32_small (_ + shift)) by lia.
  replace (IntegerBytes (elem i) * 8 + IntegerBytes (elem (i + 1)) * 8) with (8 * run_size l i (i + 1)) by lia.
  destruct (Z.ltb_spec T (8 * run_size l i (i + 1) + shift)) as [Hbig|Hfit].
  - exists b. split; [done|]. apply Hb. destruct (decide (i = 0)) as [->|]; [|lia]. rewrite H0 in *. change (IntegerBytes 0) with 1 in *. lia.
  - rewrite (run_elem (i + 1)), (run_elem i) by lia. repeat bind_step. rewrite (u32_small n), (u32_small (n - 1)) by lia.
    pose proof (delta_runs_ok db (Z.to_nat (n - 1 - (i + 2))) i (i + 2)
      (better b (u32 (elem (i + 1) - elem i)) i 2) Hdb ltac:(lia) ltac:(lia) ltac:(lia)) as Hruns.
    replace (i + 2 - 1) with (i + 1) in Hruns by lia. apply Hruns; [|done].
    assert (run_ok shift {| best_score := u32 (elem (i + 1) - elem i); idx := i; best_block := 2 |}) as Hnew.
    { unfold run_ok. cbn [idx best_block]. replace (i + 2 - 1) with (i + 1) by lia. lia. }
    destruct (decide (i = 0)) as [->|]; [|apply better_ok; [apply Hb; lia|done]].
    unfold better. destruct (Hfirst eq_refl) as [-> _]. change (0 + 1) with 1 in *. pose proof (elem_lt 0 1 ltac:(lia) ltac:(lia)).
    pose proof (elem_small 0 ltac:(lia)). pose proof (elem_small 1 ltac:(lia)). unfold small in *.
    rewrite u32_small in * by lia. by rewrite (proj2 (Z.ltb_lt _ _)) by lia.
Qed.

Lemma best_ok db :
  (forall i, 0 <= i -> i + 1 < n -> zget db i = Some (u32 (IntegerBytes (u32 (elem (i + 1) - elem i)) * 8))) -> elem 0 = 0 ->
  exists b, for_loop (Z.to_nat (u32 (u32 n - 3))) 0 (delta_start T l (GetAllBits l) db shift)
    {| best_score := 0; idx := 2 ^ 32 - 1; best_block := 0 |} = Some b /\ run_ok shift b.
Proof.
  intros Hdb H0. rewrite (u32_small n), (u32_small (n - 3)) by lia.
  destruct (for_loop_inv (fun i b => (i = 0 -> best_score b = 0 /\ best_block b = 0) /\ (0 < i -> run_ok shift b))
    (delta_start T l (GetAllBits l) db shift) (Z.to_nat (n - 3)) 0 {| best_score := 0; idx := 2 ^ 32 - 1; best_block := 0 |}) as (b & E & _ & Hb).
  - split; [done|lia].
  - intros i b Hi [H1 H2]. destruct (delta_start_ok db i b Hdb ltac:(lia) H0 H1 H2) as (b' & E & Hb'). exists b'. split; [done|]. split; [lia|done].
  - exists b. split; [done|]. apply Hb. lia.
Qed.

(** ** The code of a run *)

Definition delta_code (d : list Z) (p i j : Z) : Prop :=
  holds d p (vb (elem i) ++ vb (elem j) ++ vbs (deltas_from (elem i) (between l i j))) /\
  p + run_size l i j <= Z.of_nat (length d) /\
  forall k, p + run_size l i j <= k < Z.of_nat (length d) -> zget d k = Some 0.

Lemma run_list i j : 0 <= i < j -> j < n -> elem i :: between l i j = take (Z.to_nat (j - i)) (drop (Z.to_nat i) l).
Proof.
  intros Hij Hj. pose proof (run_elem i ltac:(lia)) as E. rewrite zget_lookup in E by lia. rewrite (drop_S _ _ _ E).
  replace (Z.to_nat (j - i)) with (S (Z.to_nat (j - i - 1))) by lia. unfold between. by replace (Z.to_nat (i + 1)) with (S (Z.to_nat i)) by lia.
Qed.

Lemma run_sorted i j : 0 <= i < j -> j < n -> StronglySorted Z.lt (elem i :: between l i j).
Proof.
  intros Hij Hj. rewrite run_list by done. apply (StronglySorted_app_1_l _ _ (drop (Z.to_nat (j - i)) (drop (Z.to_nat i) l))).
  rewrite take_drop. apply (StronglySorted_app_1_r _ (take (Z.to_nat i) l)). by rewrite take_drop.
Qed.

Lemma run_small i j : Forall small (between l i j).
Proof. by apply Forall_take, Forall_drop. Qed.

Lemma between_lookup i j k : 0 <= i < j -> j < n -> 0 <= k < j - i - 1 -> between l i j !! Z.to_nat k = Some (elem (i + 1 + k)).
Proof.
  intros Hij Hj Hk. unfold between. rewrite lookup_take_lt, lookup_drop by lia. pose proof (run_elem (i + 1 + k) ltac:(lia)) as E.
  rewrite zget_lookup in E by lia. rewrite <- E. f_equal. lia.
Qed.

Lemma length_between i j : 0 <= i < j -> j < n -> length (between l i j) = Z.to_nat (j - i - 1).
Proof. intros Hij Hj. unfold between. rewrite length_take, length_drop. lia. Qed.

Lemma run_between i j v : 0 <= i < j -> j < n -> elem i < v < elem j -> v ∈ l <-> v ∈ between l i j.
Proof.
  intros Hij Hj Hv. split.
  - intros Hin. apply list_elem_of_lookup_1 in Hin as [m Hm]. pose proof (lookup_lt_Some _ _ _ Hm).
    assert (v = elem (Z.of_nat m)) as Em. { rewrite Nat2Z.id. symmetry. by apply nth_lookup_Some. }
    assert (i < Z.of_nat m) by (destruct (Z.lt_total i (Z.of_nat m)) as [?|[?|?]]; [done|subst; lia|pose proof (elem_lt (Z.of_nat m) i ltac:(lia) ltac:(lia)); lia]).
    assert (Z.of_nat m < j) by (destruct (Z.lt_total j (Z.of_nat m)) as [?|[?|?]]; [pose proof (elem_lt j (Z.of_nat m) ltac:(lia) ltac:(lia)); lia|subst; lia|done]).
    apply list_elem_of_lookup. exists (Z.to_nat (Z.of_nat m - i - 1)). rewrite between_lookup by lia. rewrite Em. f_equal. f_equal. f_equal. lia.
  - intros Hin. rewrite <- (take_drop (Z.to_nat (i + 1)) l), elem_of_app. right.
    rewrite <- (take_drop (Z.to_nat (j - i - 1)) (drop _ l)), elem_of_app. by left.
Qed.

(** The search in the code of a run. *)
Lemma Find_run d p i j value :
  T = 8 * Z.of_nat (length d) -> 0 <= p -> 0 <= i < j -> j < n -> delta_code d p i j ->
  exists t, Vbyte_Find T true value d (8 * p) false = Some t /\ answers t (value ∈ l).
Proof.
  intros ET Hp Hij Hj (Hh & Hfit & Hz). unfold run_size in *. pose proof (elem_small i ltac:(lia)) as Hei. pose proof (elem_small j ltac:(lia)) as Hej.
  pose proof (proj2 (IntegerBytes_vb (elem i))). pose proof (proj2 (IntegerBytes_vb (elem j))).
  set (ds := deltas_from (elem i) (between l i j)) in *. pose proof (size_bounds ds).
  apply holds_app in Hh as [Hh1 Hh2]. apply holds_app in Hh2 as [Hh2 Hh3]. rewrite <- (proj1 (IntegerBytes_vb (elem i))) in *.
  rewrite <- (proj1 (IntegerBytes_vb (elem j))) in *.
  unfold Vbyte_Find. replace (8 * p / 8) with p by (rewrite Z.mul_comm, Z.div_mul; lia).
  rewrite (decode_vb d p (elem i)) by (done || lia). bind_step. rewrite (decode_vb d _ (elem j)) by (done || lia). bind_step.
  assert (elem i ∈ l /\ elem j ∈ l) as [Hi Hj'].
  { pose proof (run_elem i ltac:(lia)) as E1. pose proof (run_elem j ltac:(lia)) as E2. rewrite zget_lookup in E1, E2 by lia.
    split; by eapply list_elem_of_lookup_2. }
  destruct (Z.eqb_spec value (elem i)) as [->|]; [by exists Neighbor|]. destruct (Z.eqb_spec value (elem j)) as [->|]; [by exists Neighbor|]. cbn [orb].
  destruct (Z.ltb_spec value (elem i)); [by exists Uncertain|]. destruct (Z.ltb_spec (elem j) value); [by exists Uncertain|]. cbn [orb].
  unfold small in *. rewrite (Vbyte_loop_ok T true _ value d (elem i) (between l i j)); [|by apply run_sorted|apply run_small|lia|lia| |lia|lia| |exact Hh3| |lia].
  - eexists. split; [done|]. pose proof (run_between i j value Hij Hj ltac:(lia)). case_bool_decide; cbn; tauto.
  - rewrite ET, Z.mul_comm. by rewrite Z.div_mul by lia.
  - cbn [codes]. fold ds. lia.
  - intros k Hk. apply Hz. cbn [codes] in Hk. fold ds in Hk. lia.
Qed.

(** The difference [k] of a run, as the last loop reads it. *)
Lemma delta_stored db i j k v st :
  (forall i, 0 <= i -> i + 1 < n -> zget db i = Some (u32 (IntegerBytes (u32 (elem (i + 1) - elem i)) * 8))) ->
  0 <= i < j -> j < n -> deltas_from (elem i) (between l i j) !! k = Some v ->
  let m := 1 + Z.of_nat k in
  (bits ← zget db (u32 (i + m - 1)); y ← zget l (u32 (m + i)); z ← zget l (u32 (m + i - 1)); put (u32 (y - z)) bits st) =
    put v (u32 (IntegerBytes v * 8)) st.
Proof.
  intros Hdb Hij Hj Hk m. rewrite deltas_from_lookup in Hk. destruct (between l i j !! k) as [y|] eqn:Ey; [|done].
  pose proof (lookup_lt_Some _ _ _ Ey) as Hlen. rewrite length_between in Hlen by lia.
  cbn [mbind option_bind] in Hk. destruct ((elem i :: between l i j) !! k) as [z|] eqn:Ezk; [|done]. injection Hk as <-.
  replace k with (Z.to_nat (Z.of_nat k)) in Ey by lia. rewrite between_lookup in Ey by lia. injection Ey as <-.
  assert (z = elem (i + Z.of_nat k)) as ->.
  { destruct k as [|k]; [injection Ezk as <-; by rewrite Z.add_0_r|]. cbn in Ezk. replace k with (Z.to_nat (Z.of_nat k)) in Ezk by lia.
    rewrite between_lookup in Ezk by lia. injection Ezk as <-. f_equal. lia. }
  unfold m. rewrite !u32_small by lia. replace (i + (1 + Z.of_nat k) - 1) with (i + Z.of_nat k) by lia. rewrite Hdb by lia.
  replace (1 + Z.of_nat k + i) with (i + 1 + Z.of_nat k) by lia. replace (i + 1 + Z.of_nat k - 1) with (i + Z.of_nat k) by lia.
  rewrite !run_elem by lia. repeat bind_step. by replace (i + Z.of_nat k + 1) with (i + 1 + Z.of_nat k) by lia.
Qed.

(** A list that starts with 0 is encoded by one of its runs. *)
Lemma DynamicEncode_ok d p :
  bytes_ok d -> T = 8 * Z.of_nat (length d) -> shift = 8 * p -> elem 0 = 0 -> (forall j, p <= j < Z.of_nat (length d) -> zget d j = Some 0) ->
  exists d' i j, VbyteDeltaComp_DynamicEncode T l d (8 * p) = Some d' /\ bytes_ok d' /\ length d' = length d /\
    (forall k, k < p -> zget d' k = zget d k) /\ 0 <= i < j /\ j < n /\ delta_code d' p i j.
Proof.
  intros Hd ET Hp H0 Hz. unfold VbyteDeltaComp_DynamicEncode. destruct delta_bits_eq as (db & -> & Hdb). bind_step.
  destruct (best_ok db Hdb H0) as (b & Eb & Hb2 & Hb0 & Hbn & Hbfit). rewrite Hp in Eb. rewrite Eb. bind_step.
  rewrite (proj2 (Z.leb_le 2 (best_block b))) by done. cbn [guardb mbind option_bind].
  set (i := idx b) in *. rewrite !u32_small by lia. set (j := i + best_block b - 1) in *. rewrite Hp in Hbfit.
  pose proof (elem_small i ltac:(lia)) as Hei. pose proof (elem_small j ltac:(lia)) as Hej. pose proof (run_size_bounds i j ltac:(lia) ltac:(lia)) as Hrun.
  pose proof (proj2 (IntegerBytes_vb (elem i))) as Hbi. pose proof (proj2 (IntegerBytes_vb (elem j))) as Hbj.
  set (ds := deltas_from (elem i) (between l i j)). pose proof (size_bounds ds) as Hds.
  assert (run_size l i j = IntegerBytes (elem i) + IntegerBytes (elem j) + size ds) as Esize by done.
  rewrite (all_bits_elem i), (run_elem i), (all_bits_elem j), (run_elem j) by lia. repeat bind_step.
  destruct (put_vb d p (elem i)) as (d1 & E1 & Hd1 & Hl1 & Hh1 & Hz1); try done; try lia. rewrite E1. cbn [mbind option_bind].
  destruct (put_vb d1 (p + IntegerBytes (elem i)) (elem j)) as (d2 & E2 & Hd2 & Hl2 & Hh2 & Hz2); try done; try lia. rewrite E2. cbn [mbind option_bind].
  match goal with |- context [for_loop _ 1 ?f _] => set (store := f) end.
  destruct (store_vbs ds store d2 (p + IntegerBytes (elem i) + IntegerBytes (elem j)) 1) as (d3 & E3 & Hd3 & Hl3 & Hh3 & Hz3);
    [done|lia|lia|lia|apply deltas_small; [by apply run_sorted; lia|unfold small in Hei; lia|apply run_small]| |].
  { intros k v st Hk. apply (delta_stored db i j k v st Hdb); [lia|lia|done]. }
  assert (length ds = Z.to_nat (best_block b - 2)) as Elen.
  { unfold ds. rewrite length_deltas, length_between by lia. lia. }
  rewrite Elen in E3. rewrite E3. bind_step. exists d3, i, j. split; [done|]. split; [done|]. split; [lia|].
  split; [intros k Hk; rewrite Hz3, Hz2, Hz1 by lia; done|]. split; [lia|]. split; [lia|]. split; [|split].
  - apply holds_app. rewrite <- (proj1 (IntegerBytes_vb (elem i))). split; [|apply holds_app; rewrite <- (proj1 (IntegerBytes_vb (elem j))); split; [|done]].
    + apply (holds_frame d1 _ _ (p + IntegerBytes (elem i))); [done| |rewrite <- (proj1 (IntegerBytes_vb (elem i))); lia].
      intros k Hk. rewrite Hz3, Hz2 by lia. done.
    + apply (holds_frame d2 _ _ (p + IntegerBytes (elem i) + IntegerBytes (elem j))); [done| |rewrite <- (proj1 (IntegerBytes_vb (elem j))); lia].
      intros k Hk. rewrite Hz3 by lia. done.
  - lia.
  - intros k Hk. rewrite Hz3, Hz2, Hz1 by lia. apply Hz. lia.
Qed.
End run.

(** * Properties *)

Definition Vbyte_codec (total_bits_ : Z) (delta : bool) : Compression :=
  if delta then VbyteDeltaComp total_bits_ else VbyteComp total_bits_.

Lemma sorted_below x S : StronglySorted Z.lt S -> Forall (fun y => x < y) S -> StronglySorted Z.lt (x :: S).
Proof. intros Hs Hx. by constructor. Qed.

Lemma ids_small S : Forall (fun x => 1 <= x < 2 ^ 28) S -> Forall small S.
Proof. intros H. eapply Forall_impl; [exact H|]. unfold small. simpl. lia. Qed.

(** The size that is measured is that of the code. *)
Lemma GetRequiredBits_size T delta S :
  Forall small S -> Z.of_nat (length S) < 2 ^ 26 ->
  comp_GetRequiredBits (Compression := Vbyte_codec T delta) S = 8 * size (codes delta 0 S).
Proof.
  intros HS Hlen. destruct delta; cbn [Vbyte_codec comp_GetRequiredBits VbyteDeltaComp VbyteComp]; [|by apply required_size].
  unfold VbyteDeltaComp_GetRequiredBits. rewrite GetDeltas_codes by done. apply required_size. cbn [codes]. by rewrite length_deltas.
Qed.

(** C25: a sorted list whose measured size fits behind the position [p] of a
    cleared vector is encoded by the byte codecs inside the vector, nothing in
    front of it changes, and the search finds its elements and no others. *)
Theorem Vbyte_Encode_found (delta : bool) (N d : list Z) (p : Z)
    (Hd : bytes_ok d) (Hlen : Z.of_nat (length d) <= 256) (Hp : 0 <= p)
    (Hsorted : StronglySorted Z.lt N) (Hids : Forall (fun x => 1 <= x < 2 ^ 28) N)
    (Hfit : comp_GetRequiredBits (Compression := Vbyte_codec (8 * Z.of_nat (length d)) delta) N <= 8 * (Z.of_nat (length d) - p))
    (Hcount : Z.of_nat (length N) < 2 ^ 26) (Hzero : forall j, p <= j < Z.of_nat (length d) -> zget d j = Some 0) :
  let codec := Vbyte_codec (8 * Z.of_nat (length d)) delta in
  exists d', comp_Encode (Compression := codec) N d (8 * p) = Some d' /\ length d' = length d /\
    (forall j, j < p -> zget d' j = zget d j) /\
    forall value, 1 <= value -> comp_Find (Compression := codec) value d' (8 * p) true =
      Some (if bool_decide (value ∈ N) then Neighbor else NonNeighbor).
Proof.
  cbv zeta. pose proof (ids_small N Hids) as HS. rewrite GetRequiredBits_size in Hfit by done.
  destruct (Vbyte_Encode_ok delta N d p Hd Hlen Hp) as (d' & E & _ & Hl & Hfront & Hfind); [|done|lia|done|].
  - apply sorted_below; [done|]. eapply Forall_impl; [exact Hids|]. simpl. lia.
  - exists d'. split; [by destruct delta|]. split; [done|]. split; [done|]. intros value Hv. rewrite <- Hfind by done. by destruct delta.
Qed.

(** A loop one turn of which fails. *)
Lemma for_loop_None {A} (f : Z -> A -> option A) k m lo s : lo <= k < lo + Z.of_nat m -> (forall s, f k s = None) -> for_loop m lo f s = None.
Proof.
  revert lo s. induction m as [|m IH]; intros lo s Hk Hf; [lia|]. cbn [for_loop]. destruct (decide (lo = k)) as [->|]; [by rewrite Hf|].
  destruct (f lo s) as [s'|]; [|done]. apply IH; [lia|done].
Qed.

(** [VbyteComp::DynamicEncode] always reads past the end of a list whose
    last two elements fit: the run that it counts from the last but one element
    is the rest of the list, and the element behind the run is read. *)
Theorem VbyteComp_DynamicEncode_past_end (T : Z) (l : list Z) (x y : Z) (d : list Z) (shift : Z)
    (Hshift : 0 <= shift) (HT : T < 2 ^ 31) (Hlen : Z.of_nat (length l) < 2 ^ 26)
    (Hfit : 8 * (IntegerBytes x + IntegerBytes y) + shift <= T) :
  comp_DynamicEncode (Compression := VbyteComp T) (l ++ [x; y]) d shift = None.
Proof.
  cbn [comp_DynamicEncode VbyteComp]. unfold VbyteComp_DynamicEncode. pose proof (length_app l [x; y]) as El. cbn [length] in El.
  rewrite (u32_small (Z.of_nat _)), (u32_small (_ - 1)) by lia.
  rewrite (for_loop_None _ (Z.of_nat (length l))); [done|lia|]. intros [[? ?] ?].
  replace (Z.to_nat (Z.of_nat (length (l ++ [x; y])) - Z.of_nat (length l))) with 2%nat by lia. cbn [Vbyte_block].
  pose proof (proj2 (IntegerBytes_vb x)). pose proof (proj2 (IntegerBytes_vb y)).
  rewrite !zget_AllBits, !zget_lookup by lia.
  replace (Z.to_nat (Z.of_nat (length l) + 0)) with (length l + 0)%nat by lia. replace (Z.to_nat (Z.of_nat (length l) + (0 + 1))) with (length l + 1)%nat by lia.
  rewrite !lookup_app_r by lia. replace (length l + 0 - length l)%nat with 0%nat by lia. replace (length l + 1 - length l)%nat with 1%nat by lia.
  cbn [lookup list_lookup mbind option_bind]. rewrite (u32_small (IntegerBytes x * 8)), (u32_small (IntegerBytes y * 8)), !u32_small by lia.
  rewrite (proj2 (Z.ltb_ge T (0 + _ + shift))), (proj2 (Z.ltb_ge T (0 + _ + _ + shift))) by lia. cbn [mbind option_bind].
  assert (zget (l ++ [x; y]) (Z.of_nat (length l) + (0 + 1 + 1)) = None) as ->; [|done].
  rewrite zget_lookup by lia. apply lookup_ge_None. lia.
Qed.

(** * Witnesses *)

Definition small_list : list Z := [3; 130; 131; 20000; 2100000].

Lemma Vbyte_Encode_found_witness :
  let d := replicate 16 0 in
  exists d', comp_Encode (Compression := Vbyte_codec (8 * Z.of_nat (length d)) true) small_list d (8 * 4) = Some d' /\ length d' = length d /\
    (forall j, j < 4 -> zget d' j = zget d j) /\
    forall value, 1 <= value -> comp_Find (Compression := Vbyte_codec (8 * Z.of_nat (length d)) true) value d' (8 * 4) true =
      Some (if bool_decide (value ∈ small_list) then Neighbor else NonNeighbor).
Proof.
  cbv zeta. apply (Vbyte_Encode_found true small_list (replicate 16 0) 4).
  - apply (bool_decide_unpack _). vm_compute. exact I.
  - vm_compute. discriminate.
  - lia.
  - apply Sorted_StronglySorted; [intros ?; lia|]. apply (bool_decide_unpack _). vm_compute. exact I.
  - apply (bool_decide_unpack _). vm_compute. exact I.
  - vm_compute. discriminate.
  - vm_compute. reflexivity.
  - intros j Hj. rewrite zget_lookup by lia. apply lookup_replicate_2. cbn [length replicate] in Hj. lia.
Defined.

Lemma VbyteComp_DynamicEncode_past_end_witness :
  8 * (IntegerBytes 20000 + IntegerBytes 2100000) + 32 <= 96 /\
  comp_DynamicEncode (Compression := VbyteComp 96) ([0; 3; 130; 131] ++ [20000; 2100000]) (replicate 12 0) 32 = None.
Proof.
  split; [vm_compute; discriminate|].
  apply (VbyteComp_DynamicEncode_past_end 96 [0; 3; 130; 131] 20000 2100000 (replicate 12 0) 32).
  - lia.
  - lia.
  - vm_compute. reflexivity.
  - vm_compute. discriminate.
Defined.

(** * Behaviours worth knowing *)

(** [BitsComp] does not find the last of the fields that fill a vector: the
    loop stops before a field that ends where the vector ends. *)
Example BitsComp_last_field :
  (d ← comp_Encode (Compression := BitsComp 32 96 32 2) [3; 9] (replicate 12 0) 32;
   comp_Find (Compression := BitsComp 32 96 32 2) 9 d 32 true) = Some NonNeighbor.
Proof. vm_compute. reflexivity. Qed.

(** The fields of a run of [BitsComp] overwrite one another: the position does
    not move behind the first two. *)
Example BitsComp_run_overwritten :
  (d ← comp_DynamicEncode (Compression := BitsComp 32 128 32 3) [0; 4; 6; 9; 21] (replicate 16 0) 32;
   comp_Find (Compression := BitsComp 32 128 32 3) 6 d 32 false) = Some Uncertain.
Proof. vm_compute. reflexivity. Qed.

(** An id of 29 bits is truncated. *)
Example truncated_id :
  (d ← comp_Encode (Compression := VbyteComp 64) [2 ^ 28 + 5] (replicate 8 0) 32;
   comp_Find (Compression := VbyteComp 64) (2 ^ 28 + 5) d 32 true) = Some NonNeighbor.
Proof. vm_compute. reflexivity. Qed.
