(* ===== verification/RangeCom.v ===== *)
(** The compressed range encoding [RangeCompEncode]
    ([src/include/encode/single/range_com_encode.h]) and its builder
    [RangeCompVend] ([src/vend/range_com_vend.cpp],
    [src/include/vend/range_com_vend.h]).

    A vector starts with a word that says whether the list behind it is whole;
    the list, or a run of it, is written by one of the codecs of [Compression].
    The builder is the peeling of [KCore]. Nothing is redefined of the insertion
    and the deletion of [RangeEncode], which read the vector as 32-bit words. *)
From S2P Require Import Prelude Config BitSet Encode RangeEncode Compression KCore.
From stdpp Require Import options.
Local Open Scope Z_scope.
Set Default Proof Using "Type*".

Section RangeComp.
Context (C : Config).

Definition RangeComp_shift : Z := 32.
Definition RangeComp_max_bits : Z := u32 (PER_ENCODE_BIT_SIZE C - 32).

(** The constructor: no codec for another method. *)
Definition RangeComp_codec (method : Z) : option Compression :=
  let per := PER_ENCODE_BIT_SIZE C in
  if method =? 0 then Some (BitsComp (VERTEX_BIT_SIZE C) per (VERTEX_BIT_SIZE C) (u32 ((per - 32) / VERTEX_BIT_SIZE C)))
  else if method =? 1 then Some (VbyteComp per)
  else if method =? 2 then Some (VbyteDeltaComp per)
  else None.

Definition RangeComp_GetBytesSize : Z := RangeComp_max_bits.

Definition RangeComp_GetFlag (encode : list Z) : option bool :=
  flag ← BitSetSIMD_BlockGet encode 0 RangeComp_shift; Some (negb (flag =? 0)).
Definition RangeComp_SetFlag (encode : list Z) (flag : bool) : option (list Z) :=
  BitSetSIMD_BlockSet encode 0 RangeComp_shift (if flag then 1 else 0).

Section codec.
Context (codec : Compression).

Definition RangeComp_EncodeVertex_vec (encode neighbors : list Z) : option (list Z) :=
  let encode := BitSetSIMD_Clear encode in
  if comp_GetRequiredBits neighbors <=? RangeComp_max_bits then
    encode ← BitSetSIMD_BlockSet encode 0 RangeComp_shift 1;
    comp_Encode neighbors encode RangeComp_shift
  else
    encode ← BitSetSIMD_BlockSet encode 0 RangeComp_shift 0;
    comp_DynamicEncode (0 :: neighbors ++ [Encode_vertex_id_upper C]) encode RangeComp_shift.

Definition RangeComp_EncodeVertex (E : list (list Z)) (vertex_id : Z) (neighbors : list Z) : option (list (list Z)) :=
  encode ← zget E vertex_id;
  encode ← RangeComp_EncodeVertex_vec encode neighbors;
  zset E vertex_id encode.

Definition RangeComp_NonNeighborTest (E : list (list Z)) (vertex1 vertex2 : Z) : option PairType :=
  encode ← zget E vertex1;
  flag ← RangeComp_GetFlag encode;
  comp_Find vertex2 encode RangeComp_shift flag.

(** [RangeEncode::NEpairTest], with the test above. *)
Definition RangeComp_NEpairTest (E : list (list Z)) (vertex1 vertex2 : Z) : option PairType :=
  type1 ← RangeComp_NonNeighborTest E vertex1 vertex2;
  type2 ← RangeComp_NonNeighborTest E vertex2 vertex1;
  Some (if PairType_val type1 <? PairType_val type2 then type1 else type2).

(** [RangeEncode::InsertPair], [RemoveNeighbor] and [DeletePair], with
    [EncodeVertex] and [NonNeighborTest] above; [GetBlockInt], [GetAllNeighbors]
    and [GetEncodeType] are those of [RangeEncode]. *)
Section db.
Context (db : Z -> list Z).

Definition RangeComp_InsertPair (E : list (list Z)) (vertex1 vertex2 : Z) : option (list (list Z)) :=
  e1 ← zget E vertex1;
  e2 ← zget E vertex2;
  encode_type1 ← RangeEncode_GetEncodeType C e1;
  encode_type2 ← RangeEncode_GetEncodeType C e2;
  let '(vertex1, vertex2) :=
    if EncodeType_val encode_type2 <? EncodeType_val encode_type1 then (vertex2, vertex1) else (vertex1, vertex2) in
  neighbors ← RangeEncode_GetAllNeighbors C db E vertex1;
  RangeComp_EncodeVertex E vertex1 (neighbors ++ [vertex2]).

Definition RangeComp_RemoveNeighbor (E : list (list Z)) (vertex1 vertex2 : Z) : option (list (list Z) * bool) :=
  neighbors ← RangeEncode_GetAllNeighbors C db E vertex1;
  match erase_first vertex2 neighbors with
  | Some neighbors => E ← RangeComp_EncodeVertex E vertex1 neighbors; Some (E, true)
  | None => Some (E, false)
  end.

Definition RangeComp_DeletePair (E : list (list Z)) (vertex1 vertex2 : Z) : option (list (list Z)) :=
  type1 ← RangeComp_NonNeighborTest E vertex1 vertex2;
  E ← (if bool_decide (type1 <> NonNeighbor) then r ← RangeComp_RemoveNeighbor E vertex1 vertex2; Some r.1 else Some E);
  type2 ← RangeComp_NonNeighborTest E vertex2 vertex1;
  if bool_decide (type2 <> NonNeighbor) then r ← RangeComp_RemoveNeighbor E vertex2 vertex1; Some r.1 else Some E.
End db.
End codec.

(** [RangeCompVend::Init] makes the encoding with the method [compress]; then
    [BuildEncoding], with UNDIRECTED = 1: the encoding and the filtered vertices. *)
Definition RangeCompVend_Build (unordered : gset Z -> list Z) (compress : Z) (adjacency_list_ : list (list Z))
  : option (list (list Z) * list bool) :=
  codec ← RangeComp_codec compress;
  BuildEncoding (zget adjacency_list_) unfiltered_neighbors (fun list => list)
    (fun list => Some (comp_GetRequiredBits (Compression := codec) list)) (RangeComp_EncodeVertex codec)
    RangeComp_GetBytesSize (VERTEX_SIZE C) (Z.of_nat (length adjacency_list_)) unordered (EncodeBitSet_default C).

(** [BuildEncoding], with UNDIRECTED = 0. *)
Definition RangeCompVend_Build_directed (compress : Z) (adjacency_list_ : list (list Z)) : option (list (list Z)) :=
  codec ← RangeComp_codec compress;
  for_loop (Z.to_nat (VERTEX_SIZE C + 1)) 0
    (fun idx E => list ← zget adjacency_list_ idx; RangeComp_EncodeVertex codec E idx list) (EncodeBitSet_default C).

(** [Vend::Determine] of the encoding. *)
Definition RangeCompVend_Determine (compress : Z) (E : list (list Z)) (vertex1 vertex2 : Z) : option PairType :=
  codec ← RangeComp_codec compress; RangeComp_NEpairTest codec E vertex1 vertex2.
End RangeComp.

(** * Proofs: the codes *)

(** A sorted list of vertices. *)
Record com_list_ok (V : Z) (N : list Z) : Prop := {
  com_sorted : StronglySorted Z.lt N;
  com_ids : Forall (fun x => 1 <= x <= V) N;
  com_len : Z.of_nat (length N) < 2 ^ 25
}.

Lemma com_list_without V F N : com_list_ok V N -> com_list_ok V (without F N).
Proof.
  intros [Hs Hi Hl]. pose proof (length_without F N). split; [by apply sorted_without|by apply Forall_without|lia].
Qed.

Section proofs.
Context (C : Config) (HK : 3 <= K_SIZE C <= 64) (Hper : PER_ENCODE_BIT_SIZE C = 32 * K_SIZE C).
Context (HV : 1 <= VERTEX_SIZE C < 2 ^ 28 - 1).
Notation K := (K_SIZE C).
Notation V := (VERTEX_SIZE C).
Notation codec := (VbyteDeltaComp (PER_ENCODE_BIT_SIZE C)).
Notation bits N := (comp_GetRequiredBits (Compression := codec) N).

(** A vector that answers for [N], for certain when [dec]. *)
Definition com_code (d N : list Z) (dec : bool) : Prop :=
  words_ok C d /\ RangeComp_GetFlag d = Some dec /\
  forall v, 1 <= v <= V -> exists t, comp_Find (Compression := codec) v d RangeComp_shift dec = Some t /\
    answers t (v ∈ N) /\ (dec = true -> t <> Uncertain).

Lemma com_small N : Forall (fun x => 1 <= x <= V) N -> Forall small N.
Proof. intros H. eapply Forall_impl; [exact H|]. unfold small. simpl. lia. Qed.

(** The vector after its flag is written. *)
Lemma flag_vector d (flag : bool) :
  words_ok C d -> exists d', BitSetSIMD_BlockSet (BitSetSIMD_Clear d) 0 RangeComp_shift (if flag then 1 else 0) = Some d' /\
    bytes_ok d' /\ length d' = Z.to_nat (4 * K) /\ RangeComp_GetFlag d' = Some flag /\
    forall j, 4 <= j < Z.of_nat (length d') -> zget d' j = Some 0.
Proof.
  intros Hd. destruct (flag_word C HK Hper ltac:(lia) d flag Hd) as (d' & E & Hw & Hf & Hz). exists d'. split; [exact E|].
  pose proof Hw as [Hb Hn]. unfold nbits in Hn. split; [done|]. split; [lia|]. split.
  - unfold RangeComp_GetFlag, RangeComp_shift. pose proof (get_word C HK Hper ltac:(lia) d' 0 Hw ltac:(lia)) as E0.
    change (32 * 0) with 0 in E0. rewrite E0. bind_step. rewrite Hf. by destruct flag.
  - intros j Hj. rewrite (byte_ext (replicate (length d') 0) d' j); [|apply bytes_ok_zero; destruct Hb; lia|done|by rewrite length_replicate|].
    + rewrite zget_lookup by lia. apply lookup_replicate_2. lia.
    + intros q Hq. rewrite bit_at_zero. apply Hz. lia.
Qed.

(** The flag is in the first word. *)
Lemma GetFlag_frame d d' :
  bytes_ok d -> bytes_ok d' -> length d' = length d -> 4 <= Z.of_nat (length d) -> (forall j, j < 4 -> zget d' j = zget d j) ->
  RangeComp_GetFlag d' = RangeComp_GetFlag d.
Proof.
  intros Hd Hd' Hl H4 Hz. unfold RangeComp_GetFlag, RangeComp_shift.
  rewrite !BitSetSIMD_BlockGet_spec by (done || (unfold field_dom, nbits; lia)).
  assert (field d' 0 32 = field d 0 32) as ->; [|done]. apply field_ext; [lia|]. intros q Hq.
  assert (0 <= q / 8 < 4) as Hq8 by (split; [apply Z.div_pos; lia|apply Z.div_lt_upper_bound; lia]).
  destruct (zget_is_Some d (q / 8)) as [x Ex]; [lia|]. pose proof (Hz (q / 8) ltac:(lia)) as Ex'. rewrite Ex in Ex'.
  by rewrite (bit_at_zget d q x), (bit_at_zget d' q x) by (done || lia).
Qed.

Lemma EncodeVertex_vec_code d N :
  words_ok C d -> com_list_ok V N ->
  exists d', RangeComp_EncodeVertex_vec C codec d N = Some d' /\ com_code d' N (bits N <=? 32 * K - 32).
Proof.
  intros Hd [Hs Hids Hlen]. pose proof (com_small N Hids) as Hsmall. unfold RangeComp_EncodeVertex_vec.
  assert (RangeComp_max_bits C = 32 * K - 32) as -> by (unfold RangeComp_max_bits; rewrite u32_small; lia).
  pose proof (GetRequiredBits_size (PER_ENCODE_BIT_SIZE C) true N Hsmall ltac:(lia)) as Hbits. cbn [Vbyte_codec] in Hbits.
  pose proof (size_bounds (codes true 0 N)) as Hsize. cbn [codes] in Hsize, Hbits. rewrite length_deltas in Hsize.
  destruct (Z.leb_spec (bits N) (32 * K - 32)) as [Hfit|Hbig].
  - destruct (flag_vector d true Hd) as (d1 & E1 & Hd1 & Hl1 & Hf1 & Hz1). rewrite E1. bind_step.
    destruct (Vbyte_Encode_ok true N d1 4 Hd1) as (d2 & E2 & Hd2 & Hl2 & Hfront & Hfind); [lia|lia| |done|cbn [codes]; lia|done|].
    { constructor; [done|]. eapply Forall_impl; [exact Hids|]. simpl. lia. }
    exists d2. split; [exact E2|]. split; [split; [done|unfold nbits; lia]|].
    split; [rewrite <- Hf1; apply GetFlag_frame; done || lia|].
    intros v Hv. specialize (Hfind v ltac:(lia)). replace (8 * Z.of_nat (length d1)) with (PER_ENCODE_BIT_SIZE C) in Hfind by lia.
    eexists. split; [exact Hfind|]. split; [apply answers_decide|by case_bool_decide].
  - destruct (flag_vector d false Hd) as (d1 & E1 & Hd1 & Hl1 & Hf1 & Hz1). rewrite E1. bind_step.
    rewrite (upper_eq C) by lia. set (l := 0 :: N ++ [V + 1]).
    assert (length l = length N + 2)%nat as Hll by (unfold l; cbn; rewrite length_app; cbn; lia).
    assert (StronglySorted Z.lt l) as Hsl by (apply (bounded_sorted C); done || lia).
    assert (Forall small l) as Hsm by (unfold l; constructor; [by unfold small|]; apply Forall_app; split; [done|]; repeat constructor; unfold small; lia).
    destruct (DynamicEncode_ok (PER_ENCODE_BIT_SIZE C) ltac:(lia) l Hsm Hsl ltac:(lia) 32 ltac:(lia) ltac:(lia) d1 4)
      as (d2 & i & j & E2 & Hd2 & Hl2 & Hfront & Hij & Hj & Hcode); [done|lia|lia|done|done|].
    exists d2. split; [exact E2|]. split; [split; [done|unfold nbits; lia]|].
    split; [rewrite <- Hf1; apply GetFlag_frame; done || lia|].
    intros v Hv. destruct (Find_run (PER_ENCODE_BIT_SIZE C) ltac:(lia) l Hsm Hsl ltac:(lia) 32 ltac:(lia) ltac:(lia) d2 4 i j v) as (t & Et & Ht);
      [lia|lia|lia|lia|done|].
    assert (v ∈ l <-> v ∈ N) as Hel.
    { unfold l. rewrite elem_of_cons, elem_of_app, list_elem_of_singleton. split; [intros [?|[?|?]]; (done || lia)|tauto]. }
    exists t. split; [exact Et|]. split; [|done]. destruct t; cbn [answers] in *; tauto.
Qed.

Definition com_coded (E : list (list Z)) (u : Z) (N : list Z) : Prop :=
  exists d, zget E u = Some d /\ com_code d N (bits N <=? 32 * K - 32).

Lemma com_NonNeighborTest E u N v :
  com_coded E u N -> 1 <= v <= V ->
  exists t, RangeComp_NonNeighborTest codec E u v = Some t /\ answers t (v ∈ N) /\ ((bits N <=? 32 * K - 32) = true -> t <> Uncertain).
Proof.
  intros (d & Ed & _ & Hf & Hc) Hv. unfold RangeComp_NonNeighborTest. rewrite Ed. bind_step. rewrite Hf. bind_step. by apply Hc.
Qed.

Lemma com_peel_laws adj :
  graph_ok adj V (com_list_ok V) ->
  PeelLaws (zget adj) unfiltered_neighbors (fun l => l) (fun l => Some (bits l)) (RangeComp_EncodeVertex C codec) V (neighbors adj) without
    (fun l => bits l) (com_list_ok V) (fun E v => zget E v = Some (BitSetSIMD_new (PER_ENCODE_BIT_SIZE C))) com_coded.
Proof.
  intros Hg. apply undirected_laws; [done|intros l Hl; apply Hl|intros; by apply com_list_without|done|].
  intros E v l Hv Hl Hfresh. unfold RangeComp_EncodeVertex. rewrite Hfresh. bind_step.
  destruct (EncodeVertex_vec_code (BitSetSIMD_new (PER_ENCODE_BIT_SIZE C)) l) as (d' & -> & Hc); [|done|].
  { unfold BitSetSIMD_new, words_ok, nbits. rewrite Hper, length_replicate.
    replace (32 * K / 8) with (4 * K) by (apply (Z.div_unique_exact _ 8); lia). split; [apply bytes_ok_zero; lia|lia]. }
  bind_step. pose proof (zget_Some_inv _ _ _ Hfresh) as [Hb _]. rewrite zset_Some by done. eexists. split; [done|].
  pose proof (fun w => zget_zset E v w d' _ (zset_Some E v d' Hb)) as Hget. split; [exists d'; split; [by rewrite Hget, Z.eqb_refl|done]|]. split.
  - intros w Hne Hw. by rewrite Hget, (proj2 (Z.eqb_neq w v)) by done.
  - intros w l' Hne (d & Ed & Hd). exists d. split; [|done]. by rewrite Hget, (proj2 (Z.eqb_neq w v)) by done.
Qed.
(** The builder with the delta codec. *)
Lemma RangeComp_saved adj unordered :
  graph_ok adj V (com_list_ok V) -> (forall s x, x ∈ unordered s <-> x ∈ s) ->
  exists E filt, RangeCompVend_Build C unordered 2 adj = Some (E, filt) /\
    saved_tests C (Z.to_nat (4 * K)) E (RangeCompVend_Determine C 2) (right_tests adj filt).
Proof.
  intros Hgraph Horder. pose proof (com_peel_laws adj Hgraph) as laws. pose proof (graph_size _ _ _ Hgraph) as Hsize.
  destruct (BuildEncoding_ok _ _ _ _ _ _ _ _ _ _ _ _ laws (32 * K_SIZE C - 32) ltac:(lia) unordered Horder (EncodeBitSet_default C))
    as (E & f & F & HB & Hcoded & Hpeel & _).
  { intros v Hv. unfold vertex, EncodeBitSet_default, EncodeBitSet_sized in *. by rewrite zget_lookup, lookup_replicate_2 by lia. }
  exists E, f. split.
  - unfold RangeCompVend_Build, RangeComp_codec, RangeComp_GetBytesSize, RangeComp_max_bits. cbn [Z.eqb Pos.eqb mbind option_bind].
    rewrite Hsize, (u32_small (PER_ENCODE_BIT_SIZE C - 32)), Hper by lia. rewrite Hper in HB. exact HB.
  - split.
    { intros v Hv. destruct (Hcoded v Hv) as [(d & Ed & [Hd Hn] & _) _]. exists d. split; [done|]. split; [done|].
      unfold nbits in Hn. lia. }
    intros E' Hsame u v Hu Hv. assert (forall w N, 1 <= w <= V -> com_coded E w N -> com_coded E' w N) as Hlocal
      by (intros w N Hw (d & Ed & Hd); exists d; by rewrite (Hsame w Hw)).
    destruct (Hcoded u Hu) as [Hcu Hfu]. destruct (Hcoded v Hv) as [Hcv Hfv]. unfold KCore.fits in Hfu, Hfv.
    unfold RangeCompVend_Determine, RangeComp_codec. cbn [Z.eqb Pos.eqb mbind option_bind]. unfold RangeComp_NEpairTest.
    destruct (com_NonNeighborTest E' u _ v (Hlocal _ _ Hu Hcu) Hv) as (t1 & -> & H1 & Hc1).
    destruct (com_NonNeighborTest E' v _ u (Hlocal _ _ Hv Hcv) Hu) as (t2 & -> & H2 & Hc2). bind_step. bind_step. rewrite Hfu in Hc1. rewrite Hfv in Hc2.
    eexists. split; [done|]. apply (min_answers t1 t2 (gone f u) (gone f v) (left_of (neighbors adj) without F u) (left_of (neighbors adj) without F v) u v); try done.
    apply (peeled_covers (VERTEX_SIZE C) f F); [done..|by apply (graph_edge adj (VERTEX_SIZE C) (com_list_ok (VERTEX_SIZE C)))].
Qed.
End proofs.

(** * Properties *)

(** C12: the builder with the delta codec, on sorted lists of vertices below
    2^28 - 1: it returns, whatever order the sets are iterated in, and every
    later test is defined and never wrong about the edges; it is certain when
    one of the vertices was filtered. *)
Theorem RangeCompBuildEncoding_sound (C : Config) (adj : list (list Z)) (unordered : gset Z -> list Z)
    (HK : 3 <= K_SIZE C <= 64) (Hper : PER_ENCODE_BIT_SIZE C = 32 * K_SIZE C) (HV : 1 <= VERTEX_SIZE C < 2 ^ 28 - 1)
    (Hgraph : graph_ok adj (VERTEX_SIZE C) (com_list_ok (VERTEX_SIZE C))) (Horder : forall s x, x ∈ unordered s <-> x ∈ s) :
  exists E filt, RangeCompVend_Build C unordered 2 adj = Some (E, filt) /\
    forall u v, 1 <= u <= VERTEX_SIZE C -> 1 <= v <= VERTEX_SIZE C ->
      exists t, RangeCompVend_Determine C 2 E u v = Some t /\ answers t (v ∈ neighbors adj u) /\
        (gone filt u || gone filt v = true -> t <> Uncertain).
Proof.
  destruct (RangeComp_saved C HK Hper HV adj unordered Hgraph Horder) as (E & filt & HB & HE).
  exists E, filt. split; [done|]. exact (saved_tests_now _ _ _ _ _ HE).
Qed.

(** * Witnesses *)

Definition com_list_check (V : Z) (N : list Z) : bool :=
  bool_decide (Sorted Z.lt N) && bool_decide (Forall (fun x => 1 <= x <= V) N) && (Z.of_nat (length N) <? 2 ^ 25).

Lemma com_list_check_ok V N : com_list_check V N = true -> com_list_ok V N.
Proof.
  unfold com_list_check. rewrite !andb_true_iff, !bool_decide_eq_true, Z.ltb_lt. intros [[Hs Hi] Hl]. split; [|done|done].
  apply Sorted_StronglySorted; [intros ?; lia|done].
Qed.

(** A clique of fourteen vertices, which no vector of three words holds, and a
    path. *)
Definition com_graph : list (list Z) :=
  map (fun v => if v =? 0 then [] else if v <=? 13 then filter (fun w => w <> v) (seqZ 1 14)
                else if v =? 14 then seqZ 1 13 ++ [15] else if v <? 20 then [v - 1; v + 1] else [19]) (seqZ 0 21).

(** The path is filtered, the clique is not. *)
Example com_graph_filtered :
  (r ← RangeCompVend_Build small_config elements 2 com_graph; Some (filter (fun v => gone r.2 v = true) (seqZ 0 21)))
    = Some [15; 16; 17; 18; 19; 20].
Proof. vm_compute. reflexivity. Qed.

Lemma RangeCompBuildEncoding_sound_witness :
  exists E filt, RangeCompVend_Build small_config elements 2 com_graph = Some (E, filt) /\
    forall u v, 1 <= u <= VERTEX_SIZE small_config -> 1 <= v <= VERTEX_SIZE small_config ->
      exists t, RangeCompVend_Determine small_config 2 E u v = Some t /\ answers t (v ∈ neighbors com_graph u) /\
        (gone filt u || gone filt v = true -> t <> Uncertain).
Proof.
  apply (RangeCompBuildEncoding_sound small_config com_graph elements).
  - vm_compute. split; discriminate.
  - reflexivity.
  - vm_compute. split; [discriminate|reflexivity].
  - apply (lists_check_ok _ (com_list_check 20)); [apply com_list_check_ok|vm_compute; reflexivity].
  - intros s x. apply elem_of_elements.
Defined.

(** * Behaviours worth knowing *)

(** The plain byte codec cannot encode that graph: the clique needs a run. *)
Example com_graph_vbyte : RangeCompVend_Build small_config elements 1 com_graph = None.
Proof. vm_compute. reflexivity. Qed.

(** The codec of whole fields denies an edge: the list of vertex 1 fills its
    vector, its last field is not read, and vertex 200 is in a clique whose
    lists are encoded later, without vertex 1. *)
Definition fields_graph : list (list Z) :=
  map (fun v => if v =? 1 then seqZ 193 8 else if v <? 190 then []
                else (if 193 <=? v then [1] else []) ++ filter (fun w => w <> v) (seqZ 190 11)) (seqZ 0 201).

Example fields_graph_denied :
  (r ← RangeCompVend_Build bytes_config elements 0 fields_graph;
   t ← RangeCompVend_Determine bytes_config 0 r.1 1 200; Some (t, bool_decide (200 ∈ neighbors fields_graph 1)))
    = Some (NonNeighbor, true).
Proof. vm_compute. reflexivity. Qed.

(** The insertion of the super class reads a compressed list as words: with the
    delta codec, the code of vertex 1 denies vertex 2 once 1-3 is inserted. *)
Example insert_loses_edge :
  (r ← RangeCompVend_Build small_config elements 2 ([[]; [2; 4]; [1]; []; [1]] ++ replicate 16 []);
   E ← RangeComp_InsertPair small_config (VbyteDeltaComp (PER_ENCODE_BIT_SIZE small_config)) (fun _ => []) r.1 1 3;
   RangeComp_NonNeighborTest (VbyteDeltaComp (PER_ENCODE_BIT_SIZE small_config)) E 1 2) = Some NonNeighbor.
Proof. vm_compute. reflexivity. Qed.
