(* ===== verification/DeltaVend.v ===== *)
(** The builder of the SIMD delta encodings, [DeltaSIMDVEND]
    ([src/vend/delta_simd_vend.cpp], [src/include/vend/delta_simd_vend.h]): the
    version of the encoding is chosen by [DeltaType], the graph is peeled as in
    [KCore], and a pair is tested on the result.

    The graph is the array [adjacency_list_] of the vertices' lists; UNDIRECTED
    is 1, VARY_K, THRESHOLD and MULTI_THREAD are 0, as [config.h] sets them. *)
From S2P Require Import Prelude Config BitSet Encode SimdCodec SimdTree Codec DeltaEncode KCore.
From stdpp Require Import options.
Local Open Scope Z_scope.
Set Default Proof Using "Type*".

(** [enum DeltaType]. *)
Inductive DeltaType := V0 | V1 | V2 | V3.

(** [initEncode]: the codec and the encoding of a version. *)
Definition initEncode_codec (C : Config) (type : DeltaType) : CodecOps :=
  match type with
  | V0 => sequential DeltaSIMDCodec
  | V1 => sequential DeltaSIMDCodecV1
  | V2 => sequential DeltaSIMDCodecV2
  | V3 => tree_searched (HSIMD C)
  end.

Definition initEncode_EncodeVertex (C : Config) (type : DeltaType)
    (E : list (list Z)) (vertex : Z) (neighbors : list Z) : option (list (list Z)) :=
  let per := PER_ENCODE_BIT_SIZE C in
  match type with
  | V0 => DeltaSIMDEncode_EncodeVertex C per (codec_ := sequential DeltaSIMDCodec) (H := variant_V0) E vertex neighbors
  | V1 => DeltaSIMDEncode_EncodeVertex C per (codec_ := sequential DeltaSIMDCodecV1) (H := variant_V1) E vertex neighbors
  | V2 => DeltaSIMDEncode_EncodeVertex C per (codec_ := sequential DeltaSIMDCodecV2) (H := variant_V2) E vertex neighbors
  | V3 => DeltaSIMDEncodeV3_EncodeVertex C per (codec_ := tree_searched (HSIMD C)) E vertex neighbors
  end.

(** [Vend::Determine] of the encoding. *)
Definition DeltaSIMDVEND_Determine (C : Config) (heap : Z -> Z) (type : DeltaType)
    (E : list (list Z)) (vertex1 vertex2 : Z) : option PairType :=
  DeltaSIMDEncode_NEpairTest heap (PER_ENCODE_BIT_SIZE C) (codec_ := initEncode_codec C type) E vertex1 vertex2.

(** [BuildEncoding], with UNDIRECTED = 1: the encoding and the filtered
    vertices. *)
Definition DeltaSIMDVEND_BuildEncoding (C : Config) (unordered : gset Z -> list Z) (type : DeltaType)
    (adjacency_list_ : list (list Z)) (encodes_ : SIMDEncode) : option (list (list Z) * list bool) :=
  max_bytes_len ← SIMDEncode_GetBytesSize encodes_;
  BuildEncoding (zget adjacency_list_) unfiltered_neighbors (fun list => list)
    (codec_GetRequiredBytes (CodecOps := initEncode_codec C type))
    (initEncode_EncodeVertex C type)
    max_bytes_len (VERTEX_SIZE C) (Z.of_nat (length adjacency_list_)) unordered (encode_bitset_ encodes_).

(** [BuildEncoding], with UNDIRECTED = 0. *)
Definition DeltaSIMDVEND_BuildEncoding_directed (C : Config) (type : DeltaType)
    (adjacency_list_ : list (list Z)) (encodes_ : SIMDEncode) : option (list (list Z)) :=
  for_loop (Z.to_nat (VERTEX_SIZE C + 1)) 0
    (fun idx E => list ← zget adjacency_list_ idx; initEncode_EncodeVertex C type E idx list)
    (encode_bitset_ encodes_).

(** * What the codes of one vertex say *)

(** [F u] are the neighbors that the code of [u] leaves out. A vertex is decodable
    when it was filtered; its code alone, by [decodable] and [test], is never wrong
    about the neighbors that it has, and certain when the vertex was filtered. Only
    filtered vertices are left out, no edge by both of its ends, and a vertex that
    was not filtered leaves all of them out. *)
Record own_codes (V : Z) (adj : list (list Z)) (f : list bool) (F : Z -> Z -> bool)
    (decodable : Z -> option bool) (test : Z -> Z -> option PairType) : Prop := {
  own_decodable v : 1 <= v <= V -> decodable v = Some (gone f v);
  own_test u v : 1 <= u <= V -> 1 <= v <= V ->
    exists t, test u v = Some t /\ answers t (v ∈ neighbors adj u /\ F u v = false) /\ (gone f u = true -> t <> Uncertain);
  own_left_out u v : 1 <= u <= V -> 1 <= v <= V -> F u v = true -> gone f v = true /\ F v u = false;
  own_core u v : 1 <= u <= V -> gone f u = false -> F u v = gone f v
}.

(** * The laws of the peeling *)

Lemma neighbors_ok_without C F N : neighbors_ok C N -> neighbors_ok C (without F N).
Proof.
  intros [Hs Hids Hlen]. split; [by apply sorted_without|by apply Forall_without|].
  pose proof (length_without F N). lia.
Qed.

Section laws.
Context (C : Config) (k : Z) (Hk : 1 <= k <= 10) (HV : 1 <= VERTEX_SIZE C < 2 ^ 31).
Context (ops : DeltaOps) (laws : DeltaLaws ops) (variant : DeltaVariant) (vlaws : VariantLaws ops variant).
Local Existing Instance sequential.
Notation V := (VERTEX_SIZE C).
Notation need := (DeltaEncode.need ops).

Definition vfresh (E : list (list Z)) (v : Z) : Prop := zget E v = Some (BitSetSIMD_new (32 * k)).
Definition vcoded (E : list (list Z)) (v : Z) (N : list Z) : Prop :=
  StronglySorted Z.lt N /\ coded k E v N (need N <=? 4 * k - 1).

Lemma required_need N : neighbors_ok C N -> codec_GetRequiredBytes (CodecOps := sequential ops) N = Some (need N).
Proof using HV laws.
  intros HN. cbn [codec_GetRequiredBytes sequential]. pose proof (small_u32s N (nb_small C HV N HN)) as Hu.
  pose proof (nb_len _ _ HN). by rewrite (GetRequiredBytes_spec N Hu ltac:(lia)).
Qed.

(** Encoding one vertex. *)
Lemma encode_one E v N :
  neighbors_ok C N -> vfresh E v ->
  exists E', DeltaSIMDEncode_EncodeVertex C (32 * k) (codec_ := sequential ops) E v N = Some E' /\ vcoded E' v N /\
    forall w, w <> v -> zget E' w = zget E w.
Proof using Hk HV laws vlaws.
  intros HN Hfresh.
  destruct (EncodeVertex_coded C k Hk HV ops laws variant vlaws E v N HN Hfresh) as (E' & d & E1 & E2 & Hc).
  exists E'. split; [done|]. split.
  - split; [apply HN|]. pose proof (required_need N HN) as Hr. cbn [codec_GetRequiredBytes sequential] in Hr.
    injection Hr as Hr. unfold DeltaEncode.fits in Hc. by rewrite Hr in Hc.
  - intros w Hne. rewrite (zget_zset _ _ w _ _ E2). by rewrite (proj2 (Z.eqb_neq w v)).
Qed.

Lemma vcoded_frame E E' w N : zget E' w = zget E w -> vcoded E w N -> vcoded E' w N.
Proof using Type. intros Hw [Hs (d & Ed & Hd)]. split; [done|]. exists d. by rewrite Hw. Qed.

(** Every code is a vector of the size of the encoding. *)
Definition vector_at (E : list (list Z)) (v : Z) : Prop :=
  exists d, zget E v = Some d /\ bytes_ok d /\ Z.of_nat (length d) = 4 * k.

Lemma vcoded_vector E v N : vcoded E v N -> vector_at E v.
Proof using Type.
  intros [_ (d & Ed & _ & Hd)]. exists d. split; [done|].
  destruct (need N <=? 4 * k - 1).
  - unfold full_code in Hd. case_decide; [destruct Hd as (m & Hd)|destruct Hd as (_ & m & code & _ & Hd)];
      by destruct Hd.
  - destruct Hd as (b & A & blk & B & code & _ & Hd & _). by destruct Hd.
Qed.

Lemma delta_peel_laws adj :
  graph_ok adj V (neighbors_ok C) ->
  PeelLaws (zget adj) unfiltered_neighbors (fun l => l) (codec_GetRequiredBytes (CodecOps := sequential ops))
    (DeltaSIMDEncode_EncodeVertex C (32 * k) (codec_ := sequential ops)) V (neighbors adj) without
    need (neighbors_ok C) vfresh vcoded.
Proof using Hk HV laws vlaws.
  intros Hg. apply undirected_laws; [done|intros l Hl; apply Hl|intros; by apply neighbors_ok_without|apply required_need|].
  intros E v l Hv Hl Hfresh. destruct (encode_one E v l Hl Hfresh) as (E' & E1 & Hc & Hframe).
  exists E'. split; [done|]. split; [done|]. split.
  - intros w Hne Hw. unfold vfresh in *. by rewrite Hframe.
  - intros w l' Hne. apply vcoded_frame. by apply Hframe.
Qed.

(** Each code by itself. *)
Lemma delta_own heap adj E f F :
  graph_ok adj V (neighbors_ok C) ->
  (forall v, 1 <= v <= V -> vcoded E v (without (F v) (neighbors adj v)) /\ (need (without (F v) (neighbors adj v)) <=? 4 * k - 1) = gone f v) ->
  peeled V f F -> (forall v, 1 <= v <= V -> gone f v = false -> F v = gone f) ->
  own_codes V adj f F (DeltaSIMDEncode_IsDecodable E) (DeltaSIMDEncode_NonNeighborTest heap (32 * k) (codec_ := sequential ops) E).
Proof using Hk HV laws vlaws.
  intros Hg Hcoded Hpeel Hcore. split; [| |by apply Hpeel|].
  - intros v Hv. destruct (Hcoded v Hv) as [[_ (d & Ed & Hb & _)] Hf]. unfold DeltaSIMDEncode_IsDecodable. rewrite Ed. bind_step.
    by rewrite Hb, Hf.
  - intros u v Hu Hv. destruct (Hcoded u Hu) as [[Hs Hc] Hf]. rewrite Hf in Hc.
    destruct (coded_Find heap k Hk (codec_ := sequential ops) E u _ _ v Hs Hc ltac:(lia)) as (d & a & Ed & Hb & Ea & Ha & Hcert).
    exists a. rewrite (NonNeighborTest_Find heap k Hk (codec_ := sequential ops) E u d _ v Ed Hb). split; [done|]. split; [|done].
    pose proof (elem_without (F u) (neighbors adj u) v). destruct a; cbn [answers] in *; tauto.
  - intros u v Hu Hgu. by rewrite (Hcore u Hu Hgu).
Qed.

(** The builder: it returns, its tests are right, and what it leaves does not
    fit. *)
Lemma delta_build adj unordered E :
  graph_ok adj V (neighbors_ok C) -> (forall s x, x ∈ unordered s <-> x ∈ s) ->
  (forall v, 1 <= v <= V -> vfresh E v) ->
  exists E' f, BuildEncoding (zget adj) unfiltered_neighbors (fun l => l)
      (codec_GetRequiredBytes (CodecOps := sequential ops))
      (DeltaSIMDEncode_EncodeVertex C (32 * k) (codec_ := sequential ops)) (4 * k - 1) V (V + 1) unordered E
      = Some (E', f) /\
    (forall heap u v, 1 <= u <= V -> 1 <= v <= V ->
       exists t, DeltaSIMDEncode_NEpairTest heap (32 * k) (codec_ := sequential ops) E' u v = Some t /\
         answers t (v ∈ neighbors adj u) /\ (gone f u || gone f v = true -> t <> Uncertain)) /\
    (forall v, 1 <= v <= V -> gone f v = false ->
       exists n, codec_GetRequiredBytes (CodecOps := sequential ops) (without (gone f) (neighbors adj v)) = Some n /\
         4 * k - 1 < n) /\
    (forall v, 1 <= v <= V -> vector_at E' v) /\
    exists F, forall heap, own_codes V adj f F (DeltaSIMDEncode_IsDecodable E')
      (DeltaSIMDEncode_NonNeighborTest heap (32 * k) (codec_ := sequential ops) E').
Proof using Hk HV laws vlaws.
  intros Hg Hun HE.
  destruct (BuildEncoding_ok _ _ _ _ _ _ _ _ _ _ _ _ (delta_peel_laws adj Hg) (4 * k - 1) ltac:(lia) unordered Hun E HE)
    as (E' & f & F & HB & Hcoded & Hpeel & Hcore).
  exists E', f. split; [done|]. split.
  - intros heap u v Hu Hv. destruct (Hcoded u Hu) as [[Hsu Hcu] Hfu]. destruct (Hcoded v Hv) as [[Hsv Hcv] Hfv].
    unfold KCore.fits in Hfu, Hfv. rewrite Hfu in Hcu. rewrite Hfv in Hcv.
    apply (coded_NEpairTest heap k Hk E' u v _ _ (gone f u) (gone f v) _ Hsu Hsv Hcu Hcv); [lia..|].
    apply (peeled_covers V f F _ _ _ (neighbors adj v) u v); [done..|].
    by apply (graph_edge adj V (neighbors_ok C)).
  - split; [|split; [intros v Hv; destruct (Hcoded v Hv) as [Hc _]; by eapply vcoded_vector|exists F; intros heap; by apply delta_own]].
    intros v Hv Hgv. destruct (Hcoded v Hv) as [_ Hf]. unfold KCore.fits, left_of in Hf.
    rewrite (Hcore v Hv Hgv), Hgv in Hf. exists (need (without (gone f) (neighbors adj v))).
    split; [|by apply Z.leb_gt]. apply required_need, neighbors_ok_without.
    unfold neighbors. destruct (zget_is_Some adj v) as [N EN]; [destruct Hg; lia|]. rewrite EN.
    by apply (graph_lists _ _ _ Hg v).
Qed.
End laws.

(** The vectors the default constructor makes. *)
Lemma default_GetBytesSize C k :
  1 <= k <= 10 -> 1 <= VERTEX_SIZE C < 2 ^ 31 -> PER_ENCODE_BIT_SIZE C = 32 * k ->
  forall n, SIMDEncode_GetBytesSize {| encode_size_ := n; encode_bitset_ := encode_bitset_ (SIMDEncode_default C) |}
    = Some (4 * k - 1).
Proof.
  intros Hk HV Hper n. unfold SIMDEncode_GetBytesSize, SIMDEncode_default. cbn [encode_bitset_]. rewrite Hper.
  rewrite zget_lookup by lia. rewrite lookup_replicate_2 by lia. bind_step. unfold BitSetSIMD_GetBitSize, BitSetSIMD_new.
  rewrite length_replicate. replace (32 * k / 8) with (4 * k) by (replace (32 * k) with (4 * k * 8) by lia; by rewrite Z.div_mul).
  rewrite (u32_small (Z.of_nat _)) by lia. by rewrite u32_small by lia; do 2 f_equal; lia.
Qed.

Lemma default_fresh C k :
  1 <= VERTEX_SIZE C < 2 ^ 31 -> PER_ENCODE_BIT_SIZE C = 32 * k ->
  forall v, 1 <= v <= VERTEX_SIZE C -> vfresh k (encode_bitset_ (SIMDEncode_default C)) v.
Proof.
  intros HV Hper v Hv. unfold vfresh, SIMDEncode_default. cbn [encode_bitset_]. rewrite Hper.
  rewrite zget_lookup by lia. by rewrite lookup_replicate_2 by lia.
Qed.

(** The versions the theorems are about; V3 has findings of its own. *)
Lemma DeltaSIMDVEND_build C k type adj unordered :
  1 <= k <= 10 -> 1 <= VERTEX_SIZE C < 2 ^ 31 -> PER_ENCODE_BIT_SIZE C = 32 * k -> type <> V3 ->
  graph_ok adj (VERTEX_SIZE C) (neighbors_ok C) -> (forall s x, x ∈ unordered s <-> x ∈ s) ->
  exists E f, DeltaSIMDVEND_BuildEncoding C unordered type adj (SIMDEncode_default C) = Some (E, f) /\
    (forall heap u v, 1 <= u <= VERTEX_SIZE C -> 1 <= v <= VERTEX_SIZE C ->
       exists t, DeltaSIMDVEND_Determine C heap type E u v = Some t /\
         answers t (v ∈ neighbors adj u) /\ (gone f u || gone f v = true -> t <> Uncertain)) /\
    (forall v, 1 <= v <= VERTEX_SIZE C -> gone f v = false ->
       exists n, codec_GetRequiredBytes (CodecOps := initEncode_codec C type) (without (gone f) (neighbors adj v))
         = Some n /\ 4 * k - 1 < n) /\
    (forall v, 1 <= v <= VERTEX_SIZE C -> vector_at k E v) /\
    exists F, forall heap, own_codes (VERTEX_SIZE C) adj f F (DeltaSIMDEncode_IsDecodable E)
      (DeltaSIMDEncode_NonNeighborTest heap (PER_ENCODE_BIT_SIZE C) (codec_ := initEncode_codec C type) E).
Proof.
  intros Hk HV Hper Htype Hg Hun. pose proof (graph_size _ _ _ Hg) as Hsize.
  pose proof (default_GetBytesSize C k Hk HV Hper (VERTEX_SIZE C)) as Hbytes. pose proof (default_fresh C k HV Hper) as Hfresh.
  unfold DeltaSIMDVEND_BuildEncoding, DeltaSIMDVEND_Determine. change (SIMDEncode_GetBytesSize (SIMDEncode_default C)) with
    (SIMDEncode_GetBytesSize {| encode_size_ := VERTEX_SIZE C; encode_bitset_ := encode_bitset_ (SIMDEncode_default C) |}).
  rewrite Hbytes, Hsize, Hper. bind_step.
  unfold initEncode_EncodeVertex. rewrite Hper.
  destruct type; [..|done]; cbn [initEncode_codec].
  - by apply (delta_build C k Hk HV DeltaSIMDCodec _ variant_V0 _ adj unordered).
  - by apply (delta_build C k Hk HV DeltaSIMDCodecV1 _ variant_V1 _ adj unordered).
  - by apply (delta_build C k Hk HV DeltaSIMDCodecV2 _ variant_V2 _ adj unordered).
Qed.

(** A test reads the codes of its two vertices only. *)
Lemma Determine_frame C heap type E E' u v :
  zget E' u = zget E u -> zget E' v = zget E v ->
  DeltaSIMDVEND_Determine C heap type E' u v = DeltaSIMDVEND_Determine C heap type E u v.
Proof.
  intros Hu Hv. unfold DeltaSIMDVEND_Determine, DeltaSIMDEncode_NEpairTest, DeltaSIMDEncode_IsDecodable.
  by rewrite Hu, Hv.
Qed.

(** What was built can be saved. *)
Lemma DeltaVend_saved C heap k type adj unordered :
  1 <= k <= 10 -> 1 <= VERTEX_SIZE C < 2 ^ 31 -> PER_ENCODE_BIT_SIZE C = 32 * k -> type <> V3 ->
  graph_ok adj (VERTEX_SIZE C) (neighbors_ok C) -> (forall s x, x ∈ unordered s <-> x ∈ s) ->
  exists E f, DeltaSIMDVEND_BuildEncoding C unordered type adj (SIMDEncode_default C) = Some (E, f) /\
    saved_tests C (Z.to_nat (4 * k)) E (DeltaSIMDVEND_Determine C heap type) (right_tests adj f).
Proof.
  intros Hk HV Hper Htype Hg Hun.
  destruct (DeltaSIMDVEND_build C k type adj unordered Hk HV Hper Htype Hg Hun) as (E & f & HB & Htest & _ & Hvec & _).
  exists E, f. split; [done|]. split.
  - intros v Hv. destruct (Hvec v Hv) as (d & Ed & Hd & Hl). exists d. split; [done|]. split; [done|lia].
  - intros E' Hsame u v Hu Hv. destruct (Htest heap u v Hu Hv) as (t & Et & Ht). exists t. split; [|done].
    rewrite <- Et. apply Determine_frame; by apply Hsame.
Qed.

(** A check of a concrete graph. *)
Definition list_check (C : Config) (N : list Z) : bool :=
  bool_decide (Sorted Z.lt N) && bool_decide (Forall (fun x => 1 <= x <= VERTEX_SIZE C) N) &&
  (Z.of_nat (length N) <? 2 ^ 28).

Lemma list_check_ok C N : list_check C N = true -> neighbors_ok C N.
Proof.
  unfold list_check. rewrite !andb_true_iff, !bool_decide_eq_true, Z.ltb_lt. intros [[Hs Hi] Hl]. split; [|done|done].
  apply Sorted_StronglySorted; [intros ?; lia|done].
Qed.

Definition graph_check (C : Config) (adj : list (list Z)) : bool := lists_check (VERTEX_SIZE C) (list_check C) adj.

Lemma graph_check_ok C adj :
  graph_check C adj = true -> graph_ok adj (VERTEX_SIZE C) (neighbors_ok C).
Proof. apply lists_check_ok, list_check_ok. Qed.

(** * Properties *)

(** C8: for every graph given by sorted lists with each edge in the lists of
    both its ends, and whatever order the sets are iterated in, [BuildEncoding]
    of V0, V1 and V2 returns, and every later test of two vertices is defined
    and never wrong about the edges of the graph; it is certain when one of the
    vertices was filtered. *)
Theorem DeltaBuildEncoding_sound (C : Config) (k : Z) (type : DeltaType) (adj : list (list Z))
    (unordered : gset Z -> list Z)
    (Hk : 1 <= k <= 10) (HV : 1 <= VERTEX_SIZE C < 2 ^ 31) (Hper : PER_ENCODE_BIT_SIZE C = 32 * k)
    (Htype : type <> V3) (Hgraph : graph_ok adj (VERTEX_SIZE C) (neighbors_ok C))
    (Horder : forall s x, x ∈ unordered s <-> x ∈ s) :
  exists E f, DeltaSIMDVEND_BuildEncoding C unordered type adj (SIMDEncode_default C) = Some (E, f) /\
    forall heap u v, 1 <= u <= VERTEX_SIZE C -> 1 <= v <= VERTEX_SIZE C ->
      exists t, DeltaSIMDVEND_Determine C heap type E u v = Some t /\
        answers t (v ∈ neighbors adj u) /\ (gone f u || gone f v = true -> t <> Uncertain).
Proof.
  destruct (DeltaSIMDVEND_build C k type adj unordered Hk HV Hper Htype Hgraph Horder) as (E & f & HB & Htest & _).
  by exists E, f.
Qed.

(** C30: the rounds of [BuildEncoding] end, whatever the iteration order, and
    every vertex they leave has more unfiltered neighbors than a vector holds:
    the peeling stops at a core and not before. *)
Theorem DeltaBuildEncoding_core (C : Config) (k : Z) (type : DeltaType) (adj : list (list Z))
    (unordered : gset Z -> list Z)
    (Hk : 1 <= k <= 10) (HV : 1 <= VERTEX_SIZE C < 2 ^ 31) (Hper : PER_ENCODE_BIT_SIZE C = 32 * k)
    (Htype : type <> V3) (Hgraph : graph_ok adj (VERTEX_SIZE C) (neighbors_ok C))
    (Horder : forall s x, x ∈ unordered s <-> x ∈ s) :
  exists E f, DeltaSIMDVEND_BuildEncoding C unordered type adj (SIMDEncode_default C) = Some (E, f) /\
    forall v, 1 <= v <= VERTEX_SIZE C -> gone f v = false ->
      exists n, codec_GetRequiredBytes (CodecOps := initEncode_codec C type) (without (gone f) (neighbors adj v))
        = Some n /\ 4 * k - 1 < n.
Proof.
  destruct (DeltaSIMDVEND_build C k type adj unordered Hk HV Hper Htype Hgraph Horder) as (E & f & HB & _ & Hcore & _).
  by exists E, f.
Qed.

(** C31: on every graph given by sorted lists with each edge in the lists of both
    its ends, the codes of the single vertices that [BuildEncoding] of V0, V1 and V2
    leaves, those of the filtered vertices and those of [encode_rest]. There are
    sets of neighbors that the codes leave out: a vertex is decodable exactly when
    it was filtered; its code alone answers membership in the neighbors that are
    not left out, with certainty when it was filtered and without error
    otherwise; only filtered neighbors are left out, no edge is left out by both
    of its ends, and a vertex that was not filtered leaves exactly the filtered
    neighbors out. *)
Theorem DeltaBuildEncoding_codes (C : Config) (k : Z) (type : DeltaType) (adj : list (list Z))
    (unordered : gset Z -> list Z)
    (Hk : 1 <= k <= 10) (HV : 1 <= VERTEX_SIZE C < 2 ^ 31) (Hper : PER_ENCODE_BIT_SIZE C = 32 * k)
    (Htype : type <> V3) (Hgraph : graph_ok adj (VERTEX_SIZE C) (neighbors_ok C))
    (Horder : forall s x, x ∈ unordered s <-> x ∈ s) :
  exists E f F, DeltaSIMDVEND_BuildEncoding C unordered type adj (SIMDEncode_default C) = Some (E, f) /\
    forall heap, own_codes (VERTEX_SIZE C) adj f F (DeltaSIMDEncode_IsDecodable E)
      (DeltaSIMDEncode_NonNeighborTest heap (PER_ENCODE_BIT_SIZE C) (codec_ := initEncode_codec C type) E).
Proof.
  destruct (DeltaSIMDVEND_build C k type adj unordered Hk HV Hper Htype Hgraph Horder) as (E & f & HB & _ & _ & _ & F & HF).
  by exists E, f, F.
Qed.

(** * Witnesses *)

(** A clique on 1, ..., 14 with a path 14, 15, ..., 20. *)
Definition clique_path : list (list Z) :=
  map (fun v => if v <? 1 then [] else if v <=? 13 then filter (fun x => x <> v) (seqZ 1 14)
                else if v =? 14 then seqZ 1 13 ++ [15] else if v <? 20 then [v - 1; v + 1] else [19])
    (seqZ 0 21).

Lemma clique_path_ok : graph_check small_config clique_path = true.
Proof. vm_compute. reflexivity. Qed.

(** The path is filtered, the clique is not. *)
Example clique_path_filtered :
  (r ← DeltaSIMDVEND_BuildEncoding small_config elements V2 clique_path (SIMDEncode_default small_config);
   Some (filter (fun v => gone r.2 v = true) (seqZ 0 21))) = Some [15; 16; 17; 18; 19; 20].
Proof. vm_compute. reflexivity. Qed.

Lemma DeltaBuildEncoding_sound_witness :
  exists E f, DeltaSIMDVEND_BuildEncoding small_config elements V2 clique_path (SIMDEncode_default small_config) = Some (E, f) /\
    forall heap u v, 1 <= u <= VERTEX_SIZE small_config -> 1 <= v <= VERTEX_SIZE small_config ->
      exists t, DeltaSIMDVEND_Determine small_config heap V2 E u v = Some t /\
        answers t (v ∈ neighbors clique_path u) /\ (gone f u || gone f v = true -> t <> Uncertain).
Proof.
  apply (DeltaBuildEncoding_sound small_config 3 V2 clique_path elements).
  - lia.
  - vm_compute. split; [discriminate|reflexivity].
  - reflexivity.
  - discriminate.
  - exact (graph_check_ok _ _ clique_path_ok).
  - intros s x. apply elem_of_elements.
Defined.

Lemma DeltaBuildEncoding_core_witness :
  exists E f, DeltaSIMDVEND_BuildEncoding small_config (fun s => rev (elements s)) V1 clique_path
      (SIMDEncode_default small_config) = Some (E, f) /\
    forall v, 1 <= v <= VERTEX_SIZE small_config -> gone f v = false ->
      exists n, codec_GetRequiredBytes (CodecOps := initEncode_codec small_config V1)
          (without (gone f) (neighbors clique_path v)) = Some n /\ 4 * 3 - 1 < n.
Proof.
  apply (DeltaBuildEncoding_core small_config 3 V1 clique_path (fun s => rev (elements s))).
  - lia.
  - vm_compute. split; [discriminate|reflexivity].
  - reflexivity.
  - discriminate.
  - exact (graph_check_ok _ _ clique_path_ok).
  - intros s x. rewrite list_elem_of_In, <- in_rev, <- list_elem_of_In. apply elem_of_elements.
Defined.

Lemma DeltaBuildEncoding_codes_witness :
  exists E f F, DeltaSIMDVEND_BuildEncoding small_config elements V0 clique_path (SIMDEncode_default small_config) = Some (E, f) /\
    forall heap, own_codes (VERTEX_SIZE small_config) clique_path f F (DeltaSIMDEncode_IsDecodable E)
      (DeltaSIMDEncode_NonNeighborTest heap (PER_ENCODE_BIT_SIZE small_config) (codec_ := initEncode_codec small_config V0) E).
Proof.
  apply (DeltaBuildEncoding_codes small_config 3 V0 clique_path elements).
  - lia.
  - vm_compute. split; [discriminate|reflexivity].
  - reflexivity.
  - discriminate.
  - exact (graph_check_ok _ _ clique_path_ok).
  - intros s x. apply elem_of_elements.
Defined.
