(* ===== verification/DirectedSimd.v ===== *)
(** The directed SIMD encoding and its builder, [DirectedSIMD] and
    [DirSIMDVend] ([src/include/encode/single/directed_simd.h],
    [src/vend/dir_simd_vend.cpp], [src/include/vend/dir_simd_vend.h]): every
    vertex has a code of its out-neighbors and one of its in-neighbors.

    The state is the pair of arrays [encode_bitset_] and [in_bitset_]; the codec
    is that of version V0. *)
From S2P Require Import Prelude Config BitSet Encode SimdCodec Codec DeltaEncode KCore DeltaVend.
From stdpp Require Import options.
Local Open Scope Z_scope.
Set Default Proof Using "Type*".

Section DirectedSIMD.
Context (C : Config) (heap : Z -> Z).
Local Existing Instances DeltaSIMDCodec sequential variant_V0.
Local Notation per := (PER_ENCODE_BIT_SIZE C).

Definition DirectedSIMD := (list (list Z) * list (list Z))%type.

(** [DirectedSIMD()]. *)
Definition DirectedSIMD_default : DirectedSIMD :=
  (encode_bitset_ (SIMDEncode_default C),
   replicate (Z.to_nat (VERTEX_SIZE C + 1)) (BitSetSIMD_new per)).

(** [EncodeVertex(vertex_id, neighbors, out)]: the body is that of
    [DeltaSIMDEncode::EncodeVertex] on one of the arrays. *)
Definition DirectedSIMD_EncodeVertex_dir (E : DirectedSIMD) (vertex_id : Z) (neighbors : list Z) (out : bool)
  : option DirectedSIMD :=
  if out then e ← DeltaSIMDEncode_EncodeVertex C per E.1 vertex_id neighbors; Some (e, E.2)
  else e ← DeltaSIMDEncode_EncodeVertex C per E.2 vertex_id neighbors; Some (E.1, e).

Definition DirectedSIMD_EncodeVertex (E : DirectedSIMD) (vertex_id : Z) (lists : list Z * list Z) : option DirectedSIMD :=
  E ← DirectedSIMD_EncodeVertex_dir E vertex_id lists.1 true;
  DirectedSIMD_EncodeVertex_dir E vertex_id lists.2 false.

Definition DirectedSIMD_IsDecodable (E : DirectedSIMD) (vertex : Z) (out : bool) : option bool :=
  d ← zget (if out then E.1 else E.2) vertex; BitSetSIMD_IsOne d 0.

(** [NonNeighborTest(vertex1, vertex2, reverse)]: the vector is chosen by
    [reverse], and so is the flag, the other way round. *)
Definition DirectedSIMD_NonNeighborTest (E : DirectedSIMD) (vertex1 vertex2 : Z) (reverse : bool) : option PairType :=
  encode ← zget (if reverse then E.2 else E.1) vertex1;
  decodable ← DirectedSIMD_IsDecodable E vertex1 reverse;
  if (decodable : bool) then DeltaSIMDEncode_FindDecodable heap encode vertex2
  else DeltaSIMDEncode_FindNonDecodable heap per encode vertex2.

Definition DirectedSIMD_NEpairTest (E : DirectedSIMD) (vertex1 vertex2 : Z) : option PairType :=
  encode_type1 ← DirectedSIMD_IsDecodable E vertex1 true;
  encode_type2 ← DirectedSIMD_IsDecodable E vertex2 false;
  if (encode_type1 : bool) then
    if (encode_type2 : bool) then
      type1 ← DirectedSIMD_NonNeighborTest E vertex1 vertex2 false;
      if bool_decide (type1 = Neighbor) then Some type1
      else type2 ← DirectedSIMD_NonNeighborTest E vertex2 vertex1 true; Some (PairType_min type1 type2)
    else DirectedSIMD_NonNeighborTest E vertex1 vertex2 false
  else if (encode_type2 : bool) then DirectedSIMD_NonNeighborTest E vertex2 vertex1 true
  else
    type1 ← DirectedSIMD_NonNeighborTest E vertex1 vertex2 false;
    type2 ← DirectedSIMD_NonNeighborTest E vertex2 vertex1 true;
    Some (PairType_min type1 type2).

(** * DirSIMDVend *)

(** [adjacency_list_->at(vertex)] and [in_adj_list_->at(vertex)]. *)
Definition DirSIMDVend_lists (adjacency_list_ in_adj_list_ : list (list Z)) (vertex : Z) : option (list Z * list Z) :=
  out ← zget adjacency_list_ vertex; inn ← zget in_adj_list_ vertex; Some (out, inn).

Definition unfiltered_pair (filtered : list bool) (lists : list Z * list Z) : option (list Z * list Z) :=
  neighbors ← unfiltered_neighbors filtered lists.1;
  in_neighs ← unfiltered_neighbors filtered lists.2;
  Some (neighbors, in_neighs).

Definition GetRequired_pair (lists : list Z * list Z) : option Z :=
  len ← codec_GetRequiredBytes lists.1;
  in_len ← codec_GetRequiredBytes lists.2;
  Some (u32 (len + in_len)).

(** [BuildEncoding]. *)
Definition DirSIMDVend_BuildEncoding (unordered : gset Z -> list Z) (adjacency_list_ in_adj_list_ : list (list Z))
    (encodes_ : DirectedSIMD) : option (DirectedSIMD * list bool) :=
  max_bytes_len ← SIMDEncode_GetBytesSize {| encode_size_ := VERTEX_SIZE C; encode_bitset_ := encodes_.1 |};
  BuildEncoding (DirSIMDVend_lists adjacency_list_ in_adj_list_) unfiltered_pair (fun lists => lists.1 ++ lists.2)
    GetRequired_pair DirectedSIMD_EncodeVertex
    max_bytes_len (VERTEX_SIZE C) (Z.of_nat (length adjacency_list_)) unordered encodes_.

(** [LoadEncode] and [EncodePersistent]: one file per direction. *)
Definition DirSIMDVend_LoadEncode (E : DirectedSIMD) (file in_file : list (list Z)) : option DirectedSIMD :=
  E ← SIMDEncode_LoadFromDb_dir E.1 E.2 file true;
  SIMDEncode_LoadFromDb_dir E.1 E.2 in_file false.

Definition DirSIMDVend_EncodePersistent (E : DirectedSIMD) : option (list (list Z) * list (list Z)) :=
  file ← SIMDEncode_EncodePersistent_dir C E.1 E.2 true;
  in_file ← SIMDEncode_EncodePersistent_dir C E.1 E.2 false;
  Some (file, in_file).
End DirectedSIMD.

(** * Proofs *)

Section proofs.
Context (C : Config) (k : Z) (Hk : 1 <= k <= 10) (HV : 1 <= VERTEX_SIZE C < 2 ^ 31).
Context (Hper : PER_ENCODE_BIT_SIZE C = 32 * k).
Local Existing Instances DeltaSIMDCodec sequential variant_V0.
Notation V := (VERTEX_SIZE C).
Notation need := (DeltaEncode.need DeltaSIMDCodec).

(** The codes of a vertex: one per direction, each decodable when it fits. *)
Definition dcoded (E : DirectedSIMD) (v : Z) (lists : list Z * list Z) : Prop :=
  vcoded k DeltaSIMDCodec E.1 v lists.1 /\ vcoded k DeltaSIMDCodec E.2 v lists.2.
Definition dfresh (E : DirectedSIMD) (v : Z) : Prop := vfresh k E.1 v /\ vfresh k E.2 v.
Definition dgood (lists : list Z * list Z) : Prop := neighbors_ok C lists.1 /\ neighbors_ok C lists.2.
Definition dneed (lists : list Z * list Z) : Z := need lists.1 + need lists.2.

Lemma need_bound N : neighbors_ok C N -> 0 <= need N < 2 ^ 31.
Proof using HV.
  intros HN. rewrite (need_eq C HV DeltaSIMDCodec _ N HN). pose proof (nb_len _ _ HN).
  destruct (data_len_spec (gen_vals 0 0 N).1 (gen_u32 0 0 N (small_u32s N (nb_small C HV N HN)))) as [_ Hd].
  rewrite length_gen in Hd. pose proof (Z.div_mod (Z.of_nat (length N) + 3) 4 ltac:(lia)).
  pose proof (Z.mod_pos_bound (Z.of_nat (length N) + 3) 4 ltac:(lia)). lia.
Qed.

Lemma directed_encode E v lists :
  dgood lists -> dfresh E v ->
  exists E', DirectedSIMD_EncodeVertex C E v lists = Some E' /\ dcoded E' v lists /\
    (forall w, w <> v -> dfresh E w -> dfresh E' w) /\ (forall w l', w <> v -> dcoded E w l' -> dcoded E' w l').
Proof.
  destruct lists as [N M], E as [out inn]. intros [HN HM] [Fo Fi]. cbn [fst snd] in *.
  unfold DirectedSIMD_EncodeVertex, DirectedSIMD_EncodeVertex_dir. cbn [fst snd]. rewrite Hper.
  destruct (encode_one C k Hk HV DeltaSIMDCodec _ variant_V0 _ out v N HN Fo) as (out' & -> & Ho & Hfo). bind_step. cbn [fst snd].
  destruct (encode_one C k Hk HV DeltaSIMDCodec _ variant_V0 _ inn v M HM Fi) as (inn' & -> & Hi & Hfi). bind_step.
  eexists. split; [done|]. split; [done|]. unfold dfresh, dcoded, vfresh. cbn [fst snd]. split.
  - intros w Hne. by rewrite Hfo, Hfi.
  - intros w l' Hne [H1 H2]. split; by eapply vcoded_frame; [|eassumption]; auto.
Qed.

Lemma directed_peel_laws adj in_adj :
  digraph_ok (VERTEX_SIZE C) (neighbors_ok C) adj in_adj ->
  PeelLaws (DirSIMDVend_lists adj in_adj) unfiltered_pair (fun lists => lists.1 ++ lists.2) GetRequired_pair
    (DirectedSIMD_EncodeVertex C) V (fun v => (neighbors adj v, neighbors in_adj v))
    (fun F lists => (without F lists.1, without F lists.2)) dneed dgood dfresh dcoded.
Proof.
  intros [Hs1 Hs2 Hlists Hrev].
  assert (forall v, 1 <= v <= V -> neighbors_ok C (neighbors adj v) /\ neighbors_ok C (neighbors in_adj v)) as Hgood.
  { intros v Hv. unfold neighbors. destruct (zget_is_Some adj v) as [N EN]; [lia|].
    destruct (zget_is_Some in_adj v) as [M EM]; [lia|]. rewrite EN, EM. cbn. split; apply (Hlists v); auto. }
  assert (forall N x, neighbors_ok C N -> x ∈ N -> 1 <= x <= V) as Hids.
  { intros N x HN. exact (proj1 (Forall_forall _ _) (nb_ids _ _ HN) x). }
  split.
  - intros v Hv. unfold DirSIMDVend_lists, neighbors. destruct (zget_is_Some adj v) as [N ->]; [lia|].
    by destruct (zget_is_Some in_adj v) as [M ->]; [lia|].
  - exact Hgood.
  - intros l x [H1 H2] [?|?]%elem_of_app; eauto.
  - intros u v Hu. cbn [fst snd]. destruct (Hgood u Hu) as [H1 H2]. rewrite !elem_of_app. intros [Hv|Hv].
    + right. by apply Hrev; [| |]; eauto.
    + left. by apply Hrev; [| |]; eauto.
  - intros f l [H1 H2] Hf. unfold unfiltered_pair.
    assert (forall N, neighbors_ok C N -> Forall (fun x => 0 <= x < Z.of_nat (length f)) N) as Hr.
    { intros N HN. eapply Forall_impl; [by apply HN|]. simpl. lia. }
    by rewrite !unfiltered_neighbors_spec by auto.
  - intros F l [H1 H2]. split; by apply neighbors_ok_without.
  - intros [N M]. cbn [fst snd]. by rewrite !without_none.
  - intros F G [N M] H. cbn [fst snd] in *. f_equal; apply without_ext; intros x Hx; apply H, elem_of_app; auto.
  - intros F [N M] x. cbn [fst snd]. rewrite !elem_of_app, !elem_without. tauto.
  - intros l [H1 H2]. unfold GetRequired_pair. rewrite !(required_need C HV DeltaSIMDCodec _) by done. bind_step.
    pose proof (need_bound _ H1). pose proof (need_bound _ H2). unfold dneed. by rewrite u32_small by lia.
  - intros E v l _. apply directed_encode.
Qed.

(** The flags of the two codes of a vertex. *)
Definition flags_agree (E : DirectedSIMD) (v : Z) : Prop :=
  DirectedSIMD_IsDecodable E v true = DirectedSIMD_IsDecodable E v false.

Definition dfits (N : list Z) : bool := need N <=? 4 * k - 1.

Lemma IsOne_first d : BitSetSIMD_IsOne d 0 = BitSetSIMD_GetFirstBit d.
Proof using Type. reflexivity. Qed.

Lemma dcoded_flags E v lists :
  dcoded E v lists ->
  DirectedSIMD_IsDecodable E v true = Some (dfits lists.1) /\ DirectedSIMD_IsDecodable E v false = Some (dfits lists.2).
Proof using Type.
  intros [[_ (d1 & E1 & B1 & _)] [_ (d2 & E2 & B2 & _)]]. unfold DirectedSIMD_IsDecodable. rewrite E1, E2. bind_step.
  by rewrite !IsOne_first, B1, B2.
Qed.

(** A test of one direction, when the flags agree. *)
Lemma directed_NonNeighborTest heap E v lists x reverse (N := if reverse : bool then lists.2 else lists.1) :
  dcoded E v lists -> dfits lists.1 = dfits lists.2 -> 0 <= x < 2 ^ 31 ->
  exists t, DirectedSIMD_NonNeighborTest C heap E v x reverse = Some t /\
    answers t (x ∈ N) /\ (dfits N = true -> t <> Uncertain).
Proof.
  intros Hc Hagree Hx. destruct (dcoded_flags E v lists Hc) as [F1 F2].
  destruct Hc as [[S1 C1] [S2 C2]]. fold (dfits lists.1) in C1. fold (dfits lists.2) in C2.
  unfold DirectedSIMD_NonNeighborTest. rewrite Hper. subst N. destruct reverse.
  - destruct (coded_Find heap k Hk E.2 v lists.2 _ x S2 C2 Hx) as (d & t & Ed & _ & Ef & Ha & Hcert).
    rewrite Ed. bind_step. rewrite F1, Hagree. bind_step. exists t. unfold Find in Ef. by destruct (dfits lists.2).
  - destruct (coded_Find heap k Hk E.1 v lists.1 _ x S1 C1 Hx) as (d & t & Ed & _ & Ef & Ha & Hcert).
    rewrite Ed. bind_step. rewrite F2, <- Hagree. bind_step. exists t. unfold Find in Ef. by destruct (dfits lists.1).
Qed.

Lemma directed_NEpairTest heap E u v lu lv edge :
  dcoded E u lu -> dcoded E v lv -> dfits lu.1 = dfits lu.2 -> dfits lv.1 = dfits lv.2 ->
  0 <= u < 2 ^ 31 -> 0 <= v < 2 ^ 31 -> covers_edge (dfits lu.1) (dfits lv.2) lu.1 lv.2 u v edge ->
  exists t, DirectedSIMD_NEpairTest C heap E u v = Some t /\ answers t edge /\
    (dfits lu.1 || dfits lv.2 = true -> t <> Uncertain).
Proof.
  intros Cu Cv Au Av Hu Hv (H1 & H2 & H3).
  destruct (dcoded_flags E u lu Cu) as [Fu _]. destruct (dcoded_flags E v lv Cv) as [_ Fv].
  destruct (directed_NonNeighborTest heap E u lu v false Cu Au Hv) as (t1 & E1 & A1 & N1).
  destruct (directed_NonNeighborTest heap E v lv u true Cv Av Hu) as (t2 & E2 & A2 & N2).
  cbn [fst snd] in A1, A2, N1, N2.
  unfold DirectedSIMD_NEpairTest. rewrite Fu, Fv. bind_step.
  destruct (dfits lu.1), (dfits lv.2); rewrite ?E1, ?E2; bind_step; rewrite ?E2; bind_step.
  - specialize (N1 eq_refl). specialize (N2 eq_refl). destruct t1, t2; try done; simpl in *;
      eexists; (split; [done|]); simpl; split; try done; tauto.
  - specialize (N1 eq_refl). exists t1. split; [done|]. destruct t1; simpl in *; split; try done; tauto.
  - specialize (N2 eq_refl). exists t2. split; [done|]. destruct t2; simpl in *; split; try done; tauto.
  - eexists. split; [done|]. destruct t1, t2; simpl in *; split; try done; tauto.
Qed.

Lemma directed_build adj in_adj unordered :
  digraph_ok (VERTEX_SIZE C) (neighbors_ok C) adj in_adj -> (forall s x, x ∈ unordered s <-> x ∈ s) ->
  exists E f, DirSIMDVend_BuildEncoding C unordered adj in_adj (DirectedSIMD_default C) = Some (E, f) /\
    forall heap u v, 1 <= u <= V -> 1 <= v <= V ->
      gone f u = true \/ flags_agree E u -> gone f v = true \/ flags_agree E v ->
      exists t, DirectedSIMD_NEpairTest C heap E u v = Some t /\ answers t (v ∈ neighbors adj u) /\
        (gone f u || gone f v = true -> t <> Uncertain).
Proof.
  intros Hg Hun. pose proof (digraph_size _ _ _ _ Hg) as Hsize.
  unfold DirSIMDVend_BuildEncoding, DirectedSIMD_default. cbn [fst]. rewrite Hsize.
  rewrite (default_GetBytesSize C k Hk HV Hper). bind_step.
  destruct (BuildEncoding_ok _ _ _ _ _ _ _ _ _ _ _ _ (directed_peel_laws adj in_adj Hg) (4 * k - 1) ltac:(lia) unordered Hun
    (DirectedSIMD_default C)) as (E & f & F & HB & Hcoded & Hpeel & _).
  { intros v Hv. split; [by apply default_fresh|]. unfold vfresh, DirectedSIMD_default. cbn [snd]. rewrite Hper.
    unfold vertex in Hv. rewrite zget_lookup by lia. by rewrite lookup_replicate_2 by lia. }
  exists E, f. split; [exact HB|]. intros heap u v Hu Hv Gu Gv.
  destruct (Hcoded u Hu) as [Cu Fu]. destruct (Hcoded v Hv) as [Cv Fv].
  assert (forall w, 1 <= w <= V -> gone f w = true \/ flags_agree E w ->
    dfits (left_of (fun v => (neighbors adj v, neighbors in_adj v)) (fun F l => (without F l.1, without F l.2)) F w).1 =
    dfits (left_of (fun v => (neighbors adj v, neighbors in_adj v)) (fun F l => (without F l.1, without F l.2)) F w).2 /\
    (gone f w = true -> dfits (without (F w) (neighbors adj w)) = true /\ dfits (without (F w) (neighbors in_adj w)) = true)) as Hflags.
  { intros w Hw Gw. destruct (Hcoded w Hw) as [Cw Fw]. unfold left_of in *. cbn [fst snd] in *.
    assert (gone f w = true -> dfits (without (F w) (neighbors adj w)) = true /\ dfits (without (F w) (neighbors in_adj w)) = true) as Hfit.
    { intros Gt. rewrite Gt in Fw. unfold KCore.fits, dneed in Fw. cbn [fst snd] in Fw. apply Z.leb_le in Fw.
      assert (forall N, 0 <= need N) as Hpos by (intros; unfold DeltaEncode.need; lia).
      pose proof (Hpos (without (F w) (neighbors adj w))). pose proof (Hpos (without (F w) (neighbors in_adj w))).
      unfold dfits. split; apply Z.leb_le; lia. }
    split; [|exact Hfit]. destruct Gw as [Gt|Ga]; [by destruct (Hfit Gt) as [-> ->]|].
    destruct (dcoded_flags E w _ Cw) as [F1 F2]. unfold flags_agree in Ga. rewrite F1, F2 in Ga. by injection Ga. }
  destruct (Hflags u Hu Gu) as [Au Du]. destruct (Hflags v Hv Gv) as [Av Dv].
  destruct (directed_NEpairTest heap E u v _ _ (v ∈ neighbors adj u) Cu Cv Au Av) as (t & Et & Ht & Hcert); [lia..| |].
  - unfold left_of. cbn [fst snd]. apply (peeled_covers V f F); [done..| | |by apply (digraph_reverse _ _ _ _ Hg)].
    + apply Du.
    + apply Dv.
  - exists t. split; [done|]. split; [done|]. intros Hgone. apply Hcert. unfold left_of. cbn [fst snd].
    apply orb_true_iff in Hgone as [G|G]; [rewrite (proj1 (Du G))|rewrite (proj2 (Dv G)), orb_true_r]; done.
Qed.
End proofs.

(** * Properties *)

(** C10: for every directed graph, whatever the iteration order, [BuildEncoding]
    returns, and the test of an edge is defined and never wrong when for each of
    its ends the two codes are both decodable or both not, which holds of every
    filtered vertex; it is certain when an end was filtered. *)
Theorem DirBuildEncoding_sound (C : Config) (k : Z) (adj in_adj : list (list Z)) (unordered : gset Z -> list Z)
    (Hk : 1 <= k <= 10) (HV : 1 <= VERTEX_SIZE C < 2 ^ 31) (Hper : PER_ENCODE_BIT_SIZE C = 32 * k)
    (Hgraph : digraph_ok (VERTEX_SIZE C) (neighbors_ok C) adj in_adj) (Horder : forall s x, x ∈ unordered s <-> x ∈ s) :
  exists E f, DirSIMDVend_BuildEncoding C unordered adj in_adj (DirectedSIMD_default C) = Some (E, f) /\
    forall heap u v, 1 <= u <= VERTEX_SIZE C -> 1 <= v <= VERTEX_SIZE C ->
      gone f u = true \/ flags_agree E u -> gone f v = true \/ flags_agree E v ->
      exists t, DirectedSIMD_NEpairTest C heap E u v = Some t /\ answers t (v ∈ neighbors adj u) /\
        (gone f u || gone f v = true -> t <> Uncertain).
Proof. by apply (directed_build C k). Qed.

(** * Witness and finding *)

(** The clique with the path, every edge in both directions. *)
Lemma clique_path_digraph : digraph_check 20 (list_check small_config) clique_path clique_path = true.
Proof. vm_compute. reflexivity. Qed.

Lemma DirBuildEncoding_sound_witness :
  exists E f, DirSIMDVend_BuildEncoding small_config elements clique_path clique_path (DirectedSIMD_default small_config)
      = Some (E, f) /\
    forall heap u v, 1 <= u <= VERTEX_SIZE small_config -> 1 <= v <= VERTEX_SIZE small_config ->
      gone f u = true \/ flags_agree E u -> gone f v = true \/ flags_agree E v ->
      exists t, DirectedSIMD_NEpairTest small_config heap E u v = Some t /\ answers t (v ∈ neighbors clique_path u) /\
        (gone f u || gone f v = true -> t <> Uncertain).
Proof.
  apply (DirBuildEncoding_sound small_config 3 clique_path clique_path elements).
  - lia.
  - vm_compute. split; [discriminate|reflexivity].
  - reflexivity.
  - exact (digraph_check_ok 20 _ _ _ _ (list_check_ok small_config) clique_path_digraph).
  - intros s x. apply elem_of_elements.
Defined.

(** [NonNeighborTest] decides with the flag of the other direction's code: with
    edges from 1, ..., 10 to 11, ..., 20, the out-code of 1 is partial and its
    empty in-code is not, and the edge from 1 to 19 is answered NonNeighbor. *)
Definition half_out : list (list Z) := map (fun v => if (1 <=? v) && (v <=? 10) then seqZ 11 10 else []) (seqZ 0 21).
Definition half_in : list (list Z) := map (fun v => if 11 <=? v then seqZ 1 10 else []) (seqZ 0 21).

Example directed_flag_swapped :
  digraph_check 20 (list_check small_config) half_out half_in = true /\ 19 ∈ neighbors half_out 1 /\
  (r ← DirSIMDVend_BuildEncoding small_config elements half_out half_in (DirectedSIMD_default small_config);
   DirectedSIMD_NEpairTest small_config (fun _ => 0) r.1 1 19) = Some NonNeighbor.
Proof. split; [vm_compute; reflexivity|]. split; [apply (bool_decide_unpack _); vm_compute; exact I|vm_compute; reflexivity]. Qed.
