(* ===== verification/Graph.v ===== *)
(** The graph and its database: [Graph] and [LargeGraph]
    ([src/graph/graph.cpp], [src/include/graph/graph.h],
    [src/graph/large_graph.cpp]) and the helper [Utils::binary_erase]
    ([src/include/util/utils.h]).

    A data file is the list of its lines, each the two numbers that [sscanf]
    reads or nothing. Exceptions of [vector::at] are [None]; UNDIRECTED and
    IN_MEMORY are 1. *)
From stdpp Require Import sorting.
From S2P Require Import Prelude Config BitSet Encode BFilter Db DeltaEncode KCore DeltaVend.
From stdpp Require Import options.
Local Open Scope Z_scope.
Set Default Proof Using "Type*".

(** * Searching a sorted list *)

(** [std::lower_bound] by halving, and [std::binary_search]. A turn halves the
    range, so its length is fuel enough. *)
Fixpoint lower_bound (fuel : nat) (l : list Z) (first len val : Z) : option Z :=
  if len <=? 0 then Some first
  else match fuel with
       | O => None
       | S fuel =>
           let half := Z.shiftr len 1 in
           let middle := first + half in
           x ← zget l middle;
           if x <? val then lower_bound fuel l (middle + 1) (len - half - 1) val
           else lower_bound fuel l first half val
       end.

Definition binary_search (l : list Z) (val : Z) : option bool :=
  first ← lower_bound (length l) l 0 (Z.of_nat (length l)) val;
  if first =? Z.of_nat (length l) then Some false
  else x ← zget l first; Some (negb (val <? x)).

(** [Utils::binary_erase]: whether the vertex was there, and the list without
    it. The indices are of type [int]: the sum of the ends wraps around for
    lists of more than [2 ^ 30] elements, and the middle is then negative, an
    index out of range. *)
Fixpoint binary_erase_loop (fuel : nat) (neighbors : list Z) (vertex begin end_ : Z) : option (bool * list Z) :=
  if end_ <? begin then Some (false, neighbors)
  else match fuel with
       | O => None
       | S fuel =>
           let mid := Z.quot (s32 (begin + end_)) 2 in
           x ← zget neighbors mid;
           if x =? vertex then Some (true, take (Z.to_nat mid) neighbors ++ drop (Z.to_nat mid + 1) neighbors)
           else if x <? vertex then binary_erase_loop fuel neighbors vertex (mid + 1) end_
           else binary_erase_loop fuel neighbors vertex begin (mid - 1)
       end.

Definition binary_erase (neighbors : list Z) (vertex : Z) : option (bool * list Z) :=
  binary_erase_loop (length neighbors) neighbors vertex 0 (s32 (u64 (Z.of_nat (length neighbors) - 1))).

(** * Graph *)

Section Graph.
Context (C : Config).

Definition push_back_at (adj : list (list Z)) (vertex x : Z) : option (list (list Z)) :=
  l ← zget adj vertex; zset adj vertex (l ++ [x]).

Definition sort_at (adj : list (list Z)) (vertex : Z) : option (list (list Z)) :=
  l ← zget adj vertex; zset adj vertex (merge_sort Z.le l).

Definition resize_vertices (adj : list (list Z)) : list (list Z) := resize (Z.to_nat (VERTEX_SIZE C + 1)) [] adj.

(** [LoadData]: the lines are added to the lists, which are then sorted. The
    edges of a directed graph are added in both directions too. *)
Definition Graph_add_line (directed_ : bool) (line : option (Z * Z)) (st : list (list Z) * list (list Z))
  : option (list (list Z) * list (list Z)) :=
  match line with
  | Some (vertex1, vertex2) =>
      adj ← push_back_at st.1 vertex1 vertex2;
      in_adj ← (if directed_ then push_back_at st.2 vertex2 vertex1 else Some st.2);
      adj ← push_back_at adj vertex2 vertex1;
      Some (adj, in_adj)
  | None => Some st
  end.

Definition Graph_LoadData (directed_ : bool) (file : list (option (Z * Z)))
    (adjacency_list_ in_adj_list_ : list (list Z)) : option (list (list Z) * list (list Z)) :=
  let adj := resize_vertices adjacency_list_ in
  let in_adj := if directed_ then resize_vertices in_adj_list_ else in_adj_list_ in
  st ← foldM (Graph_add_line directed_) file (adj, in_adj);
  for_loop (Z.to_nat (VERTEX_SIZE C)) 1
    (fun i st =>
       adj ← sort_at st.1 i;
       in_adj ← (if directed_ then sort_at st.2 i else Some st.2);
       Some (adj, in_adj)) st.

Section db.
Context {T : Type} `{Store T}.

(** [SaveData]: the lists are appended to those already stored. *)
Definition Graph_SaveData (adjacency_list_ : list (list Z)) (graph_db_ : T) : option T :=
  _ ← guardb (negb (Z.of_nat (length adjacency_list_) =? 0));
  for_loop (Z.to_nat (VERTEX_SIZE C)) 1
    (fun id db =>
       l ← zget adjacency_list_ id;
       if Z.of_nat (length l) =? 0 then Some db
       else
         let neighbors := (RocksDb_Get db id []).2 in
         Some (RocksDb_Put db id (neighbors ++ l))) graph_db_.

(** [LoadDataFromDb]. *)
Definition Graph_LoadDataFromDb (adjacency_list_ : list (list Z)) (graph_db_ : T) : option (list (list Z)) :=
  rows ← RocksDb_scan graph_db_;
  foldM (fun row adj => zset adj row.1 (merge_sort Z.le row.2)) rows (resize_vertices adjacency_list_).

(** [DbInsert]: one vector serves both ends, and is not cleared in between. *)
Definition Graph_DbInsert (graph_db_ : T) (vertex1 vertex2 : Z) : T :=
  let neighbors := (RocksDb_Get graph_db_ vertex1 []).2 in
  let neighbors := neighbors ++ [vertex2] in
  let db := RocksDb_Put graph_db_ vertex1 neighbors in
  let neighbors := (RocksDb_Get db vertex2 neighbors).2 in
  let neighbors := neighbors ++ [vertex1] in
  RocksDb_Put db vertex2 neighbors.

Definition DbDelete_one (db : T) (vertex1 vertex2 : Z) : T :=
  let neighbors := (RocksDb_Get db vertex1 []).2 in
  match erase_first vertex2 neighbors with
  | Some neighbors => RocksDb_Put db vertex1 neighbors
  | None => db
  end.

Definition Graph_DbDelete (graph_db_ : T) (vertex1 vertex2 : Z) : T :=
  DbDelete_one (DbDelete_one graph_db_ vertex1 vertex2) vertex2 vertex1.

(** [DbQuery], with [db_type_] 0. *)
Definition Graph_DbQuery (graph_db_ : T) (vertex1 vertex2 : Z) : option bool :=
  binary_search (RocksDb_Get graph_db_ vertex1 []).2 vertex2.

Definition Graph_GetNeighbors (graph_db_ : T) (vertex : Z) (neighbors : list Z) : list Z :=
  (RocksDb_Get graph_db_ vertex neighbors).2.

Definition Graph_GetNeighborSize (graph_db_ : T) (vertex : Z) : Z :=
  s32 (Z.of_nat (length (RocksDb_Get graph_db_ vertex []).2)).

(** [LargeGraph::UpdateEdges], over the rows of the map in its order. *)
Definition LargeGraph_UpdateEdges (graph_db_ : T) (adj : list (Z * list Z)) : option T :=
  let values := map (fun row => let '(found, old) := RocksDb_Get graph_db_ row.1 [] in
                                if (found : bool) then old ++ row.2 else row.2) adj in
  RocksDb_BatchWrite graph_db_ (map fst adj) values.

(** [LargeGraph::InitGraph]: the lists as they are stored. *)
Definition LargeGraph_InitGraph (graph_db_ : T) : option (list (list Z)) :=
  rows ← RocksDb_scan graph_db_;
  foldM (fun row adj => zset adj row.1 row.2) rows (resize_vertices []).
End db.

(** [TestEdgeByAdj]: the shorter list is searched. *)
Definition Graph_TestEdgeByAdj (adjacency_list_ : list (list Z)) (vertex1 vertex2 : Z) : option bool :=
  l1 ← zget adjacency_list_ vertex1;
  l2 ← zget adjacency_list_ vertex2;
  if Z.of_nat (length l2) <? Z.of_nat (length l1) then binary_search l2 vertex1 else binary_search l1 vertex2.
End Graph.

(** [LargeGraph::LoadAndSaveData] only counts: the lines that are edges, and
    the vertices in them. *)
Definition LargeGraph_LoadAndSaveData (file : list (option (Z * Z))) : Z * Z :=
  let edges := omap (fun line => line) file in
  (u64 (Z.of_nat (length edges)),
   Z.of_nat (size (list_to_set (flat_map (fun e => [e.1; e.2]) edges) : gset Z))).

(** * Proofs: searching *)

(** The elements before the range are smaller, those from its end on are not. *)
Lemma lower_bound_ok fuel l first len val :
  StronglySorted Z.lt l -> 0 <= first -> 0 <= len <= Z.of_nat fuel -> first + len <= Z.of_nat (length l) ->
  (forall i x, zget l i = Some x -> i < first -> x < val) ->
  (forall i x, zget l i = Some x -> first + len <= i -> val <= x) ->
  exists r, lower_bound fuel l first len val = Some r /\ 0 <= r <= Z.of_nat (length l) /\
    (forall i x, zget l i = Some x -> (i < r -> x < val) /\ (r <= i -> val <= x)).
Proof.
  intros Hs. revert first len. induction fuel as [|fuel IH]; intros first len Hf Hl Hfl Hlo Hhi.
  { cbn [lower_bound]. rewrite (proj2 (Z.leb_le len 0)) by lia. exists first. split; [done|]. split; [lia|].
    intros i x Hx. split; [by apply (Hlo i)|]. intros. apply (Hhi i); (done || lia). }
  cbn [lower_bound]. destruct (Z.leb_spec len 0).
  { exists first. split; [done|]. split; [lia|]. intros i x Hx. split; [by apply (Hlo i)|]. intros. apply (Hhi i); (done || lia). }
  rewrite Z.shiftr_div_pow2 by lia. change (2 ^ 1) with 2.
  pose proof (Z.div_mod len 2 ltac:(lia)). pose proof (Z.mod_pos_bound len 2 ltac:(lia)).
  destruct (zget_is_Some l (first + len / 2)) as [x Hx]; [lia|]. rewrite Hx. bind_step.
  destruct (Z.ltb_spec x val).
  - apply IH; [lia..| |].
    + intros i y Hy Hi. destruct (decide (i = first + len / 2)) as [->|]; [assert (y = x) by congruence; lia|].
      pose proof (sorted_zget l i (first + len / 2) y x Hs Hy Hx ltac:(lia)). lia.
    + intros i y Hy Hi. apply (Hhi i); [done|lia].
  - apply IH; [lia..|done|].
    intros i y Hy Hi. destruct (decide (i = first + len / 2)) as [->|]; [assert (y = x) by congruence; lia|].
    pose proof (sorted_zget l (first + len / 2) i x y Hs Hx Hy ltac:(lia)). lia.
Qed.

Lemma binary_search_sorted l val :
  StronglySorted Z.lt l -> binary_search l val = Some (bool_decide (val ∈ l)).
Proof.
  intros Hs. unfold binary_search.
  destruct (lower_bound_ok (length l) l 0 (Z.of_nat (length l)) val Hs) as (r & -> & Hr & Hsplit); [lia..| | |].
  - intros i x [? _]%zget_Some_inv ?. lia.
  - intros i x [? _]%zget_Some_inv ?. lia.
  - bind_step. destruct (Z.eqb_spec r (Z.of_nat (length l))) as [->|Hne].
    + rewrite bool_decide_false; [done|]. intros (i & Hi & Hb)%elem_zget. destruct (Hsplit i val Hi). lia.
    + destruct (zget_is_Some l r) as [x Hx]; [lia|]. rewrite Hx. bind_step. f_equal.
      destruct (Hsplit r x Hx) as [_ Hge]. specialize (Hge ltac:(lia)). destruct (Z.ltb_spec val x).
      * symmetry. apply bool_decide_eq_false. intros (i & Hi & Hb)%elem_zget. destruct (Hsplit i val Hi) as [H1 H2].
        destruct (Z.lt_total i r) as [?|[->|?]]; [lia|assert (x = val) by congruence; lia|].
        pose proof (sorted_zget l r i x val Hs Hx Hi ltac:(lia)). lia.
      * symmetry. apply bool_decide_eq_true. replace val with x by lia. by apply (zget_elem l r).
Qed.

Lemma binary_erase_loop_ok fuel l vertex begin end_ :
  StronglySorted Z.lt l -> Z.of_nat (length l) <= 2 ^ 30 ->
  0 <= begin -> end_ < Z.of_nat (length l) -> end_ - begin < Z.of_nat fuel ->
  (forall i x, zget l i = Some x -> i < begin -> x < vertex) ->
  (forall i x, zget l i = Some x -> end_ < i -> vertex < x) ->
  exists r, binary_erase_loop fuel l vertex begin end_ = Some (r, filter (fun x => x <> vertex) l) /\
    r = bool_decide (vertex ∈ l).
Proof.
  intros Hs Hlen. revert begin end_.
  assert (forall begin end_, end_ < begin -> (forall i x, zget l i = Some x -> i < begin -> x < vertex) ->
    (forall i x, zget l i = Some x -> end_ < i -> vertex < x) -> vertex ∉ l) as Habsent.
  { intros begin end_ Hlt Hlo Hhi (i & Hi & _)%elem_zget. specialize (Hlo i _ Hi). specialize (Hhi i _ Hi). lia. }
  assert (vertex ∉ l -> filter (fun x => x <> vertex) l = l) as Hfilter.
  { clear. induction l as [|x l IH]; intros Hn; [done|]. rewrite filter_cons_True by (intros ->; apply Hn; by left).
    f_equal. apply IH. intros Hin. apply Hn. by right. }
  induction fuel as [|fuel IH]; intros begin end_ Hb He Hf Hlo Hhi; cbn [binary_erase_loop].
  - rewrite (proj2 (Z.ltb_lt end_ begin)) by lia. pose proof (Habsent begin end_ ltac:(lia) Hlo Hhi) as Ha.
    rewrite Hfilter by done. eexists. split; [done|]. by rewrite bool_decide_false.
  - destruct (Z.ltb_spec end_ begin).
    { pose proof (Habsent begin end_ ltac:(lia) Hlo Hhi) as Ha. rewrite Hfilter by done. eexists. split; [done|].
      by rewrite bool_decide_false. }
    rewrite s32_small, Z.quot_div_nonneg by lia.
    pose proof (Z.div_mod (begin + end_) 2 ltac:(lia)). pose proof (Z.mod_pos_bound (begin + end_) 2 ltac:(lia)).
    set (mid := (begin + end_) / 2) in *. destruct (zget_is_Some l mid) as [x Hx]; [lia|]. rewrite Hx. bind_step.
    destruct (Z.eqb_spec x vertex) as [->|Hne]; [|destruct (Z.ltb_spec x vertex)].
    + exists true. split; [|symmetry; apply bool_decide_eq_true; by apply (zget_elem l mid)]. do 2 f_equal.
      apply zget_Some_inv in Hx as Hx'. destruct Hx' as [Hm Hl]. rewrite <- (take_drop_middle l _ _ Hl) at 3.
      rewrite filter_app, filter_cons_False by (intros H'; by apply H'). rewrite Nat.add_1_r.
      assert (forall l' : list Z, (forall y, y ∈ l' -> y <> vertex) -> filter (fun x => x <> vertex) l' = l') as Hall.
      { clear. induction l' as [|y l' IH]; intros H; [done|]. rewrite filter_cons_True by (apply H; by left).
        f_equal. apply IH. intros z Hz. apply H. by right. }
      rewrite !Hall; [done|..].
      * intros y (i & Hi)%list_elem_of_lookup_1 ->. rewrite lookup_drop in Hi.
        pose proof (sorted_lookup l _ _ _ _ Hs Hl Hi ltac:(lia)). lia.
      * intros y (i & Hi)%list_elem_of_lookup_1 ->. apply lookup_take_Some in Hi as [Hi ?].
        pose proof (sorted_lookup l _ _ _ _ Hs Hi Hl ltac:(lia)). lia.
    + apply IH; [lia..| |done]. intros i y Hy Hi. destruct (decide (i = mid)) as [->|]; [assert (y = x) by congruence; lia|].
      pose proof (sorted_zget l i mid y x Hs Hy Hx ltac:(lia)). lia.
    + apply IH; [lia..|done|]. intros i y Hy Hi. destruct (decide (i = mid)) as [->|]; [assert (y = x) by congruence; lia|].
      pose proof (sorted_zget l mid i x y Hs Hx Hy ltac:(lia)). lia.
Qed.

(** * Proofs: loading a file *)

Section load.
Context (C : Config) (HV : 1 <= VERTEX_SIZE C < 2 ^ 28).
Notation V := (VERTEX_SIZE C).

(** The edges of a file, and a file of distinct edges between distinct ids. *)
Definition file_edges (file : list (option (Z * Z))) : list (Z * Z) := omap (fun line => line) file.

Record simple_file (file : list (option (Z * Z))) : Prop := {
  simple_ids u v : (u, v) ∈ file_edges file -> 1 <= u <= V /\ 1 <= v <= V /\ u <> v;
  simple_nodup : NoDup (map (fun e => ordered_pair e.1 e.2) (file_edges file))
}.

Definition joined (E : list (Z * Z)) (u v : Z) : Prop := (u, v) ∈ E \/ (v, u) ∈ E.

Lemma joined_pair E u v : joined E u v <-> ordered_pair u v ∈ map (fun e => ordered_pair e.1 e.2) E.
Proof using Type.
  unfold joined. split.
  - intros [H|H]; apply list_elem_of_fmap; [exists (u, v)|exists (v, u)]; split; try done. apply ordered_pair_swap.
  - intros ([a b] & Heq & Hin)%list_elem_of_fmap. unfold ordered_pair in Heq. cbn [fst snd] in Heq.
    destruct (v <? u), (b <? a); injection Heq as <- <-; auto.
Qed.

(** The unsorted list of [v] after the edges [E]. *)
Definition list_of (E : list (Z * Z)) (v : Z) (N : list Z) : Prop := NoDup N /\ forall x, x ∈ N <-> joined E v x.

Lemma push_back_ok adj v x N :
  zget adj v = Some N ->
  exists adj', push_back_at adj v x = Some adj' /\ length adj' = length adj /\
    forall w, zget adj' w = if w =? v then Some (N ++ [x]) else zget adj w.
Proof using Type.
  intros HN. unfold push_back_at. rewrite HN. bind_step. pose proof (zget_Some_inv _ _ _ HN) as [Hb _].
  rewrite zset_Some by done. eexists. split; [done|]. split; [apply length_insert|].
  intros w. by rewrite (zget_zset adj v w _ _ (zset_Some _ _ _ Hb)).
Qed.

Lemma add_line_ok E line adj in_adj :
  Z.of_nat (length adj) = V + 1 ->
  (forall v, 1 <= v <= V -> exists N, zget adj v = Some N /\ list_of E v N) ->
  (forall u v, line = Some (u, v) -> 1 <= u <= V /\ 1 <= v <= V /\ u <> v /\ ~ joined E u v) ->
  zget adj 0 = Some [] ->
  exists adj', Graph_add_line false line (adj, in_adj) = Some (adj', in_adj) /\ Z.of_nat (length adj') = V + 1 /\
    zget adj' 0 = Some [] /\
    forall v, 1 <= v <= V -> exists N, zget adj' v = Some N /\ list_of (E ++ option_list line) v N.
Proof.
  intros Hl Hadj Hline H0. destruct line as [[a b]|]; cbn [Graph_add_line option_list fst snd].
  2:{ exists adj. split; [done|]. split; [done|]. split; [done|]. intros v Hv. rewrite app_nil_r. by apply Hadj. }
  destruct (Hline a b eq_refl) as (Ha & Hb & Hab & Hnew).
  destruct (Hadj a Ha) as (Na & ENa & Hnda & Hela). destruct (Hadj b Hb) as (Nb & ENb & Hndb & Helb).
  destruct (push_back_ok adj a b Na ENa) as (adj1 & -> & Hl1 & H1). bind_step.
  destruct (push_back_ok adj1 b a Nb) as (adj2 & -> & Hl2 & H2).
  { rewrite H1. by rewrite (proj2 (Z.eqb_neq b a)) by congruence. }
  bind_step. exists adj2. split; [done|]. split; [lia|]. split.
  { rewrite H2, H1. rewrite !(proj2 (Z.eqb_neq _ _)) by lia. done. }
  assert (forall v x, joined (E ++ [(a, b)]) v x <-> joined E v x \/ (v = a /\ x = b) \/ (v = b /\ x = a)) as Hj.
  { intros v x. unfold joined. rewrite !elem_of_app, !list_elem_of_singleton. split; [|intuition (subst; auto)].
    intros [[?|[= -> ->]]|[?|[= -> ->]]]; auto. }
  assert (forall N v x, list_of E v N -> ~ joined E v x -> NoDup (N ++ [x])) as Hnd.
  { intros N v x [Hn He] Hx. apply NoDup_app. split; [done|]. split; [|apply NoDup_singleton].
    intros y Hy ->%list_elem_of_singleton. by apply Hx, He. }
  assert (~ joined E b a) as Hnew' by (unfold joined in *; tauto).
  intros v Hv. rewrite H2, H1. destruct (Z.eqb_spec v b) as [->|Hvb]; [|destruct (Z.eqb_spec v a) as [->|Hva]].
  - eexists. split; [done|]. split; [by apply (Hnd Nb b a)|]. intros x.
    rewrite elem_of_app, list_elem_of_singleton, Helb, Hj. intuition (subst; auto; congruence).
  - eexists. split; [done|]. split; [by apply (Hnd Na a b)|]. intros x.
    rewrite elem_of_app, list_elem_of_singleton, Hela, Hj. intuition (subst; auto; congruence).
  - destruct (Hadj v Hv) as (N & EN & Hndv & Helv). exists N. split; [done|]. split; [done|]. intros x.
    rewrite Helv, Hj. intuition (subst; auto; congruence).
Qed.

Lemma list_of_ok E v N :
  (forall u x, (u, x) ∈ E -> 1 <= u <= V /\ 1 <= x <= V /\ u <> x) -> list_of E v N ->
  neighbors_ok C (merge_sort Z.le N) /\ forall x, x ∈ merge_sort Z.le N <-> joined E v x.
Proof.
  intros HE [Hnd Hel].
  assert (forall x, x ∈ N -> 1 <= x <= V) as Hids.
  { intros x Hx. apply Hel in Hx. destruct Hx as [Hx|Hx]; apply HE in Hx; lia. }
  split; [|intros x; by rewrite merge_sort_Permutation]. split.
  - by apply sort_strict.
  - apply Forall_forall. intros x. rewrite merge_sort_Permutation. apply Hids.
  - rewrite merge_sort_Permutation. assert (N ⊆+ seqZ 1 V) as Hsub.
    { apply NoDup_submseteq; [done|]. intros x Hx. apply elem_of_seqZ. specialize (Hids x Hx). lia. }
    apply submseteq_length in Hsub. rewrite length_seqZ in Hsub. lia.
Qed.

(** The lists while the lines are read, and while they are sorted. *)
Definition raw_lists (E : list (Z * Z)) (adj : list (list Z)) : Prop :=
  Z.of_nat (length adj) = V + 1 /\ zget adj 0 = Some [] /\
  forall v, 1 <= v <= V -> exists N, zget adj v = Some N /\ list_of E v N.

Definition sorted_to (E : list (Z * Z)) (n : Z) (adj : list (list Z)) : Prop :=
  Z.of_nat (length adj) = V + 1 /\ zget adj 0 = Some [] /\
  (forall v, n <= v <= V -> exists N, zget adj v = Some N /\ list_of E v N) /\
  (forall v, 1 <= v < n -> exists N, zget adj v = Some N /\ neighbors_ok C N /\ forall x, x ∈ N <-> joined E v x).

Lemma read_lines_ok file :
  simple_file file ->
  exists adj, foldM (Graph_add_line false) file (resize_vertices C [], []) = Some (adj, []) /\
    raw_lists (file_edges file) adj.
Proof.
  intros [Hids Hnd]. unfold resize_vertices. rewrite resize_nil.
  destruct (foldM_inv (fun pre st => st.2 = [] /\ raw_lists (file_edges pre) st.1)
    (Graph_add_line false) file (replicate (Z.to_nat (V + 1)) [], [])) as ([adj in_adj] & -> & Hin & Hadj).
  - cbn [fst snd]. split; [done|]. split; [rewrite length_replicate; lia|]. split.
    { rewrite zget_lookup by lia. by rewrite lookup_replicate_2 by lia. }
    intros v Hv. exists []. rewrite zget_lookup by lia. rewrite lookup_replicate_2 by lia. split; [done|].
    split; [constructor|]. intros x. unfold joined, file_edges. cbn. rewrite !elem_of_nil. tauto.
  - intros pre line post [adj in_adj] Heq (Hin & Hl & H0 & Hadj). cbn [fst snd] in *. subst in_adj.
    destruct (add_line_ok (file_edges pre) line adj [] Hl Hadj) as (adj' & -> & Hl' & H0' & Hadj'); [|done|].
    + intros u v ->. unfold file_edges in Hids, Hnd. rewrite Heq in Hids, Hnd.
      rewrite omap_app in Hids, Hnd. cbn [omap list_omap] in Hids, Hnd. rewrite map_app in Hnd.
      destruct (Hids u v) as (Hu & Hv & Huv); [apply elem_of_app; right; by left|].
      split; [done|]. split; [done|]. split; [done|]. intros Hj%joined_pair.
      apply NoDup_app in Hnd as (_ & Hd & _). apply (Hd _ Hj). by left.
    + eexists. split; [done|]. cbn [fst snd]. split; [done|]. split; [done|]. split; [done|]. intros v Hv.
      unfold file_edges in *. rewrite omap_app. destruct (Hadj' v Hv) as (N & EN & HN). exists N. split; [done|].
      destruct line; exact HN.
  - cbn [fst snd] in *. subst in_adj. by exists adj.
Qed.

Lemma sort_step E i adj :
  (forall u x, (u, x) ∈ E -> 1 <= u <= V /\ 1 <= x <= V /\ u <> x) -> 1 <= i <= V -> sorted_to E i adj ->
  exists adj', sort_at adj i = Some adj' /\ sorted_to E (i + 1) adj'.
Proof.
  intros HE Hi (Hl & H0 & Hrest & Hdone). destruct (Hrest i ltac:(lia)) as (N & EN & HN). unfold sort_at. rewrite EN.
  bind_step. pose proof (zget_Some_inv _ _ _ EN) as [Hb _]. rewrite zset_Some by done. eexists. split; [done|].
  assert (forall w, zget (<[Z.to_nat i := merge_sort Z.le N]> adj) w = if w =? i then Some (merge_sort Z.le N) else zget adj w) as Hz.
  { intros w. apply (zget_zset adj i w). by apply zset_Some. }
  split; [by rewrite length_insert|]. split; [|split].
  - rewrite Hz. by rewrite (proj2 (Z.eqb_neq 0 i)) by lia.
  - intros v Hv. rewrite Hz, (proj2 (Z.eqb_neq v i)) by lia. apply Hrest; lia.
  - intros v Hv. rewrite Hz. destruct (Z.eqb_spec v i) as [->|]; [|apply Hdone; lia].
    eexists. split; [done|]. by apply list_of_ok.
Qed.

Lemma sorted_graph_ok E adj :
  (forall u x, (u, x) ∈ E -> 1 <= u <= V /\ 1 <= x <= V /\ u <> x) -> sorted_to E (V + 1) adj ->
  graph_ok adj V (neighbors_ok C).
Proof.
  intros HE (Hl & H0 & _ & Hs). split; [done| |].
  - intros v N Hv EN. destruct (Hs v ltac:(lia)) as (N' & EN' & Hok & _). congruence.
  - intros u v N M EN EM Hvn.
    assert (1 <= u <= V) as Hu.
    { pose proof (zget_Some_inv _ _ _ EN) as [Hw _]. destruct (decide (u = 0)) as [->|]; [|lia].
      rewrite H0 in EN. injection EN as <-. by apply elem_of_nil in Hvn. }
    destruct (Hs u ltac:(lia)) as (N' & EN' & _ & Hel).
    assert (N' = N) as -> by congruence. pose proof (proj1 (Hel v) Hvn) as Hj.
    assert (1 <= v <= V) as Hv by (destruct Hj as [Hj|Hj]; apply HE in Hj; lia).
    destruct (Hs v ltac:(lia)) as (M' & EM' & _ & Hel'). assert (M' = M) as -> by congruence.
    apply Hel'. unfold joined in *. tauto.
Qed.

(** The lists of a file: those of its graph, the one at 0 empty. *)
Definition lists_of_file (file : list (option (Z * Z))) (adj : list (list Z)) : Prop :=
  graph_ok adj V (neighbors_ok C) /\ zget adj 0 = Some [] /\
  forall u v, 1 <= u <= V -> v ∈ neighbors adj u <-> joined (file_edges file) u v.

Lemma LoadData_ok file :
  simple_file file -> exists adj, Graph_LoadData C false file [] [] = Some (adj, []) /\ lists_of_file file adj.
Proof.
  intros Hf. pose proof Hf as [Hids _]. unfold Graph_LoadData.
  destruct (read_lines_ok file Hf) as (adj & -> & Hl & H0 & Hraw). bind_step.
  destruct (for_loop_inv (fun i st => st.2 = [] /\ sorted_to (file_edges file) i st.1)
    (fun i st => adj ← sort_at st.1 i; in_adj ← Some st.2; Some (adj, in_adj))
    (Z.to_nat V) 1 (adj, ([] : list (list Z)))) as ([adj' in_adj'] & E' & Hin' & Hs).
  - split; [done|]. split; [done|]. split; [done|]. split; [intros; apply Hraw; lia|lia].
  - intros i [a b] Hi [Hb Hs]. cbn [fst snd] in *. subst b.
    destruct (sort_step _ i a Hids ltac:(lia) Hs) as (a' & -> & Hs'). bind_step. by eexists.
  - cbn [fst snd] in *. subst in_adj'. exists adj'. split; [exact E'|].
    replace (1 + Z.of_nat (Z.to_nat V)) with (V + 1) in Hs by lia.
    split; [by eapply sorted_graph_ok|]. destruct Hs as (_ & H0' & _ & Hs). split; [done|].
    intros u v Hu. destruct (Hs u ltac:(lia)) as (N & EN & _ & Hel). unfold neighbors. rewrite EN. apply Hel.
Qed.
End load.

(** * Proofs: saving to the database and loading it again *)

Section save.
Context (C : Config) (HV : 1 <= VERTEX_SIZE C < 2 ^ 28) {T : Type} {St : Store T} {SL : StoreLaws T}.
Notation V := (VERTEX_SIZE C).

(** The store holds exactly the nonempty lists of the vertices below [n]. *)
Definition holds (adj : list (list Z)) (n : Z) (db : T) : Prop :=
  forall k data, store_Get db k = Some data <->
    exists v N, 1 <= v < n /\ zget adj v = Some N /\ N <> [] /\ k = to_string v /\ data = ValueToString N.

Lemma neighbors_ids N : neighbors_ok C N -> ids_ok N.
Proof. intros HN. eapply Forall_impl; [apply HN|]. simpl. lia. Qed.

Lemma holds_Get adj n db v N old :
  holds adj n db -> 1 <= v < n -> n <= V + 1 -> zget adj v = Some N -> neighbors_ok C N ->
  (RocksDb_Get db v old).2 = (match N with [] => old | _ => N end) /\
  (RocksDb_Get db v old).1 = (match N with [] => false | _ => true end).
Proof.
  intros Hh Hv Hn EN HN. unfold RocksDb_Get. destruct (store_Get db (to_string v)) as [data|] eqn:E.
  - apply Hh in E as (w & M & Hw & EM & HM & Ekey & ->). apply to_string_inj in Ekey; [|lia..]. subst w.
    assert (M = N) as -> by congruence. cbn [fst snd]. rewrite StringToValue_ValueToString by (by apply neighbors_ids).
    by destruct N.
  - destruct N as [|x N]; [done|]. exfalso.
    assert (store_Get db (to_string v) = Some (ValueToString (x :: N))) as E' by (apply Hh; exists v, (x :: N); auto).
    congruence.
Qed.

Lemma SaveData_ok adj db :
  graph_ok adj V (neighbors_ok C) -> (forall k, store_Get db k = None) ->
  exists db', Graph_SaveData C adj db = Some db' /\ holds adj (V + 1) db'.
Proof.
  intros [Hsize Hlists _] Hempty. unfold Graph_SaveData.
  rewrite (proj2 (Z.eqb_neq (Z.of_nat (length adj)) 0)) by lia. cbn [negb guardb]. bind_step.
  destruct (for_loop_inv (fun i db => holds adj i db)
    (fun id db => l ← zget adj id; if Z.of_nat (length l) =? 0 then Some db
                  else Some (RocksDb_Put db id ((RocksDb_Get db id []).2 ++ l))) (Z.to_nat V) 1 db)
    as (db' & -> & Hdb').
  - intros k data. rewrite Hempty. split; [done|]. intros (v & N & Hv & _). lia.
  - intros i db1 Hi Hh. destruct (zget_is_Some adj i) as [N EN]; [lia|]. rewrite EN. bind_step.
    pose proof (Hlists i N ltac:(lia) EN) as HN. destruct N as [|x N]; cbn [length]; [|rewrite (proj2 (Z.eqb_neq _ 0)) by lia].
    + exists db1. split; [done|]. intros k data. rewrite (Hh k data). split.
      * intros (v & M & Hv & HM). exists v, M. split; [lia|done].
      * intros (v & M & Hv & EM & HM & Hk). exists v, M. split; [|done].
        destruct (decide (v = i)) as [->|]; [congruence|lia].
    + assert (store_Get db1 (to_string i) = None) as Ei.
      { destruct (store_Get db1 (to_string i)) as [data|] eqn:E; [|done]. apply Hh in E as (v & M & Hv & _ & _ & Ek & _).
        apply to_string_inj in Ek; lia. }
      assert ((RocksDb_Get db1 i []).2 = []) as -> by (unfold RocksDb_Get; by rewrite Ei).
      eexists. split; [done|]. cbn [app]. unfold RocksDb_Put. intros k data.
      destruct (decide (to_string i = k)) as [<-|Hk].
      * rewrite store_get_put. split.
        -- intros [= <-]. exists i, (x :: N). split; [lia|done].
        -- intros (v & M & Hv & EM & HM & Ek & ->). apply to_string_inj in Ek; [|lia..]. subst v. congruence.
      * rewrite store_get_other by done. rewrite (Hh k data). split.
        -- intros (v & M & Hv & HM). exists v, M. split; [lia|done].
        -- intros (v & M & Hv & EM & HM & Ek & Ed). exists v, M. split; [|done].
           destruct (decide (v = i)) as [->|]; [congruence|lia].
  - exists db'. split; [done|]. by replace (V + 1) with (1 + Z.of_nat (Z.to_nat V)) by lia.
Qed.

Lemma mapM_elem {A B} (f : A -> option B) l k y :
  mapM f l = Some k -> y ∈ k <-> exists x, x ∈ l /\ f x = Some y.
Proof using Type.
  intros E%mapM_Some. split.
  - intros [i Hi]%list_elem_of_lookup_1. destruct (Forall2_lookup_r _ _ _ _ _ E Hi) as (x & Hx & Hf).
    exists x. split; [by eapply list_elem_of_lookup_2|done].
  - intros (x & [i Hi]%list_elem_of_lookup_1 & Hf). destruct (Forall2_lookup_l _ _ _ _ _ E Hi) as (z & Hz & Hf').
    assert (z = y) as -> by congruence. by eapply list_elem_of_lookup_2.
Qed.

(** A row of the store is a nonempty list. *)
Lemma stored_row adj db k data :
  graph_ok adj V (neighbors_ok C) -> holds adj (V + 1) db -> (k, data) ∈ store_rows db ->
  exists v N, (key ← StringToValue_int k; Some (key, StringToValue data)) = Some (v, N) /\
    1 <= v <= V /\ zget adj v = Some N /\ N <> [] /\ k = to_string v /\ data = ValueToString N.
Proof.
  intros [Hsize Hlists _] Hh Hin%store_rows_get. apply Hh in Hin as (v & N & Hv & EN & HN & -> & ->). exists v, N.
  rewrite stoul_to_string by lia. bind_step.
  rewrite StringToValue_ValueToString by (apply neighbors_ids, (Hlists v); (done || lia)). split; [done|]. auto with lia.
Qed.

(** A scan gives the nonempty lists. *)
Lemma scan_ok adj db :
  graph_ok adj V (neighbors_ok C) -> holds adj (V + 1) db ->
  exists rows, RocksDb_scan db = Some rows /\
    forall v N, (v, N) ∈ rows <-> 1 <= v <= V /\ zget adj v = Some N /\ N <> [].
Proof.
  intros Hg Hh. pose proof (fun k data => stored_row adj db k data Hg Hh) as Hrow. destruct Hg as [Hsize Hlists _]. unfold RocksDb_scan.
  destruct (mapM (fun row => key ← StringToValue_int row.1; Some (key, StringToValue row.2)) (store_rows db))
    as [rows|] eqn:E.
  - exists rows. split; [done|]. intros v N. rewrite (mapM_elem _ _ _ (v, N) E). split.
    + intros ([k data] & Hk & Hrow'). cbn [fst snd] in Hrow'.
      destruct (Hrow k data Hk) as (v' & N' & E' & Hv & EN & HN & _). rewrite Hrow' in E'. injection E' as -> ->. auto.
    + intros (Hv & EN & HN). exists (to_string v, ValueToString N). cbn [fst snd]. split.
      * apply store_rows_get, Hh. exists v, N. auto with lia.
      * rewrite stoul_to_string by lia. bind_step.
        by rewrite StringToValue_ValueToString by (apply neighbors_ids, (Hlists v); (done || lia)).
  - exfalso. apply mapM_None_1 in E. apply Exists_exists in E as ([k data] & Hin & Hnone).
    destruct (Hrow k data Hin) as (v & N & E' & _). cbn [fst snd] in Hnone. congruence.
Qed.

(** A vertex has one row. *)
Lemma scan_nodup adj db rows :
  graph_ok adj V (neighbors_ok C) -> holds adj (V + 1) db -> RocksDb_scan db = Some rows -> NoDup rows.*1.
Proof.
  intros Hg Hh E%mapM_Some. apply NoDup_alt. intros i j v Hi Hj. rewrite list_lookup_fmap in Hi, Hj.
  assert (forall i, fst <$> rows !! i = Some v -> (store_rows db).*1 !! i = Some (to_string v)) as Hkey.
  { intros m Hm. destruct (rows !! m) as [[v' N]|] eqn:Er; [|done]. cbn in Hm. injection Hm as ->.
    destruct (Forall2_lookup_r _ _ _ _ _ E Er) as ([k data] & Hk & Hf). cbn [fst snd] in Hf.
    destruct (stored_row adj db k data Hg Hh ltac:(by eapply list_elem_of_lookup_2)) as (w & M & Ef & _ & _ & _ & -> & _).
    rewrite Ef in Hf. injection Hf as -> ->. by rewrite list_lookup_fmap, Hk. }
  exact (proj1 (NoDup_alt _) (store_rows_nodup db) i j _ (Hkey i Hi) (Hkey j Hj)).
Qed.

Lemma sort_sorted N : StronglySorted Z.lt N -> merge_sort Z.le N = N.
Proof using Type.
  intros Hs. apply (StronglySorted_unique Z.le); [|by clear -Hs; induction Hs as [|x l Hs IH Hx];
    constructor; [done|eapply Forall_impl; [exact Hx|]; simpl; lia]|by rewrite merge_sort_Permutation].
  apply StronglySorted_merge_sort; apply _.
Qed.

Lemma LoadDataFromDb_ok adj db :
  graph_ok adj V (neighbors_ok C) -> zget adj 0 = Some [] -> holds adj (V + 1) db ->
  Graph_LoadDataFromDb C [] db = Some adj.
Proof.
  intros Hg H0 Hh. pose proof Hg as [Hsize Hlists _]. unfold Graph_LoadDataFromDb, resize_vertices.
  destruct (scan_ok adj db Hg Hh) as (rows & -> & Hrows). bind_step. rewrite resize_nil.
  destruct (foldM_inv (fun pre a => Z.of_nat (length a) = V + 1 /\
      forall v, 0 <= v <= V -> zget a v = if decide (v ∈ pre.*1) then zget adj v else Some [])
    (fun row a => zset a row.1 (merge_sort Z.le row.2)) rows (replicate (Z.to_nat (V + 1)) [])) as (a & -> & Hl & Ha).
  - rewrite length_replicate. split; [lia|]. intros v Hv. rewrite decide_False by (apply not_elem_of_nil).
    rewrite zget_lookup by lia. by rewrite lookup_replicate_2 by lia.
  - intros pre [v N] post a Heq [Hl Ha]. cbn [fst snd].
    assert ((v, N) ∈ rows) as Hin by (rewrite Heq; apply elem_of_app; right; by left).
    apply Hrows in Hin as (Hv & EN & _). rewrite zset_Some by lia. eexists. split; [done|]. split; [by rewrite length_insert|].
    intros w Hw. assert (0 <= v < Z.of_nat (length a)) as Hva by lia.
    rewrite (zget_zset a v w _ _ (zset_Some a v _ Hva)), fmap_app.
    rewrite sort_sorted by (apply (Hlists v); done).
    destruct (Z.eqb_spec w v) as [->|Hne].
    + rewrite decide_True; [done|]. apply elem_of_app. right. by left.
    + rewrite (Ha w Hw). apply decide_ext. rewrite elem_of_app. cbn. rewrite list_elem_of_singleton. tauto.
  - f_equal. apply list_eq. intros i. destruct (decide (i < length adj)%nat) as [Hi|Hi].
    + assert (0 <= Z.of_nat i <= V) as Hb by lia. specialize (Ha (Z.of_nat i) Hb).
      rewrite !zget_lookup, Nat2Z.id in Ha by lia. rewrite Ha.
      destruct (lookup_lt_is_Some_2 adj i Hi) as [N EN]. rewrite EN. case_decide as Hin; [done|].
      destruct N as [|x N]; [done|]. exfalso. apply Hin. apply list_elem_of_fmap. exists (Z.of_nat i, x :: N). split; [done|].
      assert (zget adj (Z.of_nat i) = Some (x :: N)) as EN' by (by rewrite zget_lookup, Nat2Z.id by lia).
      apply Hrows. split; [|done]. destruct (decide (i = 0%nat)) as [->|]; [|lia].
      change (Z.of_nat 0) with 0 in EN'. congruence.
    + rewrite !lookup_ge_None_2 by lia. done.
Qed.
End save.

(** * Proofs: changes of the database *)

Section changes.
Context {T : Type} {St : Store T} {SL : StoreLaws T}.

Definition db_list (db : T) (v : Z) : list Z := (RocksDb_Get db v []).2.
Definition db_found (db : T) (v : Z) : bool := (RocksDb_Get db v []).1.

Lemma Get_db_list db v old : (RocksDb_Get db v old).2 = if db_found db v then db_list db v else old.
Proof using Type. unfold db_found, db_list, RocksDb_Get. by destruct (store_Get db (to_string v)). Qed.

Lemma db_list_Put_same db v l : ids_ok l -> l <> [] -> db_list (RocksDb_Put db v l) v = l.
Proof. intros Hl Hne. unfold db_list. by rewrite Get_Put_same. Qed.

Lemma db_list_Put_other db v w l :
  vertex_key v -> vertex_key w -> v <> w -> db_list (RocksDb_Put db v l) w = db_list db w.
Proof. intros. unfold db_list. by rewrite Get_Put_other. Qed.

Lemma db_found_Put_other db v w l :
  vertex_key v -> vertex_key w -> v <> w -> db_found (RocksDb_Put db v l) w = db_found db w.
Proof. intros. unfold db_found. by rewrite Get_Put_other. Qed.

Lemma erase_first_ids x l l' : ids_ok l -> erase_first x l = Some l' -> ids_ok l'.
Proof using Type.
  intros Hl. revert l'. induction Hl as [|y l Hy Hl IH]; intros l' H; [done|]. cbn [erase_first] in H.
  destruct (y =? x); [by injection H as <-|]. destruct (erase_first x l) as [m|]; [|done]. injection H as <-.
  constructor; [done|by apply IH].
Qed.

(** The list a vertex has after one half of [DbDelete]: what is left, unless
    nothing is. *)
Definition after_delete (x : Z) (l : list Z) : list Z :=
  match erase_first x l with
  | Some (y :: l') => y :: l'
  | _ => l
  end.

Lemma DbDelete_one_same db u x :
  ids_ok (db_list db u) -> db_list (DbDelete_one db u x) u = after_delete x (db_list db u).
Proof.
  intros Hl. unfold DbDelete_one. fold (db_list db u). unfold after_delete.
  destruct (erase_first x (db_list db u)) as [[|y l]|] eqn:E; [done| |done].
  apply db_list_Put_same; [by apply (erase_first_ids x (db_list db u))|done].
Qed.

Lemma DbDelete_one_other db u x w :
  vertex_key u -> vertex_key w -> u <> w -> db_list (DbDelete_one db u x) w = db_list db w.
Proof.
  intros Hu Hw Hne. unfold DbDelete_one. destruct (erase_first x _); [|done]. by apply db_list_Put_other.
Qed.
End changes.

(** * Proofs: the exceptions of loading *)

Section throws.
Context (C : Config) (HV : 1 <= VERTEX_SIZE C < 2 ^ 28).
Notation V := (VERTEX_SIZE C).

Definition sized (adj : list (list Z)) : Prop := Z.of_nat (length adj) = V + 1.
Definition in_range (e : Z * Z) : Prop := 0 <= e.1 <= V /\ 0 <= e.2 <= V.

Lemma push_back_defined adj v x :
  sized adj -> 0 <= v <= V -> exists adj', push_back_at adj v x = Some adj' /\ sized adj'.
Proof.
  intros Hl Hv. unfold sized in *. destruct (zget_is_Some adj v) as [N EN]; [lia|].
  destruct (push_back_ok adj v x N EN) as (adj' & E' & Hl' & _). exists adj'. split; [done|lia].
Qed.

Lemma push_back_range adj v x adj' :
  sized adj -> push_back_at adj v x = Some adj' -> 0 <= v <= V /\ sized adj'.
Proof.
  intros Hl E. unfold sized in *. unfold push_back_at in E. destruct (zget adj v) as [N|] eqn:EN; [|done].
  pose proof (zget_Some_inv _ _ _ EN) as [Hb _]. cbn [mbind option_bind] in E. rewrite zset_Some in E by done. injection E as <-.
  rewrite length_insert. split; [lia|done].
Qed.

Lemma add_line_defined u v adj in_adj :
  sized adj -> in_range (u, v) ->
  exists adj', Graph_add_line false (Some (u, v)) (adj, in_adj) = Some (adj', in_adj) /\ sized adj'.
Proof.
  intros Hl [Hu Hv]. cbn [fst snd Graph_add_line] in *.
  destruct (push_back_defined adj u v Hl Hu) as (adj1 & -> & Hl1). bind_step.
  destruct (push_back_defined adj1 v u Hl1 Hv) as (adj2 & -> & Hl2). by exists adj2.
Qed.

Lemma add_line_range u v adj in_adj st :
  sized adj -> Graph_add_line false (Some (u, v)) (adj, in_adj) = Some st -> in_range (u, v).
Proof.
  intros Hl E. cbn [fst snd Graph_add_line] in E.
  destruct (push_back_at adj u v) as [adj1|] eqn:E1; [|done]. cbn [mbind option_bind] in E.
  destruct (push_back_at adj1 v u) as [adj2|] eqn:E2; [|done].
  destruct (push_back_range _ _ _ _ Hl E1) as [Hu Hl1]. destruct (push_back_range _ _ _ _ Hl1 E2) as [Hv _].
  by split.
Qed.

Lemma add_lines_spec file adj in_adj :
  sized adj ->
  (Forall in_range (file_edges file) /\
     exists adj', foldM (Graph_add_line false) file (adj, in_adj) = Some (adj', in_adj) /\ sized adj') \/
  (foldM (Graph_add_line false) file (adj, in_adj) = None /\ exists e, e ∈ file_edges file /\ ~ in_range e).
Proof.
  revert adj. induction file as [|[[u v]|] file IH]; intros adj Hl; cbn [foldM].
  - left. split; [constructor|]. by exists adj.
  - change (file_edges (Some (u, v) :: file)) with ((u, v) :: file_edges file).
    destruct (Graph_add_line false (Some (u, v)) (adj, in_adj)) as [st|] eqn:E.
    + pose proof (add_line_range _ _ _ _ _ Hl E) as Hr. destruct (add_line_defined _ _ _ in_adj Hl Hr) as (adj' & E' & Hl').
      rewrite E' in E. injection E as <-. bind_step. destruct (IH adj' Hl') as [[Hall H]|[H (e & He & Hne)]].
      * left. split; [by constructor|done].
      * right. split; [done|]. exists e. split; [by right|done].
    + right. split; [done|]. exists (u, v). split; [by left|]. intros Hr.
      destruct (add_line_defined _ _ _ in_adj Hl Hr) as (? & E' & _). congruence.
  - cbn [Graph_add_line]. bind_step. apply IH. done.
Qed.

Lemma sort_defined adj in_adj :
  sized adj ->
  exists st, for_loop (Z.to_nat V) 1
    (fun i st => adj ← sort_at st.1 i; in_adj ← Some st.2; Some (adj, in_adj)) (adj, in_adj : list (list Z)) = Some st.
Proof.
  intros Hl. destruct (for_loop_inv (fun _ st => sized st.1)
    (fun i st => adj ← sort_at st.1 i; in_adj ← Some st.2; Some (adj, in_adj)) (Z.to_nat V) 1 (adj, in_adj)) as (st & E & _).
  - done.
  - intros i [a b] Hi Ha. unfold sized in *. cbn [fst snd] in *. unfold sort_at.
    destruct (zget_is_Some a i) as [N EN]; [lia|]. rewrite EN. bind_step. rewrite zset_Some by lia. bind_step.
    eexists. split; [done|]. cbn [fst]. by rewrite length_insert.
  - by exists st.
Qed.
End throws.

(** * Properties *)

(** C33: loading a data file throws exactly when one of its edges names a
    vertex beyond [VERTEX_SIZE]; lines that are not edges are passed over. *)
Theorem Graph_LoadData_throws (C : Config) (file : list (option (Z * Z))) :
  1 <= VERTEX_SIZE C < 2 ^ 28 ->
  Graph_LoadData C false file [] [] = None <->
  exists u v, (u, v) ∈ file_edges file /\ ~ (0 <= u <= VERTEX_SIZE C /\ 0 <= v <= VERTEX_SIZE C).
Proof.
  intros HV. unfold Graph_LoadData, resize_vertices. rewrite resize_nil.
  set (adj := replicate _ _). assert (sized C adj) as Hl by (unfold sized, adj; rewrite length_replicate; lia).
  destruct (add_lines_spec C HV file adj [] Hl) as [[Hall (adj' & -> & Hl')]|[-> ([u v] & He & Hn)]].
  - bind_step. destruct (sort_defined C HV adj' [] Hl') as [st Est]. split; [intros E'; by pose proof (eq_trans (eq_sym Est) E')|].
    intros (u & v & Hin & Hn). exfalso. apply Hn. exact (proj1 (Forall_forall _ _) Hall (u, v) Hin).
  - split; [|done]. intros _. by exists u, v.
Qed.

(** C34: [LoadData], [SaveData] into an empty database and [LoadDataFromDb]:
    for a file of distinct edges the lists that come back are the lists that
    were saved. *)
Theorem Graph_save_load (C : Config) {T : Type} {St : Store T} {SL : StoreLaws T} (db : T)
    (file : list (option (Z * Z))) (HV : 1 <= VERTEX_SIZE C < 2 ^ 28) (Hf : simple_file C file)
    (Hdb : forall k, store_Get db k = None) :
  exists adj db', Graph_LoadData C false file [] [] = Some (adj, []) /\ Graph_SaveData C adj db = Some db' /\
    Graph_LoadDataFromDb C [] db' = Some adj.
Proof.
  destruct (LoadData_ok C HV file Hf) as (adj & EL & Hg & H0 & _).
  destruct (SaveData_ok C HV adj db Hg Hdb) as (db' & ES & Hh).
  exists adj, db'. split; [done|]. split; [done|]. by apply (LoadDataFromDb_ok C HV).
Qed.

(** C35: [binary_erase] of a sorted list of up to [2 ^ 30] elements, for which no
    index wraps around, ends, removes the vertex and nothing else, and reports
    whether it was there. *)
Theorem binary_erase_sorted (l : list Z) (vertex : Z) (Hs : StronglySorted Z.lt l) (Hlen : Z.of_nat (length l) <= 2 ^ 30) :
  binary_erase l vertex = Some (bool_decide (vertex ∈ l), filter (fun x => x <> vertex) l).
Proof.
  unfold binary_erase.
  assert (s32 (u64 (Z.of_nat (length l) - 1)) = Z.of_nat (length l) - 1) as ->.
  { destruct l as [|x l]; [done|]. cbn [length] in *. rewrite u64_small, s32_small; lia. }
  destruct (binary_erase_loop_ok (length l) l vertex 0 (Z.of_nat (length l) - 1) Hs Hlen) as (r & -> & ->); [lia..| | |done].
  - intros i x [? _]%zget_Some_inv ?. lia.
  - intros i x [? _]%zget_Some_inv ?. lia.
Qed.

(** [TestEdgeByAdj] on the lists of a data file is the test of the edge,
    whichever of the two lists it searches. *)
Theorem TestEdgeByAdj_correct (C : Config) (file : list (option (Z * Z))) (u v : Z)
    (HV : 1 <= VERTEX_SIZE C < 2 ^ 28) (Hf : simple_file C file)
    (Hu : 1 <= u <= VERTEX_SIZE C) (Hv : 1 <= v <= VERTEX_SIZE C) :
  exists adj b, Graph_LoadData C false file [] [] = Some (adj, []) /\ Graph_TestEdgeByAdj adj u v = Some b /\
    (b = true <-> joined (file_edges file) u v).
Proof.
  destruct (LoadData_ok C HV file Hf) as (adj & EL & [Hsize Hlists Hsym] & H0 & Hel). exists adj.
  unfold Graph_TestEdgeByAdj.
  destruct (zget_is_Some adj u) as [N EN]; [lia|]. destruct (zget_is_Some adj v) as [M EM]; [lia|].
  rewrite EN, EM. bind_step. bind_step.
  pose proof (Hel u v Hu) as Huv. pose proof (Hel v u Hv) as Hvu. unfold neighbors in *. rewrite EN in Huv. rewrite EM in Hvu.
  cbn [default from_option] in *.
  destruct (Z.of_nat (length M) <? Z.of_nat (length N)); rewrite binary_search_sorted by (eapply Hlists; [|done]; lia);
    eexists; (split; [done|]); (split; [done|]); rewrite bool_decide_eq_true; unfold id in *.
  - rewrite Hvu. unfold joined. tauto.
  - done.
Qed.

(** What [DbInsert] does to the stored lists, on every branch: the first
    vertex gains the second; the second gains the first, on top of its own
    list when it has one and of the list just written when it has none; no
    other list changes. *)
Theorem Graph_DbInsert_lists {T : Type} {St : Store T} {SL : StoreLaws T} (db : T) (u v : Z)
    (Hu : vertex_key u) (Hv : vertex_key v) (Huv : u <> v)
    (Hids : ids_ok (db_list db u) /\ ids_ok (db_list db v)) :
  db_list (Graph_DbInsert db u v) u = db_list db u ++ [v] /\
  db_list (Graph_DbInsert db u v) v = (if db_found db v then db_list db v else db_list db u ++ [v]) ++ [u] /\
  forall w, vertex_key w -> w <> u -> w <> v -> db_list (Graph_DbInsert db u v) w = db_list db w.
Proof.
  destruct Hids as [Hlu Hlv]. unfold Graph_DbInsert. fold (db_list db u). rewrite Get_db_list.
  rewrite db_found_Put_other, (db_list_Put_other _ u v) by done.
  assert (ids_ok (db_list db u ++ [v])) as H1 by (apply Forall_app; split; [done|by constructor]).
  split; [|split].
  - rewrite (db_list_Put_other _ v u) by done. apply db_list_Put_same; [done|]. by destruct (db_list db u).
  - apply db_list_Put_same; [|by destruct (if db_found db v then _ else _)].
    apply Forall_app. split; [by destruct (db_found db v)|by constructor].
  - intros w Hw Hwu Hwv. by rewrite !db_list_Put_other by congruence.
Qed.

(** What [DbDelete] does to the stored lists: each end loses the first
    occurrence of the other, except that a list is kept whole when nothing
    would be left of it; no other list changes. *)
Theorem Graph_DbDelete_lists {T : Type} {St : Store T} {SL : StoreLaws T} (db : T) (u v : Z)
    (Hu : vertex_key u) (Hv : vertex_key v) (Huv : u <> v)
    (Hids : ids_ok (db_list db u) /\ ids_ok (db_list db v)) :
  db_list (Graph_DbDelete db u v) u = after_delete v (db_list db u) /\
  db_list (Graph_DbDelete db u v) v = after_delete u (db_list db v) /\
  forall w, vertex_key w -> w <> u -> w <> v -> db_list (Graph_DbDelete db u v) w = db_list db w.
Proof.
  destruct Hids as [Hlu Hlv]. unfold Graph_DbDelete.
  split; [|split].
  - rewrite (DbDelete_one_other _ v u u) by done. by apply DbDelete_one_same.
  - rewrite DbDelete_one_same; rewrite (DbDelete_one_other _ u v v) by done; done.
  - intros w Hw Hwu Hwv. by rewrite !DbDelete_one_other by congruence.
Qed.

(** * Witnesses *)

(** A path with a chord, among lines that are no edges. *)
Definition demo_file : list (option (Z * Z)) :=
  [None; Some (1, 2); Some (3, 2); None; Some (3, 4); Some (4, 1); Some (20, 1)].

Definition simple_check (C : Config) (file : list (option (Z * Z))) : bool :=
  forallb (fun e => (1 <=? e.1) && (e.1 <=? VERTEX_SIZE C) && (1 <=? e.2) && (e.2 <=? VERTEX_SIZE C) && negb (e.1 =? e.2))
    (file_edges file) &&
  bool_decide (NoDup (map (fun e => ordered_pair e.1 e.2) (file_edges file))).

Lemma simple_check_ok C file : simple_check C file = true -> simple_file C file.
Proof.
  unfold simple_check. intros [Hf Hn%bool_decide_eq_true]%andb_true_iff. split; [|done].
  intros u v Hin. rewrite forallb_forall in Hf. specialize (Hf (u, v) (proj1 (list_elem_of_In _ _) Hin)).
  cbn [fst snd] in Hf. repeat (apply andb_true_iff in Hf as [Hf ?]). apply negb_true_iff, Z.eqb_neq in H.
  repeat match goal with H : (_ <=? _) = true |- _ => apply Z.leb_le in H end. lia.
Qed.

Lemma Graph_LoadData_throws_witness :
  1 <= VERTEX_SIZE small_config < 2 ^ 28 /\
  (Graph_LoadData small_config false (Some (1, 21) :: demo_file) [] [] = None <->
   exists u v, (u, v) ∈ file_edges (Some (1, 21) :: demo_file) /\
     ~ (0 <= u <= VERTEX_SIZE small_config /\ 0 <= v <= VERTEX_SIZE small_config)).
Proof.
  split; [vm_compute; split; [discriminate|reflexivity]|].
  apply (Graph_LoadData_throws small_config). vm_compute. split; [discriminate|reflexivity].
Defined.

Lemma Graph_save_load_witness :
  exists adj (db' : gmap (list Z) (list Z)), Graph_LoadData small_config false demo_file [] [] = Some (adj, []) /\
    Graph_SaveData small_config adj ∅ = Some db' /\ Graph_LoadDataFromDb small_config [] db' = Some adj.
Proof.
  apply (Graph_save_load small_config (∅ : gmap (list Z) (list Z)) demo_file).
  - vm_compute. split; [discriminate|reflexivity].
  - apply simple_check_ok. vm_compute. reflexivity.
  - intros k. apply lookup_empty.
Defined.

Lemma binary_erase_sorted_witness : binary_erase [2; 5; 9; 14] 9 = Some (true, [2; 5; 14]).
Proof.
  apply (binary_erase_sorted [2; 5; 9; 14] 9); [repeat constructor|discriminate].
Defined.

Lemma TestEdgeByAdj_correct_witness :
  exists adj b, Graph_LoadData small_config false demo_file [] [] = Some (adj, []) /\
    Graph_TestEdgeByAdj adj 1 20 = Some b /\ (b = true <-> joined (file_edges demo_file) 1 20).
Proof.
  apply (TestEdgeByAdj_correct small_config demo_file 1 20).
  - vm_compute. split; [discriminate|reflexivity].
  - apply simple_check_ok. vm_compute. reflexivity.
  - vm_compute. split; discriminate.
  - vm_compute. split; discriminate.
Defined.

(** The database of three edges of a star. *)
Definition star_db : gmap (list Z) (list Z) :=
  foldl (fun db kv => RocksDb_Put db kv.1 kv.2) ∅ [(1, [2; 3; 4]); (2, [1]); (3, [1]); (4, [1])].

Lemma Graph_DbInsert_lists_witness :
  db_list (Graph_DbInsert star_db 2 3) 2 = [1; 3] /\ db_list (Graph_DbInsert star_db 2 3) 3 = [1; 2] /\
  forall w, vertex_key w -> w <> 2 -> w <> 3 -> db_list (Graph_DbInsert star_db 2 3) w = db_list star_db w.
Proof.
  destruct (Graph_DbInsert_lists star_db 2 3) as (E1 & E2 & E3).
  - vm_compute. split; [discriminate|reflexivity].
  - vm_compute. split; [discriminate|reflexivity].
  - discriminate.
  - split; apply (bool_decide_unpack _); vm_compute; exact I.
  - split; [rewrite E1; vm_compute; reflexivity|]. split; [rewrite E2; vm_compute; reflexivity|]. exact E3.
Defined.

Lemma Graph_DbDelete_lists_witness :
  db_list (Graph_DbDelete star_db 1 2) 1 = [3; 4] /\ db_list (Graph_DbDelete star_db 1 2) 2 = [1] /\
  forall w, vertex_key w -> w <> 1 -> w <> 2 -> db_list (Graph_DbDelete star_db 1 2) w = db_list star_db w.
Proof.
  destruct (Graph_DbDelete_lists star_db 1 2) as (E1 & E2 & E3).
  - vm_compute. split; [discriminate|reflexivity].
  - vm_compute. split; [discriminate|reflexivity].
  - discriminate.
  - split; apply (bool_decide_unpack _); vm_compute; exact I.
  - split; [rewrite E1; vm_compute; reflexivity|]. split; [rewrite E2; vm_compute; reflexivity|]. exact E3.
Defined.

(** * Behaviours worth knowing *)

(** A new vertex inherits the list of its first neighbor. *)
Example DbInsert_copies_list : db_list (Graph_DbInsert star_db 1 5) 5 = [2; 3; 4; 5; 1].
Proof. vm_compute. reflexivity. Qed.

(** The last edge of a vertex stays in the database. *)
Example DbDelete_keeps_last : Graph_DbQuery (Graph_DbDelete star_db 1 2) 2 1 = Some true.
Proof. vm_compute. reflexivity. Qed.

(** An inserted edge is not found: the lists are no longer sorted. *)
Example DbQuery_unsorted : Graph_DbQuery (Graph_DbInsert (RocksDb_Put star_db 5 [6; 7]) 5 1) 5 1 = Some false.
Proof. vm_compute. reflexivity. Qed.

(** A database that already holds the file: every edge is stored twice. *)
Example SaveData_twice :
  (r ← Graph_LoadData small_config false demo_file [] [];
   db ← Graph_SaveData small_config r.1 (∅ : gmap (list Z) (list Z)); db ← Graph_SaveData small_config r.1 db;
   Some (db_list db 1)) = Some [2; 4; 20; 2; 4; 20].
Proof. vm_compute. reflexivity. Qed.

(** A directed graph gets every edge in both directions. *)
Example LoadData_directed :
  (r ← Graph_LoadData small_config true [Some (1, 2)] [] []; Some (take 3 r.1, take 3 r.2)) = Some ([[]; [2]; [1]], [[]; []; [1]]).
Proof. vm_compute. reflexivity. Qed.

(** An integer that was put is not read back: 49 is the digit 1. *)
Example Put_int_Get_int :
  RocksDb_Get_int (RocksDb_Put_int (∅ : gmap (list Z) (list Z)) 1 49) 1 0 = Some (true, 1).
Proof. vm_compute. reflexivity. Qed.
