(* ===== verification/VendFactory.v ===== *)
(** The encodings by name: [VendType] and [VendFactory]
    ([src/include/vend/vend_factory.h]).

    An encoding is represented by its class and the arguments of its
    constructor that choose a variant. The map [VEND_STRING] gives the empty
    string to a type it lacks, as [operator[]] does. *)
From Stdlib Require Import String.
From stdpp Require Import strings.
From S2P Require Import Prelude DeltaVend.
From stdpp Require Import options.
Local Open Scope Z_scope.

(** [enum class VendType]. *)
Inductive VendType :=
  | BloomFilterInt | CBloomFilter | BBloomFilter | BloomFilterBit | Range | HashBit | Bloom | Count | Hybrid
  | HybridDelta | SIMDDelta | SIMDDeltaV1 | SIMDDeltaV2 | SIMDDeltaV3 | RangeVbyte | RangeDelta | RangeBits
  | DirectHybrid | DirectSIMD | NoVend.

#[export] Instance VendType_eq_dec : EqDecision VendType.
Proof. solve_decision. Defined.

Definition VendTypes : list VendType :=
  [BloomFilterInt; CBloomFilter; BBloomFilter; BloomFilterBit; Range; HashBit; Bloom; Count; Hybrid; HybridDelta;
   SIMDDelta; SIMDDeltaV1; SIMDDeltaV2; SIMDDeltaV3; RangeVbyte; RangeDelta; RangeBits; DirectHybrid; DirectSIMD; NoVend].

(** [VEND_STRING]: the initializer, of which the first pair with a key counts. *)
Definition VEND_STRING_pairs : list (VendType * string) :=
  [(BloomFilterBit, "BloomFilterBit"); (BBloomFilter, "BlockBloomFilter"); (CBloomFilter, "CountBloomfilter");
   (BloomFilterInt, "BloomFilterInt"); (Range, "Range"); (HashBit, "HashBit"); (Hybrid, "Hybrid"); (Bloom, "Bloom");
   (Count, "Count"); (NoVend, "NoVend"); (NoVend, "NoVend"); (HybridDelta, "HybridDelta"); (SIMDDelta, "SIMDDelta");
   (SIMDDeltaV1, "SIMDDeltaV1"); (SIMDDeltaV2, "SIMDDeltaV2"); (SIMDDeltaV3, "SIMDDeltaV3"); (RangeBits, "RangeBits");
   (RangeDelta, "RangeDelta"); (RangeVbyte, "RangeVbyte"); (DirectHybrid, "DirHyb"); (DirectSIMD, "DirectSIMD")]%string.

Definition VEND_STRING (t : VendType) : string :=
  default EmptyString (snd <$> find (fun p => bool_decide (p.1 = t)) VEND_STRING_pairs).

(** [GetVendPath] and [GetOutputPath]. *)
Definition GetVendPath (vend_prefix : string) (vend_type : VendType) : string :=
  match vend_type with
  | NoVend => EmptyString
  | _ => (vend_prefix ++ VEND_STRING vend_type ++ ".txt")%string
  end.

Definition GetOutputPath (output_prefix : string) (vend_type : VendType) : string :=
  match vend_type with
  | NoVend => EmptyString
  | _ => (output_prefix ++ VEND_STRING vend_type ++ ".csv")%string
  end.

(** The classes that derive from [Vend], with the argument that chooses the
    encoding in them. *)
Inductive VendClass :=
  | BFilterIntVend | BFilterBitVend (type : Z) | BitHashVend | RangeVend | HybridVend | HybridDeltaVend | CountVend
  | BloomVend | DeltaSIMDVEND (delta_type : DeltaType) | RangeCompVend (type : Z) | Directed_Hyb_Vend | DirSIMDVend.

(** [GetEncode]: the pointer, unchanged by a type without a case. *)
Definition GetEncode (vend_type : VendType) (vend : option VendClass) : option VendClass :=
  match vend_type with
  | BloomFilterInt => Some BFilterIntVend
  | BloomFilterBit => Some (BFilterBitVend 0)
  | CBloomFilter => Some (BFilterBitVend 1)
  | BBloomFilter => Some (BFilterBitVend 2)
  | HashBit => Some BitHashVend
  | Range => Some RangeVend
  | Hybrid => Some HybridVend
  | HybridDelta => Some HybridDeltaVend
  | Count => Some CountVend
  | Bloom => Some BloomVend
  | SIMDDelta => Some (DeltaSIMDVEND V0)
  | SIMDDeltaV1 => Some (DeltaSIMDVEND V1)
  | SIMDDeltaV2 => Some (DeltaSIMDVEND V2)
  | SIMDDeltaV3 => Some (DeltaSIMDVEND V3)
  | RangeBits => Some (RangeCompVend 0)
  | RangeVbyte => Some (RangeCompVend 1)
  | RangeDelta => Some (RangeCompVend 2)
  | NoVend => None
  | DirectHybrid | DirectSIMD => vend
  end.

Definition GetDirectEncode (vend_type : VendType) (vend : option VendClass) : option VendClass :=
  match vend_type with
  | DirectHybrid => Some Directed_Hyb_Vend
  | DirectSIMD => Some DirSIMDVend
  | _ => vend
  end.

(** The overload for large graphs. *)
Definition GetEncode_large (vend_type : VendType) (vend : option VendClass) : option VendClass :=
  match vend_type with
  | BloomFilterInt => Some BFilterIntVend
  | BloomFilterBit => Some (BFilterBitVend 0)
  | CBloomFilter => Some (BFilterBitVend 1)
  | BBloomFilter => Some (BFilterBitVend 2)
  | HashBit => Some BitHashVend
  | Range => Some RangeVend
  | Hybrid => Some HybridVend
  | Count => Some CountVend
  | Bloom => Some BloomVend
  | NoVend => None
  | _ => vend
  end.

(** * Proofs *)

Lemma append_cancel (s a b : string) : (s ++ a = s ++ b)%string -> a = b.
Proof. induction s as [|c s IH]; [done|]. cbn. intros [= H]. by apply IH. Qed.

Lemma append_nonempty (s : string) c b : (s ++ String c b)%string <> EmptyString.
Proof. by destruct s. Qed.

(** A type's name with an extension is not empty, and names the type. *)
Lemma name_cons t ext : exists c s, (VEND_STRING t ++ ext)%string = String c s.
Proof. destruct t; by do 2 eexists. Qed.

Lemma txt_inj t t' : (VEND_STRING t ++ ".txt" = VEND_STRING t' ++ ".txt")%string -> t = t'.
Proof. by destruct t, t'. Qed.

Lemma csv_inj t t' : (VEND_STRING t ++ ".csv" = VEND_STRING t' ++ ".csv")%string -> t = t'.
Proof. by destruct t, t'. Qed.

Lemma GetVendPath_eq p t : t <> NoVend -> GetVendPath p t = (p ++ VEND_STRING t ++ ".txt")%string.
Proof. by destruct t. Qed.

Lemma GetOutputPath_eq p t : t <> NoVend -> GetOutputPath p t = (p ++ VEND_STRING t ++ ".csv")%string.
Proof. by destruct t. Qed.

(** * Properties *)

(** Under one prefix no two encodings share their files: the paths are not
    empty, and two types have the same encoding file or the same result file
    only when they are the same type. *)
Theorem vend_paths_distinct (prefix : string) (t t' : VendType) (Ht : t <> NoVend) (Ht' : t' <> NoVend) :
  GetVendPath prefix t <> EmptyString /\
  (GetVendPath prefix t = GetVendPath prefix t' <-> t = t') /\
  (GetOutputPath prefix t = GetOutputPath prefix t' <-> t = t').
Proof.
  rewrite !GetVendPath_eq, !GetOutputPath_eq by done. split; [|split].
  - destruct (name_cons t ".txt") as (c & s & ->). apply append_nonempty.
  - split; [|by intros ->]. intros H%append_cancel. by apply txt_inj.
  - split; [|by intros ->]. intros H%append_cancel. by apply csv_inj.
Qed.

(** * Witnesses *)

Lemma vend_paths_distinct_witness :
  GetVendPath "../as/10/encode/" Hybrid <> EmptyString /\
  (GetVendPath "../as/10/encode/" Hybrid = GetVendPath "../as/10/encode/" HybridDelta <-> Hybrid = HybridDelta) /\
  (GetOutputPath "../as/10/encode/" Hybrid = GetOutputPath "../as/10/encode/" HybridDelta <-> Hybrid = HybridDelta).
Proof. by apply (vend_paths_distinct "../as/10/encode/" Hybrid HybridDelta). Defined.

(** * Behaviours worth knowing *)

(** The types that leave [vend] null, the one for a directed graph apart, when
    the graph is small, large and directed. *)
Example GetEncode_null : filter (fun t => GetEncode t None = None) VendTypes = [DirectHybrid; DirectSIMD; NoVend].
Proof. reflexivity. Qed.

Example GetEncode_large_null :
  filter (fun t => GetEncode_large t None = None) VendTypes =
  [HybridDelta; SIMDDelta; SIMDDeltaV1; SIMDDeltaV2; SIMDDeltaV3; RangeVbyte; RangeDelta; RangeBits; DirectHybrid;
   DirectSIMD; NoVend].
Proof. reflexivity. Qed.
