(* ===== verification/PairList.v ===== *)
(** Lists of pairs: [PairList] ([src/execution/pair_list.cpp],
    [src/include/execution/pair_list.h]) that reads and writes them, and the
    [CreateList] of every execution that makes one
    ([src/include/execution/], [src/execution/score_execution.cpp]).

    The random draws of a list are a stream. *)
From S2P Require Import Prelude Config Db Graph.
From stdpp Require Import options.
Local Open Scope Z_scope.
Set Default Proof Using "Type*".

(** * The list of pairs *)

(** [ListPersistent]: a line for every pair, its two numbers in decimal with a
    tab between. *)
Definition pair_line (pair : Z * Z) : list Z := to_string pair.1 ++ 9 :: to_string pair.2.

Definition ListPersistent (pair_list_ : list (Z * Z)) : option (list (list Z)) :=
  _ ← guardb (negb (bool_decide (pair_list_ = [])));
  Some (map pair_line pair_list_).

(** [>>] of a [uint32_t]: the stream is whether it is good and what is left of
    it. A stream that is not good or at its end leaves the number as it was;
    no digits make it 0, too many its maximum. *)
Fixpoint skip_digits (s : list Z) : list Z :=
  match s with c :: s' => if is_digit c then skip_digits s' else s | [] => [] end.

Definition extract_u32 (st : bool * list Z) (v : Z) : (bool * list Z) * Z :=
  let '(good, s) := st in
  if negb good then (st, v)
  else
    match skip_spaces s with
    | [] => ((false, []), v)
    | c :: s' =>
        let '(neg, s) := if c =? 45 then (true, s') else if c =? 43 then (false, s') else (false, c :: s') in
        match s with
        | d :: _ =>
            if is_digit d then
              let x := read_digits s 0 in
              let rest := skip_digits s in
              if x <? 2 ^ 32 then ((negb (bool_decide (rest = [])), rest), if neg then u32 (- x) else x)
              else ((false, rest), 2 ^ 32 - 1)
            else ((false, s), 0)
        | [] => ((false, []), 0)
        end
    end.

(** [LoadPairList]: [vertex1] and [vertex2] are declared outside the loop. *)
Fixpoint LoadPairList_loop (file : list (list Z)) (vertex1 vertex2 : Z) (pair_list_ : list (Z * Z)) : list (Z * Z) :=
  match file with
  | [] => pair_list_
  | line :: file =>
      let '(st, vertex1) := extract_u32 (true, line) vertex1 in
      let '(_, vertex2) := extract_u32 st vertex2 in
      LoadPairList_loop file vertex1 vertex2 (pair_list_ ++ [(vertex1, vertex2)])
  end.
Definition LoadPairList (file : list (list Z)) (vertex1 vertex2 : Z) (pair_list_ : list (Z * Z)) : list (Z * Z) :=
  LoadPairList_loop file vertex1 vertex2 pair_list_.

(** [PairList::Init]: a list that is not on file is made and saved. *)
Definition PairList_Init (CreateList : option (list (Z * Z))) (file : option (list (list Z))) (vertex1 vertex2 : Z)
  : option (list (Z * Z) * list (list Z)) :=
  match file with
  | None => pairs ← CreateList; file ← ListPersistent pairs; Some (pairs, file)
  | Some file => Some (LoadPairList file vertex1 vertex2 [], file)
  end.

(** * Lists of random pairs *)

(** [CreateList] of [RandomQueryExecution], [DeleteExecution] and
    [InsertExecution], over the numbers of the distribution; the stream that
    runs out is [None]. *)
Fixpoint CreateList_random (pick : Z -> Z) (draws : list (Z * Z)) (vertex_size : Z) (vertex_list : list (Z * Z))
  : option (list (Z * Z)) :=
  if Z.of_nat (length vertex_list) <? vertex_size then
    match draws with
    | [] => None
    | (d1, d2) :: draws =>
        let vertex1 := pick d1 in
        let vertex2 := pick d2 in
        if vertex1 =? vertex2 then CreateList_random pick draws vertex_size vertex_list
        else CreateList_random pick draws vertex_size (vertex_list ++ [(vertex1, vertex2)])
    end
  else Some vertex_list.

Definition RandomQuery_CreateList : list (Z * Z) -> Z -> list (Z * Z) -> option (list (Z * Z)) :=
  CreateList_random (fun d => d).
Definition DeleteExecution_CreateList : list (Z * Z) -> Z -> list (Z * Z) -> option (list (Z * Z)) :=
  CreateList_random (fun d => d).
Definition InsertExecution_CreateList (C : Config) : list (Z * Z) -> Z -> list (Z * Z) -> option (list (Z * Z)) :=
  CreateList_random (fun d => d mod VERTEX_SIZE C + 1).

(** [QueryExecution::CreateList]: pairs of neighbors of one vertex, the vertices
    in a shuffled order [random_array], over and over. A draw is the two numbers
    for one vertex. The flag of a round says that the function returned in it. *)
Section neighbors.
Context {T : Type} `{Store T} (graph_db_ : T).

Fixpoint Query_round (random_array : list Z) (draws : list (Z * Z)) (vertex_size : Z) (vertex_list : list (Z * Z))
  : option (list (Z * Z) * list (Z * Z) * bool) :=
  match random_array with
  | [] => Some (vertex_list, draws, false)
  | vertex :: random_array =>
      let neighbors := Graph_GetNeighbors graph_db_ vertex [] in
      let neighbor_size := s32 (Z.of_nat (length neighbors)) in
      if neighbor_size <=? 1 then Query_round random_array draws vertex_size vertex_list
      else
        match draws with
        | [] => None
        | (d1, d2) :: draws =>
            v1 ← zget neighbors (d1 mod neighbor_size);
            v2 ← zget neighbors (d2 mod neighbor_size);
            if v1 =? v2 then Query_round random_array draws vertex_size vertex_list
            else
              let vertex_list := vertex_list ++ [(v1, v2)] in
              if vertex_size <=? Z.of_nat (length vertex_list) then Some (vertex_list, draws, true)
              else Query_round random_array draws vertex_size vertex_list
        end
  end.

Fixpoint Query_CreateList (fuel : nat) (random_array : list Z) (draws : list (Z * Z)) (vertex_size : Z)
    (vertex_list : list (Z * Z)) : option (list (Z * Z)) :=
  match fuel with
  | O => None
  | S fuel =>
      if Z.of_nat (length vertex_list) <? vertex_size then
        '(vertex_list, draws, returned) ← Query_round random_array draws vertex_size vertex_list;
        if (returned : bool) then Some vertex_list else Query_CreateList fuel random_array draws vertex_size vertex_list
      else Some vertex_list
  end.

(** [ScoreExecution::CreateList]: pairs of neighbors by position, each kept or
    not by the next number of [rand], of which [calls] have been taken. *)
Record ScoreList := {
  vertex_list : list (Z * Z);
  calls : Z;
  returned : bool
}.

Definition Score_pair_at (rand : Z -> Z) (neighbors : list Z) (i j vertex_size : Z) (st : ScoreList) : option ScoreList :=
  if returned st then Some st
  else if rand (calls st) mod 2 =? 0
  then Some {| vertex_list := vertex_list st; calls := calls st + 1; returned := false |}
  else
    x ← zget neighbors i;
    y ← zget neighbors j;
    let l := vertex_list st ++ [(x, y)] in
    Some {| vertex_list := l; calls := calls st + 1; returned := vertex_size <=? Z.of_nat (length l) |}.

Definition Score_vertex (rand : Z -> Z) (vertex_size v : Z) (st : ScoreList) : option ScoreList :=
  let neighbors := Graph_GetNeighbors graph_db_ v [] in
  let neighbor_nums := s32 (Z.of_nat (length neighbors)) in
  if returned st || (neighbor_nums <=? 1) then Some st
  else
    for_loop (Z.to_nat (neighbor_nums - 1)) 0
      (fun i st =>
         if returned st then Some st
         else if rand (calls st) mod 2 =? 0
         then Some {| vertex_list := vertex_list st; calls := calls st + 1; returned := false |}
         else
           let st := {| vertex_list := vertex_list st; calls := calls st + 1; returned := false |} in
           for_loop (Z.to_nat ((neighbor_nums - i) / 2)) 0
             (fun t st => Score_pair_at rand neighbors i (i + 1 + 2 * t) vertex_size st) st) st.

Definition Score_CreateList (rand : Z -> Z) (random_array : list Z) (vertex_size : Z) (l : list (Z * Z))
  : option (list (Z * Z)) :=
  st ← foldM (Score_vertex rand vertex_size) random_array {| vertex_list := l; calls := 0; returned := false |};
  Some (vertex_list st).
End neighbors.

(** [ScoreExecution::RandomCreate]: two sets of ids without a common one. *)
Fixpoint draw_set (pick : Z -> Z) (keep : Z -> bool) (draws : list Z) (vertex_size : Z) (ids : gset Z) : option (gset Z) :=
  if Z.of_nat (size ids) <? vertex_size then
    match draws with
    | [] => None
    | d :: draws => draw_set pick keep draws vertex_size (if keep (pick d) then {[pick d]} ∪ ids else ids)
    end
  else Some ids.

Definition RandomCreate (C : Config) (draws1 draws2 : list Z) (vertex_size1 : Z) (vertex_list1 : gset Z)
    (vertex_size2 : Z) (vertex_list2 : gset Z) : option (gset Z * gset Z) :=
  let pick d := d mod VERTEX_SIZE C + 1 in
  vertex_list1 ← draw_set pick (fun _ => true) draws1 vertex_size1 vertex_list1;
  vertex_list2 ← draw_set pick (fun id => negb (bool_decide (id ∈ vertex_list1))) draws2 vertex_size2 vertex_list2;
  Some (vertex_list1, vertex_list2).

(** [RandomScoreExecution::CreateList], with [VERTETX_TEST_SIZE1] = 100000 and
    the order in which the sets are iterated. *)
Definition RandomScore_CreateList (C : Config) (unordered : gset Z -> list Z) (VERTETX_TEST_SIZE1 : Z) (draws1 draws2 : list Z)
    (vertex_size : Z) (l : list (Z * Z)) : option (list (Z * Z)) :=
  '(vertex_list1, vertex_list2) ←
    RandomCreate C draws1 draws2 VERTETX_TEST_SIZE1 ∅ (vertex_size / VERTETX_TEST_SIZE1) ∅;
  Some (l ++ flat_map (fun v1 => map (fun v2 => (v2, v1)) (unordered vertex_list2)) (unordered vertex_list1)).

(** * Proofs: the list of pairs *)

Definition ends_number (s : list Z) : Prop := match s with c :: _ => is_digit c = false | [] => True end.

Lemma skip_digits_app s rest :
  Forall (fun c => is_digit c = true) s -> ends_number rest -> skip_digits (s ++ rest) = rest.
Proof.
  intros Hs Hr. induction Hs as [|c s Hc Hs IH]; [destruct rest as [|c r]; [done|]; cbn in *; by rewrite Hr|].
  cbn [app skip_digits]. by rewrite Hc.
Qed.

Lemma read_digits_rest s rest :
  Forall (fun c => is_digit c = true) s -> ends_number rest -> read_digits (s ++ rest) 0 = read_digits s 0.
Proof.
  intros Hs Hr. rewrite read_digits_app by done. destruct rest as [|c r]; [done|]. cbn in *. by rewrite Hr.
Qed.

Lemma to_string_head n : 0 <= n < 2 ^ 32 ->
  exists c s, to_string n = c :: s /\ is_digit c = true /\ is_space c = false /\ c <> 45 /\ c <> 43.
Proof.
  intros Hn. pose proof (decimal_digits 10 n ltac:(lia)) as Hd. fold (to_string n) in Hd.
  destruct (to_string n) as [|c s] eqn:E.
  { exfalso. unfold to_string in E. cbn [decimal] in E. destruct (n <? 10); [done|]. by apply app_eq_nil in E as [_ E]. }
  exists c, s. split; [done|]. pose proof (Forall_inv Hd) as Hc. split; [done|]. simpl in Hc.
  unfold is_digit in Hc. apply andb_true_iff in Hc as [H1%Z.leb_le H2%Z.leb_le].
  split; [|lia]. unfold is_space. apply orb_false_iff. split; [apply Z.eqb_neq; lia|].
  apply andb_false_iff. right. apply Z.leb_gt. lia.
Qed.

Lemma extract_decimal sp n rest v :
  Forall (fun c => is_space c = true) sp -> 0 <= n < 2 ^ 32 -> ends_number rest ->
  extract_u32 (true, sp ++ to_string n ++ rest) v = ((negb (bool_decide (rest = [])), rest), n).
Proof.
  intros Hsp Hn Hr. cbn [extract_u32 negb].
  destruct (to_string_head n Hn) as (c & s & E & Hd & Hs & Hminus & Hplus).
  assert (skip_spaces (sp ++ to_string n ++ rest) = c :: s ++ rest) as ->.
  { rewrite E. induction Hsp as [|x sp Hx Hsp IH]; cbn [app skip_spaces]; [by rewrite Hs|]. by rewrite Hx. }
  rewrite (proj2 (Z.eqb_neq c 45)), (proj2 (Z.eqb_neq c 43)) by done. rewrite Hd.
  replace (c :: s ++ rest) with (to_string n ++ rest) by by rewrite E.
  pose proof (decimal_digits 10 n ltac:(lia)) as Hdig. fold (to_string n) in Hdig.
  rewrite read_digits_rest, skip_digits_app by done.
  assert (read_digits (to_string n) 0 = n) as -> by (apply (read_decimal 10 n); simpl; lia). by rewrite (proj2 (Z.ltb_lt n (2 ^ 32))) by lia.
Qed.

Definition pair_ok (p : Z * Z) : Prop := 0 <= p.1 < 2 ^ 32 /\ 0 <= p.2 < 2 ^ 32.

Lemma LoadPairList_loop_ok pairs v1 v2 acc :
  Forall pair_ok pairs -> LoadPairList_loop (map pair_line pairs) v1 v2 acc = acc ++ pairs.
Proof.
  intros Hp. revert v1 v2 acc. induction Hp as [|[u v] pairs [Hu Hv] Hp IH]; intros v1 v2 acc; [by rewrite app_nil_r|].
  cbn [map LoadPairList_loop]. unfold pair_line at 1. cbn [fst snd] in *.
  change (to_string u ++ 9 :: to_string v) with ([] ++ to_string u ++ 9 :: to_string v).
  rewrite extract_decimal by (done || constructor). rewrite bool_decide_eq_false_2 by done. cbn [negb].
  change (9 :: to_string v) with ([9] ++ to_string v). rewrite <- (app_nil_r (to_string v)).
  rewrite extract_decimal by (done || by repeat constructor). by rewrite IH, <- app_assoc.
Qed.

(** * Proofs: random lists *)

Definition ids_in_graph (C : Config) (p : Z * Z) : Prop := 1 <= p.1 <= VERTEX_SIZE C /\ 1 <= p.2 <= VERTEX_SIZE C.

(** The draws that make a pair. *)
Definition makes_pair (pick : Z -> Z) (d : Z * Z) : Prop := pick d.1 <> pick d.2.
#[export] Instance makes_pair_dec pick d : Decision (makes_pair pick d).
Proof. unfold makes_pair. apply _. Defined.

Lemma CreateList_random_spec pick draws size acc :
  Z.of_nat (length acc) <= size ->
  CreateList_random pick draws size acc =
    let pairs := map (fun d => (pick d.1, pick d.2)) (filter (makes_pair pick) draws) in
    if size <=? Z.of_nat (length acc) + Z.of_nat (length pairs)
    then Some (acc ++ take (Z.to_nat (size - Z.of_nat (length acc))) pairs) else None.
Proof.
  revert acc. induction draws as [|[d1 d2] draws IH]; intros acc Ha; cbn [CreateList_random]; cbv zeta.
  - cbn. rewrite Z.add_0_r, take_nil, app_nil_r. destruct (Z.ltb_spec (Z.of_nat (length acc)) size).
    + by rewrite (proj2 (Z.leb_gt _ _)) by lia.
    + by rewrite (proj2 (Z.leb_le _ _)) by lia.
  - destruct (Z.ltb_spec (Z.of_nat (length acc)) size) as [Hlt|Hge].
    + rewrite filter_cons.
      destruct (Z.eqb_spec (pick d1) (pick d2)) as [He|Hne].
      * rewrite IH by lia. cbv zeta. destruct (decide (makes_pair pick (d1, d2))) as [H|H]; [by destruct (H He)|]. done.
      * rewrite IH by (rewrite length_app; cbn [length]; lia). cbv zeta.
        destruct (decide (makes_pair pick (d1, d2))) as [H|H]; [|by destruct (H Hne)]. cbn [map length fst snd].
        set (l := map _ _). rewrite length_app. cbn [length].
        replace (Z.of_nat (length acc + 1)) with (Z.of_nat (length acc) + 1) by lia.
        replace (Z.of_nat (length acc) + Z.of_nat (S (length l))) with (Z.of_nat (length acc) + 1 + Z.of_nat (length l)) by lia.
        destruct (size <=? Z.of_nat (length acc) + 1 + Z.of_nat (length l)); [|done]. f_equal. rewrite <- app_assoc. f_equal.
        by replace (Z.to_nat (size - Z.of_nat (length acc))) with (S (Z.to_nat (size - (Z.of_nat (length acc) + 1)))) by lia.
    + assert (size = Z.of_nat (length acc)) as -> by lia. rewrite (proj2 (Z.leb_le _ _)) by lia.
      rewrite Z.sub_diag. cbn. by rewrite app_nil_r.
Qed.

(** ** Pairs of neighbors *)

Section query.
Context {T : Type} {St : Store T} (db : T) (random_array : list Z).

(** The lists that can give a pair, and the pair that a draw takes from one. *)
Definition lists_of (ids : list Z) : list (list Z) :=
  filter (fun N => 1 < Z.of_nat (length N)) (map (fun v => Graph_GetNeighbors db v []) ids).

Definition drawn (d : Z * Z) (N : list Z) : option (Z * Z) :=
  let pick x := default 0 (zget N (x mod Z.of_nat (length N))) in
  if pick d.1 =? pick d.2 then None else Some (pick d.1, pick d.2).

Definition drawn_pairs (draws : list (Z * Z)) (lists : list (list Z)) : list (Z * Z) :=
  omap (fun x => x) (zip_with drawn draws lists).

(** The pairs of [k] rounds. *)
Fixpoint drawn_rounds (k : nat) (lists : list (list Z)) (draws : list (Z * Z)) : list (Z * Z) :=
  match k with
  | O => []
  | S k => drawn_pairs draws lists ++ drawn_rounds k lists (drop (length lists) draws)
  end.

Definition lists_small (ids : list Z) : Prop := Forall (fun v => Z.of_nat (length (Graph_GetNeighbors db v [])) < 2 ^ 31) ids.

(** A round returns with the pairs that are missing, or goes through all the
    lists, or there are no draws left. *)
Lemma Query_round_spec ids draws vertex_size acc :
  lists_small ids -> Z.of_nat (length acc) < vertex_size ->
  let lists := lists_of ids in
  let made := drawn_pairs draws lists in
  match Query_round db ids draws vertex_size acc with
  | Some (l, draws', true) =>
      vertex_size <= Z.of_nat (length acc + length made) /\ l = acc ++ take (Z.to_nat vertex_size - length acc) made
  | Some (l, draws', false) =>
      Z.of_nat (length acc + length made) < vertex_size /\ l = acc ++ made /\ draws' = drop (length lists) draws /\
      (length lists <= length draws)%nat
  | None => Z.of_nat (length acc + length made) < vertex_size /\ (length draws < length lists)%nat
  end.
Proof.
  intros Hs. revert draws acc. induction Hs as [|v ids HN Hs IH]; intros draws acc Hacc; cbn [Query_round]; cbv zeta.
  { change (lists_of []) with (@nil (list Z)). unfold drawn_pairs. rewrite zip_with_nil_r. cbn. rewrite app_nil_r, drop_0. repeat split; lia. }
  set (N := Graph_GetNeighbors db v []). fold N in HN. rewrite s32_small by lia.
  unfold lists_of. cbn [map]. fold N. rewrite filter_cons. fold (lists_of ids).
  destruct (Z.leb_spec (Z.of_nat (length N)) 1) as [Hle|Hgt]; [rewrite decide_False by lia; by apply IH|]. rewrite decide_True by lia.
  destruct draws as [|[d1 d2] draws]; [unfold drawn_pairs; cbn; split; lia|].
  assert (forall d, exists x, zget N (d mod Z.of_nat (length N)) = Some x) as Hget
    by (intros d; apply zget_is_Some; apply Z.mod_pos_bound; lia).
  destruct (Hget d1) as [x1 E1], (Hget d2) as [x2 E2]. rewrite E1, E2. bind_step.
  assert (drawn_pairs ((d1, d2) :: draws) (N :: lists_of ids) =
    (if x1 =? x2 then [] else [(x1, x2)]) ++ drawn_pairs draws (lists_of ids)) as ->.
  { unfold drawn_pairs, drawn at 1. cbn [zip_with omap list_omap fst snd]. rewrite E1, E2. cbn [default from_option]. unfold id.
    by destruct (x1 =? x2). }
  cbn [length drop]. destruct (Z.eqb_spec x1 x2) as [->|Hne]; cbn [app].
  - specialize (IH draws acc Hacc). cbv zeta in IH. destruct (Query_round db ids draws vertex_size acc) as [[[l ds] [|]]|];
      [done|destruct IH as (? & ? & ? & ?); auto with lia|lia].
  - cbn [length]. destruct (Z.leb_spec vertex_size (Z.of_nat (length (acc ++ [(x1, x2)])))) as [Hd|Hd]; rewrite length_app in Hd; cbn [length] in Hd.
    + split; [lia|]. by replace (Z.to_nat vertex_size - length acc)%nat with 1%nat by lia.
    + specialize (IH draws (acc ++ [(x1, x2)])). rewrite length_app in IH. cbn [length] in IH. specialize (IH ltac:(lia)). cbv zeta in IH.
      replace (length acc + S (length (drawn_pairs draws (lists_of ids))))%nat
        with (length acc + 1 + length (drawn_pairs draws (lists_of ids)))%nat by lia.
      destruct (Query_round db ids draws vertex_size (acc ++ [(x1, x2)])) as [[[l ds] [|]]|].
      * destruct IH as [? ->]. split; [done|]. rewrite <- app_assoc. f_equal.
        by replace (Z.to_nat vertex_size - length acc)%nat with (S (Z.to_nat vertex_size - (length acc + 1))) by lia.
      * destruct IH as (? & -> & ? & ?). rewrite <- app_assoc. auto with lia.
      * destruct IH. split; lia.
Qed.

Lemma drawn_rounds_nil k lists : drawn_rounds k lists [] = [].
Proof using Type. induction k as [|k IH]; [done|]. cbn [drawn_rounds]. by rewrite drop_nil, IH. Qed.

Lemma Query_list_spec fuel draws vertex_size acc k :
  lists_small random_array -> lists_of random_array <> [] -> (length draws < fuel)%nat -> (length draws <= k)%nat ->
  Z.of_nat (length acc) < vertex_size ->
  Query_CreateList db fuel random_array draws vertex_size acc =
    let made := drawn_rounds k (lists_of random_array) draws in
    if vertex_size <=? Z.of_nat (length acc + length made) then Some (acc ++ take (Z.to_nat vertex_size - length acc) made) else None.
Proof.
  intros Hs Hne. revert draws acc k. induction fuel as [|fuel IH]; intros draws acc k Hf Hk Hacc; [lia|]. cbn [Query_CreateList].
  rewrite (proj2 (Z.ltb_lt _ _)) by lia. pose proof (Query_round_spec random_array draws vertex_size acc Hs Hacc) as HR. cbv zeta in HR |- *.
  assert (0 < length (lists_of random_array))%nat as Hpos by (destruct (lists_of random_array); [done|cbn; lia]).
  destruct draws as [|d draws].
  { rewrite drawn_rounds_nil. rewrite (proj2 (Z.leb_gt _ _)) by (cbn; lia).
    destruct (Query_round db random_array [] vertex_size acc) as [[[l ds] [|]]|]; [| |done]; exfalso.
    - destruct HR as [HR _]. unfold drawn_pairs in HR. cbn in HR. lia.
    - destruct HR as (_ & _ & _ & HR). cbn in HR. lia. }
  destruct k as [|k]; [cbn in Hk; lia|]. cbn [drawn_rounds]. set (made := drawn_pairs _ _) in *.
  set (rest := drawn_rounds k _ _). rewrite length_app.
  destruct (Query_round db random_array (d :: draws) vertex_size acc) as [[[l ds] [|]]|].
  - destruct HR as [Hle ->]. bind_step. rewrite (proj2 (Z.leb_le _ _)) by lia. rewrite take_app_le by lia. done.
  - destruct HR as (Hlt & -> & -> & Hlen). bind_step. rewrite (IH _ _ k); cycle 1.
    { rewrite length_drop. cbn [length] in *. lia. } { rewrite length_drop. cbn [length] in *. lia. } { rewrite length_app. lia. }
    cbv zeta. fold rest. rewrite length_app. replace (length acc + (length made + length rest))%nat with (length acc + length made + length rest)%nat by lia.
    destruct (vertex_size <=? _); [|done]. f_equal. rewrite <- app_assoc. f_equal. rewrite take_app_ge by lia. do 2 f_equal. lia.
  - destruct HR as [Hlt Hlen]. bind_step. assert (drop (length (lists_of random_array)) (d :: draws) = []) as E
      by (apply drop_ge; lia). unfold rest. rewrite E, drawn_rounds_nil. by rewrite (proj2 (Z.leb_gt _ _)) by (cbn [length]; lia).
Qed.

(** Without a list of two neighbors the loop goes on for ever. *)
Lemma Query_list_never fuel draws vertex_size acc :
  lists_small random_array -> lists_of random_array = [] -> Z.of_nat (length acc) < vertex_size ->
  Query_CreateList db fuel random_array draws vertex_size acc = None.
Proof.
  intros Hs He Hacc. induction fuel as [|fuel IH]; [done|]. cbn [Query_CreateList]. rewrite (proj2 (Z.ltb_lt _ _)) by lia.
  pose proof (Query_round_spec random_array draws vertex_size acc Hs Hacc) as HR. rewrite He in HR. cbv zeta in HR.
  unfold drawn_pairs in HR. rewrite zip_with_nil_r in HR. cbn in HR.
  destruct (Query_round db random_array draws vertex_size acc) as [[[l ds] [|]]|]; [lia| |done].
  destruct HR as (_ & -> & -> & _). bind_step. by rewrite app_nil_r, drop_0.
Qed.

(** What is drawn are two neighbors of one vertex. *)
Lemma drawn_rounds_elem k draws p :
  p ∈ drawn_rounds k (lists_of random_array) draws ->
  p.1 <> p.2 /\ exists v, v ∈ random_array /\ p.1 ∈ Graph_GetNeighbors db v [] /\ p.2 ∈ Graph_GetNeighbors db v [].
Proof using Type.
  revert draws. induction k as [|k IH]; intros draws; [by intros ?%elem_of_nil|]. cbn [drawn_rounds].
  intros [Hp|Hp]%elem_of_app; [|by eapply IH]. unfold drawn_pairs in Hp. apply list_elem_of_omap in Hp as (y & Hy & ->).
  apply elem_of_zip_with in Hy as (d & N & Hd & _ & HN). apply list_elem_of_filter in HN as [Hlen HN].
  apply list_elem_of_fmap in HN as (v & -> & Hv). set (N := Graph_GetNeighbors db v []) in *. unfold drawn in Hd.
  assert (forall x, default 0 (zget N (x mod Z.of_nat (length N))) ∈ N) as Hin.
  { intros x. destruct (zget_is_Some N (x mod Z.of_nat (length N))) as [y Ey]; [apply Z.mod_pos_bound; lia|]. rewrite Ey. by eapply zget_elem. }
  pose proof (Hin d.1). pose proof (Hin d.2). destruct (Z.eqb_spec (default 0 (zget N (d.1 mod Z.of_nat (length N))))
    (default 0 (zget N (d.2 mod Z.of_nat (length N))))); [done|]. injection Hd as ->. cbn [fst snd]. split; [done|]. by exists v.
Qed.
End query.

(** ** Random sets *)

(** The ids of a stream that are kept. *)
Definition kept (pick : Z -> Z) (keep : Z -> bool) (draws : list Z) : gset Z :=
  list_to_set (filter (fun id => keep id = true) (map pick draws)).

(** The loop ends when there are enough of them, with as many as it needs. *)
Lemma draw_set_spec pick keep draws n ids :
  Z.of_nat (size ids) <= n ->
  match draw_set pick keep draws n ids with
  | Some s => Z.of_nat (size s) = n /\ ids ⊆ s /\ s ⊆ ids ∪ kept pick keep draws
  | None => Z.of_nat (size (ids ∪ kept pick keep draws)) < n
  end.
Proof.
  revert ids. induction draws as [|d draws IH]; intros ids Hn; cbn [draw_set].
  - destruct (Z.ltb_spec (Z.of_nat (size ids)) n).
    + unfold kept. cbn. by rewrite union_empty_r_L.
    + split; [lia|]. set_solver.
  - destruct (Z.ltb_spec (Z.of_nat (size ids)) n) as [Hlt|Hge]; [|split; [lia|set_solver]].
    assert (kept pick keep (d :: draws) = (if keep (pick d) then {[pick d]} else ∅) ∪ kept pick keep draws) as Ek.
    { unfold kept. cbn [map]. rewrite filter_cons. destruct (keep (pick d)) eqn:E; [rewrite decide_True by done|rewrite decide_False by done];
        cbn [list_to_set]; set_solver. }
    rewrite Ek. destruct (keep (pick d)).
    + assert (size ({[pick d]} ∪ ids) <= S (size ids))%nat as Hsz.
      { pose proof (size_union_alt {[pick d]} ids) as E. rewrite size_singleton in E. rewrite E.
        pose proof (subseteq_size (ids ∖ {[pick d]}) ids ltac:(set_solver)). lia. }
      assert (Z.of_nat (size ({[pick d]} ∪ ids)) <= n) as Hn' by lia. specialize (IH _ Hn').
      destruct (draw_set pick keep draws n ({[pick d]} ∪ ids)) as [s'|]; [destruct IH as (? & ? & ?); split; [done|set_solver]|].
      by replace (ids ∪ ({[pick d]} ∪ kept pick keep draws)) with ({[pick d]} ∪ ids ∪ kept pick keep draws) by set_solver.
    + specialize (IH ids Hn). by rewrite union_empty_l_L.
Qed.

Lemma size_ids (V : Z) (s : gset Z) : 0 <= V ->
  ((forall x, x ∈ s -> 1 <= x <= V) -> Z.of_nat (size s) <= V) /\ ((forall x, 1 <= x <= V -> x ∈ s) -> V <= Z.of_nat (size s)).
Proof.
  intros HV. assert (Z.of_nat (size (list_to_set (seqZ 1 V) : gset Z)) = V) as HI
    by (rewrite size_list_to_set by apply NoDup_seqZ; rewrite length_seqZ; lia).
  assert (forall x, x ∈ (list_to_set (seqZ 1 V) : gset Z) <-> 1 <= x <= V) as Hin
    by (intros x; rewrite elem_of_list_to_set, elem_of_seqZ; lia).
  split; intros Hs.
  - pose proof (subseteq_size s (list_to_set (seqZ 1 V)) ltac:(intros x Hx; by apply Hin, Hs)). lia.
  - pose proof (subseteq_size (list_to_set (seqZ 1 V)) s ltac:(intros x Hx; by apply Hs, Hin)). lia.
Qed.

(** A step draws an id of the graph, and a stream that has all of them keeps
    those that are to be kept. *)
Lemma kept_ids V keep draws x :
  1 <= V -> x ∈ kept (fun d => d mod V + 1) keep draws -> 1 <= x <= V /\ keep x = true.
Proof.
  intros HV. unfold kept. rewrite elem_of_list_to_set, list_elem_of_filter. intros [Hk (d & -> & _)%list_elem_of_fmap].
  split; [|done]. pose proof (Z.mod_pos_bound d V ltac:(lia)). lia.
Qed.

Lemma kept_all V keep draws x :
  (exists d, d ∈ draws /\ d mod V + 1 = x) -> keep x = true -> x ∈ kept (fun d => d mod V + 1) keep draws.
Proof.
  intros (d & Hd & Ex) Hk. unfold kept. rewrite elem_of_list_to_set, list_elem_of_filter. split; [done|].
  apply list_elem_of_fmap. by exists d.
Qed.

(** What [RandomCreate] returns. *)
Lemma RandomCreate_inv (C : Config) draws1 draws2 n1 n2 s1 s2 :
  1 <= VERTEX_SIZE C -> 0 <= n1 -> 0 <= n2 -> RandomCreate C draws1 draws2 n1 ∅ n2 ∅ = Some (s1, s2) ->
  Z.of_nat (size s1) = n1 /\ Z.of_nat (size s2) = n2 /\ s1 ## s2 /\ forall x, x ∈ s1 ∪ s2 -> 1 <= x <= VERTEX_SIZE C.
Proof.
  intros HV Hs1 Hs2. unfold RandomCreate. set (V := VERTEX_SIZE C) in *.
  pose proof (draw_set_spec (fun d => d mod V + 1) (fun _ => true) draws1 n1 ∅ ltac:(rewrite size_empty; lia)) as H1.
  destruct (draw_set _ _ draws1 _ _) as [t1|]; [|done]. bind_step. destruct H1 as (Hn1 & _ & Hk1).
  pose proof (draw_set_spec (fun d => d mod V + 1) (fun id => negb (bool_decide (id ∈ t1))) draws2 n2 ∅
    ltac:(rewrite size_empty; lia)) as H2.
  destruct (draw_set _ _ draws2 _ _) as [t2|]; [|done]. bind_step. destruct H2 as (Hn2 & _ & Hk2). intros [= <- <-].
  assert (forall x, x ∈ t2 -> 1 <= x <= V /\ x ∉ t1) as Ht2.
  { intros x Hx. destruct (kept_ids V (fun id => negb (bool_decide (id ∈ t1))) draws2 x HV) as [Hr Hk]; [set_solver|].
    split; [done|]. by apply negb_true_iff, bool_decide_eq_false in Hk. }
  split; [done|]. split; [done|]. split; [intros x Hx1 Hx2; by apply (Ht2 x)|].
  intros x [Hx|Hx]%elem_of_union; [|by apply Ht2]. destruct (kept_ids V (fun _ => true) draws1 x HV) as [Hr _]; [set_solver|done].
Qed.

(** * Properties *)

(** C36: a list of pairs that [ListPersistent] writes is the list that
    [LoadPairList] reads, whatever was in the variables before. *)
Theorem PairList_save_load (pairs : list (Z * Z)) (vertex1 vertex2 : Z)
    (Hne : pairs <> []) (Hp : Forall pair_ok pairs) :
  exists file, ListPersistent pairs = Some file /\ length file = length pairs /\
    LoadPairList file vertex1 vertex2 [] = pairs.
Proof.
  exists (map pair_line pairs). unfold ListPersistent. rewrite bool_decide_eq_false_2 by done. cbn [negb guardb].
  split; [done|]. split; [apply length_map|]. by apply LoadPairList_loop_ok.
Qed.

(** The random lists: the loop ends exactly when the numbers drawn hold
    enough pairs of distinct vertices, and the list is then the first of them. *)
Theorem InsertExecution_list (C : Config) (draws : list (Z * Z)) (vertex_size : Z)
    (HV : 1 <= VERTEX_SIZE C) (Hs : 0 <= vertex_size) :
  InsertExecution_CreateList C draws vertex_size [] =
    (let pairs := filter (fun p => p.1 <> p.2)
                    (map (fun d => (d.1 mod VERTEX_SIZE C + 1, d.2 mod VERTEX_SIZE C + 1)) draws) in
     if vertex_size <=? Z.of_nat (length pairs) then Some (take (Z.to_nat vertex_size) pairs) else None) /\
  forall pairs, InsertExecution_CreateList C draws vertex_size [] = Some pairs ->
    Z.of_nat (length pairs) = vertex_size /\ Forall (fun p => ids_in_graph C p /\ p.1 <> p.2) pairs.
Proof.
  unfold InsertExecution_CreateList. rewrite CreateList_random_spec by (cbn; lia). cbn [length app Z.of_nat]. cbv zeta.
  rewrite Z.add_0_l, Z.sub_0_r. set (f := fun d => d mod VERTEX_SIZE C + 1).
  change (fun d : Z * Z => (d.1 mod VERTEX_SIZE C + 1, d.2 mod VERTEX_SIZE C + 1)) with (fun d : Z * Z => (f d.1, f d.2)).
  assert (map (fun d => (f d.1, f d.2)) (filter (makes_pair f) draws) =
          filter (fun p => p.1 <> p.2) (map (fun d => (f d.1, f d.2)) draws)) as ->.
  { clear. induction draws as [|d draws IH]; [done|]. cbn [map]. rewrite !filter_cons. cbn [fst snd].
    destruct (decide (makes_pair f d)) as [H|H]; destruct (decide (f d.1 <> f d.2)); (contradiction || cbn [map]; by rewrite IH). }
  split; [done|]. intros pairs H. destruct (Z.leb_spec vertex_size (Z.of_nat (length (filter (fun p : Z * Z => p.1 <> p.2)
    (map (fun d => (f d.1, f d.2)) draws))))) as [Hle|]; [|done]. injection H as <-. split; [rewrite length_take; lia|].
  apply Forall_take, Forall_forall. intros [u v] [Hne (d & [= -> ->] & _)%list_elem_of_fmap]%list_elem_of_filter.
  cbn [fst snd] in *. split; [|done]. unfold ids_in_graph, f. cbn [fst snd].
  pose proof (Z.mod_pos_bound d.1 (VERTEX_SIZE C) ltac:(lia)). pose proof (Z.mod_pos_bound d.2 (VERTEX_SIZE C) ltac:(lia)). lia.
Qed.

(** C37: the list of the walk queries. When no vertex has two neighbors the loop
    never ends; else it ends exactly when the numbers drawn hold enough pairs,
    after at most as many rounds as there are draws, and the list is the first of
    them: pairs of two different neighbors of one vertex. *)
Theorem Query_list {T : Type} {St : Store T} (db : T) (random_array : list Z) (draws : list (Z * Z)) (vertex_size : Z)
    (Hsmall : lists_small db random_array) (Hs : 0 < vertex_size) :
  let lists := lists_of db random_array in
  let made := drawn_rounds (length draws) lists draws in
  (lists = [] -> forall fuel, Query_CreateList db fuel random_array draws vertex_size [] = None) /\
  (lists <> [] -> forall fuel, (length draws < fuel)%nat ->
     Query_CreateList db fuel random_array draws vertex_size [] =
       if vertex_size <=? Z.of_nat (length made) then Some (take (Z.to_nat vertex_size) made) else None) /\
  forall p, p ∈ made ->
    p.1 <> p.2 /\ exists v, v ∈ random_array /\ p.1 ∈ Graph_GetNeighbors db v [] /\ p.2 ∈ Graph_GetNeighbors db v [].
Proof.
  split; [|split].
  - intros He fuel. by apply Query_list_never.
  - intros Hne fuel Hf. rewrite (Query_list_spec db random_array fuel draws vertex_size [] (length draws)) by done || lia.
    cbn [length]. cbv zeta. rewrite Nat.add_0_l, Nat.sub_0_r. done.
  - intros p. apply drawn_rounds_elem.
Qed.

(** The random sets of the scores. What is returned are sets of the sizes
    asked for, without a common id and of ids of the graph; so the loops never
    end when the graph has fewer ids than that, and they end when it has as many
    and every id is drawn in both loops. *)
Theorem RandomCreate_sets (C : Config) (draws1 draws2 : list Z) (vertex_size1 vertex_size2 : Z)
    (HV : 1 <= VERTEX_SIZE C) (Hs1 : 0 <= vertex_size1) (Hs2 : 0 <= vertex_size2) :
  let r := RandomCreate C draws1 draws2 vertex_size1 ∅ vertex_size2 ∅ in
  (forall s1 s2, r = Some (s1, s2) ->
     Z.of_nat (size s1) = vertex_size1 /\ Z.of_nat (size s2) = vertex_size2 /\ s1 ## s2 /\
     forall x, x ∈ s1 ∪ s2 -> 1 <= x <= VERTEX_SIZE C) /\
  (VERTEX_SIZE C < vertex_size1 + vertex_size2 -> r = None) /\
  (vertex_size1 + vertex_size2 <= VERTEX_SIZE C ->
   (forall x, 1 <= x <= VERTEX_SIZE C -> exists d1 d2, d1 ∈ draws1 /\ d2 ∈ draws2 /\
      d1 mod VERTEX_SIZE C + 1 = x /\ d2 mod VERTEX_SIZE C + 1 = x) -> is_Some r).
Proof.
  intros r. split; [intros s1 s2; by apply RandomCreate_inv|]. split.
  - intros Hbig. destruct r as [[s1 s2]|] eqn:E; [|done].
    destruct (RandomCreate_inv C draws1 draws2 vertex_size1 vertex_size2 s1 s2 HV Hs1 Hs2 E) as (Hn1 & Hn2 & Hd & Hr).
    pose proof (size_union s1 s2 Hd). pose proof (proj1 (size_ids (VERTEX_SIZE C) (s1 ∪ s2) ltac:(lia)) Hr). lia.
  - intros Hfit Hall. unfold r, RandomCreate. set (V := VERTEX_SIZE C) in *.
    pose proof (draw_set_spec (fun d => d mod V + 1) (fun _ => true) draws1 vertex_size1 ∅ ltac:(rewrite size_empty; lia)) as H1.
    destruct (draw_set _ _ draws1 _ _) as [t1|]; cycle 1.
    { pose proof (proj2 (size_ids V (∅ ∪ kept (fun d => d mod V + 1) (fun _ => true) draws1) ltac:(lia))) as Hsize.
      assert (V <= Z.of_nat (size (∅ ∪ kept (fun d => d mod V + 1) (fun _ => true) draws1))); [|lia]. apply Hsize.
      intros x Hx. apply elem_of_union. right. apply kept_all; [|done]. destruct (Hall x Hx) as (d & _ & Hd & _ & Ex & _). by exists d. }
    bind_step. set (keep := fun id => negb (bool_decide (id ∈ t1))).
    pose proof (draw_set_spec (fun d => d mod V + 1) keep draws2 vertex_size2 ∅ ltac:(rewrite size_empty; lia)) as H2.
    destruct (draw_set _ keep draws2 _ _) as [t2|]; [bind_step; by eexists|]. exfalso.
    assert (V <= Z.of_nat (size (t1 ∪ kept (fun d => d mod V + 1) keep draws2))) as Hsize.
    { apply (size_ids V); [lia|]. intros x Hx. apply elem_of_union. destruct (decide (x ∈ t1)) as [Hin|Hin]; [by left|right].
      apply kept_all; [|unfold keep; by rewrite bool_decide_eq_false_2]. destruct (Hall x Hx) as (_ & d & _ & Hd & _ & Ex). by exists d. }
    pose proof (size_union_alt t1 (kept (fun d => d mod V + 1) keep draws2)).
    pose proof (subseteq_size (kept (fun d => d mod V + 1) keep draws2 ∖ t1) (∅ ∪ kept (fun d => d mod V + 1) keep draws2)
      ltac:(set_solver)). lia.
Qed.

(** * Witnesses *)

Lemma PairList_save_load_witness :
  exists file, ListPersistent [(1, 4294967295); (0, 17)] = Some file /\ length file = 2%nat /\
    LoadPairList file 5 6 [] = [(1, 4294967295); (0, 17)].
Proof.
  apply (PairList_save_load [(1, 4294967295); (0, 17)] 5 6); [discriminate|].
  repeat constructor; vm_compute; discriminate.
Defined.

Lemma InsertExecution_list_witness :
  InsertExecution_CreateList small_config [(3, 4); (5, 5); (20, 7)] 2 [] = Some [(4, 5); (1, 8)] /\
  forall pairs, InsertExecution_CreateList small_config [(3, 4); (5, 5); (20, 7)] 2 [] = Some pairs ->
    Z.of_nat (length pairs) = 2 /\ Forall (fun p => ids_in_graph small_config p /\ p.1 <> p.2) pairs.
Proof.
  apply (InsertExecution_list small_config [(3, 4); (5, 5); (20, 7)] 2); vm_compute; discriminate.
Defined.

(** Three vertices with lists of three, two and one neighbors; the second draw
    gives the same neighbor twice. *)
Definition list_db : gmap (list Z) (list Z) :=
  RocksDb_Put (RocksDb_Put (RocksDb_Put ∅ 1 [2; 3; 4]) 2 [1; 3]) 3 [1].

Lemma Query_list_witness :
  let lists := lists_of list_db [3; 1; 2] in
  let made := drawn_rounds 4 lists [(0, 5); (3, 7); (4, 3); (1, 1)] in
  (lists = [] -> forall fuel, Query_CreateList list_db fuel [3; 1; 2] [(0, 5); (3, 7); (4, 3); (1, 1)] 2 [] = None) /\
  (lists <> [] -> forall fuel, (4 < fuel)%nat ->
     Query_CreateList list_db fuel [3; 1; 2] [(0, 5); (3, 7); (4, 3); (1, 1)] 2 [] =
       if 2 <=? Z.of_nat (length made) then Some (take 2 made) else None) /\
  forall p, p ∈ made ->
    p.1 <> p.2 /\ exists v, v ∈ [3; 1; 2] /\ p.1 ∈ Graph_GetNeighbors list_db v [] /\ p.2 ∈ Graph_GetNeighbors list_db v [].
Proof.
  apply (Query_list list_db [3; 1; 2] [(0, 5); (3, 7); (4, 3); (1, 1)] 2); [|lia].
  repeat constructor; vm_compute; reflexivity.
Defined.

Example Query_list_made :
  Query_CreateList list_db 5 [3; 1; 2] [(0, 5); (3, 7); (4, 3); (1, 1)] 2 [] = Some [(2, 4); (3, 2)].
Proof. vm_compute. reflexivity. Qed.

Lemma RandomCreate_sets_witness :
  let r := RandomCreate small_config (seqZ 1 20) (seqZ 1 20) 2 ∅ 3 ∅ in
  (forall s1 s2, r = Some (s1, s2) ->
     Z.of_nat (size s1) = 2 /\ Z.of_nat (size s2) = 3 /\ s1 ## s2 /\
     forall x, x ∈ s1 ∪ s2 -> 1 <= x <= VERTEX_SIZE small_config) /\
  (VERTEX_SIZE small_config < 2 + 3 -> r = None) /\
  (2 + 3 <= VERTEX_SIZE small_config ->
   (forall x, 1 <= x <= VERTEX_SIZE small_config -> exists d1 d2, d1 ∈ seqZ 1 20 /\ d2 ∈ seqZ 1 20 /\
      d1 mod VERTEX_SIZE small_config + 1 = x /\ d2 mod VERTEX_SIZE small_config + 1 = x) -> is_Some r).
Proof. apply (RandomCreate_sets small_config (seqZ 1 20) (seqZ 1 20) 2 3); vm_compute; discriminate. Defined.

(** * Behaviours worth knowing *)

(** With the sizes of the program, no list of random scores is ever made for a
    graph of at most 100000 vertices. *)
Example RandomScore_small_graph (unordered : gset Z -> list Z) draws1 draws2 l :
  RandomScore_CreateList small_config unordered 100000 draws1 draws2 100000000 l = None.
Proof.
  unfold RandomScore_CreateList. change (100000000 / 100000) with 1000.
  destruct (RandomCreate small_config draws1 draws2 100000 ∅ 1000 ∅) as [[s1 s2]|] eqn:E; [|done]. exfalso.
  assert (VERTEX_SIZE small_config = 20) as HV by (vm_compute; reflexivity).
  destruct (RandomCreate_inv small_config draws1 draws2 100000 1000 s1 s2 ltac:(lia) ltac:(lia) ltac:(lia) E) as (Hn1 & _ & _ & Hr).
  pose proof (proj1 (size_ids (VERTEX_SIZE small_config) s1 ltac:(lia))) as Hs.
  assert (Z.of_nat (size s1) <= VERTEX_SIZE small_config); [|lia]. apply Hs. intros x Hx. apply Hr, elem_of_union. by left.
Qed.

(** The pairs of the scores: every other neighbor behind one that is kept. *)
Example Score_list_made :
  Score_CreateList list_db (fun _ => 1) [1; 2; 3] 3 [] = Some [(2, 3); (3, 4); (1, 3)].
Proof. vm_compute. reflexivity. Qed.

(** Fewer pairs than asked for, when the vertices have no more; the percentages
    are taken of the number asked for. *)
Example Score_list_short :
  Score_CreateList list_db (fun _ => 1) [1; 2; 3] 100 [] = Some [(2, 3); (3, 4); (1, 3)].
Proof. vm_compute. reflexivity. Qed.
