(* ===== verification/Text.v ===== *)
(** The characters of the files: the data file that [Graph::LoadData] reads
    ([src/graph/graph.cpp]), and the files that the encodings write and read
    ([src/include/encode/single/encode_bitset.h],
    [src/encode/bfilter/bfilter_bit_encode.cpp], [bfilter_int_encode.cpp]).

    The other files of the development take a data file as the list of the pairs
    that its lines give, and an encoding file as the numbers on its lines. Here
    are the characters; a character is its code, the functions are those of the
    C and the C++ library that the program uses. *)
From S2P Require Import Prelude Config BitSet Encode BFilter DeltaEncode KCore Db Graph PairList.
From stdpp Require Import options.
Local Open Scope Z_scope.
Set Default Proof Using "Type*".

(** * Data files *)

(** [fgets] with room for [n] characters and the null: up to a newline. There is
    no line at the end of the file. *)
Fixpoint fgets (n : nat) (s : list Z) : list Z * list Z :=
  match n, s with
  | S n, c :: s =>
      if c =? 10 then ([c], s) else let '(line, rest) := fgets n s in (c :: line, rest)
  | _, _ => ([], s)
  end.

(** A string ends at its null. *)
Fixpoint c_str (s : list Z) : list Z :=
  match s with c :: s => if c =? 0 then [] else c :: c_str s | [] => [] end.

(** [%d] of [sscanf]: white space, a sign, digits. [Some None] is a failure to
    match; a number that is no [int] is undefined. *)
Definition scan_int (s : list Z) : option (option (Z * list Z)) :=
  match skip_spaces s with
  | [] => Some None
  | c :: s' =>
      let '(neg, s) := if c =? 45 then (true, s') else if c =? 43 then (false, s') else (false, c :: s') in
      match s with
      | d :: _ =>
          if is_digit d then
            let v := if neg then - read_digits s 0 else read_digits s 0 in
            if (- 2 ^ 31 <=? v) && (v <? 2 ^ 31) then Some (Some (v, skip_digits s)) else None
          else Some None
      | [] => Some None
      end
  end.

(** [sscanf(line, "%d %d", &vertex1, &vertex2) == 2]: the pair of the line. *)
Definition scan_pair (line : list Z) : option (option (Z * Z)) :=
  r1 ← scan_int line;
  match r1 with
  | None => Some None
  | Some (vertex1, rest) =>
      r2 ← scan_int rest;
      match r2 with
      | None => Some None
      | Some (vertex2, _) => Some (Some (u32 vertex1, u32 vertex2))
      end
  end.

(** The loop over the lines, [char line[256]]; a line takes a character. *)
Fixpoint read_data_loop (fuel : nat) (text : list Z) : option (list (option (Z * Z))) :=
  match text with
  | [] => Some []
  | _ =>
      match fuel with
      | O => None
      | S fuel =>
          let '(line, rest) := fgets 255 text in
          pair ← scan_pair (c_str line);
          pairs ← read_data_loop fuel rest;
          Some (pair :: pairs)
      end
  end.
Definition read_data (text : list Z) : option (list (option (Z * Z))) := read_data_loop (length text) text.

(** [LoadData] of the characters of a file. *)
Definition Graph_LoadData_text (C : Config) (directed_ : bool) (text : list Z) (adjacency_list_ in_adj_list_ : list (list Z))
  : option (list (list Z) * list (list Z)) :=
  file ← read_data text; Graph_LoadData C directed_ file adjacency_list_ in_adj_list_.

(** * Files of the encodings *)

(** [output << v << tab] of every number. *)
Definition write_numbers (ws : list Z) : list Z := flat_map (fun w => to_string w ++ [9]) ws.

(** [std::getline] until it fails. *)
Fixpoint getlines (text : list Z) : list (list Z) :=
  match text with
  | [] => []
  | c :: text =>
      if c =? 10 then [] :: getlines text
      else match getlines text with [] => [[c]] | line :: rest => (c :: line) :: rest end
  end.

(** Whether [>>] of a [uint32_t] succeeds. *)
Definition extracts (st : bool * list Z) : bool :=
  st.1 &&
  match skip_spaces st.2 with
  | [] => false
  | c :: s' =>
      let s := if (c =? 45) || (c =? 43) then s' else c :: s' in
      match s with d :: _ => is_digit d && (read_digits s 0 <? 2 ^ 32) | [] => false end
  end.

(** [while (line_string >> vertex) temp.push_back(vertex)]; a number takes a
    character. *)
Fixpoint read_numbers (fuel : nat) (st : bool * list Z) : list Z :=
  match fuel with
  | O => []
  | S fuel => if extracts st then let '(st, vertex) := extract_u32 st 0 in vertex :: read_numbers fuel st else []
  end.

(** A line: its key and the numbers behind it. A line of white space leaves the
    key uninitialised. *)
Definition parse_line (line : list Z) : list Z :=
  match skip_spaces line with
  | [] => []
  | _ => let '(st, key) := extract_u32 (true, line) 0 in key :: read_numbers (length line) st
  end.

(** [EncodePersistent(file_path)] and [LoadFromDb(file_path)] of the vectors. *)
Definition EncodeBitSet_write (C : Config) (encode_bitset_ : list (list Z)) : option (list Z) :=
  lines ← EncodeBitSet_EncodePersistent C encode_bitset_; Some (flat_map (fun line => write_numbers line ++ [10]) lines).
Definition EncodeBitSet_read (encode_bitset_ : list (list Z)) (text : list Z) : option (list (list Z)) :=
  EncodeBitSet_LoadFromDb encode_bitset_ (map parse_line (getlines text)).

(** Those of the Bloom filters, and of the counting filter. *)
Fixpoint read_words_text (n : nat) (file : bool * list Z) (key : Z) : list Z :=
  match n with
  | O => []
  | S n => let '(file, key) := extract_u32 file key in key :: read_words_text n file key
  end.

Definition BFilterBitEncode_write (C : Config) (encode_ : list Z) : option (list Z) :=
  hash_key ← BFilterBitEncode_EncodePersistent C encode_; Some (write_numbers hash_key).
Definition BFilterBitEncode_read (C : Config) (encode_ text : list Z) (key : Z) : option (list Z) :=
  BitSetSIMD_BlockSet32 encode_ (read_words_text (Z.to_nat (bit_hash_size C / 32)) (true, text) key).

Definition BFilterIntEncode_write (C : Config) (encode_ : list Z) : option (list Z) :=
  counts ← BFilterIntEncode_EncodePersistent C encode_; Some (write_numbers counts).
Definition BFilterIntEncode_read (C : Config) (encode_ text : list Z) : option (list Z) :=
  st ← for_loop (Z.to_nat (int_hash_size C)) 0
         (fun i '(file, d) =>
            old ← zget d i;
            let '(file, v) := extract_u32 file old in
            d ← zset d i v;
            Some (file, d)) ((true, text), encode_);
  Some st.2.

(** * Proofs: numbers in a text *)

Definition u32_ok (n : Z) : Prop := 0 <= n < 2 ^ 32.

Lemma skip_spaces_app sp n rest :
  Forall (fun c => is_space c = true) sp -> u32_ok n ->
  exists c s, to_string n = c :: s /\ is_digit c = true /\ c <> 45 /\ c <> 43 /\ skip_spaces (sp ++ to_string n ++ rest) = c :: s ++ rest.
Proof.
  intros Hsp Hn. destruct (to_string_head n Hn) as (c & s & E & Hd & Hs & Hm & Hp). exists c, s.
  split; [done|]. split; [done|]. split; [done|]. split; [done|]. rewrite E.
  induction Hsp as [|x sp Hx Hsp IH]; cbn [app skip_spaces]; [by rewrite Hs|]. by rewrite Hx.
Qed.

Lemma to_string_read n rest :
  u32_ok n -> ends_number rest -> read_digits (to_string n ++ rest) 0 = n /\ skip_digits (to_string n ++ rest) = rest.
Proof.
  intros Hn Hr. pose proof (decimal_digits 10 n ltac:(unfold u32_ok in Hn; lia)) as Hdig. fold (to_string n) in Hdig.
  rewrite read_digits_rest, skip_digits_app by done. split; [|done]. unfold u32_ok in Hn. apply (read_decimal 10 n); simpl; lia.
Qed.

Lemma scan_int_decimal sp n rest :
  Forall (fun c => is_space c = true) sp -> 0 <= n < 2 ^ 31 -> ends_number rest ->
  scan_int (sp ++ to_string n ++ rest) = Some (Some (n, rest)).
Proof.
  intros Hsp Hn Hr. assert (u32_ok n) as Hu by (unfold u32_ok; lia). unfold scan_int.
  destruct (skip_spaces_app sp n rest Hsp Hu) as (c & s & E & Hd & Hm & Hp & ->).
  rewrite (proj2 (Z.eqb_neq c 45)), (proj2 (Z.eqb_neq c 43)) by done. rewrite Hd.
  replace (c :: s ++ rest) with (to_string n ++ rest) by by rewrite E. destruct (to_string_read n rest Hu Hr) as [-> ->].
  by rewrite (proj2 (Z.leb_le (- 2 ^ 31) n)), (proj2 (Z.ltb_lt n (2 ^ 31))) by lia.
Qed.

(** Numbers that end with a tab, one after the other. *)
Lemma write_numbers_cons w ws rest : write_numbers (w :: ws) ++ rest = to_string w ++ 9 :: write_numbers ws ++ rest.
Proof. unfold write_numbers. cbn [flat_map]. by rewrite <- !app_assoc. Qed.

Lemma extract_first sp w ws rest v :
  Forall (fun c => is_space c = true) sp -> u32_ok w ->
  extracts (true, sp ++ write_numbers (w :: ws) ++ rest) = true /\
  extract_u32 (true, sp ++ write_numbers (w :: ws) ++ rest) v = ((true, [9] ++ write_numbers ws ++ rest), w).
Proof.
  intros Hsp Hw. rewrite write_numbers_cons. split.
  - unfold extracts. cbn [fst snd andb]. destruct (skip_spaces_app sp w (9 :: write_numbers ws ++ rest) Hsp Hw) as (c & s & E & Hd & Hm & Hp & ->).
    rewrite (proj2 (Z.eqb_neq c 45)), (proj2 (Z.eqb_neq c 43)) by done. cbn [orb]. cbv zeta. rewrite Hd. cbn [andb].
    replace (c :: s ++ 9 :: write_numbers ws ++ rest) with (to_string w ++ 9 :: write_numbers ws ++ rest) by by rewrite E.
    destruct (to_string_read w (9 :: write_numbers ws ++ rest) Hw eq_refl) as [-> _]. apply Z.ltb_lt. apply Hw.
  - rewrite extract_decimal by done. by rewrite bool_decide_eq_false_2.
Qed.

Lemma read_numbers_write fuel sp ws :
  Forall (fun c => is_space c = true) sp -> Forall u32_ok ws -> (length ws < fuel)%nat ->
  read_numbers fuel (true, sp ++ write_numbers ws) = ws.
Proof.
  intros Hsp Hws. revert fuel sp Hsp. induction Hws as [|w ws Hw Hws IH]; intros fuel sp Hsp Hf; (destruct fuel as [|fuel]; [cbn in Hf; lia|]).
  - cbn [write_numbers flat_map]. rewrite app_nil_r. cbn [read_numbers extracts fst snd andb].
    assert (skip_spaces sp = []) as ->; [|done]. clear -Hsp. induction Hsp as [|c sp Hc _ IH]; [done|]. cbn. by rewrite Hc.
  - cbn [read_numbers]. rewrite <- (app_nil_r (write_numbers (w :: ws))). destruct (extract_first sp w ws [] 0 Hsp Hw) as [-> ->].
    rewrite app_nil_r. rewrite IH; [done|by repeat constructor|cbn in Hf; lia].
Qed.

Lemma length_write_numbers ws : Forall u32_ok ws -> (length ws <= length (write_numbers ws))%nat.
Proof.
  intros Hws. induction Hws as [|w ws Hw Hws IH]; [done|]. unfold write_numbers in *. cbn [flat_map]. rewrite !length_app. cbn [length]. lia.
Qed.

Lemma parse_write line : line <> [] -> Forall u32_ok line -> parse_line (write_numbers line) = line.
Proof.
  intros Hne Hl. destruct Hl as [|key ws Hk Hws]; [done|]. unfold parse_line.
  destruct (extract_first [] key ws [] 0 ltac:(constructor) Hk) as [_ E]. cbn [app] in E. rewrite !app_nil_r in E. rewrite E.
  destruct (skip_spaces_app [] key (9 :: write_numbers ws) ltac:(constructor) Hk) as (c & s & _ & _ & _ & _ & Es).
  pose proof (write_numbers_cons key ws []) as Ew. rewrite !app_nil_r in Ew. cbn [app] in Es. rewrite Ew, Es.
  rewrite <- Ew. f_equal. apply (read_numbers_write _ [9]); [by repeat constructor|done|].
  pose proof (length_write_numbers ws Hws). rewrite Ew, length_app. cbn [length]. lia.
Qed.

(** A text is cut into the lines it was written of. *)
Lemma getlines_write {A} (f : A -> list Z) (l : list A) :
  (forall x, x ∈ l -> 10 ∉ f x) -> getlines (flat_map (fun x => f x ++ [10]) l) = map f l.
Proof.
  assert (forall line rest, 10 ∉ line -> getlines (line ++ 10 :: rest) = line :: getlines rest) as Hline.
  { induction line as [|c line IH]; intros rest Hno; cbn [app getlines]; [done|]. apply not_elem_of_cons in Hno as [Hc Hno].
    rewrite (proj2 (Z.eqb_neq c 10)) by done. by rewrite IH. }
  induction l as [|x l IH]; intros Hno; [done|]. cbn [flat_map map]. rewrite <- app_assoc. cbn [app].
  rewrite Hline by (apply Hno; by left). rewrite IH; [done|]. intros y Hy. apply Hno. by right.
Qed.

Lemma digits_plain n : u32_ok n -> 10 ∉ to_string n /\ 0 ∉ to_string n.
Proof.
  intros Hn. pose proof (decimal_digits 10 n ltac:(unfold u32_ok in Hn; lia)) as Hd. fold (to_string n) in Hd.
  split; intros Hin; by apply (proj1 (Forall_forall _ _) Hd) in Hin.
Qed.

Lemma to_string_length n : (length (to_string n) <= 10)%nat.
Proof.
  unfold to_string. generalize 10%nat as fuel. intros fuel. revert n. induction fuel as [|fuel IH]; intros n; cbn [decimal]; [done|].
  destruct (n <? 10); [cbn [length]; lia|]. rewrite length_app. specialize (IH (n / 10)). cbn [length]. lia.
Qed.

Lemma write_numbers_plain ws : Forall u32_ok ws -> 10 ∉ write_numbers ws.
Proof.
  intros Hws Hin. apply list_elem_of_In, in_flat_map in Hin as (w & Hw%list_elem_of_In & Hin%list_elem_of_In).
  apply elem_of_app in Hin as [Hin| Hin%list_elem_of_singleton]; [|done].
  by apply digits_plain in Hin; [|apply (proj1 (Forall_forall _ _) Hws)].
Qed.

(** ** The filters *)

Lemma read_words_write sp ws key :
  Forall (fun c => is_space c = true) sp -> Forall u32_ok ws ->
  read_words_text (length ws) (true, sp ++ write_numbers ws) key = ws.
Proof.
  intros Hsp Hws. revert sp key Hsp. induction Hws as [|w ws Hw Hws IH]; intros sp key Hsp; [done|]. cbn [length read_words_text].
  rewrite <- (app_nil_r (write_numbers (w :: ws))). destruct (extract_first sp w ws [] key Hsp Hw) as [_ ->].
  rewrite app_nil_r, IH; [done|by repeat constructor].
Qed.

Lemma read_counters counters counters0 :
  Forall u32_ok counters -> length counters0 = length counters ->
  exists file, for_loop (length counters) 0
    (fun i '(file, d) => old ← zget d i; let '(file, v) := extract_u32 file old in d ← zset d i v; Some (file, d))
    ((true, write_numbers counters), counters0) = Some (file, counters).
Proof.
  intros Hu Hlen.
  destruct (for_loop_inv (fun i (st : bool * list Z * list Z) => length st.2 = length counters /\
      (forall j, 0 <= j < i -> zget st.2 j = zget counters j) /\
      exists sp, Forall (fun c => is_space c = true) sp /\ st.1 = (true, sp ++ write_numbers (drop (Z.to_nat i) counters)))
    (fun i '(file, d) => old ← zget d i; let '(file, v) := extract_u32 file old in d ← zset d i v; Some (file, d))
    (length counters) 0 ((true, write_numbers counters), counters0)) as ([file d] & E & Hl & Hd & _).
  - split; [done|]. split; [lia|]. by exists [].
  - intros i [file d] Hi (Hl & Hd & sp & Hsp & Est). cbn [fst snd] in *. subst file. destruct (zget_is_Some d i) as [old Eo]; [lia|]. rewrite Eo. bind_step.
    destruct (zget_is_Some counters i) as [w Ew]; [lia|]. pose proof (zget_Some_inv _ _ _ Ew) as [_ Ew'].
    rewrite (drop_S _ _ _ Ew'), <- (app_nil_r (write_numbers _)).
    destruct (extract_first sp w (drop (S (Z.to_nat i)) counters) [] old Hsp) as [_ ->].
    { by apply (proj1 (Forall_forall _ _) Hu), (list_elem_of_lookup_2 _ (Z.to_nat i)). }
    pose proof (zset_Some d i w ltac:(lia)) as Es. rewrite Es. bind_step. eexists. split; [done|]. cbn [fst snd]. split; [by rewrite length_insert|].
    split.
    + intros j Hj. rewrite (zget_zset d i j w _ Es). destruct (Z.eqb_spec j i) as [->|]; [done|apply Hd; lia].
    + exists [9]. split; [by repeat constructor|]. rewrite app_nil_r. by replace (Z.to_nat (i + 1)) with (S (Z.to_nat i)) by lia.
  - exists file. rewrite E. cbn [snd] in *. do 2 f_equal. apply zget_list_eq; [done|]. intros j Hj. apply Hd. lia.
Qed.

(** * Proofs: lines *)

(** A line of a data file, without its newline: what it holds of an edge is its
    two numbers, with white space before and between them and anything behind; a
    line of anything else starts with no sign and no digit. *)
Inductive data_line : option (Z * Z) -> list Z -> Prop :=
| line_edge sp1 sp2 rest u v :
    Forall (fun c => is_space c = true) (sp1 ++ sp2) -> sp2 <> [] -> 0 <= u < 2 ^ 31 -> 0 <= v < 2 ^ 31 -> ends_number rest ->
    data_line (Some (u, v)) (sp1 ++ to_string u ++ sp2 ++ to_string v ++ rest)
| line_other line :
    match skip_spaces line with c :: _ => is_digit c = false /\ c <> 45 /\ c <> 43 | [] => True end -> data_line None line.

(** It fits the buffer. *)
Definition line_fits (line : list Z) : Prop := Z.of_nat (length line) < 255 /\ 0 ∉ line /\ 10 ∉ line.

Lemma fgets_line n line rest :
  10 ∉ line -> (length line < n)%nat -> fgets n (line ++ 10 :: rest) = (line ++ [10], rest).
Proof.
  revert n. induction line as [|c line IH]; intros [|n] Hno Hl; cbn [length] in Hl; try lia; cbn [app fgets]; [done|].
  apply not_elem_of_cons in Hno as [Hc Hno]. rewrite (proj2 (Z.eqb_neq c 10)) by done. by rewrite IH by (done || lia).
Qed.

Lemma c_str_plain s : 0 ∉ s -> c_str s = s.
Proof.
  induction s as [|c s IH]; intros Hno; [done|]. apply not_elem_of_cons in Hno as [Hc Hno]. cbn [c_str].
  rewrite (proj2 (Z.eqb_neq c 0)) by done. by rewrite IH.
Qed.

Lemma space_ends sp rest : sp <> [] -> Forall (fun c => is_space c = true) sp -> ends_number (sp ++ rest).
Proof.
  intros Hne Hsp. destruct Hsp as [|c sp' Hc _]; [done|]. cbn [app ends_number]. unfold is_space, is_digit in *.
  apply orb_true_iff in Hc as [Hc%Z.eqb_eq|[H1%Z.leb_le H2%Z.leb_le]%andb_true_iff]; apply andb_false_iff; left; apply Z.leb_gt; lia.
Qed.

Lemma ends_snoc rest : ends_number rest -> ends_number (rest ++ [10]).
Proof. by destruct rest. Qed.

Lemma skip_spaces_snoc line :
  skip_spaces (line ++ [10]) = match skip_spaces line with [] => [] | c :: s => c :: s ++ [10] end.
Proof. induction line as [|c line IH]; [done|]. cbn [app skip_spaces]. by destruct (is_space c). Qed.

Lemma scan_pair_line e line : data_line e line -> scan_pair (line ++ [10]) = Some e.
Proof.
  intros [sp1 sp2 rest u v Hsp Hne Hu Hv Hr|line' Hl]; unfold scan_pair.
  - apply Forall_app in Hsp as [H1 H2]. rewrite <- !app_assoc.
    rewrite scan_int_decimal by (done || by apply space_ends). bind_step.
    rewrite scan_int_decimal by (done || by apply ends_snoc). bind_step. by rewrite !u32_small by lia.
  - unfold scan_int. rewrite skip_spaces_snoc. destruct (skip_spaces line') as [|c s]; [done|]. destruct Hl as (Hd & Hm & Hp).
    rewrite (proj2 (Z.eqb_neq c 45)), (proj2 (Z.eqb_neq c 43)) by done. by rewrite Hd.
Qed.

(** The text of lines. *)
Definition unlines (ls : list (list Z)) : list Z := flat_map (fun l => l ++ [10]) ls.

Lemma read_data_lines file ls :
  Forall2 data_line file ls -> Forall line_fits ls -> read_data (unlines ls) = Some file.
Proof.
  intros Hf Hl. unfold read_data. pose proof (le_n (length (unlines ls))) as Hfuel. revert Hfuel Hl.
  generalize (length (unlines ls)) at 2 3 as fuel. unfold unlines.
  induction Hf as [|e line file ls He Hf IH]; intros fuel Hfuel Hl; [by destruct fuel|].
  apply Forall_cons in Hl as [(Hlen & H0 & H10) Hl]. cbn [flat_map] in *. rewrite !length_app in Hfuel. cbn [length] in Hfuel.
  destruct fuel as [|fuel]; [lia|]. rewrite <- app_assoc. cbn [app].
  assert (exists c t, line ++ 10 :: flat_map (fun l => l ++ [10]) ls = c :: t) as (c & t & Et) by (destruct line; by do 2 eexists).
  rewrite Et. cbn [read_data_loop]. rewrite <- Et. rewrite fgets_line by (done || lia).
  rewrite c_str_plain by (rewrite elem_of_app, list_elem_of_singleton; intros [?|?]; done).
  rewrite (scan_pair_line e line He). bind_step. rewrite IH by (done || lia). done.
Qed.

(** * Properties *)

(** C7: [LoadData] reads the characters of a data file: of lines that fit the
    buffer and hold two numbers each, with any white space before and between
    them and anything behind, or something that is no number, the lists are those
    of the graph of the pairs, sorted and symmetric. *)
Theorem LoadData_text (C : Config) (file : list (option (Z * Z))) (ls : list (list Z))
    (HV : 1 <= VERTEX_SIZE C < 2 ^ 28) (Hfile : simple_file C file)
    (Hlines : Forall2 data_line file ls) (Hfit : Forall line_fits ls) :
  exists adj, Graph_LoadData_text C false (unlines ls) [] [] = Some (adj, []) /\
    graph_ok adj (VERTEX_SIZE C) (neighbors_ok C) /\
    forall u v, 1 <= u <= VERTEX_SIZE C -> v ∈ neighbors adj u <-> (u, v) ∈ file_edges file \/ (v, u) ∈ file_edges file.
Proof.
  destruct (LoadData_ok C HV file Hfile) as (adj & E & Hg & _ & Hel). exists adj.
  split; [|done]. unfold Graph_LoadData_text. rewrite (read_data_lines file ls Hlines Hfit). bind_step. exact E.
Qed.

(** C39: the characters that [EncodePersistent] writes of the vectors are read by
    [LoadFromDb] as the same vectors, into any others of their size; what is
    written has a line for every vertex. *)
Theorem Encode_text (C : Config) (n : nat) (E E0 : list (list Z))
    (HV : 1 <= VERTEX_SIZE C < 2 ^ 32) (Hn : Z.of_nat n mod 4 = 0)
    (HE : forall v, 1 <= v <= VERTEX_SIZE C -> stored_at n E v) (HE0 : forall v, 1 <= v <= VERTEX_SIZE C -> stored_at n E0 v) :
  exists text E', EncodeBitSet_write C E = Some text /\ EncodeBitSet_read E0 text = Some E' /\
    length (getlines text) = Z.to_nat (VERTEX_SIZE C) /\
    forall v, zget E' v = if decide (1 <= v <= VERTEX_SIZE C) then zget E v else zget E0 v.
Proof.
  destruct (EncodePersistent_ok C n ltac:(lia) Hn E HE) as (file & Hfile & Hlines).
  destruct (LoadFromDb_ok C n ltac:(lia) E E0 file Hlines HE0) as (E' & HL & _ & Hget).
  assert (forall line, line ∈ file -> line <> [] /\ Forall u32_ok line) as Hok.
  { intros line (i & Hi)%list_elem_of_lookup_1. destruct (Forall2_lookup_r _ _ _ _ _ Hlines Hi) as (v & Hv & d & ws & Ed & Ews & -> & _).
    apply lookup_seqZ in Hv as [-> Hv]. split; [done|]. constructor; [unfold u32_ok; lia|].
    destruct (HE (1 + Z.of_nat i) ltac:(lia)) as (d' & Ed' & Hd & Hl). rewrite Ed in Ed'. injection Ed' as <-.
    destruct (Dump_BlockSet32 d d Hd) as (ws' & Ews' & _ & Hws & _); [by rewrite Hl|done|]. rewrite Ews in Ews'. by injection Ews' as <-. }
  assert (getlines (flat_map (fun line => write_numbers line ++ [10]) file) = map write_numbers file) as Hget'
    by (apply getlines_write; intros line Hin; by apply write_numbers_plain, Hok).
  eexists _, E'. unfold EncodeBitSet_write. rewrite Hfile. bind_step. split; [done|]. unfold EncodeBitSet_read. rewrite Hget'. split; [|split; [|done]].
  - rewrite map_map, (map_ext_in _ (fun line => line)), map_id; [done|]. intros line Hin%list_elem_of_In. by apply parse_write; apply Hok.
  - rewrite length_map, <- (Forall2_length _ _ _ Hlines). by rewrite length_seqZ.
Qed.

(** The characters that the filters write are read as the same filters: the
    bits of a Bloom filter, whatever was in [key], and the counters of the
    counting one, into any of their size. *)
Theorem Filter_text (C : Config) (bits bits0 counters counters0 : list Z) (key : Z)
    (Hbits : 0 < bit_hash_size C < 2 ^ 56) (H32 : bit_hash_size C mod 32 = 0) (Hb : bits_ok C bits) (Hb0 : bits_ok C bits0)
    (Hsize : 0 < int_hash_size C) (Hc : Z.of_nat (length counters) = int_hash_size C) (Hu : Forall u32_ok counters)
    (Hc0 : Z.of_nat (length counters0) = int_hash_size C) :
  (exists text, BFilterBitEncode_write C bits = Some text /\ BFilterBitEncode_read C bits0 text key = Some bits) /\
  (exists text, BFilterIntEncode_write C counters = Some text /\ BFilterIntEncode_read C counters0 text = Some counters).
Proof.
  split.
  - destruct (BFilter_words C bits bits0 Hbits H32 Hb Hb0) as (ws & EP & Hlen & Hws & Hset).
    exists (write_numbers ws). unfold BFilterBitEncode_write, BFilterBitEncode_read. rewrite EP, Hlen. bind_step. split; [done|].
    by rewrite (read_words_write []).
  - exists (write_numbers counters). unfold BFilterIntEncode_write, BFilterIntEncode_EncodePersistent.
    rewrite <- Hc, mapM_zget_all. bind_step. split; [done|]. unfold BFilterIntEncode_read. rewrite <- Hc, Nat2Z.id.
    destruct (read_counters counters counters0 Hu ltac:(lia)) as (file & ->). done.
Qed.

(** * Witnesses *)

(** Three lines: an edge, a remark, and an edge with white space and more. *)
Definition demo_text : list (list Z) :=
  [[49; 32; 50]; [35; 32; 120]; [32; 9; 49; 51; 9; 32; 50; 48; 32; 55]].

Lemma LoadData_text_witness :
  exists adj, Graph_LoadData_text small_config false (unlines demo_text) [] [] = Some (adj, []) /\
    graph_ok adj 20 (neighbors_ok small_config) /\
    forall u v, 1 <= u <= 20 ->
      v ∈ neighbors adj u <-> (u, v) ∈ file_edges [Some (1, 2); None; Some (13, 20)] \/ (v, u) ∈ file_edges [Some (1, 2); None; Some (13, 20)].
Proof.
  apply (LoadData_text small_config [Some (1, 2); None; Some (13, 20)] demo_text).
  - vm_compute. split; [discriminate|reflexivity].
  - apply simple_check_ok. vm_compute. reflexivity.
  - constructor; [exact (line_edge [] [32] [] 1 2 ltac:(by repeat constructor) ltac:(done) ltac:(lia) ltac:(lia) I)|].
    constructor; [by apply line_other|].
    constructor; [|constructor].
    exact (line_edge [32; 9] [9; 32] [32; 55] 13 20 ltac:(by repeat constructor) ltac:(done) ltac:(lia) ltac:(lia) eq_refl).
  - apply (bool_decide_unpack _). vm_compute. exact I.
Defined.

Lemma Encode_text_witness :
  exists text E', EncodeBitSet_write small_config (replicate 21 [1; 2; 3; 255]) = Some text /\
    EncodeBitSet_read (replicate 21 [0; 0; 0; 0]) text = Some E' /\ length (getlines text) = 20%nat /\
    forall v, zget E' v = if decide (1 <= v <= 20) then zget (replicate 21 [1; 2; 3; 255]) v else zget (replicate 21 [0; 0; 0; 0]) v.
Proof.
  apply (Encode_text small_config 4).
  - vm_compute. split; [discriminate|reflexivity].
  - reflexivity.
  - intros v Hr. change (VERTEX_SIZE small_config) with 20 in Hr. exists [1; 2; 3; 255].
    rewrite zget_lookup, lookup_replicate_2 by lia. split; [done|]. split; [|done]. apply (bool_decide_unpack _). vm_compute. exact I.
  - intros v Hr. change (VERTEX_SIZE small_config) with 20 in Hr. exists [0; 0; 0; 0].
    rewrite zget_lookup, lookup_replicate_2 by lia. split; [done|]. split; [|done]. apply (bool_decide_unpack _). vm_compute. exact I.
Defined.

Lemma Filter_text_witness :
  let bits := replicate (Z.to_nat (bit_hash_size small_config / 8)) 200 in
  let bits0 := replicate (Z.to_nat (bit_hash_size small_config / 8)) 0 in
  let counters := replicate (Z.to_nat (int_hash_size small_config)) 4294967295 in
  let counters0 := replicate (Z.to_nat (int_hash_size small_config)) 0 in
  (exists text, BFilterBitEncode_write small_config bits = Some text /\ BFilterBitEncode_read small_config bits0 text 7 = Some bits) /\
  (exists text, BFilterIntEncode_write small_config counters = Some text /\ BFilterIntEncode_read small_config counters0 text = Some counters).
Proof.
  apply Filter_text.
  - vm_compute. split; reflexivity.
  - vm_compute. reflexivity.
  - apply (bool_decide_unpack _). vm_compute. exact I.
  - apply (bool_decide_unpack _). vm_compute. exact I.
  - vm_compute. reflexivity.
  - vm_compute. reflexivity.
  - apply (bool_decide_unpack _). vm_compute. exact I.
  - vm_compute. reflexivity.
Defined.

(** * Behaviours worth knowing *)

(** The buffer holds 255 characters, of which the newline is one: in a line of
    256 the last digit is left for the next line, and the pair is another one. *)
Example long_line_cut : read_data (replicate 252 32 ++ [49; 32; 50; 51; 10]) = Some [Some (1, 2); None].
Proof. vm_compute. reflexivity. Qed.

(** An id from 2^31 is no [int], which [%d] reads. *)
Example large_id_undefined : read_data ([49; 32] ++ to_string 2147483648 ++ [10]) = None.
Proof. vm_compute. reflexivity. Qed.
