(* ===== verification/Vends.v ===== *)
(** Every encoding behind one interface: what [Vend]
    ([src/include/vend/vend.h]) is to the graph that owns it, for each of the
    classes that [VendFactory] makes.

    A state is the vectors of the vertices, those of the two directions, or the
    array of a filter. A file is its lines of numbers; a directed encoding has a
    second one. The class [VendLaws] is the promise to a client: what was built
    from a graph can be saved, and what is read again answers rightly. The
    classes for which the promise holds are proved to keep it. *)
From Stdlib Require Import String.
From stdpp Require Import strings.
From S2P Require Import Prelude Config BitSet Encode Hybrid RangeEncode BFilter Codec DeltaEncode KCore DegreeOrder RangeVend.
From S2P Require Import RangeBuild DirectedHybrid HashEncodes Compression RangeCom DeltaVend DirectedSimd VendFactory.
From stdpp Require Import options.
Local Open Scope Z_scope.
Set Default Proof Using "Type*".

(** * The interface *)

Inductive VendState :=
  | Vectors (encode_bitset_ : list (list Z))
  | Directions (bitsets : list (list Z) * list (list Z))
  | Filter (encode_ : list Z).

Record VendFile := {
  lines : list (list Z);
  in_lines : list (list Z)    (* encode_path + ".in" *)
}.

(** The graph that an encoding is made of: the lists, which a large graph does
    not have, those of the other direction, and the rows of the database. *)
Record VendGraph := {
  adjacency_list_ : option (list (list Z));
  in_adj_list_ : list (list Z);
  data_db_ : list (Z * list Z)
}.

Record VendOps := {
  vend_BuildEncoding : VendGraph -> option VendState;
  vend_EncodePersistent : VendState -> option VendFile;
  vend_LoadEncode : option VendFile -> option VendState;      (* a file that may be missing *)
  vend_Determine : VendState -> Z -> Z -> option PairType;
  vend_Insert : VendGraph -> (Z -> list Z) -> VendState -> Z -> Z -> option VendState;
  (* with the lists, which a deletion may read again from the database *)
  vend_Delete : VendGraph -> (Z -> list Z) -> VendState -> Z -> Z -> option (VendState * option (list (list Z)))
}.

Definition on_vectors {A} (s : VendState) (f : list (list Z) -> option A) : option A :=
  match s with Vectors E => f E | _ => None end.
Definition on_directions {A} (s : VendState) (f : list (list Z) * list (list Z) -> option A) : option A :=
  match s with Directions E => f E | _ => None end.
Definition on_filter {A} (s : VendState) (f : list Z -> option A) : option A :=
  match s with Filter d => f d | _ => None end.

Definition file_lines (file : option VendFile) : list (list Z) := match file with Some f => lines f | None => [] end.
Definition file_in_lines (file : option VendFile) : list (list Z) := match file with Some f => in_lines f | None => [] end.

(** * The classes *)

Section classes.
Context (C : Config).

(** The encodings that derive from [EncodeBitSet] and [SIMDEncode]. *)
Definition vector_ops (build : VendGraph -> option (list (list Z))) (determine : list (list Z) -> Z -> Z -> option PairType)
    (insert delete : (Z -> list Z) -> list (list Z) -> Z -> Z -> option (list (list Z))) : VendOps := {|
  vend_BuildEncoding g := E ← build g; Some (Vectors E);
  vend_EncodePersistent s := on_vectors s (fun E => l ← EncodeBitSet_EncodePersistent C E; Some {| lines := l; in_lines := [] |});
  vend_LoadEncode file := E ← EncodeBitSet_LoadFromDb (EncodeBitSet_default C) (file_lines file); Some (Vectors E);
  vend_Determine s u v := on_vectors s (fun E => determine E u v);
  vend_Insert _ db s u v := on_vectors s (fun E => E ← insert db E u v; Some (Vectors E));
  vend_Delete g db s u v := on_vectors s (fun E => E ← delete db E u v; Some (Vectors E, adjacency_list_ g))
|}.

(** The directed ones. *)
Definition direction_ops (build : list (list Z) -> list (list Z) -> option (list (list Z) * list (list Z)))
    (save : list (list Z) * list (list Z) -> option (list (list Z) * list (list Z)))
    (load : list (list Z) -> list (list Z) -> option (list (list Z) * list (list Z)))
    (determine : list (list Z) * list (list Z) -> Z -> Z -> option PairType)
    (insert delete : (Z -> list Z) -> list (list Z) * list (list Z) -> Z -> Z -> option (list (list Z) * list (list Z)))
  : VendOps := {|
  vend_BuildEncoding g := adj ← adjacency_list_ g; E ← build adj (in_adj_list_ g); Some (Directions E);
  vend_EncodePersistent s := on_directions s (fun E => f ← save E; Some {| lines := f.1; in_lines := f.2 |});
  vend_LoadEncode file := E ← load (file_lines file) (file_in_lines file); Some (Directions E);
  vend_Determine s u v := on_directions s (fun E => determine E u v);
  vend_Insert _ db s u v := on_directions s (fun E => E ← insert db E u v; Some (Directions E));
  vend_Delete g db s u v := on_directions s (fun E => E ← delete db E u v; Some (Directions E, adjacency_list_ g))
|}.

(** The filters, whose file is one line. *)
Definition filter_ops (new : list Z) (EdgeSet : list Z -> Z -> Z -> option (list Z)) (save : list Z -> option (list Z))
    (load : list Z -> option (list Z)) (determine : list Z -> Z -> Z -> option PairType)
    (insert : list Z -> Z -> Z -> option (list Z)) (delete : VendGraph -> list Z -> Z -> Z -> option (list Z * option (list (list Z)))) : VendOps := {|
  vend_BuildEncoding g := d ← BFilterVend_BuildEncoding EdgeSet (adjacency_list_ g) (data_db_ g) new; Some (Filter d);
  vend_EncodePersistent s := on_filter s (fun d => l ← save d; Some {| lines := [l]; in_lines := [] |});
  vend_LoadEncode file := d ← load (concat (file_lines file)); Some (Filter d);
  vend_Determine s u v := on_filter s (fun d => determine d u v);
  vend_Insert _ _ s u v := on_filter s (fun d => d ← insert d u v; Some (Filter d));
  vend_Delete g _ s u v := on_filter s (fun d => r ← delete g d u v; Some (Filter r.1, r.2))
|}.

(** An operation with an empty body. *)
Definition no_change {E : Type} (db : Z -> list Z) (s : E) (u v : Z) : option E := Some s.

(** What the kernel does not fix: the order of iteration of a set, that of equal
    keys, the heap behind a vector and the value of a fresh variable. *)
Context (heap : Z -> Z) (key : Z) (unordered : gset Z -> list Z) (std_sort : (Z -> Z) -> list Z -> list Z).

Definition BFilterBitVend_InsertPair (type : Z) : list Z -> Z -> Z -> option (list Z) :=
  if type =? 0 then BFilterBitEncode_InsertPair C
  else if type =? 1 then CBFilterEncode_InsertPair C else BBFilterEncode_InsertPair C.

Definition Delta_InsertPair (type : DeltaType) (db : Z -> list Z) (E : list (list Z)) (u v : Z) : option (list (list Z)) :=
  match type with
  | V3 => DeltaSIMDEncodeV3_InsertPair C heap (PER_ENCODE_BIT_SIZE C) (codec_ := tree_searched (HSIMD C)) db E u v
  | _ => Some (DeltaSIMDEncode_InsertPair E u v)
  end.

Definition Delta_DeletePair (type : DeltaType) (db : Z -> list Z) (E : list (list Z)) (u v : Z) : option (list (list Z)) :=
  match type with
  | V3 => DeltaSIMDEncodeV3_DeletePair C heap (PER_ENCODE_BIT_SIZE C) (codec_ := tree_searched (HSIMD C)) db E u v
  | _ => Some E
  end.

(** What each class is made of: its [BuildEncoding] and the methods of the encoding
    that its constructor makes. *)
Definition BFilterIntVend_ops : VendOps :=
  filter_ops (BFilterIntEncode_new C) (BFilterIntEncode_EdgeSet C) (BFilterIntEncode_EncodePersistent C)
    (BFilterIntEncode_LoadFromDb C (BFilterIntEncode_new C)) (BFilterIntEncode_NEpairTest C)
    (BFilterIntEncode_InsertPair C) (fun g d u v => d ← BFilterIntEncode_DeletePair C d u v; Some (d, adjacency_list_ g)).

Definition BFilterBitVend_ops (type : Z) : VendOps :=
  filter_ops (BFilterBitEncode_new C) (BFilterBitVend_EdgeSet C type) (BFilterBitEncode_EncodePersistent C)
    (fun file => BFilterBitEncode_LoadFromDb C (BFilterBitEncode_new C) file key) (BFilterBitVend_Determine C type)
    (BFilterBitVend_InsertPair type)
    (fun g => BFilterBitVend_Delete C type (adjacency_list_ g) (data_db_ g)).

Definition BitHashVend_ops : VendOps :=
  vector_ops (fun g => BitHashVend_BuildEncoding C (adjacency_list_ g) (data_db_ g) (EncodeBitSet_default C))
    (BitHashEncode_NEpairTest C) (fun _ => BitHashEncode_InsertPair C) (BitHashEncode_DeletePair C).

Definition RangeVend_ops : VendOps :=
  vector_ops (fun g => r ← RangeVend_Build C std_sort (adjacency_list_ g) (data_db_ g); Some r.2)
    (RangeEncode_NEpairTest C) (RangeEncode_InsertPair C) (RangeEncode_DeletePair C).

Definition HybridVend_ops : VendOps :=
  vector_ops (fun g => r ← HybridVend_Build C std_sort (adjacency_list_ g) (data_db_ g); Some r.2)
    (HybridEncode_NEpairTest C) (HybridEncode_InsertPair C) (HybridEncode_DeletePair C).

Definition CountVend_ops : VendOps :=
  vector_ops (fun g => r ← CountVend_Build C std_sort (adjacency_list_ g) (data_db_ g); Some r.2)
    (CountEncode_NEpairTest C) (fun _ E u v => Some (CountEncode_InsertPair E u v)) no_change.

Definition BloomVend_ops : VendOps :=
  vector_ops (fun g => r ← BloomVend_Build C std_sort (adjacency_list_ g) (data_db_ g); Some r.2)
    (BloomEncode_NEpairTest C) (fun _ E u v => Some (BloomEncode_InsertPair E u v)) no_change.

Definition DeltaSIMDVEND_ops (type : DeltaType) : VendOps :=
  vector_ops
    (fun g => adj ← adjacency_list_ g;
              r ← DeltaSIMDVEND_BuildEncoding C unordered type adj (SIMDEncode_default C); Some r.1)
    (DeltaSIMDVEND_Determine C heap type) (Delta_InsertPair type) (Delta_DeletePair type).

Definition RangeCompVend_ops (type : Z) : option VendOps :=
  codec ← RangeComp_codec C type;
  Some (vector_ops (fun g => adj ← adjacency_list_ g; r ← RangeCompVend_Build C unordered type adj; Some r.1)
          (RangeCompVend_Determine C type) (RangeComp_InsertPair C codec) (RangeComp_DeletePair C codec)).

Definition Directed_Hyb_Vend_ops : VendOps :=
  direction_ops (fun adj in_adj => r ← Directed_Hyb_Vend_BuildEncoding C std_sort adj in_adj (DirectedHybrid_default C); Some r.2)
    (Directed_Hyb_Vend_EncodePersistent C) (Directed_Hyb_Vend_LoadEncode (DirectedHybrid_default C))
    (DirectedHybrid_NEpairTest C) (DirectedHybrid_InsertPair C) (DirectedHybrid_DeletePair C).

Definition DirSIMDVend_ops : VendOps :=
  direction_ops (fun adj in_adj => r ← DirSIMDVend_BuildEncoding C unordered adj in_adj (DirectedSIMD_default C); Some r.1)
    (DirSIMDVend_EncodePersistent C) (DirSIMDVend_LoadEncode (DirectedSIMD_default C))
    (DirectedSIMD_NEpairTest C heap) no_change no_change.

(** The object of a class. [HybridDeltaVend] calls a method of a null pointer in
    its constructor. *)
Definition VendClass_ops (cls : VendClass) : option VendOps :=
  match cls with
  | BFilterIntVend => Some BFilterIntVend_ops
  | BFilterBitVend type => Some (BFilterBitVend_ops type)
  | BitHashVend => Some BitHashVend_ops
  | RangeVend => Some RangeVend_ops
  | HybridVend => Some HybridVend_ops
  | HybridDeltaVend => None
  | CountVend => Some CountVend_ops
  | BloomVend => Some BloomVend_ops
  | DeltaSIMDVEND type => Some (DeltaSIMDVEND_ops type)
  | RangeCompVend type => RangeCompVend_ops type
  | Directed_Hyb_Vend => Some Directed_Hyb_Vend_ops
  | DirSIMDVend => Some DirSIMDVend_ops
  end.

(** [VendFactory::GetEncode] and [GetDirectEncode] into a null pointer. *)
Definition make_vend (directed_ : bool) (vend_type_ : VendType) : option VendOps :=
  cls ← (if directed_ then GetDirectEncode vend_type_ None else GetEncode vend_type_ None); VendClass_ops cls.

Definition make_vend_large (vend_type_ : VendType) : option VendOps :=
  cls ← GetEncode_large vend_type_ None; VendClass_ops cls.
End classes.

(** * The promise *)

(** The lists of a graph without loops, as [Graph::LoadData] makes them. *)
Record source_graph (C : Config) (adj : list (list Z)) : Prop := {
  source_lists : graph_ok adj (VERTEX_SIZE C) (DeltaEncode.neighbors_ok C);
  source_zero : zget adj 0 = Some [];
  source_loopless v : 1 <= v <= VERTEX_SIZE C -> v ∉ neighbors adj v
}.

(** What a state answers about a graph. *)
Definition answers_all (C : Config) (ops : VendOps) (s : VendState) (adj : list (list Z)) : Prop :=
  forall u v, 1 <= u <= VERTEX_SIZE C -> 1 <= v <= VERTEX_SIZE C ->
    exists t, vend_Determine ops s u v = Some t /\ answers t (v ∈ neighbors adj u).

(** What is built from a graph that fits, written and read again answers
    rightly. *)
Class VendLaws (C : Config) (ops : VendOps) (fits : list (list Z) -> Prop) : Prop :=
  vend_restored adj in_adj rows : source_graph C adj -> fits adj ->
    exists s file s',
      vend_BuildEncoding ops {| adjacency_list_ := Some adj; in_adj_list_ := in_adj; data_db_ := rows |} = Some s /\
      vend_EncodePersistent ops s = Some file /\ vend_LoadEncode ops (Some file) = Some s' /\ answers_all C ops s' adj.

(** The same of one graph, and of an object that the factory may not make. *)
Definition restored (C : Config) (vend : option VendOps) (adj : list (list Z)) : Prop :=
  exists ops, vend = Some ops /\ forall in_adj rows, exists s file s',
    vend_BuildEncoding ops {| adjacency_list_ := Some adj; in_adj_list_ := in_adj; data_db_ := rows |} = Some s /\
    vend_EncodePersistent ops s = Some file /\ vend_LoadEncode ops (Some file) = Some s' /\ answers_all C ops s' adj.

(** The sizes that the encodings share. *)
Record vend_config (C : Config) : Prop := {
  vc_K : 3 <= K_SIZE C <= 10;
  vc_per : PER_ENCODE_BIT_SIZE C = 32 * K_SIZE C;
  vc_V : 1 <= VERTEX_SIZE C < 2 ^ 28 - 1;
  vc_bits : 0 < bit_hash_size C < 2 ^ 56 /\ bit_hash_size C mod 32 = 0 /\ 0 <= BIT_HASH_BEST_NUMS C <= 60;
  vc_blocks : 0 < BLOCK_SIZE C /\ 0 < BLOCK_NUMS C /\ BLOCK_NUMS C * BLOCK_SIZE C <= bit_hash_size C;
  vc_ints : 0 < int_hash_size C < 2 ^ 32 /\ 0 <= INT_HASH_BEST_NUMS C <= 60
}.

(** The graphs for which a type is sound. The builders by degrees need every
    degree up to one that no code holds; the type's codes need ids or lists that
    are small enough. The types left out have no such theorem: some of them are
    found to be wrong. *)
Definition graph_fits (C : Config) (t : VendType) (adj : list (list Z)) : Prop :=
  match t with
  | SIMDDelta | SIMDDeltaV1 | SIMDDeltaV2 | HashBit | BloomFilterBit | BBloomFilter => True
  | BloomFilterInt =>
      INT_HASH_BEST_NUMS C * Z.of_nat (length (forward_edges adj (VERTEX_SIZE C))) < 2 ^ 32
  | RangeDelta => forall v, 1 <= v <= VERTEX_SIZE C -> Z.of_nat (length (neighbors adj v)) < 2 ^ 25
  | Range | Bloom => exists D, K_SIZE C - 1 < D < 2 ^ 31 /\ no_gap C adj D
  | VendFactory.Hybrid =>
      Layout C /\ (forall v x, 1 <= v <= VERTEX_SIZE C -> x ∈ neighbors adj v -> x < 2 ^ VERTEX_BIT_SIZE C) /\
      exists D, MAX_INTEGER_SIZE C < D < 2 ^ 31 /\ no_gap C adj D
  | _ => False
  end.

(** * Proofs *)

Lemma graph_ok_impl adj V (good good' : list Z -> Prop) :
  (forall v, 1 <= v <= V -> good (neighbors adj v) -> good' (neighbors adj v)) -> graph_ok adj V good -> graph_ok adj V good'.
Proof.
  intros H [Hs Hl Hsym]. split; [done| |done]. intros v N Hv EN. specialize (H v Hv). unfold neighbors in H. rewrite EN in H.
  cbn [default from_option] in H. unfold id in H. by apply H, (Hl v).
Qed.

Section laws.
Context (C : Config) (HC : vend_config C).
Notation V := (VERTEX_SIZE C).
Notation n := (Z.to_nat (4 * K_SIZE C)).

Lemma default_stored v : 1 <= v <= V -> stored_at n (EncodeBitSet_default C) v.
Proof.
  intros Hv. pose proof (vc_K C HC). destruct (new_vector_zero C (K_SIZE C) (vc_per C HC) ltac:(lia)) as (Hb & Hn & _).
  exists (BitSetSIMD_new (PER_ENCODE_BIT_SIZE C)). split; [apply default_new_vector; lia|]. split; [done|]. unfold nbits in Hn. lia.
Qed.

(** Vectors that are written and read into an encoding without any. *)
Lemma vectors_restored E :
  (forall v, 1 <= v <= V -> stored_at n E v) ->
  exists file E', EncodeBitSet_EncodePersistent C E = Some file /\ EncodeBitSet_LoadFromDb (EncodeBitSet_default C) file = Some E' /\
    forall v, zget E' v = if decide (1 <= v <= V) then zget E v else zget (EncodeBitSet_default C) v.
Proof.
  intros HE. pose proof (vc_K C HC) as HK. pose proof (vc_V C HC) as HV.
  assert (Z.of_nat n mod 4 = 0) as H4 by (rewrite Z2Nat.id, Z.mul_comm by lia; apply Z.mod_mul; lia).
  destruct (EncodePersistent_ok C n ltac:(lia) H4 E HE) as (file & Hfile & Hlines).
  destruct (LoadFromDb_ok C n ltac:(lia) E _ file Hlines default_stored) as (E' & HL & _ & Hget). by exists file, E'.
Qed.

(** An encoding of vectors keeps the promise when what it builds can be saved. *)
Lemma vector_laws build determine insert delete (fits : list (list Z) -> Prop) :
  (forall adj in_adj rows, source_graph C adj -> fits adj ->
     exists E P, build {| adjacency_list_ := Some adj; in_adj_list_ := in_adj; data_db_ := rows |} = Some E /\
       saved_tests C n E determine P /\ forall u v t, P u v t -> answers t (v ∈ neighbors adj u)) ->
  VendLaws C (vector_ops C build determine insert delete) fits.
Proof.
  intros Hbuild adj in_adj rows Hg Hfit. pose proof (vc_K C HC) as HK. pose proof (vc_V C HC) as HV.
  destruct (Hbuild adj in_adj rows Hg Hfit) as (E & P & HB & [HE Htest] & HP).
  destruct (vectors_restored E HE) as (file & E' & Hfile & HL & Hget).
  cbn [vend_BuildEncoding vend_EncodePersistent vend_LoadEncode vend_Determine vector_ops]. rewrite HB. bind_step.
  exists (Vectors E), {| lines := file; in_lines := [] |}, (Vectors E'). split; [done|]. cbn [on_vectors].
  rewrite Hfile. bind_step. split; [done|]. cbn [file_lines lines]. rewrite HL. bind_step. split; [done|]. intros u v Hu Hv.
  destruct (Htest E') with (u := u) (v := v) as (t & Et & Ht); [|done|done|].
  - intros w Hw. rewrite Hget. by rewrite decide_True.
  - exists t. split; [done|]. by eapply HP.
Qed.

Lemma source_ids adj : source_graph C adj -> graph_ok adj V (ids_ok V).
Proof.
  intros Hg. eapply graph_ok_impl; [|apply (source_lists _ _ Hg)]. intros v _ [Hs Hi _]. split; [|done].
  by apply sorted_lt_nodup.
Qed.

Context (heap : Z -> Z) (key : Z) (unordered : gset Z -> list Z) (std_sort : (Z -> Z) -> list Z -> list Z).
Context (Horder : forall s x, x ∈ unordered s <-> x ∈ s) (Hsort : sorts std_sort).
Notation ops_of cls := (VendClass_ops C heap key unordered std_sort cls).

(** ** The filters *)

Lemma stored_edge_neighbors adj u v :
  source_graph C adj -> 1 <= u <= V -> 1 <= v <= V -> v ∈ neighbors adj u -> stored_edge adj u v.
Proof.
  intros Hg Hu Hv Hin. pose proof (source_lists _ _ Hg) as Hok. pose proof (graph_size _ _ _ Hok) as Hs.
  assert (u <> v) as Hne by (intros ->; by apply (source_loopless _ _ Hg v)). unfold stored_edge, ordered_pair.
  assert (forall a b, 1 <= a <= V -> b ∈ neighbors adj a -> exists N, zget adj a = Some N /\ b ∈ N) as Hlist.
  { intros a b Ha Hb. unfold neighbors in Hb. destruct (zget_is_Some adj a) as [N EN]; [lia|]. rewrite EN in Hb. by exists N. }
  destruct (Z.ltb_spec v u); (split; [lia|]); (split; [lia|]); apply Hlist; try done; lia || by apply (graph_edge adj V _ u v Hok).
Qed.

Lemma bit_filter_laws type : type <> 1 -> exists ops, ops_of (BFilterBitVend type) = Some ops /\ VendLaws C ops (fun _ => True).
Proof.
  intros Ht. destruct (vc_bits C HC) as (Hsize & H32 & Hn).
  assert (bit_hash_size C mod 8 = 0) as H8
    by (pose proof (Z.div_mod (bit_hash_size C) 32 ltac:(lia)); replace (bit_hash_size C) with (bit_hash_size C / 32 * 4 * 8) by lia;
        apply Z.mod_mul; lia).
  eexists. split; [done|]. intros adj in_adj rows Hg _.
  destruct (BFilter_build C type adj rows Hsize H8 Hn (vc_blocks C HC) Ht) as (d & HB & Hd & Htest).
  pose proof (new_filter_bits C Hsize H8) as Hnew.
  destruct (BFilter_save_load C d _ key Hsize H32 Hd Hnew) as (file & HP & HL).
  cbn [vend_BuildEncoding vend_EncodePersistent vend_LoadEncode vend_Determine filter_ops BFilterBitVend_ops BFilterIntVend_ops adjacency_list_ data_db_].
  rewrite HB. bind_step. exists (Filter d), {| lines := [file]; in_lines := [] |}, (Filter d). split; [done|]. cbn [on_filter].
  rewrite HP. bind_step. split; [done|]. cbn [file_lines lines concat]. rewrite app_nil_r, HL. bind_step. split; [done|].
  intros u v Hu Hv. destruct (Htest u v) as (t & Et & _ & Hnn & Ht'). exists t. split; [done|].
  destruct t; [done| |done]. cbn [answers] in *. intros Hin. by apply Ht', stored_edge_neighbors.
Qed.

Lemma int_filter_laws : exists ops, ops_of BFilterIntVend = Some ops /\ VendLaws C ops (graph_fits C BloomFilterInt).
Proof.
  destruct (vc_ints C HC) as (Hsize & Hn). eexists. split; [done|]. intros adj in_adj rows Hg Hfit. cbn [graph_fits] in Hfit.
  pose proof (graph_size _ _ _ (source_lists _ _ Hg)) as Hlen.
  destruct (int_build C Hsize Hn adj rows) as (d & HB & Hd); [by replace (Z.of_nat (length adj) - 1) with V by lia|].
  destruct (int_save_load C Hsize Hn _ d (BFilterIntEncode_new C) Hd) as (file & HP & HL);
    [unfold BFilterIntEncode_new; rewrite length_replicate; lia|].
  cbn [vend_BuildEncoding vend_EncodePersistent vend_LoadEncode vend_Determine filter_ops BFilterBitVend_ops BFilterIntVend_ops adjacency_list_ data_db_].
  rewrite HB. bind_step. exists (Filter d), {| lines := [file]; in_lines := [] |}, (Filter d). split; [done|]. cbn [on_filter].
  rewrite HP. bind_step. split; [done|]. cbn [file_lines lines concat]. rewrite app_nil_r, HL. bind_step. split; [done|].
  intros u v Hu Hv. destruct (int_test C Hsize Hn _ d u v Hd) as (t & Et & Hnn & Hin). exists t. split; [done|].
  destruct t; [done| |done]. cbn [answers]. intros Hedge. discriminate Hin.
  destruct (ordered_pair u v) as [a b] eqn:Eo. pose proof (stored_edge_neighbors adj u v Hg Hu Hv Hedge) as Hst. unfold stored_edge in Hst.
  rewrite Eo in Hst. destruct Hst as (Ha & Hab & N & EN & HN). apply elem_forward_edges. apply zget_Some_inv in EN as EN'.
  split; [lia|]. by rewrite EN.
Qed.

(** ** The vectors *)

Lemma simd_laws type : type <> V3 -> exists ops, ops_of (DeltaSIMDVEND type) = Some ops /\ VendLaws C ops (fun _ => True).
Proof.
  intros Ht. pose proof (vc_K C HC). pose proof (vc_V C HC). pose proof (vc_per C HC). eexists. split; [done|].
  apply vector_laws. intros adj in_adj rows Hg _. cbn [adjacency_list_]. bind_step.
  destruct (DeltaVend_saved C heap (K_SIZE C) type adj unordered) as (E & f & HB & HE); [lia|lia|done|done|apply Hg|done|].
  rewrite HB. bind_step. exists E, (right_tests adj f). split; [done|]. split; [done|]. by intros u v t [].
Qed.

Lemma hash_laws : exists ops, ops_of BitHashVend = Some ops /\ VendLaws C ops (fun _ => True).
Proof.
  pose proof (vc_K C HC). pose proof (vc_V C HC). pose proof (vc_per C HC) as Hper. eexists. split; [done|].
  apply vector_laws. intros adj in_adj rows Hg _. cbn [adjacency_list_ data_db_].
  destruct (BitHash_saved C adj rows) as (E & -> & HE); [lia| |lia|by apply source_ids|apply Hg|].
  { rewrite Hper. replace (32 * K_SIZE C) with (4 * K_SIZE C * 8) by lia. apply Z.mod_mul. lia. }
  assert (PER_ENCODE_BIT_SIZE C / 8 = 4 * K_SIZE C) as E8
    by (rewrite Hper; replace (32 * K_SIZE C) with (4 * K_SIZE C * 8) by lia; apply Z.div_mul; lia).
  rewrite E8 in HE. eexists E, _. split; [done|]. split; [done|]. by intros u v t [].
Qed.

Lemma range_laws : exists ops, ops_of RangeVend = Some ops /\ VendLaws C ops (graph_fits C VendFactory.Range).
Proof.
  pose proof (vc_K C HC). pose proof (vc_V C HC). pose proof (vc_per C HC). eexists. split; [done|].
  apply vector_laws. intros adj in_adj rows Hg (D & HD & Hgap). cbn [adjacency_list_ data_db_].
  destruct (RangeVend_saved C D adj std_sort rows) as (filt & E & -> & HE); [lia|done|lia|by apply source_ids|apply Hg|done..|].
  bind_step. exists E, (right_tests adj filt). split; [done|]. split; [done|]. by intros u v t [].
Qed.

Lemma bloom_laws : exists ops, ops_of BloomVend = Some ops /\ VendLaws C ops (graph_fits C Bloom).
Proof.
  pose proof (vc_K C HC). pose proof (vc_V C HC). pose proof (vc_per C HC). eexists. split; [done|].
  apply vector_laws. intros adj in_adj rows Hg (D & HD & Hgap). cbn [adjacency_list_ data_db_].
  destruct (BloomVend_saved C ltac:(lia) ltac:(lia) ltac:(lia) D adj std_sort rows) as (filt & E & -> & HE); [by apply source_ids|apply Hg|done..|].
  bind_step. exists E, (right_tests adj filt). split; [done|]. split; [done|]. by intros u v t [].
Qed.

Lemma hybrid_laws : exists ops, ops_of HybridVend = Some ops /\ VendLaws C ops (graph_fits C VendFactory.Hybrid).
Proof.
  pose proof (vc_K C HC). pose proof (vc_V C HC). eexists. split; [done|].
  apply vector_laws. intros adj in_adj rows Hg (HL & Hids & D & HD & Hgap). cbn [adjacency_list_ data_db_].
  destruct (HybridVend_saved C D adj std_sort rows) as (filt & E & -> & HE); [done|lia| |apply Hg|done..|].
  { eapply graph_ok_impl; [|apply (source_lists _ _ Hg)]. intros v Hv [Hs Hi Hl]. split; [done| |lia].
    apply Forall_forall. intros x Hx. split; [by apply (proj1 (Forall_forall _ _) Hi)|by apply (Hids v)]. }
  bind_step. exists E, (right_tests adj filt). split; [done|]. split; [done|]. by intros u v t [].
Qed.

Lemma range_delta_laws : exists ops, ops_of (RangeCompVend 2) = Some ops /\ VendLaws C ops (graph_fits C RangeDelta).
Proof.
  pose proof (vc_K C HC). pose proof (vc_V C HC). pose proof (vc_per C HC). eexists. split; [done|].
  apply vector_laws. intros adj in_adj rows Hg Hlen. cbn [adjacency_list_]. bind_step.
  destruct (RangeComp_saved C ltac:(lia) ltac:(lia) ltac:(lia) adj unordered) as (E & filt & -> & HE); [|done|].
  { eapply graph_ok_impl; [|apply (source_lists _ _ Hg)]. intros v Hv [Hs Hi _]. split; [done|done|by apply Hlen]. }
  bind_step. exists E, (right_tests adj filt). split; [done|]. split; [done|]. by intros u v t [].
Qed.

(** Every type of the list above is made by the factory and keeps the promise. *)
Lemma make_vend_laws t adj :
  source_graph C adj -> graph_fits C t adj -> restored C (make_vend C heap key unordered std_sort false t) adj.
Proof.
  intros Hg Hfit.
  assert (exists ops, make_vend C heap key unordered std_sort false t = Some ops /\ VendLaws C ops (graph_fits C t)) as (ops & HO & HL).
  { unfold make_vend. destruct t; try done; cbn [GetEncode mbind option_bind].
    - apply int_filter_laws.
    - by apply (bit_filter_laws 2).
    - by apply (bit_filter_laws 0).
    - apply range_laws.
    - apply hash_laws.
    - apply bloom_laws.
    - apply hybrid_laws.
    - by apply (simd_laws V0).
    - by apply (simd_laws V1).
    - by apply (simd_laws V2).
    - apply range_delta_laws. }
  exists ops. split; [done|]. intros in_adj rows. by apply vend_restored.
Qed.
End laws.
