(* ===== verification/Execution.v ===== *)
(** The runs of the program: [BuildExecution], [QueryExecution],
    [DeleteExecution], [InsertExecution] and [InsertDeleteExecution]
    ([src/include/execution/]), with [Graph::Init] ([src/graph/graph.cpp]) that
    they start from and [LargeGraph::Init] ([src/graph/large_graph.cpp]).

    An encoding is known to them by the interface of [Vends]; what makes one for
    a type is a parameter, which [Vends.make_vend] instantiates. The outcome of a
    run is its counters; times and printing are left out. VERIFY is 0, IN_MEMORY,
    SAVE_ENCODE and UNDIRECTED are 1. *)
From S2P Require Import Prelude Config BitSet Encode BFilter DeltaEncode KCore DegreeOrder RangeVend RangeBuild Db Graph VendFactory PairList Vends.
From stdpp Require Import options.
Local Open Scope Z_scope.
Set Default Proof Using "Type*".

(** * The runs *)

Section runs.
Context (C : Config) (GetVend : bool -> VendType -> option VendOps).
Context {T : Type} {St : Store T}.

(** A [Graph] after its initialisation: the lists, the database and the
    encoding. *)
Record GraphState := {
  g_lists : list (list Z);
  g_in_lists : list (list Z);
  g_db : T;
  g_vend : option (VendOps * VendState)
}.

(** The graph as the encoding sees it, and the list of a vertex in the
    database. *)
Definition vend_graph (adjacency_list_ : option (list (list Z))) (in_adj_list_ : list (list Z)) (db : T) : VendGraph :=
  {| Vends.adjacency_list_ := adjacency_list_; Vends.in_adj_list_ := in_adj_list_; data_db_ := default [] (RocksDb_scan db) |}.
Definition db_get (db : T) (v : Z) : list Z := (RocksDb_Get db v []).2.

(** The database is opened when [db_type_] is 0; the other types of the [switch]
    have no case. *)
Definition Graph_open (db_type_ : Z) (db : option T) : option T := if db_type_ =? 0 then db else None.

(** [BuildEncode]: the encoding and its file. *)
Definition Graph_BuildEncode (vend : VendOps) (g : VendGraph) : option (VendState * VendFile) :=
  encodes_ ← vend_BuildEncoding vend g;
  saved ← vend_EncodePersistent vend encodes_;
  Some (encodes_, saved).

(** [Graph::Init]: the adjacency lists, the encoding and its file. [db] is null
    without a database path, [data] is the data file when there is a path to
    one. *)
Definition Graph_Init (directed_ : bool) (vend_type_ : VendType) (data : option (list (option (Z * Z)))) (db_type_ : Z)
    (db : option T) (encode_file : option VendFile) : option (GraphState * option VendFile) :=
  graph_db_ ← Graph_open db_type_ db;
  adjacency_list_ ← Graph_LoadDataFromDb C [] graph_db_;
  if bool_decide (vend_type_ = NoVend)
  then Some ({| g_lists := adjacency_list_; g_in_lists := []; g_db := graph_db_; g_vend := None |}, encode_file)
  else
    match encode_file, data with
    | None, Some file =>
        lists ← Graph_LoadData C directed_ file adjacency_list_ [];
        vend ← GetVend directed_ vend_type_;
        '(encodes_, saved) ← Graph_BuildEncode vend (vend_graph (Some lists.1) lists.2 graph_db_);
        Some ({| g_lists := lists.1; g_in_lists := lists.2; g_db := graph_db_; g_vend := Some (vend, encodes_) |}, Some saved)
    | _, _ =>
        vend ← GetVend directed_ vend_type_;
        encodes_ ← vend_LoadEncode vend encode_file;
        Some ({| g_lists := adjacency_list_; g_in_lists := []; g_db := graph_db_; g_vend := Some (vend, encodes_) |}, encode_file)
    end.

(** [LargeGraph::Init], without lists: the encoding is built from the database,
    by the types that the overload for large graphs knows. *)
Definition LargeGraph_Init (GetVend_large : VendType -> option VendOps) (vend_type_ : VendType) (has_data : bool)
    (db : option T) (encode_file : option VendFile) : option (option (VendOps * VendState) * option VendFile) :=
  if bool_decide (vend_type_ = NoVend) then Some (None, encode_file)
  else
    vend ← GetVend_large vend_type_;
    if bool_decide (encode_file = None) && has_data then
      graph_db_ ← db;
      '(encodes_, saved) ← Graph_BuildEncode vend (vend_graph None [] graph_db_);
      Some (Some (vend, encodes_), Some saved)
    else
      encodes_ ← vend_LoadEncode vend encode_file;
      Some (Some (vend, encodes_), encode_file).

(** [GetEdge], [AddEdge] and [RemoveEdge]. *)
Definition Graph_GetEdge (g : GraphState) (vertex1 vertex2 : Z) : option PairType :=
  '(vend, encodes_) ← g_vend g; vend_Determine vend encodes_ vertex1 vertex2.

Definition Graph_update (op : VendOps -> VendGraph -> (Z -> list Z) -> VendState -> Z -> Z -> option (VendState * option (list (list Z))))
    (g : GraphState) (vertex1 vertex2 : Z) : option GraphState :=
  '(vend, encodes_) ← g_vend g;
  '(encodes_, lists) ← op vend (vend_graph (Some (g_lists g)) (g_in_lists g) (g_db g)) (db_get (g_db g)) encodes_ vertex1 vertex2;
  Some {| g_lists := default (g_lists g) lists; g_in_lists := g_in_lists g; g_db := g_db g; g_vend := Some (vend, encodes_) |}.

Definition Graph_AddEdge : GraphState -> Z -> Z -> option GraphState :=
  Graph_update (fun vend g db encodes_ u v => encodes_ ← vend_Insert vend g db encodes_ u v; Some (encodes_, Vends.adjacency_list_ g)).
Definition Graph_RemoveEdge : GraphState -> Z -> Z -> option GraphState := Graph_update vend_Delete.

(** [BuildExecution::Execute]: without an encoding the data go to the
    database. *)
Definition BuildExecution_Execute (directed_ : bool) (vend_type_ : VendType) (data : option (list (option (Z * Z))))
    (db_type_ : Z) (db : option T) (encode_file : option VendFile) : option (option T * option VendFile) :=
  '(g, encode_file) ← Graph_Init directed_ vend_type_ data db_type_ db encode_file;
  if bool_decide (vend_type_ = NoVend) then
    file ← data;
    lists ← Graph_LoadData C directed_ file (g_lists g) (g_in_lists g);
    graph_db_ ← Graph_SaveData C lists.1 (g_db g);
    Some (Some graph_db_, encode_file)
  else Some (db, encode_file).

(** The counters of a run of queries. *)
Record QueryCounts := {
  filtered_ : Z;    (* uint64_t *)
  res : Z;          (* int *)
  true_false : Z;   (* uint32_t *)
  f_items : Z       (* uint32_t *)
}.

(** A pair with an encoding and without. *)
Definition Query_pair (GetEdge : Z -> Z -> option PairType) (TestEdge : Z -> Z -> option bool)
    (pair : Z * Z) (st : QueryCounts) : option QueryCounts :=
  type ← GetEdge pair.1 pair.2;
  if bool_decide (type <> Uncertain) then
    let st := {| filtered_ := u64 (filtered_ st + 1); res := res st; true_false := true_false st; f_items := f_items st |} in
    Some (if bool_decide (type = Neighbor)
          then {| filtered_ := filtered_ st; res := s32 (res st + 1); true_false := true_false st; f_items := f_items st |}
          else {| filtered_ := filtered_ st; res := res st; true_false := u32 (true_false st + 1); f_items := f_items st |})
  else
    test ← TestEdge pair.1 pair.2;
    Some (if negb test
          then {| filtered_ := filtered_ st; res := res st; true_false := true_false st; f_items := u32 (f_items st + 1) |}
          else {| filtered_ := filtered_ st; res := s32 (res st + 1); true_false := true_false st; f_items := f_items st |}).

Definition Query_pair_novend (TestEdge : Z -> Z -> option bool) (pair : Z * Z) (st : QueryCounts) : option QueryCounts :=
  test ← TestEdge pair.1 pair.2;
  Some (if (test : bool)
        then {| filtered_ := filtered_ st; res := s32 (res st + 1); true_false := true_false st; f_items := f_items st |}
        else st).

Definition QueryCounts_zero : QueryCounts := {| filtered_ := 0; res := 0; true_false := 0; f_items := 0 |}.

(** [QueryExecution::Execute]; [vend] is dereferenced for every pair. *)
Definition QueryExecution_Execute (directed_ : bool) (vend_type_ : VendType) (db_type_ : Z) (db : option T)
    (encode_file : option VendFile) (pair_list_ : list (Z * Z)) : option QueryCounts :=
  '(g, _) ← Graph_Init directed_ vend_type_ None db_type_ db encode_file;
  let TestEdge := Graph_TestEdgeByAdj (g_lists g) in
  if bool_decide (vend_type_ <> NoVend) then
    foldM (Query_pair (Graph_GetEdge g) TestEdge) pair_list_ QueryCounts_zero
  else foldM (Query_pair_novend TestEdge) pair_list_ QueryCounts_zero.

(** [EdgeQuery]: the database is asked when the encoding is uncertain; the
    count of the pairs that it was not asked for. *)
Definition EdgeQuery (GetEdge : Z -> Z -> option PairType) (DbQuery : Z -> Z -> option bool)
    (vertex1 vertex2 : Z) (filtered_ : Z) : option Z :=
  type ← GetEdge vertex1 vertex2;
  if bool_decide (type = Uncertain) then _ ← DbQuery vertex1 vertex2; Some filtered_ else Some (u64 (filtered_ + 1)).
End runs.

(** [DeleteExecution::Execute], [InsertDeleteExecution::Execute] and
    [InsertExecution::Execute]: the encoding after the updates, and [batch]. *)
Section updates.
Context {E : Type} (Insert Delete : E -> Z -> Z -> option E).

Fixpoint DeleteExecution_loop (step : E -> Z -> Z -> option E) (vend_type_ : VendType) (pair_list_ : list (Z * Z))
    (e : E) (batch : Z) : option (E * Z) :=
  match pair_list_ with
  | [] => Some (e, batch)
  | p :: pair_list_ =>
      let batch := s32 (batch + 1) in
      if bool_decide (vend_type_ = BloomFilterBit) && (10 <=? batch) then Some (e, batch)
      else e ← step e p.1 p.2; DeleteExecution_loop step vend_type_ pair_list_ e batch
  end.

Definition DeleteExecution_Execute (vend_type_ : VendType) (pair_list_ : list (Z * Z)) (e : E) : option (E * Z) :=
  DeleteExecution_loop Delete vend_type_ pair_list_ e 0.

Definition InsertDeleteExecution_Execute (vend_type_ : VendType) (pair_list_ : list (Z * Z)) (e : E) : option (E * Z) :=
  DeleteExecution_loop (fun e u v => e ← Delete e u v; Insert e u v) vend_type_ pair_list_ e 0.

Definition InsertExecution_Execute (pair_list_ : list (Z * Z)) (e : E) : option E :=
  foldM (fun pair e => Insert e pair.1 pair.2) pair_list_ e.
End updates.

(** * Proofs: counting *)

Section count.
Context (edge : Z * Z -> Prop) `{EdgeDec : forall p, Decision (edge p)}.

Definition count (l : list (Z * Z)) : Z := Z.of_nat (length (filter edge l)).
Definition count_not (l : list (Z * Z)) : Z := Z.of_nat (length (filter (fun p => ~ edge p) l)).

Lemma count_snoc l p : count (l ++ [p]) = if decide (edge p) then count l + 1 else count l.
Proof using Type.
  unfold count. rewrite filter_app, length_app. destruct (decide (edge p)).
  - rewrite filter_cons_True by done. cbn. lia.
  - rewrite filter_cons_False by done. cbn. lia.
Qed.

Lemma count_not_snoc l p : count_not (l ++ [p]) = if decide (edge p) then count_not l else count_not l + 1.
Proof using Type.
  unfold count_not. rewrite filter_app, length_app. destruct (decide (edge p)).
  - rewrite filter_cons_False by tauto. cbn. lia.
  - rewrite filter_cons_True by done. cbn. lia.
Qed.

Lemma count_bound l : 0 <= count l /\ 0 <= count_not l /\ count l + count_not l = Z.of_nat (length l).
Proof using Type.
  induction l as [|p l IH] using rev_ind; [done|]. rewrite count_snoc, count_not_snoc, length_app. cbn [length].
  destruct (decide (edge p)); lia.
Qed.

(** The counters after the pairs [l]. *)
Definition counted (l : list (Z * Z)) (r : QueryCounts) : Prop :=
  res r = count l /\ true_false r + f_items r = count_not l /\
  0 <= true_false r <= filtered_ r /\ filtered_ r <= Z.of_nat (length l) /\ 0 <= f_items r.

Lemma query_loop_ok GetEdge TestEdge l :
  Z.of_nat (length l) < 2 ^ 31 ->
  (forall p, p ∈ l -> TestEdge p.1 p.2 = Some (bool_decide (edge p)) /\
     exists t, GetEdge p.1 p.2 = Some t /\ answers t (edge p)) ->
  exists r, foldM (Query_pair GetEdge TestEdge) l QueryCounts_zero = Some r /\ counted l r.
Proof using Type.
  intros Hlen Hp. apply (foldM_inv (fun pre r => counted pre r)); [by repeat split|].
  intros pre p post r -> (Hres & Htf & H1 & H2 & H3).
  destruct (Hp p ltac:(apply elem_of_app; right; by left)) as (Htest & t & Hget & Hans). unfold Query_pair.
  rewrite Hget, Htest. bind_step. rewrite !length_app in Hlen. cbn [length] in Hlen.
  pose proof (count_bound pre) as Hb.
  assert (s32 (res r + 1) = res r + 1) as Es by (apply s32_small; lia).
  assert (u32 (true_false r + 1) = true_false r + 1) as Et by (apply u32_small; lia).
  assert (u32 (f_items r + 1) = f_items r + 1) as Ef by (apply u32_small; lia).
  assert (u64 (filtered_ r + 1) = filtered_ r + 1) as Eu by (unfold u64; rewrite Z.mod_small; lia).
  unfold counted. rewrite count_snoc, count_not_snoc, length_app. cbn [length].
  destruct t; cbn [answers] in Hans.
  - rewrite (bool_decide_eq_true_2 (Neighbor <> Uncertain)), (bool_decide_eq_true_2 (Neighbor = Neighbor)) by done.
    eexists. split; [done|]. cbn [filtered_ res true_false f_items]. rewrite Es, Eu, !decide_True by done. lia.
  - rewrite (bool_decide_eq_true_2 (NonNeighbor <> Uncertain)), (bool_decide_eq_false_2 (NonNeighbor = Neighbor)) by done.
    eexists. split; [done|]. cbn [filtered_ res true_false f_items]. rewrite Et, Eu, !decide_False by done. lia.
  - rewrite (bool_decide_eq_false_2 (Uncertain <> Uncertain)) by (intros H; by apply H).
    case_bool_decide; cbn [negb]; eexists; (split; [done|]); cbn [filtered_ res true_false f_items].
    + rewrite Es, !decide_True by done. lia.
    + rewrite Ef, !decide_False by done. lia.
Qed.

Lemma query_novend_ok TestEdge l :
  Z.of_nat (length l) < 2 ^ 31 -> (forall p, p ∈ l -> TestEdge p.1 p.2 = Some (bool_decide (edge p))) ->
  exists r, foldM (Query_pair_novend TestEdge) l QueryCounts_zero = Some r /\ res r = count l /\ filtered_ r = 0.
Proof using Type.
  intros Hlen Hp. apply (foldM_inv (fun pre r => res r = count pre /\ filtered_ r = 0)); [done|].
  intros pre p post r -> [Hres H0]. rewrite !length_app in Hlen. cbn [length] in Hlen.
  pose proof (count_bound pre) as Hb. unfold Query_pair_novend.
  rewrite (Hp p ltac:(apply elem_of_app; right; by left)). bind_step. rewrite count_snoc.
  assert (s32 (res r + 1) = res r + 1) as Es by (apply s32_small; lia).
  case_bool_decide; eexists; (split; [done|]); cbn [filtered_ res]; rewrite ?Es; destruct (decide (edge p)); (done || lia).
Qed.
End count.

(** * Proofs: from the data file to the answers *)

#[export] Instance joined_dec E u v : Decision (joined E u v).
Proof. unfold joined. apply _. Defined.

Definition edge_of (file : list (option (Z * Z))) (p : Z * Z) : Prop := joined (file_edges file) p.1 p.2.
#[export] Instance edge_of_dec file p : Decision (edge_of file p).
Proof. unfold edge_of. apply _. Defined.

Section pipeline.
Context (C : Config) (HV : 1 <= VERTEX_SIZE C < 2 ^ 28).
Context {T : Type} {St : Store T} {SL : StoreLaws T}.
Notation V := (VERTEX_SIZE C).

Lemma LoadData_resized file :
  Graph_LoadData C false file (resize_vertices C []) [] = Graph_LoadData C false file [] [].
Proof.
  unfold Graph_LoadData. assert (resize_vertices C (resize_vertices C []) = resize_vertices C []) as ->; [|done].
  unfold resize_vertices. by rewrite resize_idemp.
Qed.

Lemma LoadDataFromDb_empty (db : T) :
  (forall k, store_Get db k = None) -> Graph_LoadDataFromDb C [] db = Some (resize_vertices C []).
Proof.
  intros Hdb. unfold Graph_LoadDataFromDb, RocksDb_scan. assert (store_rows db = []) as ->; [|done].
  destruct (store_rows db) as [|[k v] rows] eqn:E; [done|]. exfalso.
  assert (store_Get db k = Some v) as H by (apply store_rows_get; rewrite E; by left). by rewrite Hdb in H.
Qed.

(** The first run puts the data file into the database, and what is loaded from
    it later are the lists of the file. *)
Lemma build_database_holds GetVend file (db : T) :
  simple_file C file -> (forall k, store_Get db k = None) ->
  exists adj db',
    (forall encode_file,
       BuildExecution_Execute C GetVend (T := T) false NoVend (Some file) 0 (Some db) encode_file = Some (Some db', encode_file)) /\
    Graph_LoadDataFromDb C [] db' = Some adj /\ lists_of_file C file adj /\ holds adj (V + 1) db'.
Proof.
  intros Hf Hdb. destruct (LoadData_ok C HV file Hf) as (adj & EL & Hg & H0 & Hel).
  destruct (SaveData_ok C HV adj db Hg Hdb) as (db' & ES & Hh). exists adj, db'.
  split; [|split; [by apply (LoadDataFromDb_ok C HV)|done]]. intros encode_file.
  unfold BuildExecution_Execute, Graph_Init, Graph_open. rewrite Z.eqb_refl. bind_step. rewrite (LoadDataFromDb_empty db Hdb). bind_step.
  rewrite (bool_decide_eq_true_2 (NoVend = NoVend)) by done. bind_step. bind_step. cbn [g_lists g_in_lists g_db].
  rewrite LoadData_resized, EL. bind_step. cbn [fst]. rewrite ES. bind_step. done.
Qed.

Lemma build_database GetVend file (db : T) :
  simple_file C file -> (forall k, store_Get db k = None) ->
  exists adj db',
    (forall encode_file,
       BuildExecution_Execute C GetVend (T := T) false NoVend (Some file) 0 (Some db) encode_file = Some (Some db', encode_file)) /\
    Graph_LoadDataFromDb C [] db' = Some adj /\ lists_of_file C file adj.
Proof.
  intros Hf Hdb. destruct (build_database_holds GetVend file db Hf Hdb) as (adj & db' & H1 & H2 & H3 & _). by exists adj, db'.
Qed.

Lemma TestEdge_ok file adj u v :
  lists_of_file C file adj -> 1 <= u <= V -> 1 <= v <= V ->
  Graph_TestEdgeByAdj adj u v = Some (bool_decide (joined (file_edges file) u v)).
Proof.
  intros ([Hsize Hlists Hsym] & H0 & Hel) Hu Hv. unfold Graph_TestEdgeByAdj.
  destruct (zget_is_Some adj u) as [N EN]; [lia|]. destruct (zget_is_Some adj v) as [M EM]; [lia|].
  rewrite EN, EM. bind_step. bind_step.
  pose proof (Hel u v Hu) as Huv. pose proof (Hel v u Hv) as Hvu. unfold neighbors in *. rewrite EN in Huv. rewrite EM in Hvu.
  cbn [default from_option] in *. unfold id in *.
  destruct (Z.of_nat (length M) <? Z.of_nat (length N)); rewrite binary_search_sorted by (eapply Hlists; [|done]; lia);
    f_equal; apply bool_decide_ext; [rewrite Hvu; unfold joined; tauto|done].
Qed.

(** The lists of a file are a graph that the encodings take. *)
Lemma source_of_file file adj : simple_file C file -> lists_of_file C file adj -> source_graph C adj.
Proof.
  intros Hf (Hg & H0 & Hel). split; [done|done|]. intros v Hv Hin%(Hel v v Hv).
  destruct (simple_ids _ _ Hf v v) as (_ & _ & Hne); [by destruct Hin|done].
Qed.

(** A file has one graph. *)
Lemma lists_unique file adj adj' : lists_of_file C file adj -> lists_of_file C file adj' -> adj = adj'.
Proof.
  intros (Hg & H0 & Hel) (Hg' & H0' & Hel'). pose proof (graph_size _ _ _ Hg). pose proof (graph_size _ _ _ Hg').
  apply list_eq. intros i. destruct (decide (i < length adj)%nat) as [Hi|Hi]; [|by rewrite !lookup_ge_None_2 by lia].
  pose proof (zget_lookup adj (Z.of_nat i) ltac:(lia)) as E. pose proof (zget_lookup adj' (Z.of_nat i) ltac:(lia)) as E'.
  rewrite Nat2Z.id in E, E'. rewrite <- E, <- E'. destruct (decide (i = 0%nat)) as [->|Hi0]; [change (Z.of_nat 0) with 0; congruence|].
  destruct (zget_is_Some adj (Z.of_nat i)) as [N EN]; [lia|]. destruct (zget_is_Some adj' (Z.of_nat i)) as [N' EN']; [lia|].
  rewrite EN, EN'. f_equal. destruct (graph_lists _ _ _ Hg (Z.of_nat i) N ltac:(lia) EN) as [Hs _ _].
  destruct (graph_lists _ _ _ Hg' (Z.of_nat i) N' ltac:(lia) EN') as [Hs' _ _].
  apply sorted_lt_unique; [done..|]. intros x. specialize (Hel (Z.of_nat i) x ltac:(lia)). specialize (Hel' (Z.of_nat i) x ltac:(lia)).
  unfold neighbors in Hel, Hel'. rewrite EN in Hel. rewrite EN' in Hel'. cbn [default from_option] in *. unfold id in *. by rewrite Hel, Hel'.
Qed.

(** What the encoding file of a run must hold for the graph of [file]. *)
Definition holds_encoding (vend : option VendOps) (saved : VendFile) (file : list (option (Z * Z))) : Prop :=
  exists ops s, vend = Some ops /\ vend_LoadEncode ops (Some saved) = Some s /\
    forall u v, 1 <= u <= V -> 1 <= v <= V ->
      exists t, vend_Determine ops s u v = Some t /\ answers t (joined (file_edges file) u v).

(** It can be loaded. *)
Definition loads (vend : option VendOps) (saved : VendFile) : Prop :=
  exists ops s, vend = Some ops /\ vend_LoadEncode ops (Some saved) = Some s.

Lemma holds_encoding_loads vend saved file : holds_encoding vend saved file -> loads vend saved.
Proof using Type. intros (ops & s & HG & HS & _). by exists ops, s. Qed.

Context (GetVend : bool -> VendType -> option VendOps).

(** A run on an empty database builds the encoding and writes its file. *)
Lemma build_encoding vend_type file (db : T) :
  vend_type <> NoVend -> simple_file C file -> (forall k, store_Get db k = None) ->
  (forall adj, lists_of_file C file adj -> restored C (GetVend false vend_type) adj) ->
  exists saved, BuildExecution_Execute C GetVend false vend_type (Some file) 0 (Some db) None = Some (Some db, Some saved) /\
    holds_encoding (GetVend false vend_type) saved file.
Proof.
  intros Ht Hf Hdb Hvend. destruct (LoadData_ok C HV file Hf) as (adj & EL & Hlists).
  destruct (Hvend adj Hlists) as (ops & HG & Hops). destruct Hlists as (Hg & H0 & Hel).
  destruct (Hops [] (default [] (RocksDb_scan db))) as (s & saved & s' & HB & HP & HL & Htest). exists saved. split.
  - unfold BuildExecution_Execute, Graph_Init, Graph_open. rewrite Z.eqb_refl. bind_step. rewrite (LoadDataFromDb_empty db Hdb). bind_step.
    rewrite (bool_decide_eq_false_2 (vend_type = NoVend)) by done. rewrite LoadData_resized, EL, HG. bind_step. cbn [fst snd].
    unfold Graph_BuildEncode, vend_graph. rewrite HB. bind_step. rewrite HP. bind_step. done.
  - exists ops, s'. split; [done|]. split; [done|]. intros u v Hu Hv. destruct (Htest u v Hu Hv) as (t & Et & Ht'). exists t.
    split; [done|]. by rewrite <- (Hel u v Hu).
Qed.

(** A run that finds the file of the encoding leaves everything as it is. *)
Lemma build_again vend_type data (db : T) adj saved :
  vend_type <> NoVend -> Graph_LoadDataFromDb C [] db = Some adj -> loads (GetVend false vend_type) saved ->
  BuildExecution_Execute C GetVend false vend_type data 0 (Some db) (Some saved) = Some (Some db, Some saved).
Proof.
  intros Ht HL (ops & s & HG & HS). unfold BuildExecution_Execute, Graph_Init, Graph_open. rewrite Z.eqb_refl. bind_step. rewrite HL.
  bind_step. rewrite (bool_decide_eq_false_2 (vend_type = NoVend)) by done. rewrite HG. bind_step. rewrite HS. bind_step. done.
Qed.

(** The queries, with an encoding and without. *)
Lemma query_run vend_type file (db : T) adj saved pairs :
  vend_type <> NoVend -> lists_of_file C file adj -> Graph_LoadDataFromDb C [] db = Some adj ->
  holds_encoding (GetVend false vend_type) saved file -> Forall (ids_in_graph C) pairs -> Z.of_nat (length pairs) < 2 ^ 31 ->
  exists r, QueryExecution_Execute C GetVend false vend_type 0 (Some db) (Some saved) pairs = Some r /\ counted (edge_of file) pairs r.
Proof.
  intros Ht Hlists HL (ops & s & HG & HS & Htest) Hp Hlen.
  destruct (query_loop_ok (edge_of file) (vend_Determine ops s) (Graph_TestEdgeByAdj adj) pairs Hlen) as (r & Hr & Hcount).
  { intros p Hin. destruct (proj1 (Forall_forall _ _) Hp p Hin). split; [by apply TestEdge_ok|by apply Htest]. }
  exists r. split; [|done]. unfold QueryExecution_Execute, Graph_Init, Graph_open. rewrite Z.eqb_refl. bind_step. rewrite HL. bind_step.
  rewrite (bool_decide_eq_false_2 (vend_type = NoVend)), (bool_decide_eq_true_2 (vend_type <> NoVend)) by done.
  rewrite HG. bind_step. rewrite HS. bind_step. cbn [g_lists]. exact Hr.
Qed.

Lemma query_run_novend file (db : T) adj encode_file pairs :
  lists_of_file C file adj -> Graph_LoadDataFromDb C [] db = Some adj ->
  Forall (ids_in_graph C) pairs -> Z.of_nat (length pairs) < 2 ^ 31 ->
  exists r, QueryExecution_Execute C GetVend false NoVend 0 (Some db) encode_file pairs = Some r /\
    res r = count (edge_of file) pairs /\ filtered_ r = 0.
Proof.
  intros Hlists HL Hp Hlen.
  destruct (query_novend_ok (edge_of file) (Graph_TestEdgeByAdj adj) pairs Hlen) as (r & Hr & Hcount).
  { intros p Hin. destruct (proj1 (Forall_forall _ _) Hp p Hin). by apply TestEdge_ok. }
  exists r. split; [|done]. unfold QueryExecution_Execute, Graph_Init, Graph_open. rewrite Z.eqb_refl. bind_step. rewrite HL. bind_step.
  rewrite (bool_decide_eq_true_2 (NoVend = NoVend)), (bool_decide_eq_false_2 (NoVend <> NoVend)) by first [done|intros H; by apply H].
  bind_step. cbn [g_lists]. exact Hr.
Qed.
End pipeline.

(** * Proofs: updates *)

Section loops.
Context {E : Type}.

Lemma DeleteExecution_loop_fold (step : E -> Z -> Z -> option E) vend_type pairs e batch :
  0 <= batch -> batch + Z.of_nat (length pairs) < 2 ^ 31 ->
  (vend_type = BloomFilterBit -> batch + Z.of_nat (length pairs) < 10) ->
  DeleteExecution_loop step vend_type pairs e batch =
    (e' ← foldM (fun p e => step e p.1 p.2) pairs e; Some (e', batch + Z.of_nat (length pairs))).
Proof.
  intros Hb Hl Ht. revert e batch Hb Hl Ht. induction pairs as [|p pairs IH]; intros e batch Hb Hl Ht.
  { cbn. by rewrite Z.add_0_r. }
  cbn [DeleteExecution_loop foldM length] in *. rewrite s32_small by lia.
  assert (bool_decide (vend_type = BloomFilterBit) && (10 <=? batch + 1) = false) as ->.
  { case_bool_decide as H; [|done]. specialize (Ht H). apply Z.leb_gt. lia. }
  destruct (step e p.1 p.2) as [e'|]; [|done]. bind_step. rewrite IH by (intros; lia || (specialize (Ht H); lia)).
  replace (batch + 1 + Z.of_nat (length pairs)) with (batch + Z.of_nat (S (length pairs))) by lia.
  cbn [mbind option_bind]. by destruct (foldM _ pairs e').
Qed.

(** A stop at the tenth pair. *)
Lemma DeleteExecution_loop_stop (step : E -> Z -> Z -> option E) pre p post e batch :
  0 <= batch -> batch + Z.of_nat (length pre) = 9 ->
  DeleteExecution_loop step BloomFilterBit (pre ++ p :: post) e batch =
    (e' ← foldM (fun p e => step e p.1 p.2) pre e; Some (e', 10)).
Proof.
  intros Hb Hl. revert e batch Hb Hl. induction pre as [|q pre IH]; intros e batch Hb Hl; cbn [app DeleteExecution_loop foldM length] in *.
  - rewrite s32_small by lia. rewrite (bool_decide_eq_true_2 (BloomFilterBit = BloomFilterBit)) by done.
    rewrite (proj2 (Z.leb_le 10 (batch + 1))) by lia. cbn [andb]. cbn [mbind option_bind]. do 2 f_equal. lia.
  - rewrite s32_small by lia. rewrite (proj2 (Z.leb_gt 10 (batch + 1))) by lia. rewrite andb_false_r.
    destruct (step e q.1 q.2) as [e'|]; [|done]. cbn [mbind option_bind]. by rewrite IH by lia.
Qed.
End loops.

(** The pairs that a run with deletions treats: all of the list for every
    encoding but the Bloom filter, the first nine for that one; [batch] is the
    number of pairs, and ten when the Bloom filter stops early. *)
Definition treated (vend_type : VendType) (pairs : list (Z * Z)) : list (Z * Z) :=
  if bool_decide (vend_type = BloomFilterBit) then take 9 pairs else pairs.
Definition batch_of (vend_type : VendType) (pairs : list (Z * Z)) : Z :=
  if bool_decide (vend_type = BloomFilterBit) then Z.min 10 (Z.of_nat (length pairs)) else Z.of_nat (length pairs).

Lemma DeleteExecution_loop_pairs {E : Type} (step : E -> Z -> Z -> option E) vend_type pairs e :
  Z.of_nat (length pairs) < 2 ^ 31 - 1 ->
  DeleteExecution_loop step vend_type pairs e 0 =
    (e' ← foldM (fun p e => step e p.1 p.2) (treated vend_type pairs) e;
     Some (e', batch_of vend_type pairs)).
Proof.
  intros Hlen. unfold treated, batch_of. case_bool_decide as Ht.
  - subst vend_type. destruct (decide (length pairs <= 9)%nat) as [Hs|Hs].
    + rewrite take_ge by done. rewrite DeleteExecution_loop_fold by lia. by rewrite Z.min_r by lia.
    + rewrite Z.min_l by lia. rewrite <- (take_drop 9 pairs) at 1.
      destruct (drop 9 pairs) as [|p post] eqn:Ed; [pose proof (length_drop pairs 9) as H; rewrite Ed in H; cbn in H; lia|].
      apply DeleteExecution_loop_stop; [lia|]. rewrite length_take. lia.
  - by rewrite DeleteExecution_loop_fold by (done || lia).
Qed.

Theorem DeleteExecution_pairs {E : Type} (Delete : E -> Z -> Z -> option E) (vend_type : VendType)
    (pairs : list (Z * Z)) (e : E) (Hlen : Z.of_nat (length pairs) < 2 ^ 31 - 1) :
  DeleteExecution_Execute Delete vend_type pairs e =
    (e' ← foldM (fun p e => Delete e p.1 p.2) (treated vend_type pairs) e;
     Some (e', batch_of vend_type pairs)).
Proof. by apply DeleteExecution_loop_pairs. Qed.

(** * Properties *)

(** C4: the program keeps its promise from the data file to the answers, for
    each of its sound encodings. A run without an encoding stores the file in
    the database, a run with an encoding builds it and saves it, and a run of
    queries on both reports as its result the number of pairs that are edges of
    the file, as many as without an encoding; the pairs that are no edges are
    divided between those the encoding rejected and those that were looked up in
    vain, and no more pairs count as filtered than were asked. *)
Theorem Query_pipeline (C : Config) (heap : Z -> Z) (key : Z) (unordered : gset Z -> list Z)
    (std_sort : (Z -> Z) -> list Z -> list Z) {T : Type} {St : Store T} {SL : StoreLaws T} (db0 db1 : T)
    (vend_type : VendType) (file : list (option (Z * Z))) (pairs : list (Z * Z))
    (HC : vend_config C) (Hfit : forall adj, lists_of_file C file adj -> graph_fits C vend_type adj)
    (Horder : forall s x, x ∈ unordered s <-> x ∈ s) (Hsort : sorts std_sort) (Hfile : simple_file C file)
    (Hdb : forall k, store_Get db0 k = None /\ store_Get db1 k = None)
    (Hpairs : Forall (ids_in_graph C) pairs) (Hlen : Z.of_nat (length pairs) < 2 ^ 31) :
  let GetVend := make_vend C heap key unordered std_sort in
  exists db saved r r0,
    BuildExecution_Execute C GetVend false NoVend (Some file) 0 (Some db0) None = Some (Some db, None) /\
    BuildExecution_Execute C GetVend false vend_type (Some file) 0 (Some db1) None = Some (Some db1, Some saved) /\
    QueryExecution_Execute C GetVend false vend_type 0 (Some db) (Some saved) pairs = Some r /\
    QueryExecution_Execute C GetVend false NoVend 0 (Some db) (Some saved) pairs = Some r0 /\
    res r = Z.of_nat (length (filter (edge_of file) pairs)) /\ res r0 = res r /\
    true_false r + f_items r = Z.of_nat (length pairs) - res r /\
    0 <= true_false r <= filtered_ r /\ filtered_ r <= Z.of_nat (length pairs).
Proof.
  intros GetVend. pose proof (vc_V C HC). assert (1 <= VERTEX_SIZE C < 2 ^ 28) as HV by lia.
  destruct (build_database C HV GetVend file db0 Hfile ltac:(apply Hdb)) as (adj & db & E0 & EL & Hlists).
  assert (vend_type <> NoVend) as Hne by (intros ->; exact (Hfit adj Hlists)).
  destruct (build_encoding C HV GetVend vend_type file db1 Hne Hfile ltac:(apply Hdb)) as (saved & E1 & Hholds).
  { intros adj' Hl. by apply make_vend_laws; [..|by apply (source_of_file C HV file)|by apply Hfit]. }
  destruct (query_run C HV GetVend vend_type file db adj saved pairs Hne Hlists EL Hholds Hpairs Hlen) as (r & E2 & Hres & Htf & H1 & H2 & H3).
  destruct (query_run_novend C HV GetVend file db adj (Some saved) pairs Hlists EL Hpairs Hlen) as (r0 & E3 & Hr0 & _).
  exists db, saved, r, r0. pose proof (count_bound (edge_of file) pairs).
  split; [done|]. split; [done|]. split; [done|]. split; [done|]. split; [done|]. split; [congruence|].
  split; [lia|]. split; [lia|done].
Qed.

(** * Witnesses *)

(** The edges of a half graph, in which every degree occurs. *)
Definition half_file (n : Z) : list (option (Z * Z)) :=
  flat_map (fun u => map (fun v => Some (u, v)) (filter (fun v => n < u + v) (seqZ (u + 1) (n - u)))) (seqZ 1 n).

Lemma file_fits C file t adj0 :
  1 <= VERTEX_SIZE C < 2 ^ 28 -> simple_file C file -> Graph_LoadData C false file [] [] = Some (adj0, []) -> graph_fits C t adj0 ->
  forall adj, lists_of_file C file adj -> graph_fits C t adj.
Proof.
  intros HV Hf HL Hfit adj Hadj. destruct (LoadData_ok C HV file Hf) as (adj1 & HL1 & Hadj1). rewrite HL in HL1. injection HL1 as <-.
  by rewrite (lists_unique C HV file adj adj0 Hadj Hadj1).
Qed.

Lemma small_vend_config : vend_config small_config.
Proof. split; vm_compute; repeat split; discriminate. Qed.

Lemma Query_pipeline_witness :
  let GetVend := make_vend small_config (fun _ => 0) 0 elements sort_by in
  exists (db : gmap (list Z) (list Z)) saved r r0,
    BuildExecution_Execute small_config GetVend false NoVend (Some (half_file 7)) 0 (Some (∅ : gmap (list Z) (list Z))) None
      = Some (Some db, None) /\
    BuildExecution_Execute small_config GetVend false Range (Some (half_file 7)) 0 (Some (∅ : gmap (list Z) (list Z))) None
      = Some (Some ∅, Some saved) /\
    QueryExecution_Execute small_config GetVend false Range 0 (Some db) (Some saved) [(1, 7); (2, 4); (20, 1); (7, 6)] = Some r /\
    QueryExecution_Execute small_config GetVend false NoVend 0 (Some db) (Some saved) [(1, 7); (2, 4); (20, 1); (7, 6)] = Some r0 /\
    res r = 2 /\ res r0 = res r /\ true_false r + f_items r = 4 - res r /\
    0 <= true_false r <= filtered_ r /\ filtered_ r <= 4.
Proof.
  assert (simple_file small_config (half_file 7)) as Hfile by (apply simple_check_ok; vm_compute; reflexivity).
  apply (Query_pipeline small_config (fun _ => 0) 0 elements sort_by ∅ ∅ Range (half_file 7) [(1, 7); (2, 4); (20, 1); (7, 6)]).
  - apply small_vend_config.
  - destruct (Graph_LoadData small_config false (half_file 7) [] []) as [[adj0 in_adj]|] eqn:E; [|vm_compute in E; discriminate E].
    apply (file_fits small_config (half_file 7) Range adj0); [vm_compute; split; [discriminate|reflexivity]|done| |].
    + rewrite E. vm_compute in E. by injection E as <- <-.
    + vm_compute in E. injection E as <- <-. exists 6. split; [vm_compute; split; [reflexivity|reflexivity]|].
      apply no_gap_check_ok. vm_compute. reflexivity.
  - intros s x. apply elem_of_elements.
  - apply sort_by_sorts.
  - exact Hfile.
  - intros k. split; apply lookup_empty.
  - repeat constructor; vm_compute; discriminate.
  - reflexivity.
Defined.

Lemma DeleteExecution_pairs_witness :
  DeleteExecution_Execute (fun e u _ => Some (e + u)) BloomFilterBit (replicate 12 (1, 2)) 0 = Some (9, 10).
Proof. apply (DeleteExecution_pairs (fun e u _ => Some (e + u)) BloomFilterBit (replicate 12 (1, 2)) 0). reflexivity. Defined.



(** * Behaviours worth knowing *)

(** An encoding that is built on a database that already holds the data gets
    every neighbor twice. *)
Example Init_loads_twice :
  let GetVend := make_vend small_config (fun _ => 0) 0 elements sort_by in
  (r ← BuildExecution_Execute small_config GetVend false NoVend (Some demo_file) 0 (Some (∅ : gmap (list Z) (list Z))) None;
   s ← Graph_Init small_config GetVend false SIMDDeltaV2 (Some demo_file) 0 r.1 None;
   zget (g_lists s.1) 1) = Some [2; 2; 4; 4; 20; 20].
Proof. vm_compute. reflexivity. Qed.

(** Without a database path, as the runs that score the plans start their
    graphs, the initialisation uses a null pointer. *)
Example Init_null_database :
  Graph_Init (T := gmap (list Z) (list Z)) small_config (make_vend small_config (fun _ => 0) 0 elements sort_by) false
    SIMDDeltaV2 None 0 None (Some {| lines := []; in_lines := [] |}) = None.
Proof. reflexivity. Qed.

(** The constructors without [db_type] leave it as the memory has it, and the
    database is opened for 0 only. *)
Example Init_db_type_uninitialised (db_type : Z) :
  db_type <> 0 ->
  BuildExecution_Execute small_config (make_vend small_config (fun _ => 0) 0 elements sort_by) false SIMDDeltaV2 (Some demo_file)
    db_type (Some (∅ : gmap (list Z) (list Z))) None = None.
Proof. intros H. unfold BuildExecution_Execute, Graph_Init, Graph_open. by rewrite (proj2 (Z.eqb_neq db_type 0)). Qed.
