(* ===== verification/Exact.v ===== *)
(** What an encoding that stores edges owes to the graph that inserts and deletes
    through it ([Vend::Insert] and [Vend::Delete] of [src/include/vend/vend.h]),
    exactly: the edges that a state stores, what each operation makes of them, and
    that two states with the same edges give the same answers.

    Four types store edges: the counting filter of integers, the plain and the
    blocked Bloom filter, and the bits of the larger neighbors. A deletion takes
    an edge away from the first only. The Bloom filters are built again from the
    database, with the deleted edge, as the program does not delete it there; the
    bits of the smaller end are built again without it, but with what was deleted
    before and without what was inserted. *)
From S2P Require Import Prelude Config BitSet Encode BFilter DeltaEncode KCore DegreeOrder HashEncodes VendFactory Vends.
From stdpp Require Import options.
Local Open Scope Z_scope.
Set Default Proof Using "Type*".

(** * The promise *)

(** The rows of a database that holds the graph. *)
Definition rows_of (C : Config) (adj : list (list Z)) (rows : list (Z * list Z)) : Prop :=
  forall v N, (v, N) ∈ rows <-> 1 <= v <= VERTEX_SIZE C /\ zget adj v = Some N /\ N <> [].

(** What a deletion sees of the graph. *)
Record current (C : Config) (adj : list (list Z)) (g : VendGraph) (db : Z -> list Z) : Prop := {
  current_lists : adjacency_list_ g = Some adj;
  current_rows : rows_of C adj (data_db_ g);
  current_db v : 1 <= v <= VERTEX_SIZE C -> db v = neighbors adj v
}.

(** What a builder sees of the graph: its lists, or without them the rows of its
    database, one for every vertex with neighbors. *)
Definition sees (C : Config) (adj : list (list Z)) (g : VendGraph) : Prop :=
  adjacency_list_ g = Some adj \/
  adjacency_list_ g = None /\ rows_of C adj (data_db_ g) /\ NoDup (data_db_ g).*1.

Fixpoint remove_one (e : Z * Z) (M : list (Z * Z)) : list (Z * Z) :=
  match M with
  | [] => []
  | x :: M => if decide (x = e) then M else x :: remove_one e M
  end.

(** The edges that are stored after a deletion of [e], where the database holds
    [base] and the edges [M] were stored. *)
Definition forget (t : VendType) (base M : list (Z * Z)) (e : Z * Z) : list (Z * Z) :=
  match t with
  | BloomFilterInt => remove_one e M
  | HashBit => filter (fun x => x.1 <> e.1) M ++ filter (fun x => x.1 = e.1 /\ x <> e) base
  | _ => base
  end.

(** The counting filter stores an edge as often as it was inserted; the others
    once. *)
Definition same_edges (t : VendType) (M M' : list (Z * Z)) : Prop :=
  match t with BloomFilterInt => M ≡ₚ M' | _ => forall e, e ∈ M <-> e ∈ M' end.

(** The state [s] stores the edges [M], and has room for [k] more. *)
Definition stored (C : Config) (t : VendType) (k : nat) (M : list (Z * Z)) (s : VendState) : Prop :=
  match t with
  | BloomFilterInt => exists d, s = Filter d /\ counts C M d /\ INT_HASH_BEST_NUMS C * Z.of_nat (length M + k) < 2 ^ 32
  | BloomFilterBit => exists d, s = Filter d /\ bits_of C 0 M d
  | BBloomFilter => exists d, s = Filter d /\ bits_of C 2 M d
  | HashBit => exists E, s = Vectors E /\ bithash_inv C M E
  | _ => False
  end.

(** The types that store edges, and the graphs that fit. *)
Definition update_fits (C : Config) (k : nat) (t : VendType) (adj : list (list Z)) : Prop :=
  match t with
  | BloomFilterInt => INT_HASH_BEST_NUMS C * Z.of_nat (length (forward_edges adj (VERTEX_SIZE C)) + k) < 2 ^ 32
  | BloomFilterBit | BBloomFilter | HashBit => True
  | _ => False
  end.

Class ExactLaws (C : Config) (t : VendType) (ops : VendOps) : Prop := {
  exact_loaded k adj g : source_graph C adj -> update_fits C k t adj -> sees C adj g ->
    exists s file s',
      vend_BuildEncoding ops g = Some s /\
      vend_EncodePersistent ops s = Some file /\ vend_LoadEncode ops (Some file) = Some s' /\
      stored C t k (forward_edges adj (VERTEX_SIZE C)) s';
  exact_insert k M s g db u v : stored C t (S k) M s -> 1 <= u <= VERTEX_SIZE C -> 1 <= v <= VERTEX_SIZE C ->
    exists s', vend_Insert ops g db s u v = Some s' /\ stored C t k (ordered_pair u v :: M) s';
  exact_delete k M s adj g db u v : stored C t k M s -> source_graph C adj -> current C adj g db ->
    1 <= u <= VERTEX_SIZE C -> 1 <= v <= VERTEX_SIZE C -> u <> v -> (t = BloomFilterInt -> ordered_pair u v ∈ M) ->
    exists s', vend_Delete ops g db s u v = Some (s', Some adj) /\
      stored C t k (forget t (forward_edges adj (VERTEX_SIZE C)) M (ordered_pair u v)) s';
  exact_test k k' M M' s s' u v : stored C t k M s -> stored C t k' M' s' -> same_edges t M M' ->
    1 <= u <= VERTEX_SIZE C -> 1 <= v <= VERTEX_SIZE C ->
    exists a, vend_Determine ops s u v = Some a /\ vend_Determine ops s' u v = Some a /\ a <> Neighbor /\
      (ordered_pair u v ∈ M -> a = Uncertain)
}.

(** * Proofs: edges *)

Lemma erase_first_nodup x N b : NoDup N -> b ∈ default N (erase_first x N) <-> b ∈ N /\ b <> x.
Proof.
  intros HN. pose proof (erase_first_spec x N HN) as H. destruct (erase_first x N) as [N'|]; cbn [default from_option]; [by apply H|].
  split; [|by intros []]. intros Hb. split; [done|]. by intros ->.
Qed.

#[export] Instance same_edges_equivalence t : Equivalence (same_edges t).
Proof.
  destruct (decide (t = BloomFilterInt)) as [->|Hne]; [exact (@Permutation_Equivalence (Z * Z))|].
  assert (forall M M', same_edges t M M' <-> forall e, e ∈ M <-> e ∈ M') as H by (by destruct t).
  split; [by intros M; apply H|intros M M' HM; rewrite H in *; firstorder|].
  intros M1 M2 M3 H1 H2. rewrite H in *. intros e. by rewrite H1.
Qed.

Lemma remove_one_perm e M : e ∈ M -> M ≡ₚ e :: remove_one e M.
Proof.
  induction M as [|x M IH]; [by intros []%not_elem_of_nil|]. intros Hin. cbn [remove_one]. destruct (decide (x = e)) as [->|Hne]; [done|].
  apply elem_of_cons in Hin as [->|Hin]; [done|]. rewrite (IH Hin) at 1. apply perm_swap.
Qed.

Lemma same_elem t M M' e : same_edges t M M' -> e ∈ M <-> e ∈ M'.
Proof. destruct t; cbn; try by intros H. intros H. by rewrite H. Qed.

Lemma perm_same t M M' : M ≡ₚ M' -> same_edges t M M'.
Proof. intros H. destruct t; cbn; [done|..]; intros e; by rewrite H. Qed.

Lemma forget_same t base base' M M' e :
  (t = BloomFilterInt -> e ∈ M) -> (forall x, x ∈ base <-> x ∈ base') -> same_edges t M M' -> same_edges t (forget t base M e) (forget t base' M' e).
Proof.
  intros He Hb HM. destruct t; cbn in *; try done.
  - apply (Permutation_cons_inv (a := e)). rewrite <- !remove_one_perm; [done|by rewrite <- HM; apply He|by apply He].
  - intros x. rewrite !elem_of_app, !list_elem_of_filter, HM, Hb. tauto.
Qed.

#[export] Instance cons_same t e : Proper (same_edges t ==> same_edges t) (cons e).
Proof. intros M M' H. destruct t; cbn in *; [by rewrite H|..]; intros x; by rewrite !elem_of_cons, H. Qed.

#[export] Instance stored_same C t k : Proper (same_edges t ==> (=) ==> iff) (stored C t k).
Proof.
  intros M M' HM s ? <-.
  assert (forall M M', same_edges t M M' -> stored C t k M s -> stored C t k M' s) as H; [|split; apply H; [done|by symmetry]].
  clear M M' HM. intros M M' HM Hs. destruct t; cbn in *; try done.
  - destruct Hs as (d & -> & Hd & Hlen). exists d. split; [done|]. split; [by eapply counts_perm|]. by rewrite <- HM.
  - destruct Hs as (d & -> & Hd). exists d. split; [done|]. by eapply bits_same.
  - destruct Hs as (d & -> & Hd). exists d. split; [done|]. by eapply bits_same.
  - destruct Hs as (E & -> & Hd). exists E. split; [done|]. by eapply bithash_same.
Qed.

Lemma stored_less C t k k' M s :
  (k' <= k)%nat -> 0 <= INT_HASH_BEST_NUMS C -> stored C t k M s -> stored C t k' M s.
Proof.
  intros Hk Hn Hs. destruct t; cbn [stored] in *; try done. destruct Hs as (d & -> & Hd & Hroom). exists d. split; [done|]. split; [done|]. nia.
Qed.

(** * Proofs: the encodings that keep it *)

Lemma ordered_cases u v : u <> v -> exists a b, ordered_pair u v = (a, b) /\ a < b /\ (a = u /\ b = v \/ a = v /\ b = u).
Proof. intros Hne. unfold ordered_pair. destruct (Z.ltb_spec v u); do 2 eexists; (split; [done|]); lia. Qed.

Section laws.
Context (C : Config) (HC : vend_config C).
Notation V := (VERTEX_SIZE C).

(** ** The edges of the rows *)

Lemma forward_nodup u N : NoDup N -> NoDup (forward u N).
Proof. intros HN. unfold forward. apply NoDup_fmap_2; [intros x y [= ->]; done|by apply NoDup_filter]. Qed.

(** Lists of different vertices have no edge in common. *)
Lemma flat_forward_nodup {A} (key : A -> Z) (val : A -> list Z) l :
  NoDup (map key l) -> (forall x, x ∈ l -> NoDup (val x)) -> NoDup (flat_map (fun x => forward (key x) (val x)) l).
Proof.
  induction l as [|x l IH]; intros Hk Hv; [constructor|]. cbn [flat_map map] in *. apply NoDup_cons in Hk as [Hno Hk].
  apply NoDup_app. split; [apply forward_nodup, Hv; by left|]. split; [|apply IH; [done|]; intros y Hy; apply Hv; by right].
  intros [a b] (-> & _)%elem_forward Hin. apply Hno. apply list_elem_of_In, in_flat_map in Hin as (y & Hy & Hin).
  apply list_elem_of_In, elem_forward in Hin as (E & _). rewrite E. apply list_elem_of_fmap. exists y. split; [done|]. by apply list_elem_of_In.
Qed.

Lemma source_nodup adj v N : source_graph C adj -> 1 <= v <= V -> zget adj v = Some N -> NoDup N.
Proof. intros Hg Hv EN. destruct (graph_lists _ _ _ (source_lists _ _ Hg) v N Hv EN) as [Hs _ _]. by apply sorted_lt_nodup. Qed.

Lemma forward_edges_nodup adj : source_graph C adj -> NoDup (forward_edges adj V).
Proof.
  intros Hg. unfold forward_edges. apply (flat_forward_nodup (fun u => u)); [rewrite map_id; apply NoDup_seqZ|].
  intros v Hv%elem_of_seqZ. destruct (zget adj v) as [N|] eqn:EN; [apply (source_nodup adj v N); (done || lia)|constructor].
Qed.

Lemma row_edges_forward adj rows :
  source_graph C adj -> rows_of C adj rows -> NoDup rows.*1 -> row_edges rows ≡ₚ forward_edges adj V.
Proof.
  intros Hg Hrows Hnd. apply NoDup_Permutation; [|by apply forward_edges_nodup|].
  - unfold row_edges. apply flat_forward_nodup; [exact Hnd|]. intros [v N] (Hv & EN & _)%Hrows. by apply (source_nodup adj v N).
  - intros [a b]. unfold row_edges, forward_edges. rewrite !list_elem_of_In, !in_flat_map. split.
    + intros ([v N] & Hin%list_elem_of_In & Hf%list_elem_of_In). cbn [fst snd] in *. apply Hrows in Hin as (Hv & EN & _).
      apply elem_forward in Hf as (-> & Hf). exists v. split; [apply list_elem_of_In, elem_of_seqZ; lia|].
      rewrite EN. by apply list_elem_of_In, elem_forward.
    + intros (v & Hv%list_elem_of_In%elem_of_seqZ & Hf%list_elem_of_In). destruct (zget adj v) as [N|] eqn:EN;
        cbn [default from_option] in Hf; apply elem_forward in Hf as (-> & Hlt & Hb); [|by apply elem_of_nil in Hb]. unfold id in Hb.
      exists (v, N). split; [apply list_elem_of_In, Hrows; split; [lia|]; split; [done|]; by intros ->; apply elem_of_nil in Hb|].
      by apply list_elem_of_In, elem_forward.
Qed.

(** What a builder makes of the lists it makes of the rows, too. *)
Lemma seen_edges adj g :
  source_graph C adj -> sees C adj g ->
  adjacency_list_ g = Some adj /\ Z.of_nat (length adj) - 1 = V \/
  adjacency_list_ g = None /\ row_edges (data_db_ g) ≡ₚ forward_edges adj V /\ NoDup (data_db_ g).*1 /\
    forall a N, (a, N) ∈ data_db_ g -> 1 <= a <= V.
Proof.
  intros Hg [->|(-> & Hrows & Hnd)]; [left|right].
  - pose proof (graph_size _ _ _ (source_lists _ _ Hg)). split; [done|lia].
  - split; [done|]. split; [by apply row_edges_forward|]. split; [done|]. by intros a N [Ha _]%Hrows.
Qed.

(** ** The integer filter *)

Lemma int_sizes : 0 < int_hash_size C < 2 ^ 32 /\ 0 <= INT_HASH_BEST_NUMS C <= 60.
Proof. apply (vc_ints C HC). Qed.

#[export] Instance int_exact : ExactLaws C BloomFilterInt (BFilterIntVend_ops C).
Proof.
  destruct int_sizes as [Hsize Hn]. split.
  - intros k adj g Hg Hfit Hsees. cbn [update_fits] in Hfit.
    assert (exists d, BFilterVend_BuildEncoding (BFilterIntEncode_EdgeSet C) (adjacency_list_ g) (data_db_ g) (BFilterIntEncode_new C) = Some d /\
      counts C (forward_edges adj V) d) as (d & HB & Hd).
    { destruct (seen_edges adj g Hg Hsees) as [[-> EV]|(-> & Hperm & _)].
      - destruct (int_build C Hsize Hn adj (data_db_ g)) as (d & HB & Hd); [rewrite EV; nia|]. rewrite EV in Hd. by exists d.
      - destruct (int_build_rows C Hsize Hn (data_db_ g)) as (d & HB & Hd); [rewrite Hperm; nia|]. exists d. split; [done|].
        by eapply counts_perm. }
    destruct (int_save_load C Hsize Hn _ d (BFilterIntEncode_new C) Hd) as (file & HP & HL);
      [unfold BFilterIntEncode_new; rewrite length_replicate; lia|].
    cbn [vend_BuildEncoding vend_EncodePersistent vend_LoadEncode filter_ops BFilterIntVend_ops].
    rewrite HB. bind_step. exists (Filter d), {| lines := [file]; in_lines := [] |}, (Filter d). split; [done|]. cbn [on_filter].
    rewrite HP. bind_step. split; [done|]. cbn [file_lines lines concat]. rewrite app_nil_r, HL. bind_step. split; [done|]. by exists d.
  - intros k M s g db u v (d & -> & Hd & Hroom) Hu Hv.
    destruct (int_insert C Hsize Hn M d u v Hd) as (d' & E & Hd'); [nia|].
    cbn [vend_Insert filter_ops BFilterIntVend_ops on_filter]. rewrite E. bind_step. exists (Filter d'). split; [done|].
    exists d'. split; [done|]. split; [done|]. cbn [length]. nia.
  - intros k M s adj g db u v (d & -> & Hd & Hroom) Hg [Hl _ _] Hu Hv Hne Hin. specialize (Hin eq_refl).
    pose proof (remove_one_perm _ _ Hin) as Hperm. pose proof (counts_perm C _ _ d Hperm Hd) as Hd1.
    pose proof (Permutation_length Hperm) as Hlen. cbn [length] in Hlen.
    destruct (int_delete C Hsize Hn [] _ d u v Hd1) as (d' & E & Hd'); [cbn [app length]; nia|]. cbn [app] in Hd'.
    cbn [vend_Delete filter_ops BFilterIntVend_ops on_filter]. rewrite E. bind_step. rewrite Hl. exists (Filter d'). split; [done|].
    exists d'. split; [done|]. split; [done|]. cbn [forget]. nia.
  - intros k k' M M' s s' u v (d & -> & Hd & _) (d' & -> & Hd' & _) HM Hu Hv. cbn [same_edges] in HM.
    pose proof (counts_perm C _ _ d HM Hd) as Hd1. rewrite <- (counts_unique C M' d d' Hd1 Hd').
    destruct (int_test C Hsize Hn M d u v Hd) as (t & Et & Hnn & Hin). by exists t.
Qed.

(** ** The bit filters *)

(** The database is read into lists that are the same. *)
Lemma LoadDbData_same adj rows :
  source_graph C adj -> rows_of C adj rows -> Vend_LoadDbData C adj rows = Some adj.
Proof.
  intros Hg Hrows. pose proof (graph_size _ _ _ (source_lists _ _ Hg)) as Hlen. unfold Vend_LoadDbData.
  replace (Z.to_nat (V + 1)) with (length adj) by lia. rewrite firstn_all, Nat.sub_diag, app_nil_r.
  destruct (foldM_inv (fun _ a => a = adj) (fun row adj => zset adj row.1 row.2) rows adj) as (a & -> & ->); [done| |done].
  intros pre [v N] post a E ->. assert ((v, N) ∈ rows) as Hin by (rewrite E; set_solver).
  apply Hrows in Hin as (Hv & EN & _). eexists. split; [|done]. cbn [fst snd]. rewrite zset_Some by lia. f_equal.
  apply list_insert_id. rewrite <- (zget_lookup adj v) by lia. done.
Qed.


(** What a Bloom filter needs of the sizes. *)
Lemma bit_sizes : 0 < bit_hash_size C < 2 ^ 56 /\ bit_hash_size C mod 8 = 0 /\ bit_hash_size C mod 32 = 0.
Proof.
  destruct (vc_bits C HC) as (Hsize & H32 & _). split; [done|]. split; [|done].
  pose proof (Z.div_mod (bit_hash_size C) 32 ltac:(lia)). replace (bit_hash_size C) with (bit_hash_size C / 32 * 4 * 8) by lia.
  by apply Z.mod_mul.
Qed.

Context (key : Z).

(** The builder on a filter without bits. *)
Lemma bit_built type adj g d0 :
  type <> 1 -> source_graph C adj -> sees C adj g -> bits_of C type [] d0 ->
  exists d, BFilterVend_BuildEncoding (BFilterBitVend_EdgeSet C type) (adjacency_list_ g) (data_db_ g) d0 = Some d /\
    bits_of C type (forward_edges adj V) d.
Proof.
  intros Ht Hg Hsees H0. destruct (vc_bits C HC) as (Hsize & _ & Hn). pose proof (vc_blocks C HC) as Hb.
  destruct (seen_edges adj g Hg Hsees) as [[-> EV]|(-> & Hperm & _)].
  - rewrite <- EV. by apply bits_build.
  - destruct (bits_build_rows C type Hsize Hn Hb Ht (data_db_ g) d0 H0) as (d & HB & Hd). exists d. split; [done|].
    eapply bits_same; [|exact Hd]. intros e. by rewrite Hperm.
Qed.

(** One lemma for both types. *)
Lemma bit_exact t type :
  type <> 1 -> (forall k M s, stored C t k M s <-> exists d, s = Filter d /\ bits_of C type M d) ->
  (forall M M', same_edges t M M' <-> forall e, e ∈ M <-> e ∈ M') -> (forall base M e, forget t base M e = base) ->
  ExactLaws C t (BFilterBitVend_ops C key type).
Proof.
  intros Ht Hst Hsame Hforget. destruct bit_sizes as (Hsize & H8 & H32). destruct (vc_bits C HC) as (_ & _ & Hn). pose proof (vc_blocks C HC) as Hb.
  split.
  - intros k adj g Hg _ Hsees. destruct (bit_built type adj g _ Ht Hg Hsees (new_bits C type Hsize H8)) as (d & HB & Hd).
    destruct (BFilter_save_load C d _ key Hsize H32 (proj1 Hd) (new_filter_bits C Hsize H8)) as (file & HP & HL).
    cbn [vend_BuildEncoding vend_EncodePersistent vend_LoadEncode filter_ops BFilterBitVend_ops].
    rewrite HB. bind_step. exists (Filter d), {| lines := [file]; in_lines := [] |}, (Filter d). split; [done|]. cbn [on_filter].
    rewrite HP. bind_step. split; [done|]. cbn [file_lines lines concat]. rewrite app_nil_r, HL. bind_step. split; [done|]. apply Hst. by exists d.
  - intros k M s g db u v (d & -> & Hd)%Hst Hu Hv. destruct (bits_set C type Hsize Hn Hb Ht M d u v Hd) as (d' & E & Hd').
    cbn [vend_Insert filter_ops BFilterBitVend_ops on_filter].
    assert (BFilterBitVend_InsertPair C type = BFilterBitVend_EdgeSet C type) as -> by done. rewrite E. bind_step.
    exists (Filter d'). split; [done|]. apply Hst. by exists d'.
  - intros k M s adj g db u v (d & -> & Hd)%Hst Hg [Hl Hr _] Hu Hv Hne _. rewrite Hforget.
    cbn [vend_Delete filter_ops BFilterBitVend_ops on_filter]. unfold BFilterBitVend_Delete.
    rewrite (proj2 (Z.eqb_neq type 1)), Hl by done. bind_step. rewrite (LoadDbData_same adj _ Hg Hr). bind_step.
    destruct (bit_built type adj {| adjacency_list_ := Some adj; in_adj_list_ := []; data_db_ := data_db_ g |} _ Ht Hg (or_introl eq_refl)
      (cleared_bits C type d (proj1 Hd))) as (d' & EB & Hd'). cbn [adjacency_list_ data_db_] in EB. rewrite EB. bind_step.
    exists (Filter d'). split; [done|]. apply Hst. by exists d'.
  - intros k k' M M' s s' u v (d & -> & Hd)%Hst (d' & -> & Hd')%Hst HM Hu Hv. rewrite Hsame in HM.
    destruct (bits_test C type Hsize Hn Hb Ht M d u v Hd) as (a & Ea & _ & Hnn & Ha).
    destruct (bits_test C type Hsize Hn Hb Ht M' d' u v Hd') as (a' & Ea' & _ & Hnn' & Ha').
    assert (a = a') as <-.
    { assert (a = Uncertain <-> a' = Uncertain) as Haa; [|destruct a, a'; naive_solver].
      rewrite Ha, Ha'. unfold covered. by setoid_rewrite HM. }
    exists a. split; [done|]. split; [done|]. split; [done|]. intros Hin. by apply Ha, covered_stored.
Qed.

#[export] Instance plain_exact : ExactLaws C BloomFilterBit (BFilterBitVend_ops C key 0).
Proof. by apply bit_exact. Qed.

#[export] Instance blocked_exact : ExactLaws C BBloomFilter (BFilterBitVend_ops C key 2).
Proof. by apply bit_exact. Qed.

(** ** The bits of the larger neighbors *)

Lemma vec_bits : 0 < PER_ENCODE_BIT_SIZE C < 2 ^ 31 /\ PER_ENCODE_BIT_SIZE C mod 8 = 0 /\ PER_ENCODE_BIT_SIZE C / 8 = 4 * K_SIZE C.
Proof.
  pose proof (vc_K C HC). rewrite (vc_per C HC). replace (32 * K_SIZE C) with (4 * K_SIZE C * 8) by lia.
  rewrite Z.mod_mul, Z.div_mul by lia. lia.
Qed.

Lemma hash_built adj g :
  source_graph C adj -> sees C adj g ->
  exists E, BitHashVend_BuildEncoding C (adjacency_list_ g) (data_db_ g) (EncodeBitSet_default C) = Some E /\
    bithash_inv C (forward_edges adj V) E.
Proof.
  intros Hg Hsees. destruct vec_bits as (HP & H8 & _). pose proof (vc_V C HC) as HV. assert (1 <= V < 2 ^ 31) as HV' by lia.
  pose proof (default_bithash C HP H8) as H0. destruct (seen_edges adj g Hg Hsees) as [[-> EV]|(-> & Hperm & Hnd & Hids)].
  - apply BitHash_build; (done || lia).
  - destruct (BitHash_build_rows C HP HV' (data_db_ g) _ Hnd Hids H0) as (E & HB & HE). exists E. split; [done|].
    eapply bithash_same; [|exact HE]. intros e. by rewrite Hperm.
Qed.

(** The list in the database, without the deleted neighbor, is the row of the
    graph without the edge. *)
Lemma redone_forget adj db M e :
  source_graph C adj -> 1 <= e.1 <= V -> db e.1 = neighbors adj e.1 ->
  forall x, x ∈ redone M db e <-> x ∈ forget HashBit (forward_edges adj V) M e.
Proof.
  intros Hg He Hdb [a b]. unfold redone, replaced, forget. rewrite !elem_of_app, !list_elem_of_filter. cbn [fst].
  assert ((a, b) ∈ forward e.1 (default (db e.1) (erase_first e.2 (db e.1))) <-> (a = e.1 /\ (a, b) <> e) /\ (a, b) ∈ forward_edges adj V); [|tauto].
  rewrite elem_forward, elem_forward_edges, Hdb. change (default [] (zget adj a)) with (neighbors adj a).
  assert (NoDup (neighbors adj e.1)) as Hnd.
  { unfold neighbors. destruct (zget adj e.1) as [N|] eqn:EN; [|constructor].
    destruct (graph_lists _ _ _ (source_lists _ _ Hg) e.1 N He EN) as [Hs _ _]. by apply sorted_lt_nodup. }
  assert (b ∈ default (neighbors adj e.1) (erase_first e.2 (neighbors adj e.1)) <-> b ∈ neighbors adj e.1 /\ b <> e.2) as ->.
  { by apply erase_first_nodup. }
  destruct e as [x y]. cbn [fst snd] in *. split.
  - intros (-> & Hlt & Hb & Hne). split; [split; [done|congruence]|]. done.
  - intros ((-> & Hne) & _ & Hlt & Hb). split; [done|]. split; [done|]. split; [done|]. congruence.
Qed.

#[export] Instance hash_exact : ExactLaws C HashBit (BitHashVend_ops C).
Proof.
  destruct vec_bits as (HP & H8 & Hbytes). pose proof (vc_V C HC) as HV. assert (1 <= V < 2 ^ 31) as HV' by lia. split.
  - intros k adj g Hg _ Hsees. destruct (hash_built adj g Hg Hsees) as (E & HB & Hinv).
    assert (forall v, 1 <= v <= V -> stored_at (Z.to_nat (4 * K_SIZE C)) E v) as Hst.
    { intros v Hv. destruct (proj1 Hinv v ltac:(lia)) as (d & Ed & Hd & Hn). exists d. split; [done|]. split; [done|].
      rewrite <- Hbytes, <- Hn. unfold nbits. rewrite Z.mul_comm, Z.div_mul by lia. lia. }
    destruct (vectors_restored C HC E Hst) as (file & E' & HP' & HL & Hget).
    cbn [vend_BuildEncoding vend_EncodePersistent vend_LoadEncode BitHashVend_ops vector_ops].
    rewrite HB. bind_step. exists (Vectors E), {| lines := file; in_lines := [] |}, (Vectors E'). split; [done|]. cbn [on_vectors].
    rewrite HP'. bind_step. split; [done|]. cbn [file_lines lines]. rewrite HL. bind_step. split; [done|]. exists E'. split; [done|].
    destruct Hinv as (HE & HM). split.
    + intros v Hv. rewrite Hget. case_decide; [by apply HE|by apply default_vectors_ok].
    + intros a d q Ha Ed Hq. rewrite Hget, decide_True in Ed by lia. by apply HM.
  - intros k M s g db u v (E & -> & Hinv) Hu Hv. destruct (BitHash_insert C HP HV' E _ u v Hinv Hu Hv) as (E' & HE & Hinv').
    cbn [vend_Insert BitHashVend_ops vector_ops on_vectors]. rewrite HE. bind_step. exists (Vectors E'). split; [done|]. by exists E'.
  - intros k M s adj g db u v (E & -> & Hinv) Hg [Hl _ Hdb] Hu Hv Hne _.
    destruct (BitHash_delete C HP HV' E _ db u v Hinv Hu Hv) as (E' & HE & Hinv').
    cbn [vend_Delete BitHashVend_ops vector_ops on_vectors]. rewrite HE. bind_step. rewrite Hl. exists (Vectors E'). split; [done|]. exists E'. split; [done|].
    eapply bithash_same; [|exact Hinv'].
    assert (1 <= (ordered_pair u v).1 <= V) as Ha by (unfold ordered_pair; destruct (v <? u); cbn; lia).
    apply redone_forget; [done..|by apply Hdb].
  - intros k k' M M' s s' u v (E & -> & Hinv) (E' & -> & Hinv') HM Hu Hv. cbn [vend_Determine BitHashVend_ops vector_ops on_vectors].
    destruct (BitHash_test C HP HV' E _ u v Hinv Hu Hv) as (a & Ea & _ & Hnn & Ha).
    destruct (BitHash_test C HP HV' E' _ u v Hinv' Hu Hv) as (a' & Ea' & _ & Hnn' & Ha').
    assert (a = a') as <-.
    { assert (a = Uncertain <-> a' = Uncertain) as Haa; [|destruct a, a'; naive_solver].
      rewrite Ha, Ha'. unfold hit. cbn [same_edges] in HM. by setoid_rewrite HM. }
    exists a. split; [done|]. split; [done|]. split; [done|]. intros Hin. by apply Ha, hit_stored.
Qed.
End laws.

(** The objects of the factory. *)
Lemma make_vend_exact C heap key unordered std_sort k t adj :
  vend_config C -> update_fits C k t adj ->
  exists ops, make_vend C heap key unordered std_sort false t = Some ops /\ ExactLaws C t ops.
Proof.
  intros HC Hfit. unfold make_vend. destruct t; try done; cbn [GetEncode mbind option_bind VendClass_ops];
    eexists; (split; [done|]); by apply int_exact || apply blocked_exact || apply plain_exact || apply hash_exact.
Qed.
