(* ===== verification/Updates.v ===== *)
(** Updates of a graph: the insertions and deletions of [Graph::AddEdge] and
    [Graph::RemoveEdge] ([src/include/graph/graph.h]) through the interface of
    [Vends], and the runs that make them ([src/include/execution/]).

    The abstract state is the list of the edges that the encoding stores, and an
    update changes it as [Exact] says of the type. The simulation says that the
    program ends every list of updates, and then answers every pair as if the data
    file had the edges of the abstract state. The database that a deletion reads
    is the one of the graph: the program does not change it in a run of updates. *)
From S2P Require Import Prelude Config BitSet Encode BFilter DeltaEncode KCore DegreeOrder HashEncodes Db Graph VendFactory PairList Vends Execution Exact.
From stdpp Require Import options.
Local Open Scope Z_scope.
Set Default Proof Using "Type*".

(** * The abstract graph *)

Inductive Update := Ins (u v : Z) | Del (u v : Z).

(** What an update makes of the edges [M] that a type stores, where the database
    holds [base]. *)
Definition after (t : VendType) (base M : list (Z * Z)) (op : Update) : list (Z * Z) :=
  match op with Ins u v => ordered_pair u v :: M | Del u v => forget t base M (ordered_pair u v) end.

Definition replay (t : VendType) (base : list (Z * Z)) (ops : list Update) (M : list (Z * Z)) : list (Z * Z) :=
  foldl (after t base) M ops.

(** The counting filter may only delete what it stores. *)
Definition may (C : Config) (t : VendType) (M : list (Z * Z)) (op : Update) : Prop :=
  match op with
  | Ins u v => ids_in_graph C (u, v)
  | Del u v => ids_in_graph C (u, v) /\ u <> v /\ (t = BloomFilterInt -> ordered_pair u v ∈ M)
  end.

Fixpoint allowed (C : Config) (t : VendType) (base M : list (Z * Z)) (ops : list Update) : Prop :=
  match ops with
  | [] => True
  | op :: ops => may C t M op /\ allowed C t base (after t base M op) ops
  end.

Definition is_insert (op : Update) : bool := match op with Ins _ _ => true | Del _ _ => false end.
Definition inserts (ops : list Update) : nat := length (filter (fun op => is_insert op = true) ops).

(** The same updates of the program's graph. *)
Definition Graph_apply {T : Type} {St : Store T} (op : Update) (g : GraphState (T := T)) : option (GraphState (T := T)) :=
  match op with Ins u v => Graph_AddEdge g u v | Del u v => Graph_RemoveEdge g u v end.

(** ** The lists of the runs *)

Definition ordered (p : Z * Z) : Z * Z := ordered_pair p.1 p.2.
Definition ins (p : Z * Z) : Update := Ins p.1 p.2.
Definition del (p : Z * Z) : Update := Del p.1 p.2.

(** Pairs that can be edges. *)
Definition loopless (C : Config) (p : Z * Z) : Prop := ids_in_graph C p /\ p.1 <> p.2.

(** The edges of a data file. *)
Definition file_pairs (file : list (option (Z * Z))) : list (Z * Z) := map ordered (file_edges file).

(** The edges of the file that are left when [removed] were deleted one after the
    other: the counting filter forgets them all, the bits of a vertex only the
    last one of that vertex, and the Bloom filters none. *)
Definition remaining (t : VendType) (base removed : list (Z * Z)) : list (Z * Z) :=
  match t with
  | BloomFilterInt => filter (fun e => e ∉ removed) base
  | HashBit => filter (fun e => last (filter (fun r => r.1 = e.1) removed) <> Some e) base
  | _ => base
  end.

(** * What the program answers *)

Section answers.
Context (C : Config) (GetVend : bool -> VendType -> option VendOps) {T : Type} {St : Store T}.
Notation V := (VERTEX_SIZE C).

(** A session: the run that stores the data file, the one that builds the
    encoding, and the graph of a run of updates. *)
Definition session (db0 db1 : T) (t : VendType) (file : list (option (Z * Z))) (db : T) (saved : VendFile) (g : GraphState (T := T)) : Prop :=
  BuildExecution_Execute C GetVend false NoVend (Some file) 0 (Some db0) None = Some (Some db, None) /\
  BuildExecution_Execute C GetVend false t (Some file) 0 (Some db1) None = Some (Some db1, Some saved) /\
  Graph_Init C GetVend false t None 0 (Some db) (Some saved) = Some (g, Some saved).

(** All tests are defined, none is a certain neighbor, and no edge of [M] is
    denied. *)
Definition stores (M : list (Z * Z)) (g : GraphState (T := T)) : Prop :=
  forall u v, 1 <= u <= V -> 1 <= v <= V ->
    exists a, Graph_GetEdge g u v = Some a /\ a <> Neighbor /\ (ordered_pair u v ∈ M -> a = Uncertain).

(** Every pair is answered as in a session for a data file with the edges [M],
    whatever the file. *)
Definition acts_as (t : VendType) (M : list (Z * Z)) (g : GraphState (T := T)) : Prop :=
  forall (file : list (option (Z * Z))) (db0 db1 : T), simple_file C file -> same_edges t (file_pairs file) M ->
    (forall k, store_Get db0 k = None /\ store_Get db1 k = None) ->
    exists db saved g', session db0 db1 t file db saved g' /\
      forall u v, 1 <= u <= V -> 1 <= v <= V -> Graph_GetEdge g u v = Graph_GetEdge g' u v.

Definition shows (t : VendType) (M : list (Z * Z)) (g : GraphState (T := T)) : Prop := stores M g /\ acts_as t M g.
End answers.

(** * Proofs: the simulation *)

Section simulation.
Context (C : Config) {T : Type} {St : Store T} {SL : StoreLaws T} (t : VendType) (ops : VendOps) (laws : ExactLaws C t ops).
Context (adj : list (list Z)) (Hg : source_graph C adj) (base : list (Z * Z)) (Hbase : forall e, e ∈ forward_edges adj (VERTEX_SIZE C) <-> e ∈ base).

(** The graph stores the edges [M] and its database holds [adj]. *)
Definition simulates (k : nat) (M : list (Z * Z)) (g : GraphState (T := T)) : Prop :=
  exists s, g_vend g = Some (ops, s) /\ stored C t k M s /\ g_lists g = adj /\
    current C adj (vend_graph (Some (g_lists g)) (g_in_lists g) (g_db g)) (db_get (g_db g)).

Lemma simulate_insert k M g u v :
  simulates (S k) M g -> ids_in_graph C (u, v) ->
  exists g', Graph_AddEdge g u v = Some g' /\ simulates k (ordered_pair u v :: M) g'.
Proof using laws.
  intros (s & Es & HR & El & Hcur) [Hu Hv]. cbn [fst snd] in *.
  destruct (exact_insert (ExactLaws := laws) k M s (vend_graph (Some (g_lists g)) (g_in_lists g) (g_db g)) (db_get (g_db g)) u v HR Hu Hv)
    as (s' & E & HR'). unfold Graph_AddEdge, Graph_update. rewrite Es. bind_step. rewrite E. bind_step.
  eexists. split; [done|]. by exists s'.
Qed.

Lemma simulate_delete k M g u v :
  simulates k M g -> may C t M (Del u v) ->
  exists g', Graph_RemoveEdge g u v = Some g' /\ simulates k (forget t base M (ordered_pair u v)) g'.
Proof using Hbase Hg laws.
  intros (s & Es & HR & El & Hcur) ([Hu Hv] & Hne & Hin). cbn [fst snd] in *.
  destruct (exact_delete (ExactLaws := laws) k M s adj _ _ u v HR Hg Hcur Hu Hv Hne Hin) as (s' & E & HR').
  unfold Graph_RemoveEdge, Graph_update. rewrite Es. bind_step. rewrite E. bind_step. cbn [default from_option].
  eexists. split; [done|]. exists s'. split; [done|]. split.
  - by rewrite <- (forget_same t (forward_edges adj (VERTEX_SIZE C)) base M M _ Hin Hbase).
  - split; [done|]. cbn [g_lists g_in_lists g_db]. unfold id. by rewrite <- El at 2.
Qed.

Lemma simulate_run updates k M g :
  allowed C t base M updates -> simulates (inserts updates + k) M g ->
  exists g', foldM Graph_apply updates g = Some g' /\ simulates k (replay t base updates M) g'.
Proof.
  revert M g. induction updates as [|op updates IH]; intros M g Hall Hsim; [by exists g|]. destruct Hall as [Hmay Hall].
  unfold inserts in Hsim. cbn [foldM]. destruct op as [u v|u v]; cbn [Graph_apply after] in *.
  - rewrite filter_cons_True in Hsim by done. destruct (simulate_insert _ M g u v Hsim Hmay) as (g1 & -> & H1). by apply (IH _ g1 Hall).
  - rewrite filter_cons_False in Hsim by done. destruct (simulate_delete _ M g u v Hsim Hmay) as (g1 & -> & H1). by apply (IH _ g1 Hall).
Qed.

Lemma simulates_same k M M' g : same_edges t M M' -> simulates k M g -> simulates k M' g.
Proof using Type. intros HM (s & Es & HR & H). exists s. split; [done|]. by rewrite <- HM. Qed.

Lemma simulates_stores k M g : simulates k M g -> stores C M g.
Proof using laws.
  intros (s & Es & HR & _) u v Hu Hv. unfold Graph_GetEdge. rewrite Es. bind_step.
  destruct (exact_test (ExactLaws := laws) k k M M s s u v HR HR ltac:(done) Hu Hv) as (a & Ea & _ & H). by exists a.
Qed.
End simulation.

(** ** The lists of the runs *)

Lemma elem_remove_one e x M : NoDup M -> x ∈ remove_one e M <-> x ∈ M /\ x <> e.
Proof.
  induction 1 as [|y M Hy HM IH]; cbn [remove_one]; [rewrite elem_of_nil; tauto|].
  case_decide as Hye; rewrite !elem_of_cons; [subst y; split; [|tauto]|rewrite IH; split; [|tauto]].
  - intros Hx. split; [by right|]. by intros ->.
  - intros [->|[Hx Hne]]; tauto.
Qed.

Lemma remove_one_nodup e M : NoDup M -> NoDup (remove_one e M).
Proof.
  induction 1 as [|y M Hy HM IH]; cbn [remove_one]; [constructor|]. case_decide as Hye; [done|]. constructor; [|done].
  rewrite elem_remove_one by done. tauto.
Qed.

Lemma remaining_snoc t base removed e x :
  t <> BloomFilterInt -> x ∈ forget t base (remaining t base removed) e <-> x ∈ remaining t base (removed ++ [e]).
Proof.
  intros Ht. destruct t; try done; cbn [forget remaining]. rewrite elem_of_app, !list_elem_of_filter, filter_app.
  destruct (decide (e.1 = x.1)) as [He|He].
  - rewrite (filter_cons_True _ e) by done. cbn [filter list_filter]. rewrite last_snoc. split; [naive_solver|].
    intros [Hne Hx]. right. split; [|done]. split; [done|]. congruence.
  - rewrite (filter_cons_False _ e) by done. cbn [filter list_filter]. rewrite app_nil_r. naive_solver.
Qed.

Lemma remaining_nil t base : remaining t base [] = base.
Proof.
  destruct t; cbn [remaining]; try done; (induction base as [|e base IH]; [done|]); rewrite filter_cons_True; [by rewrite IH| |by rewrite IH|done].
  apply not_elem_of_nil.
Qed.

Section run_lists.
Context (C : Config) (t : VendType) (base : list (Z * Z)).

Lemma replay_ins pairs M : replay t base (map ins pairs) M ≡ₚ map ordered pairs ++ M.
Proof using Type.
  revert M. induction pairs as [|p pairs IH]; intros M; [done|]. change (replay t base (map ins pairs) (ordered p :: M) ≡ₚ map ordered (p :: pairs) ++ M).
  rewrite IH. symmetry. apply Permutation_middle.
Qed.

Lemma allowed_ins pairs M : Forall (ids_in_graph C) pairs -> allowed C t base M (map ins pairs).
Proof using Type. intros Hp. revert M. induction Hp as [|[u v] pairs H _ IH]; intros M; [done|]. split; [done|apply IH]. Qed.

(** Deletions of different edges of the database. *)
Lemma replay_del pre pairs :
  NoDup base -> Forall (loopless C) pairs -> NoDup (pre ++ map ordered pairs) -> (forall e, e ∈ map ordered pairs -> e ∈ base) ->
  forall M, same_edges t M (remaining t base pre) ->
  allowed C t base M (map del pairs) /\ same_edges t (replay t base (map del pairs) M) (remaining t base (pre ++ map ordered pairs)).
Proof using Type.
  intros Hbase Hp. revert pre. induction Hp as [|[u v] pairs [Hids Hne] Hp IH]; intros pre Hnd Hin M HM; cbn [map allowed].
  - by rewrite app_nil_r.
  - cbn [map] in Hnd, Hin. change (ordered (u, v)) with (ordered_pair u v) in *. set (e := ordered_pair u v) in *.
    assert (e ∉ pre) as Hpre by (apply NoDup_app in Hnd as (_ & Hd & _); intros H; by apply (Hd e H); left).
    assert (t = BloomFilterInt -> e ∈ M) as HeM.
    { intros ->. rewrite (same_elem _ _ _ e HM). cbn [remaining]. apply list_elem_of_filter. split; [done|]. apply Hin. by left. }
    rewrite cons_middle, app_assoc in Hnd |- *. destruct (IH (pre ++ [e]) Hnd) with (M := forget t base M e) as [Ha Hr].
    + intros x Hx. apply Hin. by right.
    + rewrite (forget_same t base base M _ e HeM ltac:(done) HM). destruct (decide (t = BloomFilterInt)) as [->|Ht].
      * cbn [forget remaining same_edges]. apply NoDup_Permutation; [by apply remove_one_nodup, NoDup_filter|by apply NoDup_filter|].
        intros x. rewrite elem_remove_one by (by apply NoDup_filter). rewrite !list_elem_of_filter, elem_of_app, list_elem_of_singleton. tauto.
      * assert (forall M M', (forall x, x ∈ M <-> x ∈ M') -> same_edges t M M') as Hs by (by destruct t).
        apply Hs. intros x. by apply remaining_snoc.
    + split; [|done]. split; [|done]. by split.
Qed.

(** Deletions, each followed by the insertion of the same edge of the database. *)
Lemma replay_both pairs :
  Forall (loopless C) pairs -> (forall e, e ∈ map ordered pairs -> e ∈ base) ->
  forall M, same_edges t M base ->
  allowed C t base M (flat_map (fun p => [del p; ins p]) pairs) /\
  same_edges t (replay t base (flat_map (fun p => [del p; ins p]) pairs) M) base.
Proof using Type.
  intros Hp. induction Hp as [|[u v] pairs [Hids Hne] Hp IH]; intros Hin M HM; [done|]. cbn [flat_map app allowed map] in *.
  change (ordered (u, v)) with (ordered_pair u v) in *. set (e := ordered_pair u v) in *.
  assert (e ∈ base) as Heb by (apply Hin; by left). pose proof (proj2 (same_elem _ _ _ e HM) Heb) as HeM.
  destruct (IH ltac:(intros x Hx; apply Hin; by right) (e :: forget t base M e)) as [Ha Hr].
  - destruct t; cbn [forget same_edges] in *; [by rewrite <- (remove_one_perm e M HeM)|..];
      intros x; rewrite !elem_of_cons, ?elem_of_app, ?list_elem_of_filter, ?HM; destruct (decide (x = e)) as [->|];
      try destruct (decide (x.1 = e.1)); naive_solver.
  - split; [|done]. split; [by split|]. split; [done|]. done.
Qed.
End run_lists.

Lemma inserts_ins pairs : inserts (map ins pairs) = length pairs.
Proof. unfold inserts. induction pairs as [|p pairs IH]; [done|]. cbn [map]. rewrite filter_cons_True by done. cbn [length]. by rewrite IH. Qed.

Lemma inserts_del pairs : inserts (map del pairs) = 0%nat.
Proof. unfold inserts. induction pairs as [|p pairs IH]; [done|]. cbn [map]. by rewrite filter_cons_False by done. Qed.

Lemma inserts_both pairs : inserts (flat_map (fun p => [del p; ins p]) pairs) = length pairs.
Proof.
  unfold inserts. induction pairs as [|p pairs IH]; [done|]. cbn [flat_map app].
  rewrite filter_cons_False, filter_cons_True by done. cbn [length]. by rewrite IH.
Qed.


(** * From the data file to a graph that can be updated *)

Section start.
Context (C : Config) (HC : vend_config C) {T : Type} {St : Store T} {SL : StoreLaws T}.
Context (GetVend : bool -> VendType -> option VendOps) (t : VendType).
Notation V := (VERTEX_SIZE C).

Lemma small_ids : 1 <= V < 2 ^ 28.
Proof using HC. pose proof (vc_V C HC). lia. Qed.

Lemma file_pairs_perm file adj :
  simple_file C file -> lists_of_file C file adj -> forward_edges adj V ≡ₚ file_pairs file.
Proof using HC.
  intros Hf Hl. pose proof (source_of_file C small_ids file adj Hf Hl) as Hg. destruct Hl as (_ & _ & Hel).
  apply NoDup_Permutation; [by apply forward_edges_nodup|apply (simple_nodup _ _ Hf)|]. intros [a b]. unfold file_pairs, ordered.
  rewrite elem_forward_edges. change (default [] (zget adj a)) with (neighbors adj a). split.
  - intros (Ha & Hab & Hb%(Hel a b Ha)). apply joined_pair in Hb. unfold ordered_pair at 1 in Hb.
    by rewrite (proj2 (Z.ltb_ge b a)) in Hb by lia.
  - intros Hin. assert (1 <= a <= V /\ a < b) as [Ha Hab].
    { apply list_elem_of_fmap in Hin as ([u v] & Heq & Hin). destruct (simple_ids _ _ Hf u v Hin) as (Hu & Hv & Hne).
      destruct (ordered_cases u v Hne) as (a' & b' & E & Hab & Hcase). cbn [fst snd] in Heq. rewrite E in Heq. injection Heq as -> ->. lia. }
    split; [done|]. split; [done|]. apply Hel; [done|]. apply joined_pair. unfold ordered_pair at 1. by rewrite (proj2 (Z.ltb_ge b a)) by lia.
Qed.

(** The database of the first run is the graph that an update sees. *)
Lemma current_start file adj in_adj db :
  simple_file C file -> lists_of_file C file adj -> holds adj (V + 1) db ->
  current C adj (vend_graph (Some adj) in_adj db) (db_get db).
Proof.
  intros Hf (Hg & _) Hh. pose proof (vc_V C HC) as HV. split; [done| |].
  - destruct (scan_ok C ltac:(lia) adj db Hg Hh) as (rows & E & Hrows). unfold vend_graph. cbn [data_db_].
    rewrite E. exact Hrows.
  - intros v Hv. pose proof (graph_size _ _ _ Hg) as Hlen. destruct (zget_is_Some adj v) as [N EN]; [lia|].
    unfold db_get, neighbors. rewrite EN. cbn [default from_option]. unfold id.
    rewrite (proj1 (holds_Get C ltac:(lia) adj (V + 1) db v N [] Hh ltac:(lia) ltac:(lia) EN (graph_lists _ _ _ Hg v N Hv EN))).
    by destruct N.
Qed.

(** The file of an encoding that stores the edges of a data file and has room
    for [k] more. *)
Definition updatable (k : nat) (saved : VendFile) (file : list (option (Z * Z))) : Prop :=
  exists ops s, GetVend false t = Some ops /\ ExactLaws C t ops /\ vend_LoadEncode ops (Some saved) = Some s /\
    stored C t k (file_pairs file) s.

(** The program's graph stores the edges [M]; its database those of the file. *)
Definition mirrors (k : nat) (file : list (option (Z * Z))) (M : list (Z * Z)) (g : GraphState (T := T)) : Prop :=
  exists ops adj, GetVend false t = Some ops /\ ExactLaws C t ops /\ lists_of_file C file adj /\ simulates C t ops adj k M g.

(** A build run on an empty database. *)
Lemma update_build ops k file (db : T) :
  t <> NoVend -> GetVend false t = Some ops -> ExactLaws C t ops ->
  simple_file C file -> (forall adj, lists_of_file C file adj -> update_fits C k t adj) -> (forall k, store_Get db k = None) ->
  exists saved,
    BuildExecution_Execute C GetVend false t (Some file) 0 (Some db) None = Some (Some db, Some saved) /\ updatable k saved file.
Proof.
  intros Ht HG laws Hf Hfit Hdb. pose proof small_ids as HV. destruct (LoadData_ok C HV file Hf) as (adj & EL & Hl).
  destruct (exact_loaded (ExactLaws := laws) k adj (vend_graph (Some adj) [] db) (source_of_file C HV file adj Hf Hl) (Hfit adj Hl) (or_introl eq_refl))
    as (s & saved & s' & HB & HP & HS & HR).
  exists saved. split.
  - unfold BuildExecution_Execute, Graph_Init, Graph_open. rewrite Z.eqb_refl. bind_step. rewrite (LoadDataFromDb_empty C HV db Hdb).
    bind_step. rewrite (bool_decide_eq_false_2 (t = NoVend)) by done. rewrite (LoadData_resized C HV), EL, HG. bind_step. cbn [fst snd].
    unfold Graph_BuildEncode. rewrite HB. bind_step. rewrite HP. bind_step. done.
  - exists ops, s'. by rewrite <- (perm_same t _ _ (file_pairs_perm file adj Hf Hl)).
Qed.

(** The initialisation of the graph of an update run, on the database of the
    file. *)
Lemma update_init k saved file adj (db : T) :
  t <> NoVend -> updatable k saved file -> simple_file C file -> lists_of_file C file adj ->
  holds adj (V + 1) db -> Graph_LoadDataFromDb C [] db = Some adj ->
  exists g, Graph_Init C GetVend false t None 0 (Some db) (Some saved) = Some (g, Some saved) /\ mirrors k file (file_pairs file) g.
Proof.
  intros Ht (ops & s & HG & laws & HS & HR) Hf Hl Hh HL. eexists. split.
  - unfold Graph_Init, Graph_open. rewrite Z.eqb_refl. bind_step. rewrite HL. bind_step.
    rewrite (bool_decide_eq_false_2 (t = NoVend)) by done. rewrite HG. bind_step. rewrite HS. bind_step. done.
  - exists ops, adj. split; [done|]. split; [done|]. split; [done|]. exists s. split; [done|]. split; [done|]. split; [done|].
    cbn [g_lists g_in_lists g_db]. by apply (current_start file adj [] db).
Qed.

Lemma mirrors_run k file g updates :
  simple_file C file -> mirrors (inserts updates + k) file (file_pairs file) g -> allowed C t (file_pairs file) (file_pairs file) updates ->
  exists g', foldM Graph_apply updates g = Some g' /\ mirrors k file (replay t (file_pairs file) updates (file_pairs file)) g'.
Proof.
  intros Hf (ops & adj & HG & laws & Hl & Hsim) Hall.
  destruct (simulate_run C t ops laws adj (source_of_file C small_ids file adj Hf Hl) (file_pairs file)) with (updates := updates) (k := k)
    (M := file_pairs file) (g := g) as (g' & E & Hsim'); [|done..|].
  - intros e. by rewrite (file_pairs_perm file adj Hf Hl).
  - exists g'. split; [done|]. by exists ops, adj.
Qed.

Lemma mirrors_same k file M M' g : same_edges t M M' -> mirrors k file M g -> mirrors k file M' g.
Proof using Type.
  intros HM (ops & adj & HG & laws & Hl & Hsim). exists ops, adj. split; [done|]. split; [done|]. split; [done|]. by eapply simulates_same.
Qed.
End start.

(** * Sessions *)

Section sessions.
Context (C : Config) (HC : vend_config C) {T : Type} {St : Store T} {SL : StoreLaws T}.
Context (heap : Z -> Z) (key : Z) (unordered : gset Z -> list Z) (std_sort : (Z -> Z) -> list Z -> list Z) (t : VendType).
Notation GetVend := (make_vend C heap key unordered std_sort).

Lemma session_starts (db0 db1 : T) file k :
  simple_file C file -> (forall adj, lists_of_file C file adj -> update_fits C k t adj) ->
  (forall key, store_Get db0 key = None /\ store_Get db1 key = None) ->
  exists db saved g, session C GetVend db0 db1 t file db saved g /\ mirrors C GetVend t k file (file_pairs file) g.
Proof.
  intros Hfile Hfit Hdb. pose proof (small_ids C HC) as HV.
  destruct (build_database_holds C HV GetVend file db0 Hfile ltac:(apply Hdb)) as (adj & db & E0 & EL & Hl & Hh).
  pose proof (Hfit adj Hl) as Hf. assert (t <> NoVend) as Hne by (intros ->; exact Hf).
  destruct (make_vend_exact C heap key unordered std_sort _ _ adj HC Hf) as (ops & HG & laws).
  destruct (update_build C HC GetVend t ops k file db1 Hne HG laws Hfile Hfit ltac:(apply Hdb)) as (saved & E1 & Hup).
  destruct (update_init C HC GetVend t k saved file adj db Hne Hup Hfile Hl Hh EL) as (g & EI & Hfol).
  by exists db, saved, g.
Qed.

(** What is stored fits. *)
Lemma stored_fits k M s file adj :
  stored C t k M s -> same_edges t (file_pairs file) M -> simple_file C file -> lists_of_file C file adj -> update_fits C 0 t adj.
Proof.
  intros HM Hsame Hf Hl. destruct (decide (t = BloomFilterInt)) as [->|Hne]; [|by destruct t; try destruct HM].
  destruct HM as (d & _ & _ & Hroom). cbn [update_fits same_edges] in *.
  rewrite (file_pairs_perm C HC file adj Hf Hl), Hsame. destruct (int_sizes C HC). nia.
Qed.

(** Two graphs with the same edges give the same answers. *)
Lemma mirrors_shows k file M g : mirrors C GetVend t k file M g -> shows C GetVend t M g.
Proof.
  intros (ops & adj & HG & laws & Hl & Hsim). split; [by apply (simulates_stores C t ops laws adj k)|].
  destruct Hsim as (s & Es & HR & _). intros file' db0 db1 Hf' Hsame Hdb.
  destruct (session_starts db0 db1 file' 0 Hf') as (db & saved & g' & Hs & ops' & adj' & HG' & _ & _ & s' & Es' & HR' & _); [|done|].
  { intros adj' Hl'. by eapply stored_fits. }
  exists db, saved, g'. split; [done|]. intros u v Hu Hv. unfold Graph_GetEdge. rewrite Es, Es'. bind_step.
  rewrite HG in HG'. injection HG' as <-. symmetry in Hsame.
  by destruct (exact_test (ExactLaws := laws) k 0 M (file_pairs file') s s' u v HR HR' Hsame Hu Hv) as (a & -> & -> & _).
Qed.
End sessions.

(** The loops of the runs are the updates of their lists. *)
Lemma fold_updates {A T : Type} {St : Store T} (f : A -> list Update) (step : A -> GraphState (T := T) -> option (GraphState (T := T))) l g :
  (forall p g, step p g = foldM Graph_apply (f p) g) -> foldM step l g = foldM Graph_apply (flat_map f l) g.
Proof.
  intros Hstep. revert g. induction l as [|p l IH]; intros g; [done|]. cbn [flat_map]. rewrite foldM_app. cbn [foldM]. rewrite Hstep.
  destruct (foldM Graph_apply (f p) g) as [g'|]; [exact (IH g')|done].
Qed.

Lemma flat_map_single {A B} (f : A -> B) l : flat_map (fun x => [f x]) l = map f l.
Proof. induction l as [|x l IH]; [done|]. cbn. by rewrite IH. Qed.

Lemma InsertExecution_fold {T : Type} {St : Store T} pairs (g : GraphState (T := T)) :
  InsertExecution_Execute Graph_AddEdge pairs g = foldM Graph_apply (map ins pairs) g.
Proof. rewrite <- flat_map_single. apply fold_updates. intros p g'. cbn. by destruct (Graph_AddEdge g' _ _). Qed.

(** The edges of a file can be deleted. *)
Lemma edge_pairs C file pairs :
  simple_file C file -> Forall (fun p => joined (file_edges file) p.1 p.2) pairs ->
  Forall (loopless C) pairs /\ (forall e, e ∈ map ordered pairs -> e ∈ file_pairs file).
Proof.
  intros Hf Hp. split.
  - eapply Forall_impl; [exact Hp|]. intros [u v] [H|H]; apply (simple_ids _ _ Hf) in H; cbn in *; split; cbn; [split; cbn; lia|lia|split; cbn; lia|lia].
  - intros e ([u v] & -> & Hin)%list_elem_of_fmap. apply joined_pair. by apply (proj1 (Forall_forall _ _) Hp).
Qed.

Lemma treated_sublist vend_type pairs : treated vend_type pairs `sublist_of` pairs.
Proof. unfold treated. case_bool_decide; [apply sublist_take|done]. Qed.

Lemma treated_edges {A} (f : Z * Z -> A) (P : Z * Z -> Prop) vend_type pairs :
  (Forall P pairs -> Forall P (treated vend_type pairs)) /\ (NoDup (map f pairs) -> NoDup (map f (treated vend_type pairs))).
Proof.
  split; intros H; [unfold treated; case_bool_decide; [by apply Forall_take|done]|].
  unfold treated. case_bool_decide; [|done]. rewrite <- (take_drop 9 pairs), map_app in H. by apply NoDup_app in H as [H _].
Qed.

(** ** The runs on the graph of a session *)

Section runs.
Context (C : Config) (HC : vend_config C) {T : Type} {St : Store T} {SL : StoreLaws T}.
Context (GetVend : bool -> VendType -> option VendOps) (t : VendType) (k : nat) (file : list (option (Z * Z))) (g : GraphState (T := T)).
Context (Hfile : simple_file C file) (Hg : mirrors C GetVend t k file (file_pairs file) g).
Notation base := (file_pairs file).
Notation run_ends updates M g' := (foldM Graph_apply updates g = Some g' /\ mirrors C GetVend t 0 file M g').

Lemma run_updates updates :
  (inserts updates <= k)%nat -> allowed C t base base updates -> exists g', run_ends updates (replay t base updates base) g'.
Proof.
  intros Hk Hall. destruct (mirrors_run C HC GetVend t (k - inserts updates) file g updates Hfile) as (g' & E & ops & adj & HG & laws & Hl & s & Es & HR & H);
    [by replace (inserts updates + (k - inserts updates))%nat with k by lia|done|].
  exists g'. split; [exact E|]. exists ops, adj. split; [done|]. split; [done|]. split; [done|]. exists s. split; [done|]. split; [|done].
  apply (stored_less C t (k - inserts updates)); [lia| |done]. apply (int_sizes C HC).
Qed.

Lemma run_insert added :
  Forall (ids_in_graph C) added -> (length added <= k)%nat ->
  exists g', InsertExecution_Execute Graph_AddEdge added g = Some g' /\ mirrors C GetVend t 0 file (map ordered added ++ base) g'.
Proof.
  intros Hids Hk. rewrite InsertExecution_fold. destruct (run_updates (map ins added)) as (g' & E & Hm);
    [by rewrite inserts_ins|by apply allowed_ins|]. exists g'. split; [done|]. eapply mirrors_same; [|exact Hm]. by apply perm_same, replay_ins.
Qed.

Lemma run_delete removed :
  Z.of_nat (length removed) < 2 ^ 31 - 1 -> NoDup (map ordered removed) -> Forall (fun p => joined (file_edges file) p.1 p.2) removed ->
  exists g', DeleteExecution_Execute Graph_RemoveEdge t removed g = Some (g', batch_of t removed) /\
    mirrors C GetVend t 0 file (remaining t base (map ordered (treated t removed))) g'.
Proof.
  intros Hlen Hdiff Hed. apply (proj1 (treated_edges ordered _ t _)) in Hed. apply (proj2 (treated_edges ordered (fun _ => True) t _)) in Hdiff.
  destruct (edge_pairs C file _ Hfile Hed) as [Hl Hs].
  destruct (replay_del C t base [] (treated t removed) (simple_nodup _ _ Hfile) Hl Hdiff Hs base) as [Ha Hr]; [by rewrite remaining_nil|].
  destruct (run_updates (map del (treated t removed))) as (g' & E & Hm); [rewrite inserts_del; lia|done|].
  exists g'. split; [|by eapply mirrors_same]. unfold DeleteExecution_Execute. rewrite DeleteExecution_loop_pairs by done.
  by rewrite (fold_updates (fun p => [del p])), flat_map_single, E by (intros p h; cbn; by destruct (Graph_RemoveEdge h _ _)).
Qed.

Lemma run_both again :
  Z.of_nat (length again) < 2 ^ 31 - 1 -> (length again <= k)%nat -> Forall (fun p => joined (file_edges file) p.1 p.2) again ->
  exists g', InsertDeleteExecution_Execute Graph_AddEdge Graph_RemoveEdge t again g = Some (g', batch_of t again) /\ mirrors C GetVend t 0 file base g'.
Proof.
  intros Hlen Hk Hed. apply (proj1 (treated_edges ordered _ t _)) in Hed. destruct (edge_pairs C file _ Hfile Hed) as [Hl Hs].
  destruct (replay_both C t base (treated t again) Hl Hs base ltac:(done)) as [Ha Hr].
  destruct (run_updates (flat_map (fun p => [del p; ins p]) (treated t again))) as (g' & E & Hm);
    [rewrite inserts_both; pose proof (sublist_length _ _ (treated_sublist t again)); lia|done|].
  exists g'. split; [|by eapply mirrors_same]. unfold InsertDeleteExecution_Execute. rewrite DeleteExecution_loop_pairs by done.
  erewrite fold_updates, E; [done|].
  intros p h. cbn. destruct (Graph_RemoveEdge h _ _); [cbn; by destruct (Graph_AddEdge _ _ _)|done].
Qed.
End runs.

(** * Properties *)

(** C3: a graph under updates, for the four types whose encodings take them: the
    counting filter of integers, the plain and the blocked Bloom filter and the
    bits of the larger neighbors. After a build run for the data file, every list
    of insertions and deletions of pairs of vertices, in which the counting filter
    deletes only what it stores and its counters have room for what is inserted
    ([update_fits]), comes to its end in the program. The graph then
    shows the edges that [replay] computes: all tests are defined, no pair is
    answered as a certain neighbor, none of these edges is denied, and every pair
    is answered as in a session for any data file with these edges. An insertion
    adds its pair. A deletion takes it away from the counting filter; it resets a
    Bloom filter to the edges of the file, which forgets the insertions and keeps
    the deleted edge; and it resets the bits of the smaller end to the edges of the
    file but the deleted one. *)
Theorem Updates_refine (C : Config) (heap : Z -> Z) (key : Z) (unordered : gset Z -> list Z)
    (std_sort : (Z -> Z) -> list Z -> list Z) {T : Type} {St : Store T} {SL : StoreLaws T} (db0 db1 : T)
    (vend_type : VendType) (file : list (option (Z * Z))) (updates : list Update)
    (HC : vend_config C) (Hfile : simple_file C file)
    (Hfit : forall adj, lists_of_file C file adj -> update_fits C (inserts updates) vend_type adj)
    (Hdb : forall k, store_Get db0 k = None /\ store_Get db1 k = None)
    (Hall : allowed C vend_type (file_pairs file) (file_pairs file) updates) :
  let GetVend := make_vend C heap key unordered std_sort in
  exists db saved g g',
    session C GetVend db0 db1 vend_type file db saved g /\ foldM Graph_apply updates g = Some g' /\
    shows C GetVend vend_type (replay vend_type (file_pairs file) updates (file_pairs file)) g'.
Proof.
  intros GetVend. destruct (session_starts C HC heap key unordered std_sort vend_type db0 db1 file _ Hfile Hfit Hdb) as (db & saved & g & Hs & Hg).
  destruct (run_updates C HC GetVend vend_type _ file g Hfile Hg updates (le_n _) Hall) as (g' & E & Hg').
  exists db, saved, g, g'. split; [done|]. split; [done|]. by eapply mirrors_shows.
Qed.

(** C6: the runs that update, for the four types whose encodings take updates, on
    the graph of a data file, where the counters of the counting filter have room
    ([update_fits]). The run that inserts pairs of vertices ends and shows
    the edges of the file with the pairs. The run that deletes different edges of
    the file ends, has treated all of them, or the first nine for the Bloom filter,
    and shows what is [remaining] of the file: the counting filter lost all that
    were treated, the bits of a vertex the last one of that vertex, the Bloom
    filters none. The run that deletes and inserts again each pair of a list of
    edges of the file shows the edges of the file, whatever is repeated in the
    list. *)
Theorem Update_runs (C : Config) (heap : Z -> Z) (key : Z) (unordered : gset Z -> list Z)
    (std_sort : (Z -> Z) -> list Z -> list Z) {T : Type} {St : Store T} {SL : StoreLaws T} (db0 db1 : T)
    (vend_type : VendType) (file : list (option (Z * Z))) (added removed again : list (Z * Z))
    (HC : vend_config C) (Hfile : simple_file C file)
    (Hfit : forall adj, lists_of_file C file adj -> update_fits C (length added + length again) vend_type adj)
    (Hdb : forall k, store_Get db0 k = None /\ store_Get db1 k = None)
    (Hlen : Z.of_nat (length removed + length again) < 2 ^ 31 - 1)
    (Hids : Forall (ids_in_graph C) added)
    (Hdiff : NoDup (map ordered removed))
    (Hedges : Forall (fun p => joined (file_edges file) p.1 p.2) (removed ++ again)) :
  let GetVend := make_vend C heap key unordered std_sort in
  exists db saved g gi gd ga,
    session C GetVend db0 db1 vend_type file db saved g /\
    InsertExecution_Execute Graph_AddEdge added g = Some gi /\
    shows C GetVend vend_type (map ordered added ++ file_pairs file) gi /\
    DeleteExecution_Execute Graph_RemoveEdge vend_type removed g = Some (gd, batch_of vend_type removed) /\
    shows C GetVend vend_type (remaining vend_type (file_pairs file) (map ordered (treated vend_type removed))) gd /\
    InsertDeleteExecution_Execute Graph_AddEdge Graph_RemoveEdge vend_type again g = Some (ga, batch_of vend_type again) /\
    shows C GetVend vend_type (file_pairs file) ga.
Proof.
  intros GetVend. destruct (session_starts C HC heap key unordered std_sort vend_type db0 db1 file _ Hfile Hfit Hdb) as (db & saved & g & Hs & Hg).
  apply Forall_app in Hedges as [Hrem Hag].
  destruct (run_insert C HC GetVend vend_type _ file g Hfile Hg added Hids ltac:(lia)) as (gi & Ei & Hi).
  destruct (run_delete C HC GetVend vend_type _ file g Hfile Hg removed ltac:(lia) Hdiff Hrem) as (gd & Ed & Hd).
  destruct (run_both C HC GetVend vend_type _ file g Hfile Hg again ltac:(lia) ltac:(lia) Hag) as (ga & Ea & Ha).
  exists db, saved, g, gi, gd, ga. repeat (split; [by eapply mirrors_shows || done|]). by eapply mirrors_shows.
Qed.

(** * Witnesses *)

Notation no_rows := (∅ : gmap (list Z) (list Z)).
Notation small_vend := (make_vend small_config (fun _ => 0) 0 elements sort_by).

Lemma no_rows_empty (k : list Z) : store_Get no_rows k = None /\ store_Get no_rows k = None.
Proof. split; apply lookup_empty. Qed.

Lemma half_file_simple : simple_file small_config (half_file 7).
Proof. apply simple_check_ok. vm_compute. reflexivity. Qed.

Definition updated_types : list VendType := [BloomFilterInt; BBloomFilter; HashBit; BloomFilterBit].

Lemma half_file_updates k t adj :
  (k <= 4)%nat -> t ∈ updated_types -> lists_of_file small_config (half_file 7) adj -> update_fits small_config k t adj.
Proof.
  intros Hk Ht Hadj. assert (1 <= VERTEX_SIZE small_config < 2 ^ 28) as HV by (vm_compute; split; [discriminate|reflexivity]).
  destruct (LoadData_ok small_config HV _ half_file_simple) as (adj1 & E & Hadj1).
  rewrite (lists_unique small_config HV _ adj adj1 Hadj Hadj1). vm_compute in E. injection E as <-.
  repeat (apply elem_of_cons in Ht as [-> |Ht]; [first [exact I|cbn [update_fits]]|]); [|by apply elem_of_nil in Ht].
  match goal with |- ?h * Z.of_nat (?n + k) < _ => let h' := eval vm_compute in h in let n' := eval vm_compute in n in change h with h'; change n with n' end.
  lia.
Qed.

Lemma Updates_refine_witness :
  exists (db : gmap (list Z) (list Z)) saved g g',
    session small_config small_vend no_rows no_rows HashBit (half_file 7) db saved g /\
    foldM Graph_apply [Ins 1 2; Del 5 3; Ins 20 3; Del 7 1] g = Some g' /\
    shows small_config small_vend HashBit
      (replay HashBit (file_pairs (half_file 7)) [Ins 1 2; Del 5 3; Ins 20 3; Del 7 1] (file_pairs (half_file 7))) g'.
Proof.
  apply (Updates_refine small_config (fun _ => 0) 0 elements sort_by no_rows no_rows HashBit (half_file 7) [Ins 1 2; Del 5 3; Ins 20 3; Del 7 1]).
  - apply small_vend_config.
  - apply half_file_simple.
  - done.
  - apply no_rows_empty.
  - vm_compute. repeat split; discriminate.
Defined.

(** What these updates make of the file: the second deletion forgets the edge that
    was inserted first, the first one only edges of the vertex 3. *)
Example replay_forgets :
  let base := file_pairs (half_file 7) in
  let M := replay HashBit base [Ins 1 2; Del 5 3; Ins 20 3; Del 7 1] base in
  bool_decide ((1, 2) ∈ M) = false /\ bool_decide ((3, 20) ∈ M) = true /\ filter (fun e => e ∉ M) base = [(1, 7); (3, 5)].
Proof. vm_compute. done. Qed.

Lemma Update_runs_witness :
  exists (db : gmap (list Z) (list Z)) saved g gi gd ga,
    session small_config small_vend no_rows no_rows BloomFilterInt (half_file 7) db saved g /\
    InsertExecution_Execute Graph_AddEdge [(1, 2); (20, 3)] g = Some gi /\
    shows small_config small_vend BloomFilterInt (map ordered [(1, 2); (20, 3)] ++ file_pairs (half_file 7)) gi /\
    DeleteExecution_Execute Graph_RemoveEdge BloomFilterInt [(1, 7); (5, 3)] g = Some (gd, batch_of BloomFilterInt [(1, 7); (5, 3)]) /\
    shows small_config small_vend BloomFilterInt
      (remaining BloomFilterInt (file_pairs (half_file 7)) (map ordered (treated BloomFilterInt [(1, 7); (5, 3)]))) gd /\
    InsertDeleteExecution_Execute Graph_AddEdge Graph_RemoveEdge BloomFilterInt [(7, 2); (2, 7)] g = Some (ga, batch_of BloomFilterInt [(7, 2); (2, 7)]) /\
    shows small_config small_vend BloomFilterInt (file_pairs (half_file 7)) ga.
Proof.
  apply (Update_runs small_config (fun _ => 0) 0 elements sort_by no_rows no_rows BloomFilterInt (half_file 7)
    [(1, 2); (20, 3)] [(1, 7); (5, 3)] [(7, 2); (2, 7)]).
  - apply small_vend_config.
  - apply half_file_simple.
  - intros adj. apply (half_file_updates 4); [lia|left].
  - apply no_rows_empty.
  - reflexivity.
  - repeat constructor; vm_compute; discriminate.
  - apply (bool_decide_unpack _). vm_compute. exact I.
  - apply (bool_decide_unpack _). vm_compute. exact I.
Defined.

(** * Behaviours worth knowing *)

(** The deletion from a Bloom filter builds the filter again from the database,
    which no insertion has reached: an edge that was inserted is denied. *)
Example delete_forgets_insert :
  (r ← BuildExecution_Execute small_config small_vend false NoVend (Some (half_file 7)) 0 (Some no_rows) None;
   b ← BuildExecution_Execute small_config small_vend false BloomFilterBit (Some (half_file 7)) 0 (Some no_rows) None;
   '(g, _) ← Graph_Init small_config small_vend false BloomFilterBit None 0 r.1 b.2;
   g1 ← foldM Graph_apply [Ins 20 19] g;
   g2 ← foldM Graph_apply [Ins 20 19; Del 1 7] g;
   Some (Graph_GetEdge g 20 19, Graph_GetEdge g1 20 19, Graph_GetEdge g2 20 19)) =
  Some (Some NonNeighbor, Some Uncertain, Some NonNeighbor).
Proof. vm_compute. reflexivity. Qed.

(** The SIMD encodings take an insertion and do nothing with it. *)
Example simd_insert_denied :
  (r ← BuildExecution_Execute small_config small_vend false NoVend (Some (half_file 7)) 0 (Some no_rows) None;
   b ← BuildExecution_Execute small_config small_vend false SIMDDeltaV2 (Some (half_file 7)) 0 (Some no_rows) None;
   '(g, _) ← Graph_Init small_config small_vend false SIMDDeltaV2 None 0 r.1 b.2;
   g1 ← foldM Graph_apply [Ins 20 19] g;
   Some (Graph_GetEdge g 20 19, Graph_GetEdge g1 20 19)) = Some (Some NonNeighbor, Some NonNeighbor).
Proof. vm_compute. reflexivity. Qed.

(** The pairs to delete are drawn at random, edges or not: after the deletion of
    one that is no edge an edge of the file is denied. *)
Example delete_no_edge :
  (r ← BuildExecution_Execute small_config small_vend false NoVend (Some (half_file 7)) 0 (Some no_rows) None;
   b ← BuildExecution_Execute small_config small_vend false BloomFilterInt (Some (half_file 7)) 0 (Some no_rows) None;
   '(g, _) ← Graph_Init small_config small_vend false BloomFilterInt None 0 r.1 b.2;
   pairs ← DeleteExecution_CreateList [(8, 13)] 1 [];
   '(g, _) ← DeleteExecution_Execute Graph_RemoveEdge BloomFilterInt pairs g;
   Some (filter (fun p => Graph_GetEdge g p.1 p.2 = Some NonNeighbor) (file_edges (half_file 7)))) = Some [(4, 5)].
Proof. vm_compute. reflexivity. Qed.
