(* ===== verification/LargeGraph.v ===== *)
(** The graph without lists in memory: [LargeGraph::Init]
    ([src/graph/large_graph.cpp]) builds and loads an encoding for the database
    alone, by the types that [VendFactory::GetEncode] knows for a large graph; the
    updates are those of [Graph] ([src/include/graph/graph.h]).

    The types that read the rows of the database as they are keep the promise of
    [Exact] also here. The builders by degrees do not advance the id when they
    read the database ([RangeBuild.database_denied]). *)
From S2P Require Import Prelude Config BitSet Encode BFilter DeltaEncode KCore DegreeOrder HashEncodes Db Graph VendFactory PairList Vends Execution Exact Updates.
From stdpp Require Import options.
Local Open Scope Z_scope.
Set Default Proof Using "Type*".

(** * Updates without lists *)

Section large.
Context {T : Type} {St : Store T} (graph_db_ : T).

Definition LargeGraph_GetEdge (g : VendOps * VendState) (vertex1 vertex2 : Z) : option PairType :=
  vend_Determine g.1 g.2 vertex1 vertex2.

Definition LargeGraph_AddEdge (g : VendOps * VendState) (vertex1 vertex2 : Z) : option (VendOps * VendState) :=
  encodes_ ← vend_Insert g.1 (vend_graph None [] graph_db_) (db_get graph_db_) g.2 vertex1 vertex2; Some (g.1, encodes_).

Definition LargeGraph_RemoveEdge (g : VendOps * VendState) (vertex1 vertex2 : Z) : option (VendOps * VendState) :=
  '(encodes_, _) ← vend_Delete g.1 (vend_graph None [] graph_db_) (db_get graph_db_) g.2 vertex1 vertex2; Some (g.1, encodes_).
End large.

(** * Proofs *)

Lemma make_vend_large_exact C heap key unordered std_sort k t adj :
  vend_config C -> update_fits C k t adj ->
  exists ops, make_vend C heap key unordered std_sort false t = Some ops /\
    make_vend_large C heap key unordered std_sort t = Some ops /\ ExactLaws C t ops.
Proof.
  intros HC Hfit. destruct (make_vend_exact C heap key unordered std_sort k t adj HC Hfit) as (ops & HG & laws). exists ops.
  split; [done|]. split; [|done]. unfold make_vend in HG. by destruct t; try done.
Qed.

Section start.
Context (C : Config) (HC : vend_config C) {T : Type} {St : Store T} {SL : StoreLaws T}.
Context (t : VendType) (ops : VendOps) (laws : ExactLaws C t ops).

(** The database of a data file shows its graph. *)
Lemma database_sees file adj db :
  lists_of_file C file adj -> holds adj (VERTEX_SIZE C + 1) db -> sees C adj (vend_graph None [] db).
Proof using HC SL.
  intros (Hg & _) Hh. pose proof (vc_V C HC) as HV. right. split; [done|].
  destruct (scan_ok C ltac:(lia) adj db Hg Hh) as (rows & E & Hrows). unfold vend_graph. cbn [data_db_]. rewrite E. split; [exact Hrows|].
  exact (scan_nodup C ltac:(lia) adj db rows Hg Hh E).
Qed.

(** An initialisation that builds and one that loads. *)
Lemma large_start GetVend_large k file adj (db : T) :
  t <> NoVend -> GetVend_large t = Some ops -> update_fits C k t adj ->
  simple_file C file -> lists_of_file C file adj -> holds adj (VERTEX_SIZE C + 1) db ->
  exists saved s s',
    LargeGraph_Init GetVend_large t true (Some db) None = Some (Some (ops, s), Some saved) /\
    (forall has_data, LargeGraph_Init GetVend_large t has_data (Some db) (Some saved) = Some (Some (ops, s'), Some saved)) /\
    stored C t k (file_pairs file) s'.
Proof.
  intros Ht HG Hfit Hf Hl Hh. pose proof (vc_V C HC) as HV.
  destruct (exact_loaded (ExactLaws := laws) k adj _ (source_of_file C ltac:(lia) file adj Hf Hl) Hfit (database_sees file adj db Hl Hh))
    as (s & saved & s' & HB & HP & HS & HR).
  exists saved, s, s'. rewrite (perm_same t _ _ (file_pairs_perm C HC file adj Hf Hl)) in HR. split; [|split; [|done]].
  - unfold LargeGraph_Init. rewrite (bool_decide_eq_false_2 (t = NoVend)), HG by done. bind_step. cbn [andb]. bind_step.
    unfold Graph_BuildEncode. rewrite HB. bind_step. rewrite HP. bind_step. done.
  - intros has_data. unfold LargeGraph_Init. rewrite (bool_decide_eq_false_2 (t = NoVend)), HG by done. bind_step.
    rewrite (bool_decide_eq_false_2 (Some saved = None)) by done. cbn [andb]. rewrite HS. bind_step. done.
Qed.

Lemma large_inserts (db : T) added k M s :
  Forall (ids_in_graph C) added -> stored C t (length added + k) M s ->
  exists s', InsertExecution_Execute (LargeGraph_AddEdge db) added (ops, s) = Some (ops, s') /\ stored C t k (map ordered added ++ M) s'.
Proof.
  intros Hp. revert M s. induction Hp as [|[u v] added [Hu Hv] Hp IH]; intros M s HR; [by exists s|]. cbn [length Nat.add fst snd] in *.
  destruct (exact_insert (ExactLaws := laws) _ M s (vend_graph None [] db) (db_get db) u v HR Hu Hv) as (s1 & E1 & HR1).
  destruct (IH _ s1 HR1) as (s' & E' & HR'). exists s'. split.
  - assert (LargeGraph_AddEdge db (ops, s) u v = Some (ops, s1)) as EA by (unfold LargeGraph_AddEdge; cbn [fst snd]; by rewrite E1).
    unfold InsertExecution_Execute in *. cbn [foldM fst snd]. rewrite EA. exact E'.
  - eapply stored_same; [|done|exact HR']. apply perm_same, (Permutation_middle (map ordered added)).
Qed.
End start.

(** * Properties *)

(** C5: a graph without lists, for the four types whose encodings take updates and
    read the rows of the database as they are: the counting filter of integers, the
    plain and the blocked Bloom filter and the bits of the larger neighbors. After
    a run that stores the data file, an initialisation builds the encoding from the
    rows of the database, in whatever order they are, and saves it; a later one
    loads it; and after any insertions of pairs of vertices, for which the counters of
    the counting filter have room ([update_fits]), every test is defined,
    none is a certain neighbor, no edge of the file and no inserted pair is denied,
    and every pair is answered as by the graph with lists after the same
    insertions. *)
Theorem LargeGraph_refine (C : Config) (heap : Z -> Z) (key : Z) (unordered : gset Z -> list Z)
    (std_sort : (Z -> Z) -> list Z -> list Z) {T : Type} {St : Store T} {SL : StoreLaws T} (db0 : T)
    (vend_type : VendType) (file : list (option (Z * Z))) (added : list (Z * Z))
    (HC : vend_config C) (Hfile : simple_file C file)
    (Hfit : forall adj, lists_of_file C file adj -> update_fits C (length added) vend_type adj)
    (Hdb : forall k, store_Get db0 k = None) (Hids : Forall (ids_in_graph C) added) :
  let GetVend := make_vend C heap key unordered std_sort in
  let GetVend_large := make_vend_large C heap key unordered std_sort in
  exists db saved g g1 g2,
    BuildExecution_Execute C GetVend false NoVend (Some file) 0 (Some db0) None = Some (Some db, None) /\
    LargeGraph_Init GetVend_large vend_type true (Some db) None = Some (Some g, Some saved) /\
    (forall has_data, LargeGraph_Init GetVend_large vend_type has_data (Some db) (Some saved) = Some (Some g1, Some saved)) /\
    InsertExecution_Execute (LargeGraph_AddEdge db) added g1 = Some g2 /\
    exists saved' h h', session C GetVend db0 db0 vend_type file db saved' h /\ InsertExecution_Execute Graph_AddEdge added h = Some h' /\
      forall u v, 1 <= u <= VERTEX_SIZE C -> 1 <= v <= VERTEX_SIZE C ->
        exists t, LargeGraph_GetEdge g2 u v = Some t /\ Graph_GetEdge h' u v = Some t /\ t <> Neighbor /\
          (joined (file_edges file) u v \/ ordered_pair u v ∈ map ordered added -> t = Uncertain).
Proof.
  intros GetVend GetVend_large. pose proof (small_ids C HC) as HV.
  destruct (session_starts C HC heap key unordered std_sort vend_type db0 db0 file _ Hfile Hfit) as (db & saved' & h & Hs & Hm); [done|].
  destruct (build_database_holds C HV GetVend file db0 Hfile Hdb) as (adj & db' & E0 & EL & Hl & Hh).
  pose proof (eq_trans (eq_sym (E0 None)) (proj1 Hs)) as E0'. injection E0' as ->.
  pose proof (Hfit adj Hl) as Hf. assert (vend_type <> NoVend) as Hne by (intros ->; exact Hf).
  destruct (make_vend_large_exact C heap key unordered std_sort _ _ adj HC Hf) as (ops & HG & HGL & laws).
  destruct (large_start C HC vend_type ops laws GetVend_large _ file adj db Hne HGL Hf Hfile Hl Hh) as (saved & s & s1 & E1 & E2 & HR).
  rewrite <- (Nat.add_0_r (length added)) in HR.
  destruct (large_inserts C HC vend_type ops laws db added 0 _ s1 Hids HR) as (s2 & E3 & HR2).
  destruct (run_insert C HC GetVend vend_type _ file h Hfile Hm added Hids ltac:(lia)) as (h' & E4 & ops' & adj' & HG' & _ & _ & s3 & Es3 & HR3 & _).
  subst GetVend. rewrite HG in HG'. injection HG' as <-.
  exists db, saved, (ops, s), (ops, s1), (ops, s2). split; [done|]. split; [done|]. split; [done|]. split; [done|].
  exists saved', h, h'. split; [done|]. split; [done|]. intros u v Hu Hv.
  destruct (exact_test (ExactLaws := laws) 0 0 _ _ s2 s3 u v HR2 HR3 ltac:(done) Hu Hv) as (a & Ea & Ea' & Hn & Hin).
  exists a. split; [done|]. split; [unfold Graph_GetEdge; rewrite Es3; exact Ea'|]. split; [done|]. intros Hj. apply Hin, elem_of_app.
  destruct Hj as [Hj%joined_pair|Hj]; [by right|by left].
Qed.

(** * Witnesses *)

Lemma LargeGraph_refine_witness :
  exists (db : gmap (list Z) (list Z)) saved g g1 g2,
    BuildExecution_Execute small_config small_vend false NoVend (Some (half_file 7)) 0 (Some no_rows) None = Some (Some db, None) /\
    LargeGraph_Init (make_vend_large small_config (fun _ => 0) 0 elements sort_by) BBloomFilter true (Some db) None = Some (Some g, Some saved) /\
    (forall has_data, LargeGraph_Init (make_vend_large small_config (fun _ => 0) 0 elements sort_by) BBloomFilter has_data (Some db) (Some saved)
       = Some (Some g1, Some saved)) /\
    InsertExecution_Execute (LargeGraph_AddEdge db) [(20, 3)] g1 = Some g2 /\
    exists saved' h h', session small_config small_vend no_rows no_rows BBloomFilter (half_file 7) db saved' h /\
      InsertExecution_Execute Graph_AddEdge [(20, 3)] h = Some h' /\
      forall u v, 1 <= u <= 20 -> 1 <= v <= 20 ->
        exists t, LargeGraph_GetEdge g2 u v = Some t /\ Graph_GetEdge h' u v = Some t /\ t <> Neighbor /\
          (joined (file_edges (half_file 7)) u v \/ ordered_pair u v ∈ map ordered [(20, 3)] -> t = Uncertain).
Proof.
  apply (LargeGraph_refine small_config (fun _ => 0) 0 elements sort_by no_rows BBloomFilter (half_file 7) [(20, 3)]).
  - apply small_vend_config.
  - apply half_file_simple.
  - done.
  - intros k. apply lookup_empty.
  - repeat constructor; vm_compute; discriminate.
Defined.

(** * Behaviours worth knowing *)

(** The deletion from a Bloom filter reads the lists, which a large graph does
    not have: a null pointer. *)
Example large_delete_null :
  (r ← BuildExecution_Execute small_config small_vend false NoVend (Some (half_file 7)) 0 (Some no_rows) None;
   db ← r.1;
   '(g, _) ← LargeGraph_Init (make_vend_large small_config (fun _ => 0) 0 elements sort_by) BloomFilterBit true (Some db) None;
   g ← g; Some (LargeGraph_GetEdge g 1 7, bool_decide (is_Some (LargeGraph_RemoveEdge db g 1 7)))) = Some (Some Uncertain, false).
Proof. vm_compute. reflexivity. Qed.
