(* ===== verification/Measure.v ===== *)
(** What is measured: [Timer] ([src/include/util/timer.h]), which the updates and
    the queries start and stop, the memory of the process ([src/include/util/utils.h])
    and [VendMemory] ([src/include/execution/memory_test.h]).

    The readings of the clock are arguments, in nanoseconds; the status file of
    the process is its characters. The counters of the standard library are of 64
    bits with a sign. *)
From S2P Require Import Prelude Config BitSet Encode Db PairList VendFactory Vends Execution Text.
From stdpp Require Import strings options.
Local Open Scope Z_scope.
Set Default Proof Using "Type*".

(** * Timer *)

Inductive TimerStatus := on | off.
#[export] Instance TimerStatus_dec : EqDecision TimerStatus.
Proof. solve_decision. Defined.

Record Timer := { status : TimerStatus; time_start_ : Z; time_cost_ms_ : Z }.

Definition Timer_new (time_start_ : Z) : Timer := {| status := off; time_start_ := time_start_; time_cost_ms_ := 0 |}.

(** A signed number of 64 bits; the arithmetic that leaves them is undefined. *)
Definition s64_ok (x : Z) : bool := (- 2 ^ 63 <=? x) && (x <? 2 ^ 63).

Definition StartTimer (now : Z) (t : Timer) : option Timer :=
  _ ← guardb (bool_decide (status t = off));
  Some {| status := on; time_start_ := now; time_cost_ms_ := time_cost_ms_ t |}.

Definition StopTimer (time_end : Z) (t : Timer) : option Timer :=
  _ ← guardb (bool_decide (status t = on));
  let cost := time_end - time_start_ t in
  _ ← guardb (s64_ok cost && s64_ok (time_cost_ms_ t + cost));
  Some {| status := off; time_start_ := time_start_ t; time_cost_ms_ := time_cost_ms_ t + cost |}.

(** The nanoseconds, before they are made a [double]. *)
Definition CountTime (t : Timer) : Z := time_cost_ms_ t.

Definition ResetTime (t : Timer) : Timer := {| status := status t; time_start_ := time_start_ t; time_cost_ms_ := 0 |}.

(** [AddEdge] and [RemoveEdge] as they are written, with their timer; the clock
    is read before and after. *)
Definition timed {E : Type} (step : E -> Z -> Z -> option E) (now1 now2 : Z) (vertex1 vertex2 : Z) (st : E * Timer) : option (E * Timer) :=
  timer ← StartTimer now1 st.2;
  e ← step st.1 vertex1 vertex2;
  timer ← StopTimer now2 timer;
  Some (e, timer).

(** A run over its pairs, with the readings of each. *)
Definition timed_run {E : Type} (step : E -> Z -> Z -> option E) (pairs : list (Z * Z * (Z * Z))) (st : E * Timer) : option (E * Timer) :=
  foldM (fun p st => timed step p.2.1 p.2.2 p.1.1 p.1.2 st) pairs st.

(** * Memory *)

(** The characters of a literal. *)
Definition VmRSS : list Z := [86; 109; 82; 83; 83; 58].
Definition kB : list Z := [32; 107; 66].

(** The loop to the first digit; it runs over the end of a string without one. *)
Fixpoint first_digit (line : list Z) (p : Z) : option Z :=
  match line with c :: line => if is_digit c then Some p else first_digit line (p + 1) | [] => None end.

(** [atoi] of a string that starts with no white space and no sign. *)
Definition atoi (s : list Z) : option Z :=
  let v := read_digits s 0 in
  _ ← guardb (v <? 2 ^ 31); Some v.

Definition parseLine (line : list Z) : option Z :=
  let i := Z.of_nat (length line) in
  p ← first_digit line 0;
  line ← zset line (i - 3) 0;
  atoi (c_str (drop (Z.to_nat p) line)).

(** [strncmp(line, "VmRSS:", 6) == 0]. *)
Definition is_VmRSS (line : list Z) : bool := bool_decide (take 6 line = VmRSS).

(** The loop of [getMemory], [char line[128]]; a line takes a character. *)
Fixpoint getMemory_loop (fuel : nat) (text : list Z) (result : Z) : option Z :=
  match text with
  | [] => Some result
  | _ =>
      match fuel with
      | O => None
      | S fuel =>
          let '(line, rest) := fgets 127 text in
          let line := c_str line in
          if is_VmRSS line then parseLine line else getMemory_loop fuel rest result
      end
  end.
Definition getMemory (text : list Z) : option Z := getMemory_loop (length text) text (-1).

(** [VendMemory]: the path of the encoding, and what is printed: the name of the
    type and the memory, after the object is made, if there is one for the
    type. *)
Record VendMemory := { vend_ : option VendClass; vend_type_ : VendType; encode_path_ : String.string }.

Definition VendMemory_new (vend_type : VendType) (vend_prefix : String.string) : VendMemory :=
  {| vend_ := None; vend_type_ := vend_type; encode_path_ := GetVendPath vend_prefix vend_type |}.

Definition VendMemory_Execute (m : VendMemory) (text : list Z) : option (VendMemory * (String.string * Z)) :=
  let vend := GetEncode_large (vend_type_ m) (vend_ m) in
  memory ← getMemory text;
  Some ({| vend_ := vend; vend_type_ := vend_type_ m; encode_path_ := encode_path_ m |}, (VEND_STRING (vend_type_ m), memory)).

(** * Proofs: the timer *)

Definition readings_cost (pairs : list (Z * Z * (Z * Z))) : Z := foldr (fun p s => p.2.2 - p.2.1 + s) 0 pairs.

(** A clock that does not go back. *)
Definition steady (p : Z * Z * (Z * Z)) : Prop := 0 <= p.2.1 <= p.2.2.

Lemma readings_cost_nonneg pairs : Forall steady pairs -> 0 <= readings_cost pairs.
Proof. intros Hp. unfold readings_cost. induction Hp as [|p pairs Hp _ IH]; cbn [foldr]; [done|]. unfold steady in Hp. lia. Qed.

Lemma s64_ok_small x : 0 <= x < 2 ^ 63 -> s64_ok x = true.
Proof. intros Hx. unfold s64_ok. by rewrite (proj2 (Z.leb_le _ _)), (proj2 (Z.ltb_lt _ _)) by lia. Qed.

Lemma timed_step {E : Type} (step : E -> Z -> Z -> option E) now1 now2 u v e t :
  status t = off -> 0 <= now1 <= now2 -> 0 <= time_cost_ms_ t -> time_cost_ms_ t + (now2 - now1) < 2 ^ 63 ->
  timed step now1 now2 u v (e, t) =
    (e ← step e u v; Some (e, {| status := off; time_start_ := now1; time_cost_ms_ := time_cost_ms_ t + (now2 - now1) |})).
Proof.
  intros Hoff Hnow Hcost Hmax. unfold timed, StartTimer. cbn [fst snd]. rewrite (bool_decide_eq_true_2 (status t = off)) by done.
  cbn [guardb]. bind_step. bind_step. destruct (step e u v) as [e1|]; [|done]. bind_step. unfold StopTimer. cbn [status time_start_ time_cost_ms_].
  rewrite (bool_decide_eq_true_2 (on = on)) by done. rewrite !s64_ok_small by lia. done.
Qed.

Lemma timed_run_ok {E : Type} (step : E -> Z -> Z -> option E) pairs e t :
  Forall steady pairs -> status t = off -> 0 <= time_cost_ms_ t -> time_cost_ms_ t + readings_cost pairs < 2 ^ 63 ->
  (timed_run step pairs (e, t) = None <-> foldM (fun p e => step e p.1.1 p.1.2) pairs e = None) /\
  forall e' t', timed_run step pairs (e, t) = Some (e', t') ->
    foldM (fun p e => step e p.1.1 p.1.2) pairs e = Some e' /\ status t' = off /\ CountTime t' = CountTime t + readings_cost pairs.
Proof.
  intros Hp. revert e t. induction Hp as [|p pairs Hp Hps IH]; intros e t Hoff Hcost Hmax; unfold timed_run in *; cbn [foldM readings_cost foldr] in *.
  { split; [done|]. intros e' t' [= <- <-]. split; [done|]. split; [done|]. lia. }
  pose proof (readings_cost_nonneg pairs Hps) as Hnn. unfold steady in Hp. unfold readings_cost in Hnn.
  rewrite (timed_step step p.2.1 p.2.2 p.1.1 p.1.2 e t Hoff) by lia.
  destruct (step e p.1.1 p.1.2) as [e1|]; [|split; done]. cbn [mbind option_bind].
  destruct (IH e1 {| status := off; time_start_ := p.2.1; time_cost_ms_ := time_cost_ms_ t + (p.2.2 - p.2.1) |}) as [H1 H2];
    cbn [status time_cost_ms_]; [done|lia|unfold readings_cost; lia|].
  split; [exact H1|]. intros e' t' ER. destruct (H2 e' t' ER) as (F & Ho & Hc). split; [done|]. split; [done|].
  rewrite Hc. unfold CountTime, readings_cost. cbn [time_cost_ms_]. lia.
Qed.

(** * Proofs: memory *)

(** The other lines of the file. *)
Definition status_line (line : list Z) : Prop := Z.of_nat (length line) < 127 /\ 0 ∉ line /\ 10 ∉ line /\ take 6 (line ++ [10]) <> VmRSS.

Lemma first_digit_app pad s p : Forall (fun c => is_digit c = false) pad -> first_digit (pad ++ s) p = first_digit s (p + Z.of_nat (length pad)).
Proof.
  intros Hp. revert p. induction Hp as [|c pad Hc _ IH]; intros p; [by rewrite Z.add_0_r|]. cbn [app first_digit]. rewrite Hc, IH. f_equal.
  cbn [length]. lia.
Qed.

Lemma parse_memory pad n :
  Forall (fun c => is_digit c = false) pad -> 0 <= n < 2 ^ 31 ->
  parseLine (pad ++ to_string n ++ kB ++ [10]) = Some n.
Proof.
  intros Hpad Hn. assert (u32_ok n) as Hu by (unfold u32_ok; lia). unfold parseLine. rewrite first_digit_app by done.
  destruct (skip_spaces_app [] n (kB ++ [10]) ltac:(constructor) Hu) as (c & s & E & Hd & _).
  assert (first_digit (to_string n ++ kB ++ [10]) (0 + Z.of_nat (length pad)) = Some (Z.of_nat (length pad))) as ->
    by (rewrite E; cbn [app first_digit]; by rewrite Hd). bind_step.
  set (line := pad ++ to_string n ++ kB ++ [10]). set (q := pad ++ to_string n ++ [32]).
  assert (line = q ++ 107 :: [66; 10]) as -> by (unfold line, q, kB; by rewrite <- !app_assoc).
  assert (Z.of_nat (length (q ++ 107 :: [66; 10])) - 3 = Z.of_nat (length q)) as -> by (rewrite length_app; cbn [length]; lia).
  rewrite zset_Some by (rewrite length_app; cbn [length]; lia). bind_step. rewrite (Nat2Z.id (length q)).
  rewrite <- (Nat.add_0_r (length q)), insert_app_r. cbn [insert list_insert].
  unfold q. rewrite Nat2Z.id, <- !app_assoc, drop_app_length.
  assert (c_str (to_string n ++ [32] ++ [0; 66; 10]) = to_string n ++ [32]) as ->.
  { destruct (digits_plain n Hu) as [_ H0]. clear -H0. induction (to_string n) as [|x l IH]; [done|]. apply not_elem_of_cons in H0 as [Hx H0].
    cbn [app c_str] in *. rewrite (proj2 (Z.eqb_neq x 0)) by done. by rewrite IH. }
  unfold atoi. destruct (to_string_read n [32] Hu eq_refl) as [-> _]. by rewrite (proj2 (Z.ltb_lt n (2 ^ 31))) by lia.
Qed.

Lemma getMemory_skip before rest fuel r :
  Forall status_line before -> (length (unlines before) <= fuel)%nat ->
  exists fuel', getMemory_loop fuel (unlines before ++ rest) r = getMemory_loop fuel' rest r /\ (fuel <= fuel' + length (unlines before))%nat.
Proof.
  intros Hb. revert fuel. induction Hb as [|line before (Hlen & H0 & H10 & Hno) _ IH]; intros fuel Hf; [by exists fuel; split; [|lia]|].
  unfold unlines in *. cbn [flat_map] in *. rewrite !length_app in *. cbn [length] in *. destruct fuel as [|fuel]; [lia|].
  destruct (IH fuel ltac:(lia)) as (fuel' & E & Hf'). exists fuel'. split; [|lia]. rewrite <- E, <- !app_assoc. cbn [app].
  assert (exists c t, line ++ 10 :: flat_map (fun l => l ++ [10]) before ++ rest = c :: t) as (c & t & Et) by (destruct line; by do 2 eexists).
  rewrite Et. cbn [getMemory_loop]. rewrite <- Et, fgets_line by (done || lia).
  rewrite c_str_plain by (rewrite elem_of_app, list_elem_of_singleton; intros [?|?]; done).
  unfold is_VmRSS. by rewrite bool_decide_eq_false_2.
Qed.

(** * Properties *)

(** C40: leaving the times out changes nothing. On a clock that does not go back,
    a run of updates with its timer ends exactly when the run without ends, with
    the same encoding; the assertions of the timer hold all the time, it is off
    at the end, and counts the sum of the spans. *)
Theorem timed_run_equiv {E : Type} (step : E -> Z -> Z -> option E) (pairs : list (Z * Z * (Z * Z))) (e : E) (start : Z)
    (Hclock : Forall steady pairs) (Hmax : readings_cost pairs < 2 ^ 63) :
  timed_run step pairs (e, Timer_new start) = None /\ InsertExecution_Execute step (map fst pairs) e = None \/
  exists e' t, timed_run step pairs (e, Timer_new start) = Some (e', t) /\ InsertExecution_Execute step (map fst pairs) e = Some e' /\
    status t = off /\ CountTime t = readings_cost pairs.
Proof.
  assert (forall e, InsertExecution_Execute step (map fst pairs) e = foldM (fun p e => step e p.1.1 p.1.2) pairs e) as HI.
  { unfold InsertExecution_Execute. clear. induction pairs as [|p pairs IH]; intros e; [done|]. cbn [map foldM].
    destruct (step e p.1.1 p.1.2); [apply IH|done]. }
  rewrite HI. destruct (timed_run_ok step pairs e (Timer_new start) Hclock eq_refl ltac:(done) ltac:(done)) as [Hnone Hsome].
  destruct (timed_run step pairs (e, Timer_new start)) as [[e' t]|]; [|left; tauto]. right.
  destruct (Hsome e' t eq_refl) as (F & Hs & Hc). by exists e', t.
Qed.

(** [getMemory] reads the kilobytes that the status file of the process names:
    of any file whose lines fit the buffer, with the line of the memory in it. *)
Theorem getMemory_reads (before after : list (list Z)) (pad : list Z) (n : Z)
    (Hbefore : Forall status_line before) (Hpad : Forall (fun c => is_digit c = false /\ c <> 0 /\ c <> 10) pad)
    (Hlen : Z.of_nat (length pad) < 100) (Hn : 0 <= n < 2 ^ 31) :
  getMemory (unlines (before ++ (VmRSS ++ pad ++ to_string n ++ kB) :: after)) = Some n.
Proof.
  set (line := VmRSS ++ pad ++ to_string n ++ kB). unfold getMemory, unlines. rewrite flat_map_app. cbn [flat_map].
  change (flat_map (fun l => l ++ [10]) before) with (unlines before). set (rest := flat_map _ after).
  assert (u32_ok n) as Hu by (unfold u32_ok; lia). pose proof (digits_plain n Hu) as [Hd10 Hd0].
  assert (10 ∉ line /\ 0 ∉ line) as [H10 H0].
  { assert (10 ∉ VmRSS /\ 0 ∉ VmRSS /\ 10 ∉ kB /\ 0 ∉ kB) as (H1 & H2 & H3 & H4) by (apply (bool_decide_unpack _); vm_compute; exact I).
    rewrite Forall_forall in Hpad. unfold line. rewrite !elem_of_app.
    split; (intros [H|[H|[H|H]]]; [done|by apply Hpad in H as (_ & ? & ?)|done|done]). }
  assert (length (to_string n) <= 10)%nat as Hdig by (by apply to_string_length).
  destruct (getMemory_skip before ((line ++ [10]) ++ rest) (length (unlines before ++ (line ++ [10]) ++ rest)) (-1) Hbefore)
    as (fuel & -> & Hf); [rewrite length_app; lia|].
  rewrite !length_app in Hf. cbn [length] in Hf. destruct fuel as [|fuel]; [lia|].
  rewrite <- app_assoc. cbn [app]. assert (exists c t, line ++ 10 :: rest = c :: t) as (c & t & Et) by (by do 2 eexists).
  rewrite Et. cbn [getMemory_loop]. rewrite <- Et. rewrite fgets_line;
    [|done|unfold line; rewrite !length_app; unfold VmRSS, kB; cbn [length]; lia].
  rewrite c_str_plain by (rewrite elem_of_app, list_elem_of_singleton; intros [?|?]; done).
  assert (is_VmRSS (line ++ [10]) = true) as -> by done.
  assert (line ++ [10] = (VmRSS ++ pad) ++ to_string n ++ kB ++ [10]) as -> by (unfold line; by rewrite <- !app_assoc).
  apply parse_memory; [|done]. apply Forall_app. split; [by repeat constructor|]. eapply Forall_impl; [exact Hpad|]. by intros c' [H _].
Qed.

(** * Witnesses *)

(** Three updates of a sum, and the readings around them. *)
Lemma timed_run_equiv_witness :
  let step := fun e u v => if u =? v then None else Some (e + u) in
  let pairs := [((1, 2), (10, 15)); ((4, 2), (20, 20)); ((3, 1), (31, 40))] in
  timed_run step pairs (0, Timer_new 7) = None /\ InsertExecution_Execute step (map fst pairs) 0 = None \/
  exists e' t, timed_run step pairs (0, Timer_new 7) = Some (e', t) /\ InsertExecution_Execute step (map fst pairs) 0 = Some e' /\
    status t = off /\ CountTime t = readings_cost pairs.
Proof.
  apply timed_run_equiv.
  - repeat constructor; vm_compute; discriminate.
  - vm_compute. reflexivity.
Defined.

(** The lines "Name: x", the memory, and one more. *)
Lemma getMemory_reads_witness :
  getMemory (unlines ([[78; 97; 109; 101; 58; 9; 120]] ++ (VmRSS ++ [9; 32; 32] ++ to_string 10240 ++ kB) :: [[86; 109]])) = Some 10240.
Proof.
  apply getMemory_reads.
  - constructor; [|constructor]. apply (bool_decide_unpack _). vm_compute. exact I.
  - apply (bool_decide_unpack _). vm_compute. exact I.
  - vm_compute. reflexivity.
  - vm_compute. split; [discriminate|reflexivity].
Defined.

(** * Behaviours worth knowing *)

(** A timer that runs cannot be started again, nor one stopped that does not. *)
Example timer_assertions :
  (t ← StartTimer 1 (Timer_new 0); StartTimer 2 t) = None /\ StopTimer 2 (Timer_new 0) = None /\
  (t ← StartTimer 1 (Timer_new 0); t ← StopTimer 4 t; Some (CountTime t, CountTime (ResetTime t))) = Some (3, 0).
Proof. repeat split. Qed.

(** Without the line of the memory the result is -1; in a line of it without a
    number the pointer runs over the end. *)
Example getMemory_other :
  getMemory (unlines [[86; 109]]) = Some (-1) /\ getMemory (unlines [VmRSS ++ kB]) = None.
Proof. split; vm_compute; reflexivity. Qed.

(** For the types without a case in the factory nothing is made, and memory is
    reported all the same. *)
Example VendMemory_null :
  (r ← VendMemory_Execute (VendMemory_new SIMDDeltaV2 "p") (unlines [VmRSS ++ to_string 5 ++ kB]); Some (vend_ r.1, r.2)) =
  Some (None, (VEND_STRING SIMDDeltaV2, 5)).
Proof. vm_compute. reflexivity. Qed.
