(* ===== verification/Scores.v ===== *)
(** The scores of the encodings: [ScoreExecution]
    ([src/execution/score_execution.cpp]) and [FullScoreExecution]
    ([src/include/execution/full_score_execution.h]). A plan is the test of one
    encoding; the percentages, which are printed, are left out. *)
From S2P Require Import Prelude Config BitSet Encode.
From stdpp Require Import options.
Local Open Scope Z_scope.
Set Default Proof Using "Type*".

(** * The runs *)

(** [ScoreExecution::Execute]: how many pairs each plan is certain of. *)
Definition score_pair (wrap : Z -> Z) (plans : list (Z -> Z -> option PairType)) (pair : Z * Z) (scores : list Z) : option (list Z) :=
  foldM (fun plan scores =>
           type ← plan.2 pair.1 pair.2;
           s ← zget scores plan.1;
           if bool_decide (type <> Uncertain) then zset scores plan.1 (wrap (s + 1)) else Some scores)
    (zip (seqZ 0 (Z.of_nat (length plans))) plans) scores.

Definition ScoreExecution_Execute (plans : list (Z -> Z -> option PairType)) (pair_list_ : list (Z * Z)) : option (list Z) :=
  foldM (score_pair u32 plans) pair_list_ (replicate (length plans) 0).

(** [FullScoreExecution::Execute]: pairs are drawn until there are
    [TOTAL_PAIRS_SIZE] of two ids; the scores, 64 bits wide, are written after
    every [SCORE_BATCH] pairs. The result is what is written. *)
Fixpoint FullScore_loop (SCORE_BATCH TOTAL_PAIRS_SIZE : Z) (VERTEX_SIZE : Z) (plans : list (Z -> Z -> option PairType))
    (draws : list (Z * Z)) (times : Z) (scores : list Z) (output : list (list Z)) : option (list (list Z)) :=
  if times <=? TOTAL_PAIRS_SIZE then
    match draws with
    | [] => None
    | (d1, d2) :: draws =>
        let random1 := s32 (u32 (d1 mod VERTEX_SIZE + 1)) in
        let random2 := s32 (u32 (d2 mod VERTEX_SIZE + 1)) in
        if random1 =? random2 then FullScore_loop SCORE_BATCH TOTAL_PAIRS_SIZE VERTEX_SIZE plans draws times scores output
        else
          let times := u64 (times + 1) in
          scores ← score_pair u64 plans (u32 random1, u32 random2) scores;
          if times mod SCORE_BATCH =? 0 then
            let output := output ++ [scores] in
            if TOTAL_PAIRS_SIZE <=? times then Some output
            else FullScore_loop SCORE_BATCH TOTAL_PAIRS_SIZE VERTEX_SIZE plans draws times scores output
          else FullScore_loop SCORE_BATCH TOTAL_PAIRS_SIZE VERTEX_SIZE plans draws times scores output
    end
  else Some output.

Definition FullScoreExecution_Execute (C : Config) (plans : list (Z -> Z -> option PairType)) (draws : list (Z * Z))
  : option (list (list Z)) :=
  FullScore_loop 1000000 100000000 (VERTEX_SIZE C) plans draws 0 (replicate (length plans) 0) [].

(** * Proofs *)

(** The pairs a plan is certain of. *)
Definition certain (plan : Z -> Z -> option PairType) (p : Z * Z) : Prop :=
  exists t, plan p.1 p.2 = Some t /\ t <> Uncertain.
#[export] Instance certain_dec plan p : Decision (certain plan p).
Proof.
  unfold certain. destruct (plan p.1 p.2) as [t|]; [|right; by intros (? & ? & _)].
  destruct (decide (t = Uncertain)) as [->|]; [right; by intros (? & [= <-] & ?)|left; eauto].
Defined.

Definition score_of (pairs : list (Z * Z)) (plan : Z -> Z -> option PairType) : Z :=
  Z.of_nat (length (filter (certain plan) pairs)).

Lemma score_of_snoc pairs p plan :
  score_of (pairs ++ [p]) plan = if decide (certain plan p) then score_of pairs plan + 1 else score_of pairs plan.
Proof.
  unfold score_of. rewrite filter_app, length_app. destruct (decide (certain plan p)).
  - rewrite filter_cons_True by done. cbn. lia.
  - rewrite filter_cons_False by done. cbn. lia.
Qed.

Lemma score_pair_ok (wrap : Z -> Z) (bound : Z) plans p pairs :
  (forall x, 0 <= x < bound -> wrap x = x) -> Z.of_nat (length pairs) < bound - 1 -> (forall plan, plan ∈ plans -> exists t, plan p.1 p.2 = Some t) ->
  score_pair wrap plans p (map (score_of pairs) plans) = Some (map (score_of (pairs ++ [p])) plans).
Proof.
  intros Hwrap Hlen Hdef. unfold score_pair. set (idx := zip (seqZ 0 (Z.of_nat (length plans))) plans).
  assert (length idx = length plans) as Hidx by (unfold idx; rewrite length_zip_with, length_seqZ; lia).
  assert (forall i x, idx !! i = Some x -> x.1 = Z.of_nat i /\ plans !! i = Some x.2) as Hlook.
  { intros i [z plan] H. apply lookup_zip_Some in H as [Hz Hp]. apply lookup_seqZ in Hz as [-> _]. split; [cbn; lia|done]. }
  destruct (foldM_inv (fun pre scores => length scores = length plans /\
      forall i plan, plans !! i = Some plan ->
        scores !! i = Some (score_of (if decide (i < length pre)%nat then pairs ++ [p] else pairs) plan))
    (fun plan scores => type ← plan.2 p.1 p.2; s ← zget scores plan.1;
       if bool_decide (type <> Uncertain) then zset scores plan.1 (wrap (s + 1)) else Some scores)
    idx (map (score_of pairs) plans)) as (scores & -> & Hl & Hs).
  - split; [by rewrite length_map|]. intros i plan Hi. rewrite decide_False by (cbn; lia). by apply list_lookup_fmap_Some_2.
  - intros pre x post scores Heq [Hl Hs].
    assert (idx !! length pre = Some x) as Hx by (rewrite Heq; by apply list_lookup_middle).
    destruct (Hlook _ _ Hx) as [Hz Hplan]. destruct (Hdef x.2 ltac:(by eapply list_elem_of_lookup_2)) as [t Et].
    rewrite Et, Hz. bind_step. pose proof (lookup_lt_Some _ _ _ Hplan) as Hlt.
    rewrite zget_lookup, Nat2Z.id by lia. rewrite (Hs _ _ Hplan), decide_False by lia. bind_step.
    assert (0 <= score_of pairs x.2 < bound - 1) as Hb.
    { unfold score_of. pose proof (length_filter (certain x.2) pairs). lia. }
    rewrite (Hwrap (score_of pairs x.2 + 1)) by lia.
    assert (forall s', length s' = length plans -> s' !! length pre = Some (score_of (pairs ++ [p]) x.2) ->
      (forall i, i <> length pre -> s' !! i = scores !! i) ->
      length s' = length plans /\ forall i plan, plans !! i = Some plan ->
        s' !! i = Some (score_of (if decide (i < length (pre ++ [x]))%nat then pairs ++ [p] else pairs) plan)) as Hstep.
    { intros s' Hl' Hat Hother. split; [done|]. intros i plan Hi. rewrite length_app. cbn [length].
      destruct (decide (i = length pre)) as [->|Hne].
      - assert (plan = x.2) as -> by congruence. rewrite decide_True by lia. done.
      - rewrite Hother, (Hs _ _ Hi) by done. destruct (decide (i < length pre)%nat); destruct (decide _); (done || lia). }
    case_bool_decide as Ht.
    + rewrite zset_Some by lia. rewrite Nat2Z.id. eexists. split; [done|]. apply Hstep.
      * by rewrite length_insert.
      * rewrite list_lookup_insert_eq by lia. rewrite score_of_snoc, decide_True by (by exists t). done.
      * intros i Hi. by rewrite list_lookup_insert_ne by congruence.
    + eexists. split; [done|]. apply Hstep; [done| |done]. rewrite (Hs _ _ Hplan), decide_False by lia.
      rewrite score_of_snoc, decide_False; [done|]. intros (t' & Et' & Ht'). congruence.
  - f_equal. apply list_eq. intros i. rewrite list_lookup_fmap. destruct (plans !! i) as [plan|] eqn:Ei.
    + rewrite (Hs _ _ Ei), decide_True; [done|]. rewrite Hidx. by eapply lookup_lt_Some.
    + apply lookup_ge_None in Ei. by rewrite lookup_ge_None_2 by lia.
Qed.

Lemma score_list_ok (wrap : Z -> Z) (bound : Z) plans pairs :
  (forall x, 0 <= x < bound -> wrap x = x) -> Z.of_nat (length pairs) < bound ->
  (forall plan p, plan ∈ plans -> p ∈ pairs -> exists t, plan p.1 p.2 = Some t) ->
  foldM (score_pair wrap plans) pairs (replicate (length plans) 0) = Some (map (score_of pairs) plans).
Proof.
  intros Hwrap Hlen Hdef.
  destruct (foldM_inv (fun pre scores => scores = map (score_of pre) plans) (score_pair wrap plans) pairs (replicate (length plans) 0))
    as (scores & -> & ->).
  - clear. unfold score_of. induction plans as [|plan plans IH]; [done|]. cbn [length replicate map]. by rewrite IH.
  - intros pre p post scores Heq ->. rewrite (score_pair_ok wrap bound); [by eexists|done| |].
    + rewrite Heq, length_app in Hlen. cbn [length] in Hlen. lia.
    + intros plan Hplan. apply Hdef; [done|]. rewrite Heq. apply elem_of_app. right. by left.
  - done.
Qed.

(** ** The full scores *)

Section full.
Context (batch total V : Z) (Hbatch : 0 < batch) (Htotal : 0 < total < 2 ^ 63) (Hdiv : total mod batch = 0) (HV : 1 <= V < 2 ^ 31).
Context (plans : list (Z -> Z -> option PairType)).
Context (Hdef : forall plan u v, plan ∈ plans -> 1 <= u <= V -> 1 <= v <= V -> exists t, plan u v = Some t).

(** The pairs of the draws. *)
Definition drawn_ids (draws : list (Z * Z)) : list (Z * Z) :=
  filter (fun p => p.1 <> p.2) (map (fun d => (d.1 mod V + 1, d.2 mod V + 1)) draws).

(** What is written after the pairs [l] and from there on. *)
Definition written (l : list (Z * Z)) (k : Z) : list (list Z) :=
  map (fun i => map (score_of (take (Z.to_nat (i * batch)) l)) plans) (seqZ 1 k).

Lemma written_app l l' k : 0 <= k -> k * batch <= Z.of_nat (length l) -> written (l ++ l') k = written l k.
Proof.
  intros Hk Hl. unfold written. apply map_ext_in. intros i Hi%list_elem_of_In%elem_of_seqZ. rewrite take_app_le; [done|]. nia.
Qed.

Lemma written_snoc l k : 0 <= k -> (k + 1) * batch = Z.of_nat (length l) -> written l (k + 1) = written l k ++ [map (score_of l) plans].
Proof.
  intros Hk Hl. unfold written. rewrite seqZ_app, map_app by lia. f_equal. change (seqZ (1 + k) 1) with [1 + k]. cbn [map].
  rewrite take_ge; [done|]. nia.
Qed.

Lemma FullScore_loop_ok draws pre :
  Z.of_nat (length pre) < total ->
  FullScore_loop batch total V plans draws (Z.of_nat (length pre)) (map (score_of pre) plans)
    (written pre (Z.of_nat (length pre) / batch)) =
  if total <=? Z.of_nat (length (pre ++ drawn_ids draws)) then Some (written (pre ++ drawn_ids draws) (total / batch)) else None.
Proof.
  revert pre. induction draws as [|[d1 d2] draws IH]; intros pre Hpre; cbn [FullScore_loop].
  { change (drawn_ids []) with (@nil (Z * Z)). rewrite app_nil_r, (proj2 (Z.leb_le _ total)), (proj2 (Z.leb_gt total _)) by lia. done. }
  rewrite (proj2 (Z.leb_le _ total)) by lia. pose proof (Z.mod_pos_bound d1 V ltac:(lia)). pose proof (Z.mod_pos_bound d2 V ltac:(lia)).
  rewrite !(u32_small (_ mod V + 1)), !s32_small by lia. unfold drawn_ids. cbn [map fst snd]. rewrite filter_cons. cbn [fst snd].
  fold (drawn_ids draws). destruct (Z.eqb_spec (d1 mod V + 1) (d2 mod V + 1)) as [He|Hne].
  { rewrite decide_False by (intros Hn; by apply Hn). by apply IH. }
  rewrite decide_True by done. set (p := (d1 mod V + 1, d2 mod V + 1)).
  replace (u32 (d1 mod V + 1), u32 (d2 mod V + 1)) with p by (unfold p; by rewrite !u32_small by lia).
  rewrite u64_small by lia. rewrite (score_pair_ok u64 (2 ^ 64)); [|intros; by apply u64_small|lia|intros plan Hplan; apply Hdef; (done || unfold p; cbn; lia)].
  bind_step. set (l := pre ++ [p]). assert (Z.of_nat (length pre) + 1 = Z.of_nat (length l)) as Hl by (unfold l; rewrite length_app; cbn; lia).
  rewrite Hl. replace (pre ++ p :: drawn_ids draws) with (l ++ drawn_ids draws) by (unfold l; by rewrite <- app_assoc).
  pose proof (Z.div_mod (Z.of_nat (length pre)) batch ltac:(lia)) as Hd. pose proof (Z.mod_pos_bound (Z.of_nat (length pre)) batch ltac:(lia)).
  pose proof (Z.div_pos (Z.of_nat (length pre)) batch ltac:(lia) ltac:(lia)).
  pose proof (Z.div_mod total batch ltac:(lia)) as Hdt.
  destruct (Z.eqb_spec (Z.of_nat (length l) mod batch) 0) as [Hm|Hm].
  - assert (Z.of_nat (length l) / batch = Z.of_nat (length pre) / batch + 1) as Hq.
    { pose proof (Z.div_mod (Z.of_nat (length l)) batch ltac:(lia)). nia. }
    pose proof (Z.div_mod (Z.of_nat (length l)) batch ltac:(lia)) as Hdl.
    assert (written pre (Z.of_nat (length pre) / batch) ++ [map (score_of l) plans] = written l (Z.of_nat (length l) / batch)) as ->.
    { rewrite Hq, written_snoc by nia. f_equal. symmetry. apply written_app; nia. }
    destruct (Z.leb_spec total (Z.of_nat (length l))).
    + assert (Z.of_nat (length l) = total) as -> by lia. rewrite (proj2 (Z.leb_le total _)) by (rewrite length_app; lia).
      rewrite written_app by nia. done.
    + by apply IH.
  - assert (Z.of_nat (length l) <> total) as Hnt by (intros E; by rewrite E in Hm).
    assert (Z.of_nat (length l) / batch = Z.of_nat (length pre) / batch) as Hq.
    { pose proof (Z.div_mod (Z.of_nat (length l)) batch ltac:(lia)). pose proof (Z.mod_pos_bound (Z.of_nat (length l)) batch ltac:(lia)). nia. }
    rewrite <- (written_app pre [p]) by nia. fold l. rewrite <- Hq. apply IH. lia.
Qed.
End full.

(** * Properties *)

(** C38: the score of every plan is the number of pairs it is certain of: of the
    list, in [ScoreExecution]; of the pairs drawn so far, in [FullScoreExecution],
    which ends exactly when the draws hold the pairs of two ids that it needs and
    has then written the scores after every batch. *)
Theorem scores_count (batch total V : Z) (plans : list (Z -> Z -> option PairType)) (pairs draws : list (Z * Z))
    (Hbatch : 0 < batch) (Htotal : 0 < total < 2 ^ 63) (Hdiv : total mod batch = 0) (HV : 1 <= V < 2 ^ 31)
    (Hdef : forall plan u v, plan ∈ plans -> 1 <= u <= V -> 1 <= v <= V -> exists t, plan u v = Some t)
    (Hpairs : Forall (fun p => 1 <= p.1 <= V /\ 1 <= p.2 <= V) pairs) (Hlen : Z.of_nat (length pairs) < 2 ^ 32) :
  ScoreExecution_Execute plans pairs = Some (map (fun plan => Z.of_nat (length (filter (certain plan) pairs))) plans) /\
  FullScore_loop batch total V plans draws 0 (replicate (length plans) 0) [] =
    (if total <=? Z.of_nat (length (drawn_ids V draws))
     then Some (map (fun i => map (fun plan => Z.of_nat (length (filter (certain plan) (take (Z.to_nat (i * batch)) (drawn_ids V draws))))) plans)
                  (seqZ 1 (total / batch)))
     else None).
Proof.
  split.
  - apply (score_list_ok u32 (2 ^ 32)); [intros; by apply u32_small|done|]. intros plan p Hplan Hp.
    destruct (proj1 (Forall_forall _ _) Hpairs p Hp). by apply Hdef.
  - pose proof (FullScore_loop_ok batch total V Hbatch Htotal Hdiv HV plans Hdef draws []) as H. cbn [length app] in H.
    change (Z.of_nat 0) with 0 in H. rewrite Z.div_0_l in H by lia. change (written batch plans [] 0) with (@nil (list Z)) in H.
    assert (map (score_of []) plans = replicate (length plans) 0) as E
      by (clear; induction plans as [|plan plans IH]; [done|]; cbn [map length replicate]; by rewrite IH).
    rewrite E in H. exact (H ltac:(lia)).
Qed.

(** * Witnesses *)

Lemma scores_count_witness :
  let plans := [fun u v : Z => Some (if u <? v then NonNeighbor else Uncertain); fun _ _ => Some Uncertain] in
  ScoreExecution_Execute plans [(1, 2); (3, 2); (4, 5)] =
    Some (map (fun plan => Z.of_nat (length (filter (certain plan) [(1, 2); (3, 2); (4, 5)]))) plans) /\
  FullScore_loop 2 4 10 plans [(0, 1); (3, 3); (5, 2); (13, 24); (8, 9); (0, 0)] 0 (replicate 2 0) [] =
    (if 4 <=? Z.of_nat (length (drawn_ids 10 [(0, 1); (3, 3); (5, 2); (13, 24); (8, 9); (0, 0)]))
     then Some (map (fun i => map (fun plan => Z.of_nat (length (filter (certain plan)
                  (take (Z.to_nat (i * 2)) (drawn_ids 10 [(0, 1); (3, 3); (5, 2); (13, 24); (8, 9); (0, 0)]))))) plans) (seqZ 1 (4 / 2)))
     else None).
Proof.
  apply (scores_count 2 4 10 [fun u v => Some (if u <? v then NonNeighbor else Uncertain); fun _ _ => Some Uncertain]
    [(1, 2); (3, 2); (4, 5)] [(0, 1); (3, 3); (5, 2); (13, 24); (8, 9); (0, 0)]); [lia|lia|reflexivity|lia| | |reflexivity].
  - intros plan u v Hplan _ _. rewrite !elem_of_cons in Hplan. destruct Hplan as [->|[->|Hplan]]; [by eexists..|].
    by apply elem_of_nil in Hplan.
  - repeat constructor; vm_compute; discriminate.
Defined.

Example FullScore_written :
  FullScore_loop 2 4 10 [fun u v => Some (if u <? v then NonNeighbor else Uncertain); fun _ _ => Some Uncertain]
    [(0, 1); (3, 3); (5, 2); (13, 24); (8, 9); (0, 0)] 0 [0; 0] [] = Some [[1; 0]; [3; 0]].
Proof. vm_compute. reflexivity. Qed.
