(* ===== verification/Main.v ===== *)
(** The program: [main] ([src/main.cpp]), from the options of the command line to
    the runs, and what the runs share: the database, the files of the encodings
    and the files of the lists.

    The options are given as parsed. A file system is finite maps from paths to
    contents; only the database of the option [-b] is used. What the kernel does
    not fix is a parameter: the numbers drawn for a list, the contents of
    uninitialised variables, the heap and the orders of [Vends]. *)
From Stdlib Require Import String.
From stdpp Require Import strings.
From S2P Require Import Prelude Config BitSet Encode BFilter DeltaEncode KCore DegreeOrder RangeVend RangeBuild Db Graph VendFactory.
From S2P Require Import PairList Vends Execution Exact Updates Scores.
From stdpp Require Import options.
Local Open Scope Z_scope.
Set Default Proof Using "Type*".

(** * The options and the tasks *)

Record Options := {
  data_path : string;
  db_path : string;
  vend_prefix : string;
  pair_path_prefix : string;
  db_type : Z;
  k_size : Z;
  vertex_size : Z;
  degree : Z;
  test_hsimd : bool;
  is_skip : list Z;
  is_build : bool;
  is_insert : bool;
  is_delete : bool;
  is_walk_query : bool;
  is_random_query : bool;
  is_full_score : bool;
  is_random_score : bool;
  is_walk_score : bool;
  is_directed : bool
}.

Definition types : list VendType :=
  [NoVend; BloomFilterInt; BBloomFilter; CBloomFilter; HashBit; VendFactory.Hybrid; BloomFilterBit; Range; Bloom; Count; HybridDelta;
   SIMDDelta; SIMDDeltaV1; SIMDDeltaV2; SIMDDeltaV3; RangeBits; RangeVbyte; RangeDelta; DirectHybrid; DirectSIMD].

(** The plans of the scores. *)
Definition score_types : list VendType :=
  [SIMDDeltaV3; BBloomFilter; VendFactory.Hybrid; CBloomFilter; BloomFilterBit; BloomFilterInt; Range; Bloom; HashBit].

(** One execution; the flag of the later ones is [HSIMD]. *)
Inductive Task :=
  | Build (type : VendType)
  | Insert (type : VendType)
  | Delete (type : VendType)
  | RandomQuery (type : VendType)
  | Query (hsimd : bool) (type : VendType)
  | RandomScore (hsimd : bool)
  | WalkScore (hsimd : bool)
  | FullScore (hsimd : bool).

(** [skip]; an index outside of it is written all the same. *)
Definition skip_vector (is_skip : list Z) : option (list bool) :=
  foldM (fun v skip => zset skip v true) is_skip (replicate (length types) false).

(** A loop over the types from [lo] on. *)
Definition each_type (skip : list bool) (lo : nat) (task : VendType -> Task) : list Task :=
  map (fun x => task x.2) (filter (fun x => x.1 = false) (drop lo (zip skip types))).

Definition when (b : bool) (l : list Task) : list Task := if b then l else [].

Definition main_tasks (o : Options) (skip : list bool) : list Task :=
  let hsimd := is_walk_query o && negb (is_directed o) && test_hsimd o in
  when (is_build o) (each_type skip 0 Build) ++
  when (is_insert o) (each_type skip 1 Insert) ++
  when (is_delete o) (each_type skip 1 Delete) ++
  when (is_random_query o) (each_type skip 0 RandomQuery) ++
  when (is_walk_query o) (each_type skip 0 (Query false)) ++
  when hsimd [Query true VendFactory.Hybrid; Query true SIMDDeltaV3] ++
  when (is_random_score o) [RandomScore hsimd] ++
  when (is_walk_score o) [WalkScore hsimd] ++
  when (is_full_score o) [FullScore hsimd].

(** * The runs of the tasks *)

Record World (T : Type) := {
  w_db : T;
  w_data : gmap string (list (option (Z * Z)));
  w_encodes : gmap string VendFile;
  w_lists : gmap string (list (list Z))
}.
Arguments w_db {T}.
Arguments w_data {T}.
Arguments w_encodes {T}.
Arguments w_lists {T}.

Inductive Report :=
  | Queried (type : VendType) (counts : QueryCounts)
  | Deleted (type : VendType) (batch : Z)
  | Inserted (type : VendType)
  | Scored (scores : list Z)
  | FullScored (written : list (list Z)).

(** The numbers that are drawn for the lists. *)
Record Draws := {
  insert_draws : list (Z * Z);
  delete_draws : list (Z * Z);
  random_draws : list (Z * Z);
  walk_draws : list (Z * Z);
  full_draws : list (Z * Z);
  score_draws : list Z * list Z;
  rand : Z -> Z;
  shuffled : list Z;       (* the ids in the order of a list *)
  rounds : nat             (* how long a walk list is waited for *)
}.

Section main.
Context {T : Type} {St : Store T}.
Context (heap : Z -> Z) (key : Z) (unordered : gset Z -> list Z) (std_sort : (Z -> Z) -> list Z -> list Z).
Context (draws : Draws) (db_type_0 vertex1 vertex2 : Z).  (* uninitialised members and variables *)

Definition set_HSIMD (C : Config) (hsimd : bool) : Config :=
  {| HSIMD := hsimd; K_SIZE := K_SIZE C; VERTEX_SIZE := VERTEX_SIZE C; DEGREE := DEGREE C;
     B_FILTER_ENCODE_BITS := B_FILTER_ENCODE_BITS C; PER_ENCODE_BIT_SIZE := PER_ENCODE_BIT_SIZE C;
     VERTEX_BIT_SIZE := VERTEX_BIT_SIZE C; MAX_K_CORE_SIZE := MAX_K_CORE_SIZE C; LOG_K := LOG_K C;
     MAX_INTEGER_SIZE := MAX_INTEGER_SIZE C; BLOCK_BEGIN_INDEX := BLOCK_BEGIN_INDEX C;
     BLOCK_SIZE := BLOCK_SIZE C; BLOCK_NUMS := BLOCK_NUMS C; ELEMENT_SIZE := ELEMENT_SIZE C;
     BIT_HASH_BEST_NUMS := BIT_HASH_BEST_NUMS C; INT_HASH_BEST_NUMS := INT_HASH_BEST_NUMS C;
     COUNT_HASH_BEST_NUMS := COUNT_HASH_BEST_NUMS C; PREFIX_BIT_SIZE := PREFIX_BIT_SIZE C |}.

Notation make C := (make_vend C heap key unordered std_sort).

Definition open_path (path : string) (w : World T) : option T := if String.eqb path EmptyString then None else Some (w_db w).

Definition put_list (w : World T) (path : string) (file : list (list Z)) : World T :=
  {| w_db := w_db w; w_data := w_data w; w_encodes := w_encodes w; w_lists := <[path := file]> (w_lists w) |}.

(** A data file is opened when an encoding is built and when the data are stored;
    without one the program exits. The files of the two directions share a path
    that the constructors make from the one of the encoding. *)
Definition data_file (o : Options) (type : VendType) (w : World T) : option (option (list (option (Z * Z)))) :=
  if String.eqb (data_path o) EmptyString then Some None
  else
    match w_data w !! data_path o with
    | Some file => Some (Some file)
    | None =>
        _ ← guardb (negb (bool_decide (type <> NoVend /\ w_encodes w !! GetVendPath (vend_prefix o) type = None)));
        Some None
    end.

Definition run_build (C : Config) (o : Options) (type : VendType) (w : World T) : option (World T) :=
  data ← data_file o type w;
  '(db, file) ← BuildExecution_Execute C (make C) (is_directed o) type data db_type_0 (open_path (db_path o) w)
                  (w_encodes w !! GetVendPath (vend_prefix o) type);
  Some {| w_db := default (w_db w) db; w_data := w_data w;
          w_encodes := match file with
                       | Some f => <[GetVendPath (vend_prefix o) type := f]> (w_encodes w)
                       | None => w_encodes w
                       end;
          w_lists := w_lists w |}.

(** [Graph::Init] of the runs that do not build, then [PairList::Init]. *)
Definition start (C : Config) (o : Options) (directed_ : bool) (type : VendType) (db_type_ : Z) (path : string)
    (CreateList : GraphState (T := T) -> option (list (Z * Z))) (w : World T) : option (GraphState (T := T) * list (Z * Z) * World T) :=
  '(g, _) ← Graph_Init C (make C) directed_ type None db_type_ (open_path (db_path o) w)
              (w_encodes w !! GetVendPath (vend_prefix o) type);
  '(pairs, file) ← PairList_Init (CreateList g) (w_lists w !! path) vertex1 vertex2;
  Some (g, pairs, put_list w path file).

Definition run_query (C : Config) (o : Options) (directed_ : bool) (type : VendType) (path : string)
    (CreateList : GraphState (T := T) -> option (list (Z * Z))) (w : World T) : option (World T * list Report) :=
  '(_, pairs, w) ← start C o directed_ type (db_type o) path CreateList w;
  r ← QueryExecution_Execute C (make C) directed_ type (db_type o) (open_path (db_path o) w)
        (w_encodes w !! GetVendPath (vend_prefix o) type) pairs;
  Some (w, [Queried type r]).

(** The graphs of the plans: only the first one is given the database. *)
Definition score_graphs (C : Config) (o : Options) (path : string) (w : World T) : option (list (GraphState (T := T))) :=
  mapM (fun x => r ← Graph_Init C (make C) false x.2 None db_type_0 (open_path (if x.1 =? 0 then path else EmptyString) w)
                       (w_encodes w !! GetVendPath (vend_prefix o) x.2);
                 Some r.1) (zip (seqZ 0 9) score_types).

Definition run_score (C : Config) (o : Options) (path : string) (CreateList : GraphState (T := T) -> option (list (Z * Z))) (w : World T)
  : option (World T * list Report) :=
  graphs ← score_graphs C o (db_path o) w;
  g0 ← head graphs;
  '(pairs, file) ← PairList_Init (CreateList g0) (w_lists w !! path) vertex1 vertex2;
  scores ← ScoreExecution_Execute (map Graph_GetEdge graphs) pairs;
  Some (put_list w path file, [Scored scores]).

Definition run_task (C : Config) (o : Options) (t : Task) (w : World T) : option (World T * list Report) :=
  let prefix := pair_path_prefix o in
  match t with
  | Build type => w ← run_build C o type w; Some (w, [])
  | Insert type =>
      '(g, pairs, w) ← start C o false type db_type_0 (prefix ++ "insert_pair.txt")
                         (fun _ => InsertExecution_CreateList C (insert_draws draws) 100000 []) w;
      _ ← InsertExecution_Execute Graph_AddEdge pairs g;
      Some (w, [Inserted type])
  | Delete type =>
      '(g, pairs, w) ← start C o false type db_type_0 (prefix ++ "delete_pair.txtnik")
                         (fun _ => DeleteExecution_CreateList (delete_draws draws) 100000 []) w;
      r ← DeleteExecution_Execute Graph_RemoveEdge type pairs g;
      Some (w, [Deleted type r.2])
  | RandomQuery type =>
      run_query C o false type (prefix ++ "random_query_pair.txt")
        (fun _ => RandomQuery_CreateList (random_draws draws) 1000000 []) w
  | Query hsimd type =>
      run_query (set_HSIMD C hsimd) o (is_directed o) type (prefix ++ "walk_query_pair_v2.txt")
        (fun g => Query_CreateList (g_db g) (rounds draws) (shuffled draws) (walk_draws draws) 1000000 []) w
  | RandomScore hsimd =>
      run_score (set_HSIMD C hsimd) o (prefix ++ "random_score_pair.txt")
        (fun _ => RandomScore_CreateList C unordered 100000 (score_draws draws).1 (score_draws draws).2 100000000 []) w
  | WalkScore hsimd =>
      run_score (set_HSIMD C hsimd) o (prefix ++ "walk_score_pair.txt")
        (fun g => Score_CreateList (g_db g) (rand draws) (shuffled draws) 100000000 []) w
  | FullScore hsimd =>
      graphs ← score_graphs (set_HSIMD C hsimd) o EmptyString w;
      r ← FullScoreExecution_Execute C (map Graph_GetEdge graphs) (full_draws draws);
      Some (w, [FullScored r])
  end%string.

(** [main]. *)
Definition main (o : Options) (w : World T) : option (World T * list Report) :=
  C ← InitConfig false (k_size o) (vertex_size o) (degree o);
  skip ← skip_vector (is_skip o);
  foldM (fun t '(w, reports) => '(w, r) ← run_task C o t w; Some (w, reports ++ r)) (main_tasks o skip) (w, []).
End main.

(** * Proofs: what is skipped *)

(** The types whose index is not skipped. *)
Definition kept_types (skip : list Z) : list VendType :=
  map snd (filter (fun x : Z * VendType => x.1 ∉ skip) (zip (seqZ 0 20) types)).

Lemma filter_zip {A B} (f : A -> bool) (P : A -> Prop) `{forall x : A * B, Decision (P x.1)} (Hf : forall x, f x = false <-> P x)
    (l : list A) (m : list B) :
  map snd (filter (fun x : bool * B => x.1 = false) (zip (map f l) m)) = map snd (filter (fun x : A * B => P x.1) (zip l m)).
Proof.
  revert m. induction l as [|a l IH]; intros [|b m]; [done..|]. cbn [map zip zip_with].
  rewrite !filter_cons. cbn [fst]. specialize (IH m). pose proof (Hf a).
  destruct (decide (f a = false)), (decide (P a)); [cbn [map snd]; by rewrite IH|tauto|tauto|done].
Qed.

Lemma skip_vector_ok l :
  Forall (fun i => 0 <= i < 20) l -> skip_vector l = Some (map (fun i => bool_decide (i ∈ l)) (seqZ 0 20)).
Proof.
  intros Hl. unfold skip_vector.
  destruct (foldM_inv (fun pre skip => skip = map (fun i => bool_decide (i ∈ pre)) (seqZ 0 20))
              (fun v skip => zset skip v true) l (replicate (length types) false)) as (skip & -> & ->); [done| |done].
  intros pre v post skip E ->. pose proof (proj1 (Forall_forall _ _) Hl v ltac:(rewrite E; set_solver)) as Hv. simpl in Hv.
  rewrite zset_Some by (rewrite length_map, length_seqZ; lia). eexists. split; [done|].
  apply list_eq. intros i. rewrite list_lookup_insert, !list_lookup_fmap.
  destruct (decide (i < 20)%nat) as [Hi|Hi].
  - rewrite lookup_seqZ_lt by lia. cbn [fmap option_fmap option_map]. rewrite Z.add_0_l, length_map, length_seqZ.
    case_decide as Hd.
    + destruct Hd as [<- _]. rewrite Z2Nat.id by lia. f_equal. symmetry. apply bool_decide_eq_true. set_solver.
    + f_equal. apply bool_decide_ext. assert (Z.of_nat i <> v) by lia. set_solver.
  - rewrite length_map, length_seqZ. rewrite lookup_seqZ_ge by lia. rewrite decide_False by lia. done.
Qed.

Lemma each_type_kept l (task : VendType -> Task) :
  each_type (map (fun i => bool_decide (i ∈ l)) (seqZ 0 20)) 0 task = map task (kept_types l).
Proof.
  unfold each_type, kept_types. rewrite drop_0. rewrite <- (filter_zip (fun i => bool_decide (i ∈ l)) (fun i => i ∉ l)) by (intros; apply bool_decide_eq_false).
  by rewrite map_map.
Qed.

Lemma kept_nodup l : NoDup (kept_types l).
Proof.
  unfold kept_types. eapply (sublist_NoDup _ (map snd (zip (seqZ 0 20) types))); [by apply (bool_decide_unpack _); vm_compute|].
  apply (fmap_sublist (B := VendType) snd), sublist_filter.
Qed.

Lemma list_filter_iff_in {A} (P Q : A -> Prop) `{forall x, Decision (P x)} `{forall x, Decision (Q x)} l :
  Forall (fun x => P x <-> Q x) l -> filter P l = filter Q l.
Proof.
  induction 1 as [|x l Hx Hl IH]; [done|]. destruct (decide (P x)).
  - rewrite !filter_cons_True by tauto. by rewrite IH.
  - rewrite !filter_cons_False by tauto. done.
Qed.

(** The type without an encoding is the first one. *)
Lemma kept_NoVend l : 0 ∉ l -> kept_types l = NoVend :: kept_types (0 :: l) /\ NoVend ∉ kept_types (0 :: l).
Proof.
  intros H0. assert (kept_types l = NoVend :: kept_types (0 :: l)) as E; [|split; [done|]].
  - unfold kept_types. change (zip (seqZ 0 20) types) with ((0, NoVend) :: zip (seqZ 1 19) (tail types)).
    rewrite filter_cons_True by done. rewrite (filter_cons_False (fun x : Z * VendType => x.1 ∉ 0 :: l)) by (cbn; set_solver). cbn [map snd].
    do 2 f_equal. apply list_filter_iff_in, Forall_forall. intros [i t] Hin. cbn [fst].
    apply elem_of_zip_l, elem_of_seqZ in Hin. rewrite not_elem_of_cons.
    split; [intros Hl|by intros []].
    split; [lia|done].
  - pose proof (kept_nodup l) as H. rewrite E in H. by apply NoDup_cons_1_1 in H.
Qed.

(** * Proofs: three calls of the program *)

(** The call of the program that builds, with the options [o] but for the tasks,
    and the one that queries random pairs. *)
Definition build_call (o : Options) (skip : list Z) : Options := {|
  data_path := data_path o; db_path := db_path o; vend_prefix := vend_prefix o; pair_path_prefix := pair_path_prefix o;
  db_type := db_type o; k_size := k_size o; vertex_size := vertex_size o; degree := degree o; test_hsimd := test_hsimd o;
  is_skip := skip; is_build := true; is_insert := false; is_delete := false; is_walk_query := false;
  is_random_query := false; is_full_score := false; is_random_score := false; is_walk_score := false; is_directed := false |}.

Definition query_call (o : Options) (skip : list Z) : Options := {|
  data_path := data_path o; db_path := db_path o; vend_prefix := vend_prefix o; pair_path_prefix := pair_path_prefix o;
  db_type := db_type o; k_size := k_size o; vertex_size := vertex_size o; degree := degree o; test_hsimd := test_hsimd o;
  is_skip := skip; is_build := false; is_insert := false; is_delete := false; is_walk_query := false;
  is_random_query := true; is_full_score := false; is_random_score := false; is_walk_score := false; is_directed := false |}.



Section session.
Context {T : Type} {St : Store T} {SL : StoreLaws T}.
Context (C : Config) (HC : vend_config C).
Context (heap : Z -> Z) (key : Z) (unordered : gset Z -> list Z) (std_sort : (Z -> Z) -> list Z -> list Z).
Context (Horder : forall s x, x ∈ unordered s <-> x ∈ s) (Hsort : sorts std_sort).
Context (draws : Draws) (vertex1 vertex2 : Z).
Context (o : Options) (HI : InitConfig false (k_size o) (vertex_size o) (degree o) = Some C).
Context (Hdb_path : db_path o <> EmptyString) (Hdata_path : data_path o <> EmptyString) (Hdb_type : db_type o = 0).
Context (file : list (option (Z * Z))) (Hfile : simple_file C file).
Notation make := (make_vend C heap key unordered std_sort).
Notation path t := (GetVendPath (vend_prefix o) t).
Notation main := (main heap key unordered std_sort draws 0 vertex1 vertex2).
Notation run_task := (run_task heap key unordered std_sort draws 0 vertex1 vertex2 C).

(** The runs of a call, one for every type that is kept. *)
Lemma main_each o' (task : VendType -> Task) skip w (P : list VendType -> World T -> list Report -> Prop) :
  k_size o' = k_size o -> vertex_size o' = vertex_size o -> degree o' = degree o -> is_skip o' = skip ->
  Forall (fun i => 0 <= i < 20) skip -> (forall sk, main_tasks o' sk = each_type sk 0 task) ->
  P [] w [] ->
  (forall pre t post w reports, kept_types skip = pre ++ t :: post -> P pre w reports ->
     exists w' r, run_task o' (task t) w = Some (w', r) /\ P (pre ++ [t]) w' (reports ++ r)) ->
  exists w' reports, main o' w = Some (w', reports) /\ P (kept_types skip) w' reports.
Proof.
  intros Ek Ev Ed Es Hskip Htasks H0 Hstep. unfold Main.main. rewrite Ek, Ev, Ed, HI, Es, (skip_vector_ok _ Hskip). bind_step. bind_step.
  rewrite Htasks, each_type_kept.
  destruct (foldM_inv (fun pre st => exists pre', pre = map task pre' /\ pre' ++ drop (length pre') (kept_types skip) = kept_types skip /\ P pre' st.1 st.2)
    (fun t '(w, reports) => '(w, r) ← run_task o' t w; Some (w, reports ++ r)) (map task (kept_types skip)) (w, []))
    as ([w' reports] & EF & pre' & Em & Ea & HP).
  - by exists [].
  - intros pre x post [w1 r1] E (pre' & -> & Ea & HP). cbn [fst snd] in HP.
    apply map_eq_app in E as (l1 & l2 & El & E1 & E2). apply map_eq_cons in E2 as (t & l2' & -> & <- & <-).
    assert (length l1 = length pre') as Hl by (rewrite <- (length_map task l1), <- (length_map task pre'); by f_equal).
    assert (l1 = pre') as ->. { rewrite <- Ea in El. by apply app_inj_1 in El as []. }
    destruct (Hstep pre' t l2' w1 r1 El HP) as (w' & r & ER & HP'). rewrite ER. bind_step. eexists. split; [done|].
    exists (pre' ++ [t]). split; [by rewrite map_app|]. split; [|done].
    rewrite El, length_app. cbn [length]. rewrite drop_app_ge by lia. replace (length pre' + 1 - length pre')%nat with 1%nat by lia.
    cbn [drop]. by rewrite <- app_assoc.
  - exists w', reports. split; [exact EF|].
    assert (pre' = kept_types skip) as <-; [|done]. rewrite <- Ea, drop_ge, app_nil_r; [done|].
    apply (f_equal length) in Em. rewrite !length_map in Em. lia.
Qed.

Context (lists : gmap string (list (list Z))).

Definition session_world (db : T) (encodes : gmap string VendFile) : World T :=
  {| w_db := db; w_data := {[data_path o := file]}; w_encodes := encodes; w_lists := lists |}.

(** The files of the types [ts] are on disk, each with what is asked of it. *)
Definition encodings (holds : VendType -> VendFile -> Prop) (ts : list VendType) (encodes : gmap string VendFile) : Prop :=
  forall t, t ∈ ts -> exists saved, encodes !! path t = Some saved /\ holds t saved.

Lemma run_task_build skip t db encodes db' file' :
  BuildExecution_Execute C make false t (Some file) 0 (Some db) (encodes !! path t) = Some (Some db', file') ->
  run_task (build_call o skip) (Build t) (session_world db encodes) =
    Some (session_world db' (match file' with Some f => <[path t := f]> encodes | None => encodes end), []).
Proof.
  intros HB. cbn [Main.run_task]. unfold run_build, data_file, open_path. cbn [build_call data_path db_path vend_prefix is_directed session_world w_data w_db w_encodes].
  rewrite (proj2 (String.eqb_neq _ _) Hdata_path), (proj2 (String.eqb_neq _ _) Hdb_path), lookup_singleton_eq. bind_step.
  rewrite HB. bind_step. done.
Qed.

(** The first call builds the encodings. *)
Lemma session_build holds skip db0 :
  Forall (fun i => 1 <= i < 20) skip ->
  (forall t, t ∈ kept_types (0 :: skip) -> exists saved,
     BuildExecution_Execute C make false t (Some file) 0 (Some db0) None = Some (Some db0, Some saved) /\ holds t saved) ->
  exists encodes, main (build_call o (0 :: skip)) (session_world db0 ∅) = Some (session_world db0 encodes, []) /\
    encodings holds (kept_types (0 :: skip)) encodes.
Proof.
  intros Hskip Hbuild.
  assert (0 ∉ skip) as H0 by (intros Hin; pose proof (proj1 (Forall_forall _ _) Hskip 0 Hin); simpl in *; lia).
  pose proof (proj2 (kept_NoVend skip H0)) as Hno. pose proof (kept_nodup (0 :: skip)) as Hnodup.
  destruct (main_each (build_call o (0 :: skip)) Build (0 :: skip) (session_world db0 ∅)
    (fun pre w reports => reports = [] /\ exists encodes, w = session_world db0 encodes /\ encodings holds pre encodes /\
       forall t, t ∈ kept_types (0 :: skip) -> t ∉ pre -> encodes !! path t = None))
    as (w & reports & EM & -> & encodes & -> & Henc & _); try done.
  - constructor; [lia|]. eapply Forall_impl; [exact Hskip|]. intros i. simpl. lia.
  - intros sk. unfold main_tasks. cbn [build_call is_build is_insert is_delete is_random_query is_walk_query is_random_score is_walk_score
      is_full_score is_directed when andb negb]. by rewrite !app_nil_r.
  - split; [done|]. exists ∅. split; [done|]. split; [by intros t ?%elem_of_nil|]. intros t _ _. apply lookup_empty.
  - intros pre t post w reports E (-> & encodes & -> & Henc & Hnone).
    assert (t ∈ kept_types (0 :: skip)) as Ht by (rewrite E; set_solver).
    assert (t ∉ pre) as Hnew by (rewrite E in Hnodup; apply NoDup_app in Hnodup as (_ & Hd & _); intros Hin; apply (Hd t Hin); left).
    assert (t <> NoVend) as Hne by (intros ->; done).
    assert (forall t', t' ∈ kept_types (0 :: skip) -> path t = path t' -> t = t') as Hinj.
    { intros t' Ht' Ep. rewrite !GetVendPath_eq in Ep by (done || by intros ->). by apply append_cancel, txt_inj in Ep. }
    destruct (Hbuild t Ht) as (saved & EB & Hholds).
    rewrite (run_task_build (0 :: skip) t db0 encodes db0 (Some saved)) by (by rewrite Hnone).
    do 2 eexists. split; [done|]. split; [done|]. eexists. split; [done|]. split.
    + intros t' [Hin| ->%list_elem_of_singleton]%elem_of_app; [|exists saved; by rewrite lookup_insert_eq].
      destruct (Henc t' Hin) as (saved' & E' & Hh). exists saved'. rewrite lookup_insert_ne; [done|].
      intros Ep. apply Hinj in Ep; [by subst|]. rewrite E. set_solver.
    + intros t' Ht' [H1 H2]%not_elem_of_app. rewrite lookup_insert_ne; [by apply Hnone|]. intros Ep. apply Hinj in Ep; [|done]. set_solver.
  - by exists encodes.
Qed.

Lemma run_task_build_same skip t db encodes db' :
  BuildExecution_Execute C make false t (Some file) 0 (Some db) (encodes !! path t) = Some (Some db', encodes !! path t) ->
  run_task (build_call o skip) (Build t) (session_world db encodes) = Some (session_world db' encodes, []).
Proof.
  intros HB. rewrite (run_task_build _ _ _ _ _ _ HB). destruct (encodes !! path t) as [f|] eqn:E; [|done]. by rewrite insert_id.
Qed.

(** The second call stores the data and finds the encodings. *)
Lemma session_store holds skip db0 encodes :
  (forall k, store_Get db0 k = None) -> Forall (fun i => 1 <= i < 20) skip ->
  (forall t saved, holds t saved -> loads (make false t) saved) -> encodings holds (kept_types (0 :: skip)) encodes ->
  exists db adj, main (build_call o skip) (session_world db0 encodes) = Some (session_world db encodes, []) /\
    Graph_LoadDataFromDb C [] db = Some adj /\ lists_of_file C file adj /\ Graph.holds adj (VERTEX_SIZE C + 1) db.
Proof.
  intros Hdb Hskip Hloads Henc. pose proof (vc_V C HC).
  assert (0 ∉ skip) as H0 by (intros Hin; pose proof (proj1 (Forall_forall _ _) Hskip 0 Hin); simpl in *; lia).
  destruct (kept_NoVend skip H0) as [Hkept Hno].
  destruct (build_database_holds C ltac:(lia) make file db0 Hfile Hdb) as (adj & db & EB & EL & Hadj & Hrows). exists db, adj.
  destruct (main_each (build_call o skip) Build skip (session_world db0 encodes)
    (fun pre w reports => reports = [] /\ w = session_world (if bool_decide (pre = []) then db0 else db) encodes))
    as (w & reports & EM & -> & ->); try done.
  - eapply Forall_impl; [exact Hskip|]. intros i. simpl. lia.
  - intros sk. unfold main_tasks. cbn [build_call is_build is_insert is_delete is_random_query is_walk_query is_random_score is_walk_score
      is_full_score is_directed when andb negb]. by rewrite !app_nil_r.
  - intros pre t post w reports E [-> ->]. rewrite (bool_decide_eq_false_2 (pre ++ [t] = [])) by (by destruct pre).
    do 2 eexists. split; [|by split]. apply run_task_build_same. rewrite Hkept in E. destruct pre as [|t0 pre].
    + injection E as <- _. rewrite (bool_decide_eq_true_2 ([] = [])) by done. apply EB.
    + injection E as <- E. rewrite (bool_decide_eq_false_2 (NoVend :: pre = [])) by done.
      destruct (Henc t) as (saved & -> & Hholds); [rewrite E; set_solver|].
      apply (build_again C ltac:(lia) make t (Some file) db adj saved); [|done|by apply Hloads]. intros ->. apply Hno. rewrite E. set_solver.
  - rewrite EM, Hkept. by rewrite bool_decide_eq_false_2.
Qed.

(** The third call answers the queries and leaves everything as it is. *)
Lemma session_query skip db encodes adj pairs :
  Forall (fun i => 1 <= i < 20) skip ->
  encodings (fun t saved => holds_encoding C (make false t) saved file) (kept_types (0 :: skip)) encodes ->
  Graph_LoadDataFromDb C [] db = Some adj -> lists_of_file C file adj ->
  lists !! (pair_path_prefix o ++ "random_query_pair.txt")%string = Some (map pair_line pairs) ->
  Forall (ids_in_graph C) pairs -> Z.of_nat (length pairs) < 2 ^ 31 ->
  exists reports, main (query_call o skip) (session_world db encodes) = Some (session_world db encodes, reports) /\
    Forall2 (fun t r => exists c, r = Queried t c /\ res c = Z.of_nat (length (filter (edge_of file) pairs)) /\
               filtered_ c <= Z.of_nat (length pairs)) (kept_types skip) reports.
Proof.
  intros Hskip Henc EL Hadj Hlist Hpairs Hlen. pose proof (vc_V C HC).
  assert (0 ∉ skip) as H0 by (intros Hin; pose proof (proj1 (Forall_forall _ _) Hskip 0 Hin); simpl in *; lia).
  destruct (kept_NoVend skip H0) as [Hkept Hno].
  destruct (main_each (query_call o skip) RandomQuery skip (session_world db encodes)
    (fun pre w reports => w = session_world db encodes /\
       Forall2 (fun t r => exists c, r = Queried t c /\ res c = Z.of_nat (length (filter (edge_of file) pairs)) /\
               filtered_ c <= Z.of_nat (length pairs)) pre reports)) as (w & reports & EM & -> & Hr); try done.
  - eapply Forall_impl; [exact Hskip|]. intros i. simpl. lia.
  - intros sk. unfold main_tasks. cbn [query_call is_build is_insert is_delete is_random_query is_walk_query is_random_score is_walk_score
      is_full_score is_directed when andb negb app]. by rewrite !app_nil_r.
  - intros pre t post w reports E [-> Hr].
    assert (t = NoVend \/ t <> NoVend /\ t ∈ kept_types (0 :: skip)) as Ht.
    { rewrite Hkept in E. destruct pre as [|t0 pre]; [injection E as <- _; by left|]. injection E as <- E. right.
      split; [|rewrite E; set_solver]. intros ->. apply Hno. rewrite E. set_solver. }
    assert (exists g c, Graph_Init C make false t None 0 (Some db) (encodes !! path t) = Some (g, encodes !! path t) /\
      QueryExecution_Execute C make false t 0 (Some db) (encodes !! path t) pairs = Some c /\
      res c = Z.of_nat (length (filter (edge_of file) pairs)) /\ filtered_ c <= Z.of_nat (length pairs)) as (g & c & EI & EQ & Hres & Hfil).
    { destruct Ht as [-> |[Hne Hin]].
      - destruct (query_run_novend C ltac:(lia) make file db adj (encodes !! path NoVend) pairs Hadj EL Hpairs Hlen) as (c & EQ & Hres & Hf).
        eexists _, c. split; [|split; [exact EQ|split; [exact Hres|lia]]].
        unfold Graph_Init, Graph_open. rewrite Z.eqb_refl. bind_step. rewrite EL. bind_step.
        rewrite (bool_decide_eq_true_2 (NoVend = NoVend)) by done. done.
      - destruct (Henc t Hin) as (saved & -> & Hholds).
        destruct (query_run C ltac:(lia) make t file db adj saved pairs Hne Hadj EL Hholds Hpairs Hlen) as (c & EQ & Hres & _ & _ & Hf & _).
        destruct Hholds as (ops & s & HG & HS & _). eexists _, c. split; [|split; [exact EQ|split; [exact Hres|lia]]].
        unfold Graph_Init, Graph_open. rewrite Z.eqb_refl. bind_step. rewrite EL. bind_step.
        rewrite (bool_decide_eq_false_2 (t = NoVend)), HG by done. bind_step. rewrite HS. bind_step. done. }
    exists (session_world db encodes), [Queried t c]. split; [|split; [done|apply Forall2_app; [done|by repeat econstructor]]].
    cbn [Main.run_task]. unfold run_query, start, open_path.
    cbn [query_call data_path db_path db_type vend_prefix pair_path_prefix session_world w_data w_db w_encodes w_lists].
    rewrite (proj2 (String.eqb_neq _ _) Hdb_path), Hdb_type, EI, Hlist. bind_step. cbn [PairList_Init]. bind_step.
    unfold put_list. cbn [session_world w_data w_db w_encodes w_lists]. rewrite insert_id by done.
    unfold LoadPairList. rewrite LoadPairList_loop_ok, app_nil_l; [by rewrite EQ|].
    eapply Forall_impl; [exact Hpairs|]. intros p [Hu Hv]. unfold pair_ok. lia.
  - exists reports. by split.
Qed.


End session.

(** * Proofs: the tasks that score *)

Definition scoring (t : Task) : Prop :=
  match t with RandomScore _ | WalkScore _ | FullScore _ => True | _ => False end.

Lemma foldM_stuck {A S} (f : A -> S -> option S) l x s : x ∈ l -> (forall s, f x s = None) -> foldM f l s = None.
Proof.
  intros Hin Hx. revert s. induction Hin as [l|x y l Hin IH]; intros s; cbn [foldM]; [by rewrite Hx|].
  destruct (f y s) as [s'|]; [by apply IH|done].
Qed.

Lemma run_task_scoring {T : Type} {St : Store T} heap key unordered std_sort draws db_type_0 vertex1 vertex2 C o t (w : World T) :
  scoring t -> run_task heap key unordered std_sort draws db_type_0 vertex1 vertex2 C o t w = None.
Proof.
  assert (forall C path, score_graphs heap key unordered std_sort db_type_0 C o path w = None) as Hnone.
  { intros C' path. unfold score_graphs. change (zip (seqZ 0 9) score_types) with ((0, SIMDDeltaV3) :: (1, BBloomFilter) :: zip (seqZ 2 7) (drop 2 score_types)).
    cbn [mapM snd fst Z.eqb]. unfold Graph_Init at 2, open_path, Graph_open. cbn [String.eqb].
    destruct (Graph_Init _ _ _ _ _ _ _ _); [|done]. bind_step. by destruct (db_type_0 =? 0). }
  destruct t; intros Ht; try done; cbn [run_task]; unfold run_score; by rewrite Hnone.
Qed.

(** * Properties *)

(** C1: three calls of the program, on an empty database, where every type that
    is not skipped is one that is sound for the graph of the file ([graph_fits]; the
    types HybridDelta, Count, CBloomFilter, SIMDDeltaV3, RangeVbyte, RangeBits and
    the directed ones never are, and have to be skipped): the first builds the
    encodings of the types that are not skipped, the second stores the data file,
    which finds the encodings built, and the third queries the random pairs on file.
    All of them end, the third changes nothing, and it reports for every type that is
    kept, with an encoding and without, the number of pairs that are edges of the
    data file. *)
Theorem main_session {T : Type} {St : Store T} {SL : StoreLaws T} (C : Config) (heap : Z -> Z) (key : Z)
    (unordered : gset Z -> list Z) (std_sort : (Z -> Z) -> list Z -> list Z) (draws : Draws) (vertex1 vertex2 : Z)
    (o : Options) (skip : list Z) (file : list (option (Z * Z))) (pairs : list (Z * Z)) (db0 : T)
    (HC : vend_config C) (Horder : forall s x, x ∈ unordered s <-> x ∈ s) (Hsort : sorts std_sort)
    (HI : InitConfig false (k_size o) (vertex_size o) (degree o) = Some C)
    (Hpaths : db_path o <> EmptyString /\ data_path o <> EmptyString) (Hdb_type : db_type o = 0)
    (Hfile : simple_file C file) (Hdb : forall k, store_Get db0 k = None)
    (Hskip : Forall (fun i => 1 <= i < 20) skip)
    (Hfit : forall t adj, t ∈ kept_types (0 :: skip) -> lists_of_file C file adj -> graph_fits C t adj)
    (Hpairs : Forall (ids_in_graph C) pairs) (Hlen : Z.of_nat (length pairs) < 2 ^ 31) :
  let main := main heap key unordered std_sort draws 0 vertex1 vertex2 in
  exists w1 w2 reports,
    main (build_call o (0 :: skip))
      {| w_db := db0; w_data := {[data_path o := file]}; w_encodes := ∅;
         w_lists := {[(pair_path_prefix o ++ "random_query_pair.txt")%string := map pair_line pairs]} |} = Some (w1, []) /\
    main (build_call o skip) w1 = Some (w2, []) /\
    main (query_call o skip) w2 = Some (w2, reports) /\
    Forall2 (fun t r => exists c, r = Queried t c /\ res c = Z.of_nat (length (filter (edge_of file) pairs)) /\
               filtered_ c <= Z.of_nat (length pairs)) (kept_types skip) reports.
Proof.
  intros main. destruct Hpaths as [Hdb_path Hdata_path].
  set (lists := {[(pair_path_prefix o ++ "random_query_pair.txt")%string := map pair_line pairs]}).
  assert (Forall (fun i => 1 <= i < 20) skip) as Hsk by done. pose proof (vc_V C HC).
  assert (0 ∉ skip) as H0 by (intros Hin; pose proof (proj1 (Forall_forall _ _) Hskip 0 Hin); simpl in *; lia).
  set (make := make_vend C heap key unordered std_sort).
  destruct (session_build C HC heap key unordered std_sort Horder Hsort draws vertex1 vertex2 o HI Hdb_path Hdata_path Hdb_type file Hfile lists
              (fun t saved => holds_encoding C (make false t) saved file) skip db0 Hskip) as (encodes & E1 & Henc).
  { intros t Ht. apply (build_encoding C ltac:(lia) make t file db0); [|done..|].
    - intros ->. by apply (proj2 (kept_NoVend skip H0)).
    - intros adj Hadj. apply make_vend_laws; [done..|by apply (source_of_file C ltac:(lia) file)|by apply Hfit]. }
  destruct (session_store C HC heap key unordered std_sort Horder Hsort draws vertex1 vertex2 o HI Hdb_path Hdata_path Hdb_type file Hfile lists
              (fun t saved => holds_encoding C (make false t) saved file) skip db0 encodes Hdb Hskip) as (db & adj & E2 & EL & Hadj & _).
  { intros t saved. apply holds_encoding_loads. }
  { done. }
  destruct (session_query C HC heap key unordered std_sort Horder Hsort draws vertex1 vertex2 o HI Hdb_path Hdata_path Hdb_type file Hfile
              lists skip db encodes adj pairs Hskip Henc EL Hadj) as (reports & E3 & Hr);
    [apply lookup_singleton_eq|done|done|].
  by exists (session_world o file lists db0 encodes), (session_world o file lists db encodes), reports.
Qed.


(** The calls that score the encodings never end well, on any state: all but
    the first of their graphs are made without a database. *)
Theorem main_scores_null {T : Type} {St : Store T} (heap : Z -> Z) (key : Z) (unordered : gset Z -> list Z)
    (std_sort : (Z -> Z) -> list Z -> list Z) (draws : Draws) (db_type_0 vertex1 vertex2 : Z) (o : Options) (w : World T)
    (Hscore : is_random_score o || is_walk_score o || is_full_score o = true) :
  main heap key unordered std_sort draws db_type_0 vertex1 vertex2 o w = None.
Proof.
  unfold main. destruct (InitConfig _ _ _ _) as [C|]; [bind_step|done]. destruct (skip_vector (is_skip o)) as [sk|]; [bind_step|done].
  assert (exists t, t ∈ main_tasks o sk /\ scoring t) as (t & Hin & Ht).
  { unfold main_tasks. set (h := is_walk_query o && negb (is_directed o) && test_hsimd o).
    destruct (is_random_score o), (is_walk_score o), (is_full_score o); try done; cbn [when];
      first [exists (RandomScore h); split; [set_solver|done] | exists (WalkScore h); split; [set_solver|done] | exists (FullScore h); split; [set_solver|done]]. }
  eapply foldM_stuck; [exact Hin|]. intros [w' reports]. by rewrite run_task_scoring.
Qed.

(** * Witnesses *)

Definition demo_options : Options := {|
  data_path := "as/data.txt"; db_path := "as/db"; vend_prefix := "as/encode/"; pair_path_prefix := "as/"; db_type := 0;
  k_size := 3; vertex_size := 20; degree := 76; test_hsimd := false; is_skip := []; is_build := false; is_insert := false;
  is_delete := false; is_walk_query := false; is_random_query := false; is_full_score := false; is_random_score := true;
  is_walk_score := false; is_directed := false |}.

Definition demo_draws : Draws := {|
  insert_draws := []; delete_draws := []; random_draws := []; walk_draws := []; full_draws := []; score_draws := ([], []);
  rand := fun _ => 0; shuffled := []; rounds := 0 |}.

Definition demo_skip : list Z := [1; 3; 5; 9; 10; 14; 15; 16; 17; 18; 19].
Definition demo_pairs : list (Z * Z) := [(1, 7); (2, 4); (20, 1); (7, 6)].

Lemma main_session_witness :
  let main := main (T := gmap (list Z) (list Z)) (fun _ => 0) 0 elements sort_by demo_draws 0 0 0 in
  exists w1 w2 reports,
    main (build_call demo_options (0 :: demo_skip))
      {| w_db := ∅; w_data := {["as/data.txt"%string := half_file 7]}; w_encodes := ∅;
         w_lists := {["as/random_query_pair.txt"%string := map pair_line demo_pairs]} |} = Some (w1, []) /\
    main (build_call demo_options demo_skip) w1 = Some (w2, []) /\
    main (query_call demo_options demo_skip) w2 = Some (w2, reports) /\
    Forall2 (fun t r => exists c, r = Queried t c /\ res c = 2 /\ filtered_ c <= 4)
      [NoVend; BBloomFilter; HashBit; BloomFilterBit; Range; Bloom; SIMDDelta; SIMDDeltaV1; SIMDDeltaV2] reports.
Proof.
  assert (simple_file small_config (half_file 7)) as Hfile by (apply simple_check_ok; vm_compute; reflexivity).
  apply (main_session small_config (fun _ => 0) 0 elements sort_by demo_draws 0 0 demo_options demo_skip (half_file 7) demo_pairs ∅).
  - apply small_vend_config.
  - intros s x. apply elem_of_elements.
  - apply sort_by_sorts.
  - vm_compute. reflexivity.
  - by split.
  - done.
  - exact Hfile.
  - intros k. apply lookup_empty.
  - apply (bool_decide_unpack _). vm_compute. exact I.
  - intros t adj Hin. revert adj. change (kept_types (0 :: demo_skip)) with
      [BBloomFilter; HashBit; BloomFilterBit; Range; Bloom; SIMDDelta; SIMDDeltaV1; SIMDDeltaV2] in Hin.
    destruct (Graph_LoadData small_config false (half_file 7) [] []) as [[adj0 in_adj]|] eqn:E; [|vm_compute in E; discriminate E].
    apply (file_fits small_config (half_file 7) t adj0); [vm_compute; split; [discriminate|reflexivity]|done| |].
    + rewrite E. vm_compute in E. by injection E as <- <-.
    + assert (exists D, K_SIZE small_config - 1 < D < 2 ^ 31 /\ no_gap small_config adj0 D) as Hgap.
      { vm_compute in E. injection E as <- <-. exists 6. split; [vm_compute; split; reflexivity|].
        apply no_gap_check_ok. vm_compute. reflexivity. }
      clear E. repeat (apply elem_of_cons in Hin as [-> |Hin]; [cbn [graph_fits]; first [exact Hgap|exact I]|]).
      by apply elem_of_nil in Hin.
  - apply (bool_decide_unpack _). vm_compute. exact I.
  - reflexivity.
Defined.



Lemma main_scores_null_witness :
  main (T := gmap (list Z) (list Z)) (fun _ => 0) 0 elements sort_by demo_draws 0 0 0 demo_options
    {| w_db := ∅; w_data := ∅; w_encodes := ∅; w_lists := ∅ |} = None.
Proof. apply main_scores_null. reflexivity. Defined.

(** * Behaviours worth knowing *)

(** What the program answers for one type and one data file. *)
Definition session (o1 o2 : Options) : option (list Report) :=
  let main := main (T := gmap (list Z) (list Z)) (fun _ => 0) 0 elements sort_by demo_draws 0 0 0 in
  '(w, _) ← main o1 {| w_db := ∅; w_data := {["as/data.txt"%string := demo_file]}; w_encodes := ∅;
                       w_lists := {["as/random_query_pair.txt"%string := map pair_line demo_pairs]} |};
  '(w, _) ← main o2 w;
  '(_, reports) ← main (query_call demo_options (is_skip o2)) w;
  Some reports.

Definition only (i : Z) : list Z := filter (fun j => j <> i) (seqZ 0 20).

(** The encoding first and the data second, as in [main_session]. *)
Example session_order :
  session (build_call demo_options (only 13)) (build_call demo_options (filter (fun j => j <> 0) (only 13))) =
    Some [Queried NoVend {| filtered_ := 0; res := 1; true_false := 0; f_items := 0 |};
          Queried SIMDDeltaV2 {| filtered_ := 4; res := 1; true_false := 3; f_items := 0 |}].
Proof. vm_compute. reflexivity. Qed.

(** Both in one call, as without any skipping: the data are stored first, and the
    encoding is built of lists that hold every neighbor twice ([Init_loads_twice]);
    here the answers are the same. *)
Example session_one_call :
  session (build_call demo_options (filter (fun j => j <> 0) (only 13))) (build_call demo_options (filter (fun j => j <> 0) (only 13))) =
    Some [Queried NoVend {| filtered_ := 0; res := 1; true_false := 0; f_items := 0 |};
          Queried SIMDDeltaV2 {| filtered_ := 4; res := 1; true_false := 3; f_items := 0 |}].
Proof. vm_compute. reflexivity. Qed.

(** The type that calls a method of a null pointer, and an index that is out of
    range. *)
Example main_HybridDelta : session (build_call demo_options (only 10)) (build_call demo_options (only 10)) = None.
Proof. vm_compute. reflexivity. Qed.

Example skip_out_of_range : skip_vector [3; 20] = None.
Proof. reflexivity. Qed.
